(* ===== verification/_CoqProject ===== *)
-Q . S2P
Prelude.v
Layout.v
Bits.v
Memory.v
Machine.v
Asm.v
GuestHart.v
Sbi.v
Lock.v
BarrierRounds.v
LockTest.v
Kmem.v
Cpu.v
Linkerscript.v
Vmem.v
PageTable.v
VmemSpec.v
Sv39.v
Plic.v
Vcpu.v
Vplic.v
Trap.v
VmRun.v
VmemProg.v
VmRunSpec.v
Regions.v
KernelSpace.v
VplicSpec.v
VmConfig.v
Concrete.v
KmemConc.v
VmemConc.v
VmemMerge.v
KernelTheorems.v
Sboot.v
SbootTheorems.v
CpuConfig.v
MemTheorems.v
VmRunTheorems.v
VmemConcTheorems.v
VplicTheorems.v
TrapTheorems.v
TrapEntry.v
TrapEntryTheorems.v
TrapShared.v
Uart.v
RegFields.v
Printf.v
PrintfSpec.v
PrintfTheorems.v
Keygrab.v
KeygrabTheorems.v
KeygrabAsm.v
Printer.v
Pci.v
Main.v
System.v
Deployment.v
SystemInv.v
SystemSteps.v
SystemTheorems.v
SystemFine.v
SystemFineInv.v
SystemFineTheorems.v
SystemBarriers.v
