(* ===== verification/Prelude.v ===== *)
(** * A verification library for the RISC-V hypervisor

    The program under src/src is a small hypervisor for a two-hart RISC-V machine
    with the H extension.  The firmware starts one hart in core/sboot.S, which
    builds a bootstrap page table, wakes the other harts through the SBI and enters
    the kernel's address space.  main (core/main.c) initialises the page allocator,
    the serial port and the PCI bus and, on each hart, the kernel page table; then
    every hart enters vm_run (core/vm_run.c), which binds it to the virtual machine
    whose affinity mask contains it, builds the guest's second-stage page table,
    sets up the hypervisor CSRs and switches to the guest (core/trap.S).  From then
    on the hypervisor only runs in traps: core/trap.S saves the guest's registers,
    core/trap.c handles device interrupts and guest page faults on the PLIC's
    addresses, which virtual/vplic.c emulates on the physical PLIC.  Memory comes
    from one allocator (mem/kmem.c), page tables from one walker (mem/vmem.c), and
    output goes through printf (lib/printf.c) to the UART.

    ** How the code is modelled

    A C function that touches state is a command ([cmd], below): from a state it
    returns a value and a state, or panics, faults on unbacked memory, or hangs.
    Panics carry the message without its formatted arguments.  Integers are [Z] with the C
    conversions written out ([u32], [s32], ...).  The state [world] (Machine.v) has
    the RAM as bytes, the global variables, the CSRs of each hart and the PLIC,
    whose behaviour is a parameter (class [PlicDevice]; laws [PlicLaws] where the
    values read matter); the linker's symbols are class [Linker] and the facts the linker script ensures
    [LinkerOk] and [ImageOk], proved of the script in Linkerscript.v.  Assembly is
    translated instruction by instruction to commands on a [hart] (Asm.v): the
    register file and the state behind the memory bus.  A loop is a [Fixpoint]: structural where the C loop counts, else
    with fuel that is enough by the theorems (a run out of fuel is [Hang] or [None],
    and every theorem that says a function returns excludes it).

    ** Files

    - Prelude: machine integers, bit lemmas, the command monad and its automation.
    - Layout: include/dtb.h, memory.h, riscv.h (the constants and macros in use).
    - Bits: lib/bits.c.  Memory: bytes and 64-bit words of RAM.
    - Machine: the records of the headers, [world], CSR accessors, kernel
      pointers, memset (lib/string.c), the spinlock as one hart sees it.
    - Asm: registers and instructions.  GuestHart: the hart a guest's assembly runs
      on, with its CSRs, interrupts and calls of C functions.  Sbi: lib/sbi.c and a decoder of firmware
      calls written from the SBI specification.
    - Lock: lib/spinlock.S and lib/lock.c as interleaved steps (modules [Spinlock]
      and [Barrier]); a schedule is a list of harts.
    - BarrierRounds: a barrier that is used again, as main does.
    - LockTest: test/lock_test.c (modules [SpinlockTest] and [BarrierTest]) with
      everything the tests print.
    - Kmem: mem/kmem.c, with the invariant [kmem_inv] that ties the list in memory
      to the list of free pages.
    - Cpu: driver/cpu.c.  Linkerscript: helper/linkerscript.c and
      helper/structs_in_asm.c.  Vmem: the operations of mem/vmem.c.
    - PageTable, VmemSpec: what a tree in memory maps ([pt_look]), the invariant of
      all tables, free pages and data pages ([mem_inv]) and the effect of walk,
      map_page and map_pages on it ([pt_step]).
    - Sv39: the MMU ([hw_translate]), written from the privileged specification:
      Sv39, and Sv39x4 for the second stage, where addresses of more than 41 bits
      fault.
    - Plic: driver/plic.c; every access is a [plic_op], so that effects on the
      device are lists of accesses.
    - Vcpu: virtual/vcpu.c.  Vplic: virtual/vplic.c.  Trap: core/trap.c.
    - VmRun: core/vm_run.c up to vm_enter; the two barrier waits are parameters.
    - VmemProg: the functions that build page tables once more, as programs of single
      accesses ([prog]), which run as the functions do.
    - VmRunSpec: well-formed configurations ([vm_ok]) and the address space one
      describes ([guest_translation]).
    - Regions, KernelSpace: address spaces as lists of ranges ([address_map]), and
      the one init_vmem builds ([kernel_regions]).
    - VplicSpec: the abstract virtual PLIC: [decode] of an offset, the value of a
      read ([vplic_read]) and the device accesses of a write ([vplic_write_ops]).
    - VmConfig: guest/vm_config.c.  Concrete: a concrete linker layout, PLIC and
      worlds in which the hypotheses of the theorems are shown to hold.
    - KmemConc: kmalloc and kfree of many harts, access by access ([km_step]).
    - VmemConc, VmemConcTheorems: programs of VmemProg on many harts, which take turns
      between any two accesses to memory or to the allocator's lock ([vstep]).
      VmemMerge: harts that begin and end such a program while others are in theirs.
    - KernelTheorems, CpuConfig, MemTheorems, VmRunTheorems, VplicTheorems,
      TrapTheorems: the theorems on the parts above.
    - Sboot, SbootTheorems: core/sboot.S.  TrapEntry, TrapEntryTheorems: core/trap.S
      around the handlers of core/trap.c.  TrapShared: traps while other harts use
      the PLIC ([contended]); nothing is assumed of the device there.
    - Uart: driver/uart.c (the ns16550a is class [UartDevice], laws [UartLaws]).
    - RegFields: the other constants of include/riscv.h, and the fields of all
      registers.
    - Printf: lib/printf.c.  PrintfSpec: number notations and what the print
      routines emit.  PrintfTheorems: the format language and the theorems.
    - Keygrab, KeygrabTheorems: the drivers and the interrupt handler of the
      demonstration guest (guest/keygrab) on the platform a VM gives them.
      KeygrabAsm: its core/main.S, instruction by instruction.
    - Printer: guest/printer/core/main.S.
    - Pci: driver/pci.c.  Main: core/main.c.
    - System: the harts together as a transition system ([sys_step]).  Deployment:
      what is assumed of the configuration.  SystemInv, SystemSteps,
      SystemTheorems: the invariant of the system, that every step keeps it, and
      what follows for every reachable state.
    - SystemFine, SystemFineInv, SystemFineTheorems: the same machine with page tables
      built one access at a time ([fine_step]), and the theorems of SystemTheorems for
      it.  SystemBarriers: that machine with wait_barrier, access by access, in place
      of ideal barriers ([gstep]).

    ** The system

    A state of [sys_step] is the machine, the registers of each hart and the place
    each hart has reached.  A step is one hart running the next part of main (the
    code between two barriers), entering its guest, running guest code or handling
    one trap; or the PLIC changing by itself.  Guest code is anything: it may change
    its registers, the CSRs the H extension gives it and every byte its second-stage
    table lets it write.  When it traps, the hardware may report any cause, address
    and instruction bits.  A barrier is passed when all its harts have come as far.  A
    part of main and a trap are one step each.  For traps this loses nothing: two harts meet in them only in
    the PLIC, and the theorems hold for every device, so also for one that other
    harts use between any two accesses (TrapShared).  The parts of main meet in the
    allocator, and only while page tables are built.  There SystemFine goes access by
    access: a hart that has to build a table takes up the program of init_vmem or
    init_hs_pgtable, executes one load, store or access to the allocator's lock at a
    time, and then runs the rest of its part ([build_parts]: all that at one stroke is
    the part), while other harts build theirs, run parts of main or guest code or
    handle traps in between.  Its invariant relates the machine to one on which the
    tables in the making have not been begun, by what VmemConcTheorems shows: each
    hart ends with the tree it would have built alone.  SystemBarriers has the harts of
    that machine execute wait_barrier itself, access by access, between the parts, and
    shows that it implements the ideal barriers: whatever holds of every state
    SystemFine reaches holds with the barriers of the code.

    [DeploymentOk] is what the theorems assume of a configuration: it passes the
    check of vm_run.c, its VMs, which may have one hart or several, are well formed
    and apart, and there is enough memory; the configuration of the repository and
    one with a single VM on both harts are instances.

    ** What the theorems show

    - System (SystemFineTheorems, and SystemTheorems for parts that are one step):
      from power-on and for ever, the guests of two VMs share no byte; nothing
      another hart does changes what a hart has, nor, if it is of another VM, the
      memory its guest sees; translations stay, no guest reaches the hypervisor's
      code, data, stacks or root tables, and memory that no guest may write keeps its
      value, the hypervisor's variables and stacks excepted; the hypervisor never
      faults or hangs.  With ideal barriers every reachable state can go on until
      every guest is started ([fine_boot_completes]).  The barriers of lib/lock.c
      implement the ideal ones: they keep the harts in step, there is a run in which
      they let the boot through, and nothing but a call of wait_barrier can hold it
      up (SystemBarriers); wait_barrier itself can deadlock (Lock).
    - Traps: every trap is handled or panics, whatever other harts do to the PLIC
      meanwhile (TrapShared); when they do nothing, trapped loads and stores,
      interrupts and ecalls (TrapEntryTheorems), from the trap vector back to the guest, have
      the effect of the abstract virtual PLIC and preserve every other register.
    - Address spaces: the second-stage tables realise the configuration exactly
      (VmRunTheorems); the kernel's tables are the listed ranges, W^X, and agree
      with the kernel's pointers (KernelTheorems); map_page changes the translation
      of its page only, convert_va_to_pa agrees with the MMU (MemTheorems).  Harts
      that build tables at the same time do not disturb each other, do not deadlock,
      and all finish (VmemConcTheorems).
    - Emulation: through the emulated PLIC a VM neither writes nor observes
      anything but its own interrupts and its hart's context, and an interrupt goes
      from the device through the guest and back (VplicTheorems); the demonstration
      guest works on it, from its first instruction through any run of interrupts
      (KeygrabTheorems, KeygrabAsm).
    - Boot: the linker's layout (Linkerscript), the bootstrap table, the wake-up of
      the harts, the jump to the kernel and the move of the stack (SbootTheorems),
      the firmware calls (Sbi), the CPU configuration check (CpuConfig), and the
      state in which a guest is entered (VmRunTheorems).
    - Allocation: the free list is a list of distinct valid pages; allocation
      and release are exact (MemTheorems), also when many harts call them at the
      same time (KmemConc).
    - Locks: mutual exclusion and progress of the spinlock, safety of the barrier
      in every interleaving, and schedules that deadlock it (Lock, BarrierRounds);
      the lock tests end, and what they print is what they announce (LockTest).
    - Registers: the masks of include/riscv.h, HSTATUS_GVA excepted, which is
      misplaced, are the bits of their fields, and a field is set, cleared and read by
      its mask alone (RegFields).
    - The printer guest prints once per timer interrupt and returns to its idle loop
      (Printer).
    - Output: printf prints what its format language means; the digits read back
      give the numbers (PrintfTheorems).
    - Errors: what the code does when memory is exhausted, pages are unmapped, an
      interrupt nests, x0 is the register of a trapped access, or a format is
      malformed, each as a theorem.

    ** Bounds and fuel

    The loop of init_kmem gets one turn per page of RAM and one more; map_pages
    PGROUNDUP(size) / PAGE_SIZE + 1 turns; count_set_bits 33; print_uint 65, one
    more than its buffer; printf and its string loop one turn per byte of memory
    and one more; uartputc the polls the device may need; the wake-up loop of
    sboot.S one turn per hart and one more.  Page tables have three levels.  The
    theorems assume addresses below 2^56 (the width of a physical address) and
    virtual ranges that do not wrap.

    ** What is not modelled

    Memory is sequentially consistent and the TLB is not modelled, nor are the
    accessed and dirty bits the MMU may set in a table.  Devices do not write memory:
    a disk that the configuration passes to a guest could be told to, and the machine
    has no IOMMU.  The global variables and the stacks of the C code are fields of
    [world] and not bytes of its RAM; the theorems say nothing of the bytes they
    occupy but that no guest reaches them.  Of the firmware only the behaviour of
    hart_start is assumed ([FirmwareLaws]).  In the files of one
    component one hart runs and a held lock is never released; the other harts run
    in Lock, KmemConc and VmemConc and in the files on the system.  There the parts of
    main that build no table (the work of hart 0 before the first barrier, init_hart,
    the switch of cpu_mapped, the CPU check, init_hs and init_vs) are one step each:
    what a hart touches in them no other hart uses at the time.  Messages that panic
    prints are not sent to the UART.  Not modelled: test/exception_tests.S, single
    instructions whose outcome is the processor's; the macros HLV and HSV, which no
    code uses; the prototypes of the headers. *)

From stdpp Require Export base tactics numbers list gmap strings option
  fin_maps sets finite.
From coqutil Require Export Byte Word.LittleEndianList.
From Stdlib Require Export ZArith Lia.

#[export] Set Default Goal Selector "1".
Open Scope Z_scope.

(** ** Machine integers

    A [w]-bit unsigned C integer is a [Z] in [0 .. 2^w - 1]; the functions below
    are the conversions (and the reductions after each operation) that the C
    integer types of include/types.h perform. *)

Definition u8 (x : Z) : Z := x mod 2 ^ 8.
Definition u16 (x : Z) : Z := x mod 2 ^ 16.
Definition u32 (x : Z) : Z := x mod 2 ^ 32.
Definition u64 (x : Z) : Z := x mod 2 ^ 64.

(** Conversion to a [w]-bit signed integer, two's complement (gcc). *)
Definition sgn (w x : Z) : Z := (x + 2 ^ (w - 1)) mod 2 ^ w - 2 ^ (w - 1).
Definition s8 : Z → Z := sgn 8.
Definition s16 : Z → Z := sgn 16.
Definition s32 : Z → Z := sgn 32.
Definition s64 : Z → Z := sgn 64.

(** C truth: a value is true when it is not zero. *)
Definition truthy (x : Z) : bool := negb (x =? 0).

Declare Scope c_scope.
Delimit Scope c_scope with c.
Notation "x .& y" := (Z.land x y) (at level 53, left associativity) : c_scope.
Notation "x .| y" := (Z.lor x y) (at level 54, left associativity) : c_scope.
Notation "x .<< y" := (Z.shiftl x y) (at level 52, left associativity) : c_scope.
Notation "x .>> y" := (Z.shiftr x y) (at level 52, left associativity) : c_scope.
Notation "~64 x" := (u64 (Z.lnot x)) (at level 35, right associativity) : c_scope.
Notation "~32 x" := (u32 (Z.lnot x)) (at level 35, right associativity) : c_scope.
Open Scope c_scope.

(** [lia] with quotients and remainders by constants. *)
Ltac dlia_guards :=
  repeat match goal with
  | H : (_ ≠ 0) → _ |- _ => specialize (H ltac:(lia))
  | H : (0 < _) → _ |- _ => specialize (H ltac:(lia))
  | H : (?d < 0) → _ |- _ => assert (¬ (d < 0)) as _ by lia; clear H
  | H : (?d = 0) → _ |- _ => assert (d ≠ 0) as _ by lia; clear H
  end.
Ltac dlia := Z.to_euclidean_division_equations; dlia_guards; lia.

Lemma u64_range x : 0 <= u64 x < 2 ^ 64.
Proof. unfold u64. dlia. Qed.
Lemma u32_range x : 0 <= u32 x < 2 ^ 32.
Proof. unfold u32. dlia. Qed.
Lemma u64_id x : 0 <= x < 2 ^ 64 → u64 x = x.
Proof. apply Z.mod_small. Qed.
Lemma u32_id x : 0 <= x < 2 ^ 32 → u32 x = x.
Proof. apply Z.mod_small. Qed.
Lemma u8_id x : 0 <= x < 2 ^ 8 → u8 x = x.
Proof. apply Z.mod_small. Qed.
Lemma u64_u64 x : u64 (u64 x) = u64 x.
Proof. apply u64_id, u64_range. Qed.
Lemma s32_id x : - 2 ^ 31 <= x < 2 ^ 31 → s32 x = x.
Proof. intros. unfold s32, sgn. simpl. rewrite Z.mod_small; lia. Qed.
Lemma s32_range x : - 2 ^ 31 <= s32 x < 2 ^ 31.
Proof. unfold s32, sgn. simpl. dlia. Qed.

Lemma truthy_true x : truthy x = true ↔ x ≠ 0.
Proof. unfold truthy. destruct (Z.eqb_spec x 0); naive_solver. Qed.
Lemma truthy_false x : truthy x = false ↔ x = 0.
Proof. unfold truthy. destruct (Z.eqb_spec x 0); naive_solver. Qed.

(** [b2p]: turn boolean tests in the context into propositions. *)
Ltac b2p := repeat match goal with
  | H : (_ && _) = true |- _ => apply andb_true_iff in H as [? ?]
  | H : (_ || _) = false |- _ => apply orb_false_iff in H as [? ?]
  | H : negb _ = true |- _ => apply negb_true_iff in H
  | H : negb _ = false |- _ => apply negb_false_iff in H
  | H : (_ <=? _) = true |- _ => apply Z.leb_le in H
  | H : (_ <=? _) = false |- _ => apply Z.leb_gt in H
  | H : (_ <? _) = true |- _ => apply Z.ltb_lt in H
  | H : (_ <? _) = false |- _ => apply Z.ltb_ge in H
  | H : (_ =? _) = true |- _ => apply Z.eqb_eq in H
  | H : (_ =? _) = false |- _ => apply Z.eqb_neq in H
  end.

(** The characters of a C string, without its terminator. *)
Definition chars (t : string) : list Z :=
  (λ a, Z.of_N (Ascii.N_of_ascii a)) <$> String.list_ascii_of_string t.
Arguments chars t%_string.

(** ** Bit-field lemmas *)

Lemma land_ones_mod x n : 0 <= n → x .& Z.ones n = x mod 2 ^ n.
Proof. apply Z.land_ones. Qed.

(** The low [k] bits of a shifted value are clear, the high bits of a small one
    are too. *)
Lemma land_shiftl_small a b k : 0 <= k → 0 <= b < 2 ^ k → (a .<< k) .& b = 0.
Proof.
  intros Hk Hb. apply Z.bits_inj'. intros n Hn. rewrite Z.land_spec, Z.bits_0.
  destruct (decide (n < k)); [by rewrite Z.shiftl_spec_low|].
  rewrite <- (Z.mod_small b (2 ^ k)), Z.mod_pow2_bits_high by lia.
  apply andb_false_r.
Qed.

(** OR-ing a field below bit [k] into a value whose low [k] bits are clear is
    addition. *)
Lemma lor_shiftl_add a b k : 0 <= k → 0 <= b < 2 ^ k → (a .<< k) .| b = a * 2 ^ k + b.
Proof.
  intros Hk Hb. pose proof (land_shiftl_small a b k Hk Hb) as H.
  rewrite <- Z.lxor_lor, <- Z.add_nocarry_lxor by done.
  by rewrite Z.shiftl_mul_pow2.
Qed.

Lemma lor_mul_add a b k : 0 <= k → 0 <= b < 2 ^ k → (a * 2 ^ k) .| b = a * 2 ^ k + b.
Proof. intros. rewrite <- Z.shiftl_mul_pow2 by lia. rewrite lor_shiftl_add; [|lia..].
  by rewrite Z.shiftl_mul_pow2. Qed.

Lemma lor_range a b n : 0 <= n → 0 <= a < 2 ^ n → 0 <= b < 2 ^ n → 0 <= a .| b < 2 ^ n.
Proof.
  intros Hn Ha Hb. split; [apply Z.lor_nonneg; lia|].
  destruct (decide (a = 0)) as [->|]; [rewrite Z.lor_0_l; lia|].
  destruct (decide (b = 0)) as [->|]; [rewrite Z.lor_0_r; lia|].
  assert (0 <= a .| b) by (apply Z.lor_nonneg; lia).
  assert (a .| b ≠ 0) by (intros E; apply Z.lor_eq_0_iff in E; lia).
  apply Z.log2_lt_pow2; [lia|]. rewrite Z.log2_lor by lia.
  apply Z.max_lub_lt; apply Z.log2_lt_pow2; lia.
Qed.

(** ** Commands: state, panics, faults and endless loops

    A C function that reads or writes global state is a command: from a state it
    - returns a value and the next state ([Ok]),
    - calls panic(), which prints and then spins for ever ([Panic]; include/stdio.h),
    - touches an address that is not backed by memory ([Fault]), or
    - spins in a loop that nothing can end ([Hang]). *)

Inductive outcome (S A : Type) : Type :=
| Ok (a : A) (s : S)
| Panic (msg : string) (s : S)
| Fault (addr : Z) (s : S)
| Hang (s : S).
Arguments Ok {S A} a s.
Arguments Panic {S A} msg s.
Arguments Fault {S A} addr s.
Arguments Hang {S A} s.

Definition cmd (S A : Type) : Type := S → outcome S A.

#[export] Instance cmd_ret S : MRet (cmd S) := λ A a s, Ok a s.
#[export] Instance cmd_bind S : MBind (cmd S) := λ A B k m s,
  match m s with
  | Ok a s' => k a s'
  | Panic msg s' => Panic msg s'
  | Fault p s' => Fault p s'
  | Hang s' => Hang s'
  end.

Definition panic {S A} (msg : string) : cmd S A := λ s, Panic msg s.
Definition fault {S A} (addr : Z) : cmd S A := λ s, Fault addr s.
Definition hang {S A} : cmd S A := λ s, Hang s.
Definition gets {S A} (f : S → A) : cmd S A := λ s, Ok (f s) s.
Definition modify {S} (f : S → S) : cmd S unit := λ s, Ok tt (f s).

(** [if (c) m] and a command run for every element of a list, in order. *)
Definition whenM {S} (c : bool) (m : cmd S unit) : cmd S unit :=
  if c then m else mret tt.
Fixpoint forM {S A} (l : list A) (f : A → cmd S unit) : cmd S unit :=
  match l with
  | [] => mret tt
  | x :: l' => f x ;; forM l' f
  end.

Lemma mret_run {S A} (a : A) (s : S) : (mret a : cmd S A) s = Ok a s.
Proof. done. Qed.
Lemma gets_run {S A} (f : S → A) (s : S) : gets f s = Ok (f s) s.
Proof. done. Qed.
Lemma modify_run {S} (f : S → S) (s : S) : modify f s = Ok tt (f s).
Proof. done. Qed.

(** Running a sequence whose first part is known to return. *)
Lemma bind_ok {S A B} (m : cmd S A) (k : A → cmd S B) s a s' :
  m s = Ok a s' → (m ≫= k) s = k a s'.
Proof. intros H. unfold mbind, cmd_bind. by rewrite H. Qed.
Lemma bind_panic {S A B} (m : cmd S A) (k : A → cmd S B) s msg s' :
  m s = Panic msg s' → (m ≫= k) s = Panic msg s'.
Proof. intros H. unfold mbind, cmd_bind. by rewrite H. Qed.
Lemma bind_fault {S A B} (m : cmd S A) (k : A → cmd S B) s p s' :
  m s = Fault p s' → (m ≫= k) s = Fault p s'.
Proof. intros H. unfold mbind, cmd_bind. by rewrite H. Qed.

(** A sequence that returned went through its first part. *)
Lemma bind_ok_inv {S A B} (m : cmd S A) (k : A → cmd S B) s b s'' :
  (m ≫= k) s = Ok b s'' → ∃ a s', m s = Ok a s' ∧ k a s' = Ok b s''.
Proof. unfold mbind, cmd_bind. destruct (m s); naive_solver. Qed.

Lemma bind_mret {S A B} (a : A) (k : A → cmd S B) s : ((mret a : cmd S A) ≫= k) s = k a s.
Proof. done. Qed.
Lemma bind_gets {S A B} (f : S → A) (k : A → cmd S B) s : (gets f ≫= k) s = k (f s) s.
Proof. done. Qed.
Lemma bind_modify {S B} (f : S → S) (k : unit → cmd S B) s : (modify f ≫= k) s = k tt (f s).
Proof. done. Qed.
Lemma bind_bind {S A B C} (m : cmd S A) (k : A → cmd S B) (k' : B → cmd S C) s :
  ((m ≫= k) ≫= k') s = (m ≫= λ a, k a ≫= k') s.
Proof. unfold mbind, cmd_bind. by destruct (m s). Qed.
Lemma bind_panic_run {S A B} msg (k : A → cmd S B) s : (panic msg ≫= k) s = Panic msg s.
Proof. done. Qed.
Lemma panic_run {S A} msg (s : S) : (panic msg : cmd S A) s = Panic msg s.
Proof. done. Qed.

Create Rewrite HintDb cmd.
#[export] Hint Rewrite @mret_run @gets_run @modify_run @bind_mret @bind_gets
  @bind_modify @bind_bind @bind_panic_run @panic_run : cmd.

(** [csimp]: run the commands that only read or set a field. *)
Ltac csimp := repeat (progress autorewrite with cmd; cbn beta iota).
(** [cinv H]: split a sequence that returned into its parts. *)
Ltac cinv H :=
  let a := fresh "a" in let s := fresh "s" in
  let H1 := fresh "Hrun" in
  apply bind_ok_inv in H as (a & s & H1 & H).
