(* ===== verification/Layout.v ===== *)
(** * Layout: address map, page-table entry layout and register constants

    The constants and macros of include/dtb.h, include/memory.h and
    include/riscv.h that the C code uses, each macro as a function on 64-bit
    values with the wrap-around of [uint64] arithmetic, and the arithmetic facts
    the other files rely on. *)

From S2P Require Import Prelude.

(** ** include/dtb.h *)

Definition DTB_FLASH := 0x20000000.
Definition DTB_PLATFORM_BUS := 0x4000000.
Definition FIRMWARE_SIZE := 0x00100000.
Definition DTB_MEMORY := 0x80000000.
Definition DTB_MEMORY_SIZE := 0x10000000.
Definition DTB_MEMORY_END := DTB_MEMORY + DTB_MEMORY_SIZE.
Definition DTB_NR_CPUS := 2.
Definition DTB_RTC := 0x101000.
Definition DTB_SERIAL := 0x10000000.
Definition DTB_VIRTIO0 := 0x10001000.
Definition DTB_VIRTIO_SIZE := 0x1000.
Definition DTB_PCI := 0x30000000.
Definition DTB_PCI_SIZE := 0x10000000.
Definition DTB_PCI_IO := 0x3000000.
Definition DTB_PLIC := 0xc000000.
Definition DTB_PLIC_SIZE := 0x600000.
Definition DTB_CLINT := 0x2000000.
Definition DTB_CLINT_SIZE := 0x10000.

(** ** include/memory.h *)

Definition PAGE_SHIFT := 12.
Definition PAGE_SIZE := 4096.
Definition VAS_KERNEL := 0xffffffc000000000.
Definition VAS_CPU_STRUCT := 0xffffffc040000000.
Definition VAS_RAM := 0xffffffe000000000.

Definition KPA2PA (kpa : Z) : Z := u64 ((kpa .& ~64 VAS_RAM) + DTB_MEMORY).
Definition PA2KPA (pa : Z) : Z := u64 (pa - DTB_MEMORY) .| VAS_RAM.
Definition KVA2PA (kva : Z) : Z := u64 (kva - VAS_KERNEL + DTB_MEMORY).
Definition PA2KVA (pa : Z) : Z := u64 (pa - DTB_MEMORY + VAS_KERNEL).
Definition KVA2KPA (kva : Z) : Z := u64 (kva - VAS_KERNEL + VAS_RAM).
Definition KPA2KVA (kpa : Z) : Z := u64 (kpa - VAS_RAM + VAS_KERNEL).

Definition PGROUNDUP (a : Z) : Z := u64 (a + PAGE_SIZE - 1) .& ~64 (PAGE_SIZE - 1).
Definition PGROUNDDOWN (a : Z) : Z := a .& ~64 (PAGE_SIZE - 1).

Definition PTE_SIZE := 8.
Definition LEVELS := 3.
Definition PTE_V := 1 .<< 0.
Definition PTE_R := 1 .<< 1.
Definition PTE_W := 1 .<< 2.
Definition PTE_X := 1 .<< 3.
Definition PTE_U := 1 .<< 4.
Definition PTE_G := 1 .<< 5.
Definition PTE_A := 1 .<< 6.
Definition PTE_D := 1 .<< 7.

Definition PA2PTE (pa : Z) : Z := u64 ((pa .>> 12) .<< 10).
Definition PTE2PA (pte : Z) : Z := u64 ((pte .>> 10) .<< 12).

(** ** include/riscv.h: trap causes and interrupt bits *)

Definition INT_SUPERVISOR_TIM := 5.
Definition INT_VIRTUAL_SUPERVISOR_TIM := 6.
Definition INT_SUPERVISOR_EXT := 9.
Definition INT_VIRTUAL_SUPERVISOR_EXT := 10.
Definition INT_STI := 1 .<< INT_SUPERVISOR_TIM.
Definition INT_VSTI := 1 .<< INT_VIRTUAL_SUPERVISOR_TIM.
Definition INT_SEI := 1 .<< INT_SUPERVISOR_EXT.
Definition INT_VSEI := 1 .<< INT_VIRTUAL_SUPERVISOR_EXT.
Definition SIE_STIE := INT_STI.
Definition SIE_SEIE := INT_SEI.
Definition HIDELEG_VSTI := INT_VSTI.
Definition HIDELEG_VSEI := INT_VSEI.
Definition HVIP_VSEIP := INT_VSEI.

Definition EXC_INSTRUCTION_ADDR_MISALIGNED := 0.
Definition EXC_INSTRUCTION_ACCESS_FAULT := 1.
Definition EXC_ILLEGAL_INSTRUCTION := 2.
Definition EXC_BREAKPOINT := 3.
Definition EXC_LOAD_ADDR_MISALIGNED := 4.
Definition EXC_LOAD_ACCESS_FAULT := 5.
Definition EXC_STORE_OR_AMO_ADDRESS_MISALIGNED := 6.
Definition EXC_STORE_OR_AMO_ACCESS_FAULT := 7.
Definition EXC_ECALL_FROM_U := 8.
Definition EXC_ECALL_FROM_VS := 10.
Definition EXC_INSTRUCTION_PAGE_FAULT := 12.
Definition EXC_LOAD_PAGE_FAULT := 13.
Definition EXC_STORE_OR_AMO_PAGE_FAULT := 15.
Definition EXC_LOAD_GUEST_PAGE_FAULT := 21.
Definition EXC_STORE_OR_AMO_GUEST_PAGE_FAULT := 23.
Definition CAUSE_INT := 1 .<< 63.

Definition ATP_MODE_SV39 := 8 .<< 60.
Definition TVEC_MODE := 3.
Definition TVEC_MODE_DIRECT := 0.
Definition SSTATUS_SPP := 1 .<< 8.
Definition HSTATUS_SPV := 1 .<< 7.
Definition HSTATUS_VSXL_64 := 2 .<< 32.
Definition HCOUNTEREN_TM := 1 .<< 1.
Definition HENVCFG_SSTC := 1 .<< 63.
Definition HENVCFG_ADUE := 1 .<< 61.

(** ** Address conversions *)

(** Offsets into the RAM window; every conversion is an offset computation. *)
Lemma PA2KPA_off o : 0 <= o < 2 ^ 37 → PA2KPA (DTB_MEMORY + o) = VAS_RAM + o.
Proof.
  intros Ho. unfold PA2KPA.
  replace (DTB_MEMORY + o - DTB_MEMORY) with o by lia. rewrite u64_id by lia.
  rewrite Z.lor_comm. change VAS_RAM with (134217727 * 2 ^ 37).
  by rewrite lor_mul_add by lia.
Qed.

Lemma KPA2PA_off o : 0 <= o < 2 ^ 37 → KPA2PA (VAS_RAM + o) = DTB_MEMORY + o.
Proof.
  intros Ho. unfold KPA2PA. change (~64 VAS_RAM) with (Z.ones 37).
  rewrite Z.land_ones by lia. change VAS_RAM with (134217727 * 2 ^ 37).
  rewrite (Z.add_comm (_ * _) o), Z.mod_add, Z.mod_small by lia.
  rewrite u64_id; unfold DTB_MEMORY; lia.
Qed.

Lemma KVA2PA_off o : 0 <= o < 2 ^ 37 → KVA2PA (VAS_KERNEL + o) = DTB_MEMORY + o.
Proof. intros. unfold KVA2PA. rewrite u64_id; unfold VAS_KERNEL, DTB_MEMORY; lia. Qed.

Lemma KVA2KPA_off o : 0 <= o < 2 ^ 37 → KVA2KPA (VAS_KERNEL + o) = VAS_RAM + o.
Proof. intros. unfold KVA2KPA. rewrite u64_id; unfold VAS_KERNEL, VAS_RAM; lia. Qed.

Lemma PGROUNDUP_spec a : 0 <= a <= 2 ^ 64 - PAGE_SIZE →
  PGROUNDUP a = (a + PAGE_SIZE - 1) / PAGE_SIZE * PAGE_SIZE.
Proof.
  intros Ha. unfold PGROUNDUP, PAGE_SIZE in *. rewrite u64_id by lia.
  replace (~64 (4096 - 1)) with ((2 ^ 64 - 1) - Z.ones 12) by done.
  set (x := a + 4096 - 1).
  assert (Hx : 0 <= x < 2 ^ 64) by lia.
  replace (2 ^ 64 - 1 - Z.ones 12) with (Z.ldiff (Z.ones 64) (Z.ones 12)) by done.
  replace (x .& Z.ldiff (Z.ones 64) (Z.ones 12))
    with (Z.ldiff (x .& Z.ones 64) (Z.ones 12)).
  - rewrite Z.land_ones, Z.mod_small by lia.
    rewrite Z.ldiff_ones_r, Z.shiftr_div_pow2, Z.shiftl_mul_pow2 by lia. done.
  - apply Z.bits_inj'. intros n Hn.
    rewrite !Z.ldiff_spec, !Z.land_spec, Z.ldiff_spec. by destruct (Z.testbit x n), (Z.testbit (Z.ones 64) n).
Qed.

(** ** Page-table entries *)

Lemma PA2PTE_div pa : 0 <= pa < 2 ^ 56 → PA2PTE pa = pa / 4096 * 1024.
Proof.
  intros. unfold PA2PTE. rewrite Z.shiftr_div_pow2, Z.shiftl_mul_pow2 by lia.
  change (2 ^ 12) with 4096. change (2 ^ 10) with 1024. rewrite u64_id; dlia.
Qed.

Lemma PTE2PA_div pte : 0 <= pte < 2 ^ 54 → PTE2PA pte = pte / 1024 * 4096.
Proof.
  intros. unfold PTE2PA. rewrite Z.shiftr_div_pow2, Z.shiftl_mul_pow2 by lia.
  change (2 ^ 12) with 4096. change (2 ^ 10) with 1024. rewrite u64_id; dlia.
Qed.

(** An entry made from an address and flag bits below bit 10. *)
Lemma PA2PTE_flags pa fl : 0 <= pa < 2 ^ 56 → 0 <= fl < 1024 →
  PA2PTE pa .| fl = pa / 4096 * 1024 + fl.
Proof.
  intros. rewrite PA2PTE_div by lia. change 1024 with (2 ^ 10).
  apply lor_mul_add; lia.
Qed.

(** Encoding an address in an entry and decoding it again gives the page of the
    address, whatever the flags. *)
Lemma PTE2PA_PA2PTE pa fl : 0 <= pa < 2 ^ 56 → 0 <= fl < 1024 →
  PTE2PA (PA2PTE pa .| fl) = pa / 4096 * 4096.
Proof.
  intros Hpa Hfl. rewrite PA2PTE_flags by lia.
  assert (0 <= pa / 4096 < 2 ^ 44) by dlia. rewrite PTE2PA_div by lia.
  f_equal. rewrite Z.div_add_l, (Z.div_small fl) by lia. lia.
Qed.

Lemma land_PTE_V pte : pte .& PTE_V = pte mod 2.
Proof. change PTE_V with (Z.ones 1). apply Z.land_ones. lia. Qed.
