(* ===== verification/Bits.v ===== *)
(** * Bits: the bit helpers of lib/bits.c

    [count_set_bits] and [get_value], loop by loop, with their closed forms. *)

From S2P Require Import Prelude.

(** ** count_set_bits *)

(** [for (int i = 1; i != 0; i <<= 1) if (num & i) count++;]
    The loop variable is a 32-bit signed integer, sign-extended when it meets the
    64-bit [num]; [None] is running out of fuel. *)
Fixpoint count_loop (fuel : nat) (num i count : Z) : option Z :=
  match fuel with
  | O => None
  | S fuel' =>
      if i =? 0 then Some count
      else count_loop fuel' num (s32 (i .<< 1))
             (if truthy (num .& u64 i) then s32 (count + 1) else count)
  end.

Definition count_set_bits (num : Z) : Z := default (-1) (count_loop 33 num 1 0).

(** The number of ones among the low [n] bits. *)
Fixpoint popcount (n : nat) (x : Z) : Z :=
  match n with
  | O => 0
  | S n' => popcount n' x + Z.b2z (Z.testbit x (Z.of_nat n'))
  end.

Lemma popcount_S n x : popcount (S n) x = popcount n x + Z.b2z (Z.testbit x (Z.of_nat n)).
Proof. done. Qed.

Lemma popcount_range n x : 0 <= popcount n x <= Z.of_nat n.
Proof. induction n; simpl; [lia|]. destruct (Z.testbit _ _); simpl; lia. Qed.

(** Adding the bits above the ones that are set changes nothing. *)
Lemma popcount_high n k x : 0 <= x < 2 ^ Z.of_nat n →
  popcount (n + k) x = popcount n x.
Proof.
  intros Hx. induction k as [|k IH]; [by rewrite Nat.add_0_r|].
  rewrite Nat.add_succ_r. simpl. rewrite IH.
  rewrite <- (Z.mod_small x (2 ^ Z.of_nat n)) at 2 by lia.
  rewrite Z.mod_pow2_bits_high by lia. simpl. lia.
Qed.

Lemma truthy_land_pow2 x k : 0 <= k → truthy (x .& 2 ^ k) = Z.testbit x k.
Proof.
  intros Hk. unfold truthy. destruct (Z.testbit x k) eqn:Hb.
  - destruct (Z.eqb_spec (x .& 2 ^ k) 0) as [H0|]; [|done].
    apply (f_equal (λ z, Z.testbit z k)) in H0.
    rewrite Z.land_spec, Hb, Z.pow2_bits_true, Z.bits_0 in H0 by lia. done.
  - replace (x .& 2 ^ k) with 0; [done|]. apply Z.bits_inj'. intros n Hn.
    rewrite Z.bits_0, Z.land_spec. destruct (decide (n = k)) as [->|].
    + by rewrite Hb.
    + by rewrite Z.pow2_bits_false, andb_false_r by done.
Qed.

(** The iterations with [i = 2^k]. *)
Lemma shift_i k : (k < 30)%nat → s32 (2 ^ Z.of_nat k .<< 1) = 2 ^ Z.of_nat (S k).
Proof.
  intros Hk. rewrite Z.shiftl_mul_pow2, Nat2Z.inj_succ, Z.pow_succ_r by lia.
  pose proof (Z.pow_lt_mono_r 2 (Z.of_nat k) 30).
  assert (0 < 2 ^ Z.of_nat k) by (apply Z.pow_pos_nonneg; lia).
  rewrite s32_id; lia.
Qed.

Lemma count_loop_low n k num count fuel :
  (k + n = 30)%nat → 0 <= count → count + Z.of_nat n < 2 ^ 31 - 1 →
  count_loop (n + fuel) num (2 ^ Z.of_nat k) count =
  count_loop fuel num (2 ^ 30) (count + (popcount 30 num - popcount k num)).
Proof.
  revert k count. induction n as [|n IH]; intros k count Hk Hc Hb.
  - replace k with 30%nat by lia. rewrite Z.sub_diag, Z.add_0_r. done.
  - assert (0 < 2 ^ Z.of_nat k) by (apply Z.pow_pos_nonneg; lia).
    pose proof (Z.pow_lt_mono_r 2 (Z.of_nat k) 31).
    cbn [Nat.add count_loop]. destruct (Z.eqb_spec (2 ^ Z.of_nat k) 0); [lia|].
    rewrite shift_i by lia. rewrite u64_id by lia.
    rewrite truthy_land_pow2 by lia. rewrite s32_id by lia.
    rewrite IH by (destruct (Z.testbit num (Z.of_nat k)); lia).
    apply (f_equal (count_loop fuel num (2 ^ 30))).
    generalize (popcount 30 num). intros P. cbn [popcount].
    destruct (Z.testbit num (Z.of_nat k)); simpl Z.b2z; lia.
Qed.

(** What the loop computes: the ones among bits 0 to 30, plus one when any of the
    bits 31 to 63 is set (the last value of [i] is [INT_MIN], sign-extended). *)
Lemma count_set_bits_closed num : 0 <= num < 2 ^ 64 →
  count_set_bits num = popcount 31 num + Z.b2z (negb (num / 2 ^ 31 =? 0)).
Proof.
  intros Hn. unfold count_set_bits.
  change 33%nat with (30 + 3)%nat. change 1 with (2 ^ Z.of_nat 0).
  rewrite count_loop_low by lia.
  pose proof (popcount_range 30 num) as Hp.
  rewrite (popcount_S 30). change (Z.of_nat 30) with 30.
  change (popcount 0 num) with 0. revert Hp. generalize (popcount 30 num).
  intros c Hc. rewrite Z.sub_0_r, Z.add_0_l.
  cbn [count_loop]. change (2 ^ 30 =? 0) with false. cbn iota.
  change (s32 (2 ^ 30 .<< 1)) with (- 2 ^ 31).
  change (- 2 ^ 31 =? 0) with false. cbn iota.
  change (s32 (- 2 ^ 31 .<< 1)) with 0. change (0 =? 0) with true. cbn iota.
  change (u64 (2 ^ 30)) with (2 ^ 30). rewrite truthy_land_pow2 by lia.
  replace (truthy (num .& u64 (- 2 ^ 31))) with (negb (num / 2 ^ 31 =? 0)).
  - rewrite (s32_id (c + 1)) by lia.
    destruct (Z.testbit num 30), (negb _); cbn [default Z.b2z from_option id];
      rewrite ?s32_id by lia; lia.
  - change (u64 (- 2 ^ 31)) with (Z.ldiff (Z.ones 64) (Z.ones 31)).
    replace (num .& Z.ldiff (Z.ones 64) (Z.ones 31))
      with (Z.ldiff (num .& Z.ones 64) (Z.ones 31)).
    + rewrite Z.land_ones, Z.mod_small, Z.ldiff_ones_r by lia.
      rewrite Z.shiftr_div_pow2, Z.shiftl_mul_pow2 by lia. unfold truthy. f_equal.
      destruct (Z.eqb_spec (num / 2 ^ 31) 0) as [->|H0]; [done|].
      symmetry. apply Z.eqb_neq. lia.
    + apply Z.bits_inj'. intros n' Hn'.
      rewrite !Z.ldiff_spec, !Z.land_spec, Z.ldiff_spec.
      by destruct (Z.testbit num n'), (Z.testbit (Z.ones 64) n').
Qed.

(** ** get_value *)

(** [for (int i = 0; i < bits; i++) mask = mask << 1 | 1;] *)
Fixpoint mask_loop (bits : nat) (mask : Z) : Z :=
  match bits with
  | O => mask
  | S bits' => mask_loop bits' (u64 (mask .<< 1) .| 1)
  end.

Definition get_value (val offset bits : Z) : Z :=
  if (offset <? 0) || (63 <? offset) then u64 (-1)
  else if (bits <? 0) || (63 <? bits) then u64 (-1)
  else (val .>> offset) .& mask_loop (Z.to_nat bits) 0.

Lemma mask_loop_ones n k : (k + n <= 63)%nat →
  mask_loop n (Z.ones (Z.of_nat k)) = Z.ones (Z.of_nat (k + n)).
Proof.
  revert k. induction n as [|n IH]; intros k Hk; cbn [mask_loop].
  - by rewrite Nat.add_0_r.
  - assert (0 < 2 ^ Z.of_nat k) by (apply Z.pow_pos_nonneg; lia).
    pose proof (Z.pow_lt_mono_r 2 (Z.of_nat k) 63).
    replace (u64 (Z.ones (Z.of_nat k) .<< 1) .| 1) with (Z.ones (Z.of_nat (S k))).
    + rewrite IH by lia. f_equal. lia.
    + rewrite Z.shiftl_mul_pow2 by lia. rewrite !Z.ones_equiv.
      rewrite u64_id by lia. rewrite lor_mul_add by lia.
      rewrite Nat2Z.inj_succ, Z.pow_succ_r by lia. lia.
Qed.

(** The bit field of [bits] bits at [offset]. *)
Lemma get_value_spec val offset bits :
  0 <= offset <= 63 → 0 <= bits <= 63 →
  get_value val offset bits = val / 2 ^ offset mod 2 ^ bits.
Proof.
  intros Ho Hb. unfold get_value.
  rewrite (proj2 (Z.ltb_ge offset 0)), (proj2 (Z.ltb_ge 63 offset)) by lia.
  rewrite (proj2 (Z.ltb_ge bits 0)), (proj2 (Z.ltb_ge 63 bits)) by lia. simpl orb.
  cbn iota. change 0 with (Z.ones (Z.of_nat 0)) at 1.
  rewrite mask_loop_ones by lia. simpl Nat.add. rewrite Z2Nat.id by lia.
  by rewrite Z.land_ones, Z.shiftr_div_pow2 by lia.
Qed.

Lemma get_value_range val offset bits :
  0 <= offset <= 63 → 0 <= bits <= 63 → 0 <= get_value val offset bits < 2 ^ bits.
Proof.
  intros. rewrite get_value_spec by lia. apply Z.mod_pos_bound.
  apply Z.pow_pos_nonneg; lia.
Qed.

(** ** Theorems *)

Lemma count_set_bits_total num : 0 <= num < 2 ^ 64 →
  count_loop 33 num 1 0 = Some (count_set_bits num).
Proof.
  intros Hn. pose proof (count_set_bits_closed num Hn) as Hc. revert Hc.
  pose proof (popcount_range 31 num). generalize dependent (popcount 31 num).
  intros p Hp. unfold count_set_bits. generalize (count_loop 33 num 1 0).
  intros [z|]; [done|]. cbn [default]. destruct (negb _); cbn [Z.b2z]; intros; simpl in *; lia.
Qed.

Lemma popcount_top num : 0 <= num < 2 ^ 32 →
  popcount 64 num = popcount 31 num + Z.b2z (negb (num / 2 ^ 31 =? 0)).
Proof.
  intros Hn. replace 64%nat with (32 + 32)%nat by done.
  rewrite popcount_high by (simpl; lia). rewrite (popcount_S 31).
  generalize (popcount 31 num). intros p. do 2 f_equal.
  change (Z.of_nat 31) with 31. rewrite Z.testbit_eqb by lia.
  destruct (Z.eqb_spec (num / 2 ^ 31) 0) as [->|]; [done|].
  cbn [negb]. apply Z.eqb_eq. dlia.
Qed.

(** Count_set_bits counts the ones of every 32-bit value; of a wider value it
    counts the bits 0 to 30 and adds one for all the bits 31 to 63 together, since
    its mask is a 32-bit [int] whose last value is INT_MIN, sign-extended.  The
    loop ends in every case (the model's fuel, 33 turns, is never exhausted). *)
Theorem count_set_bits_counts num : 0 <= num < 2 ^ 64 →
  (num < 2 ^ 32 → count_set_bits num = popcount 64 num) ∧
  (2 ^ 31 <= num → count_set_bits num = popcount 31 num + 1) ∧
  count_loop 33 num 1 0 = Some (count_set_bits num).
Proof.
  intros Hn. rewrite count_set_bits_total by done. rewrite count_set_bits_closed by done.
  split_and!; [|intros H31|done].
  - intros H32. symmetry. apply popcount_top. lia.
  - destruct (Z.eqb_spec (num / 2 ^ 31) 0); [dlia|done].
Qed.

Lemma count_set_bits_counts_witness :
  count_set_bits 0xf00f000f = popcount 64 0xf00f000f ∧ count_set_bits (15 * 2 ^ 40) = 0 + 1.
Proof.
  split.
  - apply (count_set_bits_counts 0xf00f000f); lia.
  - apply (count_set_bits_counts (15 * 2 ^ 40)); lia.
Defined.

(** Bit [i] of get_value(val, offset, bits) is bit [offset + i] of [val] for
    [i < bits] and zero above; for an offset or a width outside 0..63 the result is
    all ones. *)
Theorem get_value_extracts val offset bits i : 0 <= val < 2 ^ 64 → 0 <= i →
  Z.testbit (get_value val offset bits) i =
    if (0 <=? offset) && (offset <=? 63) && (0 <=? bits) && (bits <=? 63)
    then (i <? bits) && Z.testbit val (offset + i)
    else i <? 64.
Proof.
  intros Hv Hi.
  destruct (_ && _) eqn:E; b2p.
  - rewrite get_value_spec by lia. destruct (Z.ltb_spec i bits).
    + rewrite Z.mod_pow2_bits_low, Z.div_pow2_bits by lia. simpl. f_equal. lia.
    + by rewrite Z.mod_pow2_bits_high by lia.
  - assert (get_value val offset bits = Z.ones 64) as ->.
    { unfold get_value. destruct (Z.ltb_spec offset 0), (Z.ltb_spec 63 offset),
        (Z.ltb_spec bits 0), (Z.ltb_spec 63 bits); try done. exfalso.
      rewrite !(proj2 (Z.leb_le _ _)) in E by lia. done. }
    destruct (Z.ltb_spec i 64); [by apply Z.ones_spec_low|by apply Z.ones_spec_high].
Qed.

Lemma get_value_extracts_witness : Z.testbit (get_value 0x2000 12 3) 1 = true.
Proof. rewrite (get_value_extracts 0x2000 12 3 1); [reflexivity|lia..]. Defined.
