(* ===== verification/Memory.v ===== *)
(** * Memory: physical RAM, byte by byte

    RAM is a finite map from physical addresses to bytes; an address outside its
    domain is not backed by memory.  64-bit accesses are little-endian.  The
    lemmas say what a read sees after a write, at the same place and elsewhere. *)

From S2P Require Import Prelude.

Abbreviation ram := (gmap Z byte).

Fixpoint rd_bytes (m : ram) (p : Z) (n : nat) : option (list byte) :=
  match n with
  | O => Some []
  | S n' => b ← m !! p; bs ← rd_bytes m (p + 1) n'; Some (b :: bs)
  end.

Fixpoint wr_bytes (m : ram) (p : Z) (bs : list byte) : ram :=
  match bs with
  | [] => m
  | b :: bs' => <[p := b]> (wr_bytes m (p + 1) bs')
  end.

Definition rd64 (m : ram) (p : Z) : option Z := le_combine <$> rd_bytes m p 8.
Definition wr64 (m : ram) (p v : Z) : ram := wr_bytes m p (le_split 8 v).

(** The [n] bytes from [p] on are backed by memory. *)
Definition has_bytes (m : ram) (p n : Z) : Prop := ∀ a, p <= a < p + n → is_Some (m !! a).

(** ** Reads and writes of byte sequences *)

Lemma lookup_wr_bytes m p bs a :
  wr_bytes m p bs !! a =
  if decide (p <= a < p + Z.of_nat (length bs))
  then bs !! Z.to_nat (a - p) else m !! a.
Proof.
  revert p. induction bs as [|b bs IH]; intros p; simpl.
  - rewrite decide_False by lia. done.
  - rewrite lookup_insert. destruct (decide (p = a)) as [->|Hne].
    + rewrite decide_True by lia. by rewrite Z.sub_diag.
    + rewrite IH. destruct (decide (p + 1 <= a < p + 1 + Z.of_nat (length bs))).
      * rewrite decide_True by lia.
        replace (Z.to_nat (a - p)) with (S (Z.to_nat (a - (p + 1)))) by lia. done.
      * by rewrite decide_False by lia.
Qed.

Lemma rd_bytes_length m p n bs : rd_bytes m p n = Some bs → length bs = n.
Proof.
  revert p bs. induction n as [|n IH]; intros p bs; simpl; [naive_solver|].
  destruct (m !! p); [|done]. simpl. destruct (rd_bytes m (p + 1) n) eqn:E; [|done].
  simpl. intros [= <-]. simpl. by erewrite IH.
Qed.

(** Two memories that agree on a range read the same bytes there. *)
Lemma rd_bytes_ext m m' p n :
  (∀ a, p <= a < p + Z.of_nat n → m !! a = m' !! a) → rd_bytes m p n = rd_bytes m' p n.
Proof.
  revert p. induction n as [|n IH]; intros p Hext; [done|]. simpl.
  rewrite (Hext p) by lia. rewrite (IH (p + 1)); [done|].
  intros a Ha. apply Hext. lia.
Qed.

Lemma rd_bytes_has m p n : has_bytes m p (Z.of_nat n) ↔ is_Some (rd_bytes m p n).
Proof.
  revert p. induction n as [|n IH]; intros p; simpl.
  - split; [by eauto|]. intros _ a Ha. lia.
  - split.
    + intros H. destruct (H p) as [b ->]; [lia|]. simpl.
      destruct (proj1 (IH (p + 1))) as [bs ->]; [|by eauto].
      intros a Ha. apply H. lia.
    + destruct (m !! p) eqn:E; [|by intros []]. simpl.
      destruct (rd_bytes m (p + 1) n) eqn:E'; [|by intros []]. intros _ a Ha.
      destruct (decide (a = p)) as [->|]; [by rewrite E|].
      apply (proj2 (IH (p + 1))); [by rewrite E'|]. lia.
Qed.

Lemma rd_bytes_wr_same m p bs : rd_bytes (wr_bytes m p bs) p (length bs) = Some bs.
Proof.
  revert p. induction bs as [|b bs IH]; intros p; [done|]. simpl.
  rewrite lookup_insert_eq. simpl.
  rewrite (rd_bytes_ext _ (wr_bytes m (p + 1) bs)), IH; [done|].
  intros a Ha. rewrite lookup_insert_ne by lia. done.
Qed.

Lemma has_bytes_wr m p bs q n : has_bytes m q n → has_bytes (wr_bytes m p bs) q n.
Proof.
  intros H a Ha. rewrite lookup_wr_bytes. destruct (decide _); [|by apply H].
  apply lookup_lt_is_Some. lia.
Qed.

Lemma has_bytes_sub m p n q k : has_bytes m p n → p <= q → q + k <= p + n → has_bytes m q k.
Proof. intros H ?? a ?. apply H. lia. Qed.

(** ** 64-bit accesses *)

Lemma rd64_has m p : has_bytes m p 8 ↔ is_Some (rd64 m p).
Proof.
  unfold rd64. rewrite (rd_bytes_has m p 8). by rewrite fmap_is_Some.
Qed.

Lemma rd64_range m p v : rd64 m p = Some v → 0 <= v < 2 ^ 64.
Proof.
  unfold rd64. destruct (rd_bytes m p 8) as [bs|] eqn:E; [|done]. simpl. intros [= <-].
  pose proof (le_combine_bound bs) as H. by rewrite (rd_bytes_length _ _ _ _ E) in H.
Qed.

Lemma rd64_ext m m' p :
  (∀ a, p <= a < p + 8 → m !! a = m' !! a) → rd64 m p = rd64 m' p.
Proof. intros H. unfold rd64. by rewrite (rd_bytes_ext m m' p 8). Qed.

Lemma lookup_wr64 m p v a :
  wr64 m p v !! a = if decide (p <= a < p + 8)
                    then le_split 8 v !! Z.to_nat (a - p) else m !! a.
Proof. unfold wr64. by rewrite lookup_wr_bytes, length_le_split. Qed.

Lemma rd64_wr64_same m p v : rd64 (wr64 m p v) p = Some (u64 v).
Proof.
  unfold rd64, wr64. replace 8%nat with (length (le_split 8 v)) at 2
    by apply length_le_split.
  rewrite rd_bytes_wr_same. simpl fmap. by rewrite le_combine_split.
Qed.

Lemma rd64_wr64_other m p v q : p + 8 <= q ∨ q + 8 <= p → rd64 (wr64 m p v) q = rd64 m q.
Proof.
  intros H. apply rd64_ext. intros a Ha. rewrite lookup_wr64, decide_False; [done|lia].
Qed.

Lemma has_bytes_wr64 m p v q n : has_bytes m q n → has_bytes (wr64 m p v) q n.
Proof. apply has_bytes_wr. Qed.

(** ** Zero-filled ranges *)

Definition zeroed (m : ram) (p n : Z) : Prop := ∀ a, p <= a < p + n → m !! a = Some Byte.x00.

Lemma zeroed_rd_bytes m p n q k : zeroed m p n → p <= q → q + Z.of_nat k <= p + n →
  rd_bytes m q k = Some (replicate k Byte.x00).
Proof.
  intros Hz. revert q. induction k as [|k IH]; intros q ??; [done|].
  simpl. rewrite Hz by lia. simpl. by rewrite IH by lia.
Qed.

Lemma zeroed_rd64 m p n q : zeroed m p n → p <= q → q + 8 <= p + n → rd64 m q = Some 0.
Proof. intros. unfold rd64. by rewrite (zeroed_rd_bytes m p n) by (done || lia). Qed.

Lemma zeroed_wr_replicate m p n : zeroed (wr_bytes m p (replicate n Byte.x00)) p (Z.of_nat n).
Proof.
  intros a Ha. rewrite lookup_wr_bytes, length_replicate, decide_True by lia.
  apply lookup_replicate. split; [done|lia].
Qed.

Lemma zeroed_has_bytes m p n : zeroed m p n → has_bytes m p n.
Proof. intros H a Ha. rewrite H by done. eauto. Qed.

(** A range that no write touches keeps its content. *)
Lemma zeroed_ext m m' p n : (∀ a, p <= a < p + n → m !! a = m' !! a) → zeroed m p n → zeroed m' p n.
Proof. intros H Hz a Ha. rewrite <- H by done. by apply Hz. Qed.

Create HintDb mem.
#[export] Hint Resolve has_bytes_wr has_bytes_wr64 zeroed_has_bytes : mem.
