(* ===== verification/Machine.v ===== *)
(** * Machine: the state the hypervisor's C code runs on

    The data structures of the headers as records, the control and status
    registers, the global variables, and the primitive accesses every component
    is written with: loads and stores through kernel pointers, CSR accesses,
    [memset] (lib/string.c) and the spinlock as one hart sees it. *)

From S2P Require Import Prelude Layout Memory.

(** ** Data structures *)

(** include/vm_config.h: struct mmio_dev.  The field [size] is [dev_size]. *)
Record mmio_dev := mk_mmio_dev {
  phys_base : Z;
  virt_base : Z;
  dev_size : Z;
  perm : Z;
  phys_irq : Z;
  virt_irq : Z
}.

(** include/lock.h: struct lock and struct barrier. *)
Record barrier := mk_barrier {
  initial : Z;
  tokens : Z;
  passed : Z;
  bar_lk : Z
}.

(** include/vm_config.h: struct vm_config.  [devices] is the array of [MAX_DEVS]
    pointers ([None] is NULL); [vm_pgtable] is the address of the 16 KiB root
    table inside the structure, whose content lives in RAM. *)
Record vm_config := mk_vm_config {
  cpu_affinity : Z;
  image_base : Z;
  image_end : Z;
  memory_base : Z;
  memory_size : Z;
  entry : Z;
  devices : list (option mmio_dev);
  bar : barrier;
  vm_pgtable : Z
}.
Definition MAX_DEVS := 10.

(** include/vcpu.h: struct vcpu.  [conf] is the index in [config] that the
    pointer designates ([None] is NULL, before init_vcpu). *)
Record vcpu := mk_vcpu {
  vhartid : Z;
  last_claimed_irq_id : Z;
  conf : option nat;
  regs : list Z
}.

(** include/emulate.h: struct instr. *)
Record instr := mk_instr {
  opcode : Z;
  rd : Z;
  funct3 : Z;
  addr_offset : Z;
  rs2 : Z;
  addr : Z
}.

(** mem/kmem.c: the static [kmem]. *)
Record kmem_state := mk_kmem { kmem_lk : Z; freelist : Z }.

(** The control and status registers the code names. *)
Inductive csr :=
| sstatus | sie | stvec | sscratch | sepc | scause | satp | stimecmp | time
| hstatus | hedeleg | hideleg | hvip | hip | hie | hgeie | hcounteren
| htimedelta | htval | htinst | henvcfg | hgatp
| vsstatus | vsip | vsie | vstvec | vsscratch | vsepc | vscause | vstval
| vsatp | vstimecmp.

#[export] Instance csr_eq_dec : EqDecision csr.
Proof. solve_decision. Defined.
#[export] Program Instance csr_finite : Finite csr := {
  enum := [sstatus; sie; stvec; sscratch; sepc; scause; satp; stimecmp; time;
           hstatus; hedeleg; hideleg; hvip; hip; hie; hgeie; hcounteren;
           htimedelta; htval; htinst; henvcfg; hgatp;
           vsstatus; vsip; vsie; vstvec; vsscratch; vsepc; vscause; vstval;
           vsatp; vstimecmp]
}.
Next Obligation. apply (bool_decide_unpack _). by vm_compute. Qed.
Next Obligation. intros []; apply (bool_decide_unpack _); by vm_compute. Qed.
#[export] Instance csr_countable : Countable csr := finite_countable.

(** The symbols the linker script (helper/linkerscript.c) and the compiler
    provide, as kernel virtual addresses. *)
Class Linker := {
  sym_text : Z; sym_etext : Z;
  sym_rodata : Z; sym_erodata : Z;
  sym_data : Z; sym_edata : Z;
  sym_cpu_structs : Z;
  sym_dynamic : Z;
  sym_vcpus : Z;
  sym_hstrapvec : Z
}.

(** ** The world: global variables, RAM, the PLIC and the running hart

    [D] is the type of states of the PLIC, a device this repository drives but
    does not contain.  [w_hart] is the hart that executes, [w_tp] its [tp]
    register; CSRs are per hart. *)
Record world (D : Type) := mk_world {
  w_mem : ram;
  w_kmem : kmem_state;
  w_cpus : list Z;
  w_cpu_mapped : Z;
  w_config : list vm_config;
  w_vcpus : list vcpu;
  w_csr : gmap (Z * csr) Z;
  w_plic : D;
  w_hart : Z;
  w_tp : Z
}.
Arguments mk_world {D}.
Arguments w_mem {D}. Arguments w_kmem {D}. Arguments w_cpus {D}.
Arguments w_cpu_mapped {D}. Arguments w_config {D}. Arguments w_vcpus {D}.
Arguments w_csr {D}. Arguments w_plic {D}. Arguments w_hart {D}. Arguments w_tp {D}.

Section machine.
Context {D : Type}.
Implicit Type w : world D.
#[local] Abbreviation M := (cmd (world D)).

Definition set_mem (x : ram) w : world D :=
  mk_world x (w_kmem w) (w_cpus w) (w_cpu_mapped w) (w_config w) (w_vcpus w)
    (w_csr w) (w_plic w) (w_hart w) (w_tp w).
Definition set_kmem (x : kmem_state) w : world D :=
  mk_world (w_mem w) x (w_cpus w) (w_cpu_mapped w) (w_config w) (w_vcpus w)
    (w_csr w) (w_plic w) (w_hart w) (w_tp w).
Definition set_cpus (x : list Z) w : world D :=
  mk_world (w_mem w) (w_kmem w) x (w_cpu_mapped w) (w_config w) (w_vcpus w)
    (w_csr w) (w_plic w) (w_hart w) (w_tp w).
Definition set_config (x : list vm_config) w : world D :=
  mk_world (w_mem w) (w_kmem w) (w_cpus w) (w_cpu_mapped w) x (w_vcpus w)
    (w_csr w) (w_plic w) (w_hart w) (w_tp w).
Definition set_vcpus (x : list vcpu) w : world D :=
  mk_world (w_mem w) (w_kmem w) (w_cpus w) (w_cpu_mapped w) (w_config w) x
    (w_csr w) (w_plic w) (w_hart w) (w_tp w).
Definition set_csr (x : gmap (Z * csr) Z) w : world D :=
  mk_world (w_mem w) (w_kmem w) (w_cpus w) (w_cpu_mapped w) (w_config w)
    (w_vcpus w) x (w_plic w) (w_hart w) (w_tp w).
Definition set_plic (x : D) w : world D :=
  mk_world (w_mem w) (w_kmem w) (w_cpus w) (w_cpu_mapped w) (w_config w)
    (w_vcpus w) (w_csr w) x (w_hart w) (w_tp w).

(** ** CSR accesses: CSRR, CSRW, CSRS and CSRC of include/riscv.h *)

Definition csr_of (h : Z) (c : csr) w : Z := default 0 (w_csr w !! (h, c)).
Definition CSRR (c : csr) : M Z := λ w, Ok (csr_of (w_hart w) c w) w.
Definition CSRW (c : csr) (v : Z) : M unit :=
  modify (λ w, set_csr (<[(w_hart w, c) := v]> (w_csr w)) w).
Definition CSRS (c : csr) (mask : Z) : M unit :=
  v ← CSRR c; CSRW c (v .| mask).
Definition CSRC (c : csr) (mask : Z) : M unit :=
  v ← CSRR c; CSRW c (Z.ldiff v mask).

(** ** Kernel pointers

    RAM is mapped twice, at [VAS_KERNEL] (the image) and at [VAS_RAM] (linear),
    one gigapage each (core/sboot.S, init_bootstrap_pages); both windows name
    the same physical bytes. *)
Definition GIGAPAGE := 2 ^ 30.
Definition kptr_pa (a : Z) : option Z :=
  if (VAS_KERNEL <=? a) && (a <? VAS_KERNEL + GIGAPAGE) then Some (KVA2PA a)
  else if (VAS_RAM <=? a) && (a <? VAS_RAM + GIGAPAGE) then Some (KPA2PA a)
  else None.

Definition load64 (a : Z) : M Z := λ w,
  match kptr_pa a ≫= rd64 (w_mem w) with
  | Some v => Ok v w
  | None => Fault a w
  end.

Definition store64 (a v : Z) : M unit := λ w,
  match kptr_pa a with
  | Some p =>
      match rd64 (w_mem w) p with
      | Some _ => Ok tt (set_mem (wr64 (w_mem w) p v) w)
      | None => Fault a w
      end
  | None => Fault a w
  end.

Definition store8 (a v : Z) : M unit := λ w,
  match kptr_pa a with
  | Some p =>
      match w_mem w !! p with
      | Some _ => Ok tt (set_mem (<[p := byte.of_Z v]> (w_mem w)) w)
      | None => Fault a w
      end
  | None => Fault a w
  end.

(** ** lib/string.c: memset

    [for (int i = 0; i < size; i++) p[i] = c;] *)
Fixpoint memset_loop (n : nat) (p c : Z) : M unit :=
  match n with
  | O => mret tt
  | S n' => store8 p c ;; memset_loop n' (p + 1) c
  end.
Definition memset (dst c size : Z) : M Z :=
  memset_loop (Z.to_nat size) dst c ;; mret dst.

(** ** Spinlocks as one hart sees them

    lib/spinlock.S: with the other harts idle, [acquire] of a lock that is held
    spins for ever (Lock.v has the interleaved semantics). *)
Definition acquire_kmem : M unit := λ w,
  if kmem_lk (w_kmem w) =? 0
  then Ok tt (set_kmem (mk_kmem 1 (freelist (w_kmem w))) w)
  else Hang w.
Definition release_kmem : M unit :=
  modify (λ w, set_kmem (mk_kmem 0 (freelist (w_kmem w))) w).

(** ** Accesses through pointers to structures *)

Definition vcpu_get (i : Z) : M vcpu := λ w,
  if i <? 0 then Fault i w
  else match w_vcpus w !! Z.to_nat i with Some v => Ok v w | None => Fault i w end.
Definition vcpu_set (i : Z) (v : vcpu) : M unit :=
  modify (λ w, set_vcpus (<[Z.to_nat i := v]> (w_vcpus w)) w).
Definition config_get (i : option nat) : M vm_config := λ w,
  match i ≫= λ k, w_config w !! k with
  | Some c => Ok c w
  | None => Fault 0 w
  end.

(** ** Lemmas *)

(** Sequences of CSR writes accumulate in the register map. *)
Lemma set_csr_id w : set_csr (w_csr w) w = w.
Proof. by destruct w. Qed.
Lemma CSRW_seq {B} c v (k : M B) cs w :
  (CSRW c v ;; k) (set_csr cs w) = k (set_csr (<[(w_hart w, c) := v]> cs) w).
Proof. by destruct w. Qed.
Lemma CSRW_last c v cs w : CSRW c v (set_csr cs w) = Ok tt (set_csr (<[(w_hart w, c) := v]> cs) w).
Proof. by destruct w. Qed.
Lemma CSRS_seq {B} c mask (k : M B) cs w :
  (CSRS c mask ;; k) (set_csr cs w) =
  k (set_csr (<[(w_hart w, c) := default 0 (cs !! (w_hart w, c)) .| mask]> cs) w).
Proof. by destruct w. Qed.
Lemma csr_of_set h c cs w : csr_of h c (set_csr cs w) = default 0 (cs !! (h, c)).
Proof. done. Qed.

Lemma kptr_pa_kpa o : 0 <= o < GIGAPAGE → kptr_pa (VAS_RAM + o) = Some (DTB_MEMORY + o).
Proof.
  intros Ho. unfold kptr_pa, GIGAPAGE in *.
  rewrite (proj2 (Z.ltb_ge (VAS_RAM + o) _)) by (unfold VAS_RAM, VAS_KERNEL; lia).
  rewrite andb_false_r, (proj2 (Z.leb_le _ _)), (proj2 (Z.ltb_lt _ _)) by lia.
  simpl. by rewrite KPA2PA_off by lia.
Qed.

Lemma kptr_pa_kva o : 0 <= o < GIGAPAGE → kptr_pa (VAS_KERNEL + o) = Some (DTB_MEMORY + o).
Proof.
  intros Ho. unfold kptr_pa, GIGAPAGE in *.
  rewrite (proj2 (Z.leb_le _ _)), (proj2 (Z.ltb_lt _ _)) by lia.
  simpl. by rewrite KVA2PA_off by lia.
Qed.

Lemma load64_ok w a p v : kptr_pa a = Some p → rd64 (w_mem w) p = Some v →
  load64 a w = Ok v w.
Proof. intros Ha Hv. unfold load64. rewrite Ha. simpl. by rewrite Hv. Qed.

Lemma store64_ok w a p v : kptr_pa a = Some p → has_bytes (w_mem w) p 8 →
  store64 a v w = Ok tt (set_mem (wr64 (w_mem w) p v) w).
Proof.
  intros Ha Hv. unfold store64. rewrite Ha. by apply rd64_has in Hv as [? ->].
Qed.

(** A pointer range that one window maps. *)
Definition kptr_range (a p n : Z) : Prop := ∀ i, 0 <= i < n → kptr_pa (a + i) = Some (p + i).

Lemma kptr_range_kpa o n : 0 <= o → o + n <= GIGAPAGE →
  kptr_range (VAS_RAM + o) (DTB_MEMORY + o) n.
Proof. intros ?? i Hi. rewrite <- !Z.add_assoc. apply kptr_pa_kpa. lia. Qed.

Lemma kptr_range_kva o n : 0 <= o → o + n <= GIGAPAGE →
  kptr_range (VAS_KERNEL + o) (DTB_MEMORY + o) n.
Proof. intros ?? i Hi. rewrite <- !Z.add_assoc. apply kptr_pa_kva. lia. Qed.

Lemma memset_loop_ok n w a p c : kptr_range a p (Z.of_nat n) →
  has_bytes (w_mem w) p (Z.of_nat n) →
  memset_loop n a c w =
    Ok tt (set_mem (wr_bytes (w_mem w) p (replicate n (byte.of_Z c))) w).
Proof.
  revert w a p. induction n as [|n IH]; intros w a p Hr Hb.
  - destruct w; done.
  - cbn [memset_loop]. rewrite (bind_ok _ _ _ tt
      (set_mem (<[p := byte.of_Z c]> (w_mem w)) w)).
    + rewrite (IH _ _ (p + 1)).
      * apply (f_equal (λ m, Ok tt (set_mem m w))). cbn [w_mem set_mem replicate wr_bytes].
        apply map_eq. intros i. rewrite lookup_wr_bytes, !lookup_insert, lookup_wr_bytes.
        destruct (decide (p = i)) as [->|]; [by rewrite decide_False by lia|].
        done.
      * intros i Hi. specialize (Hr (i + 1)). rewrite <- !Z.add_assoc, !(Z.add_comm 1).
        apply Hr. lia.
      * intros i Hi. simpl. rewrite lookup_insert. destruct (decide _); [by eauto|].
        apply Hb. lia.
    + unfold store8. specialize (Hr 0). rewrite !Z.add_0_r in Hr. rewrite Hr by lia.
      by destruct (Hb p) as [? ->]; [lia|].
Qed.

Lemma memset_ok w a p c n : 0 <= n → kptr_range a p n → has_bytes (w_mem w) p n →
  memset a c n w =
    Ok a (set_mem (wr_bytes (w_mem w) p (replicate (Z.to_nat n) (byte.of_Z c))) w).
Proof.
  intros Hn Hr Hb. unfold memset. erewrite bind_ok; [reflexivity|].
  apply memset_loop_ok; by rewrite Z2Nat.id by lia.
Qed.

(** Storing through an address that no window maps faults at once. *)
Lemma memset_fault w a c n : 0 < n → kptr_pa a = None → memset a c n w = Fault a w.
Proof.
  intros Hn Ha. unfold memset. destruct (Z.to_nat n) eqn:E; [lia|]. simpl.
  do 2 (erewrite bind_fault; [reflexivity|]). unfold store8. by rewrite Ha.
Qed.
End machine.
