(* ===== verification/Asm.v ===== *)
(** * Asm: the instructions of core/sboot.S and core/trap.S

    Each RISC-V instruction the assembly files use is a command on a [hart]: the
    integer registers and the state [W] behind them.  Memory and CSRs are reached
    through an [asm_bus], because the boot code runs without translation and the
    trap code on the kernel's address space. *)

From S2P Require Import Prelude Layout Memory Machine.

Record hart (W : Type) := mk_hart { xr : nat → Z; hw : W }.
Arguments mk_hart {W}. Arguments xr {W}. Arguments hw {W}.

(** The registers by their ABI names; [zero] is x0. *)
Definition sp := 2%nat.
Definition tp := 4%nat.
Definition t0 := 5%nat.
Definition t1 := 6%nat.
Definition t2 := 7%nat.
Definition t3 := 28%nat.
Definition fp := 8%nat.
Definition a0 := 10%nat.
Definition a1 := 11%nat.
Definition a2 := 12%nat.
Definition a3 := 13%nat.
Definition a4 := 14%nat.
Definition a5 := 15%nat.
Definition a6 := 16%nat.
Definition a7 := 17%nat.
Definition x31 := 31%nat.

(** How a hart reaches memory and CSRs. *)
Record asm_bus (W : Type) := mk_bus {
  bus_ld : Z → cmd W Z;
  bus_sd : Z → Z → cmd W unit;
  bus_csrr : csr → cmd W Z;
  bus_csrw : csr → Z → cmd W unit
}.
Arguments bus_ld {W}. Arguments bus_sd {W}. Arguments bus_csrr {W}. Arguments bus_csrw {W}.

Section asm.
Context {W : Type}.
Implicit Types (s : hart W).
#[local] Abbreviation A := (cmd (hart W)).

Definition rx (n : nat) s : Z := if (n =? 0)%nat then 0 else xr s n.
Definition upd (n : nat) (v : Z) (f : nat → Z) (m : nat) : Z := if (m =? n)%nat then v else f m.
Definition wx (n : nat) (v : Z) s : hart W :=
  if (n =? 0)%nat then s else mk_hart (upd n (u64 v) (xr s)) (hw s).

(** Run a command of the state behind the registers. *)
Definition behind {B} (c : cmd W B) : A B := λ s,
  match c (hw s) with
  | Ok b w => Ok b (mk_hart (xr s) w)
  | Panic m w => Panic m (mk_hart (xr s) w)
  | Fault p w => Fault p (mk_hart (xr s) w)
  | Hang w => Hang (mk_hart (xr s) w)
  end.

Definition op (rd : nat) (f : hart W → Z) : A unit := modify (λ s, wx rd (f s) s).

Definition li (rd : nat) (imm : Z) : A unit := op rd (λ _, imm).
Definition la (rd : nat) (sym : Z) : A unit := li rd sym.
Definition mv (rd rs : nat) : A unit := op rd (rx rs).
Definition add (rd rs1 rs2 : nat) : A unit := op rd (λ s, rx rs1 s + rx rs2 s).
Definition sub (rd rs1 rs2 : nat) : A unit := op rd (λ s, rx rs1 s - rx rs2 s).
Definition mul (rd rs1 rs2 : nat) : A unit := op rd (λ s, rx rs1 s * rx rs2 s).
Definition or_ (rd rs1 rs2 : nat) : A unit := op rd (λ s, rx rs1 s .| rx rs2 s).
Definition ori (rd rs1 : nat) (imm : Z) : A unit := op rd (λ s, rx rs1 s .| imm).
Definition addi (rd rs1 : nat) (imm : Z) : A unit := op rd (λ s, rx rs1 s + imm).
Definition slli (rd rs1 : nat) (sh : Z) : A unit := op rd (λ s, rx rs1 s .<< sh).
Definition srli (rd rs1 : nat) (sh : Z) : A unit := op rd (λ s, rx rs1 s .>> sh).

Context (bus : asm_bus W).

Definition ld (rd : nat) (off : Z) (base : nat) : A unit :=
  p ← gets (λ s, u64 (rx base s + off));
  v ← behind (bus_ld bus p);
  modify (wx rd v).
Definition sd (rs : nat) (off : Z) (base : nat) : A unit :=
  p ← gets (λ s, u64 (rx base s + off));
  v ← gets (rx rs);
  behind (bus_sd bus p v).
Definition csrr (rd : nat) (c : csr) : A unit := v ← behind (bus_csrr bus c); modify (wx rd v).
Definition csrw (c : csr) (rs : nat) : A unit := v ← gets (rx rs); behind (bus_csrw bus c v).
(** [csrrw rd, c, rs]: the old value of the CSR and the old value of [rs]. *)
Definition csrrw (rd : nat) (c : csr) (rs : nat) : A unit :=
  v ← gets (rx rs);
  o ← behind (bus_csrr bus c);
  behind (bus_csrw bus c v) ;;
  modify (wx rd o).
End asm.

(** ** Running instructions *)

Section run.
Context {W : Type}.
Implicit Types (s : hart W).

Lemma op_seq {B} rd f (k : cmd (hart W) B) s : (op rd f ;; k) s = k (wx rd (f s) s).
Proof. done. Qed.
Lemma op_run rd f s : op rd f s = Ok tt (wx rd (f s) s).
Proof. done. Qed.
Lemma behind_ok {B} (c : cmd W B) b w s : c (hw s) = Ok b w → behind c s = Ok b (mk_hart (xr s) w).
Proof. intros H. unfold behind. by rewrite H. Qed.

Lemma wx_hw n v s : hw (wx n v s) = hw s.
Proof. unfold wx. by destruct (n =? 0)%nat. Qed.
Lemma rx_wx n m v s : rx m (wx n v s) = if (m =? n)%nat && negb (n =? 0)%nat then u64 v else rx m s.
Proof.
  unfold rx, wx, upd. destruct (Nat.eqb_spec n 0) as [->|]; cbn [negb andb].
  - by rewrite andb_false_r.
  - rewrite andb_true_r. destruct (Nat.eqb_spec m n) as [->|]; cbn [xr].
    + destruct (Nat.eqb_spec n 0); [done|]. by rewrite Nat.eqb_refl.
    + destruct (Nat.eqb_spec m 0); [done|]. by destruct (Nat.eqb_spec m n).
Qed.

Section mem.
Context (bus : asm_bus W).
Lemma ld_ok rd off base v w s : bus_ld bus (u64 (rx base s + off)) (hw s) = Ok v w →
  ld bus rd off base s = Ok tt (wx rd v (mk_hart (xr s) w)).
Proof. intros H. unfold ld. csimp. by erewrite bind_ok by by apply behind_ok. Qed.
Lemma sd_ok rs off base w s : bus_sd bus (u64 (rx base s + off)) (rx rs s) (hw s) = Ok tt w →
  sd bus rs off base s = Ok tt (mk_hart (xr s) w).
Proof. intros H. unfold sd. csimp. by apply behind_ok. Qed.
Lemma csrr_ok rd c v w s : bus_csrr bus c (hw s) = Ok v w →
  csrr bus rd c s = Ok tt (wx rd v (mk_hart (xr s) w)).
Proof. intros H. unfold csrr. by erewrite bind_ok by by apply behind_ok. Qed.
Lemma csrw_ok c rs w s : bus_csrw bus c (rx rs s) (hw s) = Ok tt w →
  csrw bus c rs s = Ok tt (mk_hart (xr s) w).
Proof. intros H. unfold csrw. csimp. by apply behind_ok. Qed.
Lemma csrw_seq {B} c rs w s (k : cmd (hart W) B) : bus_csrw bus c (rx rs s) (hw s) = Ok tt w →
  (csrw bus c rs ;; k) s = k (mk_hart (xr s) w).
Proof. intros H. by erewrite bind_ok by by apply csrw_ok. Qed.
End mem.
End run.

(** [asm_run]: run the register instructions at the head of a sequence. *)
Ltac asm_ops := unfold la, li, mv, add, sub, mul, or_, ori, addi, slli, srli.
Ltac asm_run := repeat first [rewrite op_seq | rewrite bind_bind].
