(* ===== verification/GuestHart.v ===== *)
(** * GuestHart: a hart that runs a guest's assembly code

    The CSRs a guest sees under the names of supervisor mode (the H extension
    redirects them to the vs* registers), the hardware's part of an interrupt, and
    calls of C functions, for guest/keygrab/core/main.S and
    guest/printer/core/main.S.  Code that returns from a trap or waits is at an
    address [gpc]; the instructions in between run without it. *)

From S2P Require Import Prelude Layout Memory Machine Asm.

Definition s0 := 8%nat.
Definition s1 := 9%nat.
Definition ra := 1%nat.

(** Bits of sstatus and sie, and the codes of the interrupts (privileged
    specification). *)
Definition SIE_BIT := 1.
Definition SPIE_BIT := 5.
Definition SPP_BIT := 8.
Definition IRQ_S_TIMER := 5.
Definition IRQ_S_EXT := 9.

Record gcpu (W : Type) := mk_gcpu { gcsr : csr → Z; gpc : Z; gw : W }.
Arguments mk_gcpu {W}. Arguments gcsr {W}. Arguments gpc {W}. Arguments gw {W}.

Section guest.
Context {W : Type}.
Implicit Types (g : gcpu W) (s : hart (gcpu W)).
#[local] Abbreviation A := (cmd (hart (gcpu W))).

Definition set_gcsr (c : csr) (v : Z) g : gcpu W :=
  mk_gcpu (λ d, if decide (d = c) then v else gcsr g d) (gpc g) (gw g).
Definition set_pc (p : Z) g : gcpu W := mk_gcpu (gcsr g) p (gw g).

(** The guests of the repository use no plain loads and stores of memory. *)
Definition guest_bus : asm_bus (gcpu W) :=
  mk_bus _ (λ a, fault a) (λ a _, fault a) (λ c, gets (λ g, gcsr g c)) (λ c v, modify (set_gcsr c v)).

(** [csrs c, rs] *)
Definition csrs (c : csr) (rs : nat) : A unit :=
  v ← gets (rx rs);
  o ← behind (bus_csrr guest_bus c);
  behind (bus_csrw guest_bus c (o .| v)).

(** A command of the devices. *)
Definition io {B} (c : cmd W B) : A B := λ s,
  match c (gw (hw s)) with
  | Ok b w => Ok b (mk_hart (xr s) (mk_gcpu (gcsr (hw s)) (gpc (hw s)) w))
  | Panic m w => Panic m (mk_hart (xr s) (mk_gcpu (gcsr (hw s)) (gpc (hw s)) w))
  | Fault p w => Fault p (mk_hart (xr s) (mk_gcpu (gcsr (hw s)) (gpc (hw s)) w))
  | Hang w => Hang (mk_hart (xr s) (mk_gcpu (gcsr (hw s)) (gpc (hw s)) w))
  end.

(** Calls of C functions.  The calling convention: arguments in a0 to a2, the result
    in a0; the compiler may use every register but those the callee has to keep.
    [clobber] is what it leaves in them. *)
Definition callee_saved (n : nat) : bool :=
  (n =? 2)%nat || (n =? 3)%nat || (n =? 4)%nat || (n =? 8)%nat || (n =? 9)%nat || ((18 <=? n) && (n <=? 27))%nat.
Context (clobber : (nat → Z) → nat → Z).
Definition after_call (f : nat → Z) (n : nat) : Z := if callee_saved n then f n else clobber f n.

Definition call_c {B} (f : Z → Z → Z → cmd W B) (result : B → Z) : A unit :=
  x ← gets (rx a0);
  y ← gets (rx a1);
  z ← gets (rx a2);
  r ← io (f x y z);
  modify (λ s, wx a0 (result r) (mk_hart (after_call (xr s)) (hw s))).
(** A function without a result leaves anything in a0. *)
Definition call_void (f : Z → Z → Z → cmd W unit) : A unit :=
  x ← gets (rx a0);
  y ← gets (rx a1);
  z ← gets (rx a2);
  io (f x y z) ;;
  modify (λ s, mk_hart (after_call (xr s)) (hw s)).

(** ** Interrupts *)

Definition set_bit (n : Z) (b : bool) (x : Z) : Z := if b then Z.setbit x n else Z.clearbit x n.

(** The interrupt is taken: enabled in sie and in sstatus. *)
Definition takes (irq : Z) g : bool :=
  Z.testbit (gcsr g sstatus) SIE_BIT && Z.testbit (gcsr g sie) irq.

(** The hart saves the pc and the interrupt enable, disables interrupts and goes to
    stvec (direct mode). *)
Definition trap_entry (irq : Z) g : gcpu W :=
  let x := gcsr g sstatus in
  let x := set_bit SPIE_BIT (Z.testbit x SIE_BIT) x in
  let x := set_bit SIE_BIT false x in
  let x := set_bit SPP_BIT true x in
  set_pc (gcsr g stvec) (set_gcsr sstatus x (set_gcsr sepc (gpc g) (set_gcsr scause (2 ^ 63 + irq) g))).

Definition guest_sret : A unit :=
  modify (λ s, let g := hw s in let x := gcsr g sstatus in
    let x := set_bit SIE_BIT (Z.testbit x SPIE_BIT) x in
    let x := set_bit SPIE_BIT true x in
    let x := set_bit SPP_BIT false x in
    mk_hart (xr s) (set_pc (gcsr g sepc) (set_gcsr sstatus x g))).

(** The loop in which both guests wait, an instruction at a time: [suspend: wfi] and
    [j suspend] after it.  Control that is elsewhere is in no code of the loop. *)
Definition in_loop (suspend pc : Z) : Prop := pc = suspend ∨ pc = suspend + 4.
Definition wait_loop (suspend : Z) : A unit :=
  pc ← gets (λ s, gpc (hw s));
  if pc =? suspend then behind (modify (set_pc (suspend + 4)))
  else if pc =? suspend + 4 then behind (modify (set_pc suspend))
  else fault pc.

(** ** Lemmas *)

Lemma wait_loop_run suspend s : in_loop suspend (gpc (hw s)) →
  ∃ pc, in_loop suspend pc ∧ wait_loop suspend s = Ok tt (mk_hart (xr s) (set_pc pc (hw s))).
Proof.
  intros H. unfold wait_loop. rewrite bind_gets. destruct (Z.eqb_spec (gpc (hw s)) suspend).
  - exists (suspend + 4). split; [by right|done].
  - destruct H as [|H]; [done|]. rewrite (proj2 (Z.eqb_eq _ _) H). exists suspend. split; [by left|done].
Qed.

Lemma set_bit_spec n b x i : 0 <= n → 0 <= i → Z.testbit (set_bit n b x) i = if i =? n then b else Z.testbit x i.
Proof.
  intros Hn Hi. unfold set_bit. destruct b.
  - rewrite Z.setbit_eqb by done. rewrite Z.eqb_sym. by destruct (i =? n).
  - rewrite Z.clearbit_eqb by done. rewrite Z.eqb_sym. destruct (i =? n); cbn; by rewrite ?andb_true_r, ?andb_false_r.
Qed.

Lemma io_ok {B} (c : cmd W B) b w s : c (gw (hw s)) = Ok b w →
  io c s = Ok b (mk_hart (xr s) (mk_gcpu (gcsr (hw s)) (gpc (hw s)) w)).
Proof. intros H. unfold io. by rewrite H. Qed.

(** A call with the arguments and the state of the devices it is made with. *)
Lemma call_void_seq {B} f (k : A B) x y z w w' s : f x y z w = Ok tt w' →
  rx a0 s = x → rx a1 s = y → rx a2 s = z → gw (hw s) = w →
  (call_void f ;; k) s = k (mk_hart (after_call (xr s)) (mk_gcpu (gcsr (hw s)) (gpc (hw s)) w')).
Proof.
  intros H <- <- <- <-. unfold call_void. csimp. erewrite bind_ok by by apply io_ok. done.
Qed.
Lemma call_c_seq {B C} f res (k : A C) (b : B) x y z w w' s : f x y z w = Ok b w' →
  rx a0 s = x → rx a1 s = y → rx a2 s = z → gw (hw s) = w →
  (call_c f res ;; k) s =
  k (wx a0 (res b) (mk_hart (after_call (xr s)) (mk_gcpu (gcsr (hw s)) (gpc (hw s)) w'))).
Proof.
  intros H <- <- <- <-. unfold call_c. csimp. erewrite bind_ok by by apply io_ok. done.
Qed.
Lemma wx_hart n v f g : n ≠ O → wx n v (mk_hart f g) = mk_hart (upd n (u64 v) f) g :> hart (gcpu W).
Proof. intros Hn. unfold wx. by destruct (Nat.eqb_spec n 0). Qed.
Lemma rx_hart n f g : n ≠ O → rx n (mk_hart f g : hart (gcpu W)) = f n.
Proof. intros Hn. unfold rx. by destruct (Nat.eqb_spec n 0). Qed.
Lemma csrw_guest {B} c rs (k : A B) s :
  (csrw guest_bus c rs ;; k) s = k (mk_hart (xr s) (set_gcsr c (rx rs s) (hw s))).
Proof. done. Qed.
Lemma csrr_guest {B} c rd (k : A B) s :
  (csrr guest_bus rd c ;; k) s = k (wx rd (gcsr (hw s) c) s).
Proof. by destruct s. Qed.
Lemma csrs_guest {B} c rs (k : A B) s :
  (csrs c rs ;; k) s = k (mk_hart (xr s) (set_gcsr c (gcsr (hw s) c .| rx rs s) (hw s))).
Proof. done. Qed.

Lemma gcsr_set_eq c v g : gcsr (set_gcsr c v g) c = v.
Proof. cbn. by rewrite decide_True. Qed.
Lemma gcsr_set_ne c v d g : d ≠ c → gcsr (set_gcsr c v g) d = gcsr g d.
Proof. intros H. cbn. by rewrite decide_False. Qed.

(** A handler that keeps sstatus, sie and sepc returns to where the trap came from,
    with the interrupts enabled as they were. *)
Lemma guest_sret_returns irq irq' g f x : takes irq g = true →
  gcsr x sstatus = gcsr (trap_entry irq' g) sstatus → gcsr x sie = gcsr g sie → gcsr x sepc = gpc g →
  ∃ g', guest_sret (mk_hart f x) = Ok tt (mk_hart f g') ∧
    takes irq g' = true ∧ gpc g' = gpc g ∧ gw g' = gw x ∧ (∀ c, c ≠ sstatus → gcsr g' c = gcsr x c).
Proof.
  intros [H1 H2]%andb_true_iff Hs Hi Hp. eexists. split; [reflexivity|]. split_and!; [|done|done|].
  - unfold takes. cbn [hw gcsr set_pc]. rewrite gcsr_set_eq, gcsr_set_ne, Hi, H2, andb_true_r, Hs by done.
    cbn [trap_entry gcsr set_pc]. rewrite gcsr_set_eq.
    rewrite !set_bit_spec by (unfold SIE_BIT, SPIE_BIT, SPP_BIT; lia). done.
  - intros c Hc. cbn [hw gcsr set_pc]. by rewrite gcsr_set_ne.
Qed.
End guest.

(** ** Running code

    The state is kept as registers [mk_hart f g]; [g_ops] runs the instructions at
    the head of a sequence, with the values they compute simplified, and [g_call]
    a call with given arguments whose effect on the devices is known. *)
Ltac g_val x := eval cbn -[Z.shiftl u64 u32 u8 s32 s8 Z.add Z.lor gcsr set_gcsr] in x.
Ltac g_op :=
  lazymatch goal with
  | |- context [(op ?rd ?f ≫= ?k) (mk_hart ?r ?g)] =>
      let v := g_val (u64 (f (mk_hart r g))) in
      change ((op rd f ≫= k) (mk_hart r g)) with (k tt (mk_hart (upd rd v r) g)); cbv beta
  | |- context [(csrw guest_bus ?c ?rs ≫= ?k) (mk_hart ?r ?g)] =>
      let v := g_val (rx rs (mk_hart r g)) in
      change ((csrw guest_bus c rs ≫= k) (mk_hart r g)) with (k tt (mk_hart r (set_gcsr c v g))); cbv beta
  | |- context [(csrs ?c ?rs ≫= ?k) (mk_hart ?r ?g)] =>
      let v := g_val (rx rs (mk_hart r g)) in
      change ((csrs c rs ≫= k) (mk_hart r g)) with (k tt (mk_hart r (set_gcsr c (gcsr g c .| v) g))); cbv beta
  | |- context [(csrr guest_bus ?rd ?c ≫= ?k) (mk_hart ?r ?g)] =>
      let v := g_val (u64 (gcsr g c)) in
      change ((csrr guest_bus rd c ≫= k) (mk_hart r g)) with (k tt (mk_hart (upd rd v r) g)); cbv beta
  | |- context [((?m ≫= ?k) ≫= ?l) (mk_hart ?r ?g)] => rewrite bind_bind
  end.
Ltac g_ops := repeat g_op.
Ltac g_call3 H x y z :=
  lazymatch goal with
  | |- context [(call_void ?c ?f ≫= ?k) (mk_hart ?r ?g)] =>
      rewrite (call_void_seq c f (k tt) x y z _ _ (mk_hart r g) H); [|reflexivity..]
  | |- context [(call_c ?c ?f ?res ≫= ?k) (mk_hart ?r ?g)] =>
      rewrite (call_c_seq c f res (k tt) _ x y z _ _ (mk_hart r g) H); [|reflexivity..]
  end; cbn [xr hw gcsr gpc].
Ltac g_state tac := lazymatch goal with |- context [(_ ≫= _) (mk_hart ?r ?g)] => tac r g end.
Ltac g_call2 H x y := g_state ltac:(fun r g => g_call3 H x y (rx a2 (mk_hart r g))).
Ltac g_call1 H x := g_state ltac:(fun r g => g_call2 H x (rx a1 (mk_hart r g))).
Ltac g_call H := g_state ltac:(fun r g => g_call1 H (rx a0 (mk_hart r g))).
