(* ===== verification/Sbi.v ===== *)
(** * Sbi: calls to the firmware, lib/sbi.c and include/sbi.h

    The firmware is not part of the repository: it is the parameter [ecall], what
    the machine does on the instruction with the argument registers given.  The
    wrappers fill in the registers; [sbi_decode] is the SBI specification's reading
    of them. *)

From Stdlib Require Import Strings.String.
From S2P Require Import Prelude.

(** ** include/sbi.h *)

Definition SBI_SUCCESS := 0.
Definition SBI_ERR_FAILED := -1.
Definition SBI_ERR_NOT_SUPPORTED := -2.
Definition SBI_ERR_INVALID_PARAM := -3.
Definition SBI_ERR_DENIED := -4.
Definition SBI_ERR_INVALID_ADDRESS := -5.
Definition SBI_ERR_ALREADY_AVAILABLE := -6.
Definition SBI_ERR_ALREADY_STARTED := -7.
Definition SBI_ERR_ALREADY_STOPPED := -8.

Record sbiret := mk_sbiret { error : Z; value : Z }.

(** The registers of a call: a0 to a5, the function (a6) and extension (a7). *)
Record sbi_regs := mk_sbi_regs {
  sbi_a0 : Z; sbi_a1 : Z; sbi_a2 : Z; sbi_a3 : Z; sbi_a4 : Z; sbi_a5 : Z; sbi_a6 : Z; sbi_a7 : Z
}.

(** ** lib/sbi.c *)

Section sbi.
Context {W : Type} (ecall : sbi_regs → cmd W (Z * Z)).
#[local] Abbreviation M := (cmd W).

(** The results are [long]: the two's complement reading of a0 and a1. *)
Definition sbi_ecall (eid fid a0 a1 a2 a3 a4 a5 : Z) : M sbiret :=
  '(r0, r1) ← ecall (mk_sbi_regs (u64 a0) (u64 a1) (u64 a2) (u64 a3) (u64 a4) (u64 a5) (u64 fid) (u64 eid));
  mret (mk_sbiret (s64 r0) (s64 r1)).

Definition sbi_get_spec_version : M sbiret := sbi_ecall 0x10 0 0 0 0 0 0 0.
Definition sbi_get_impl_id : M sbiret := sbi_ecall 0x10 1 0 0 0 0 0 0.
Definition sbi_get_impl_version : M sbiret := sbi_ecall 0x10 2 0 0 0 0 0 0.
Definition sbi_probe_extension (extension_id : Z) : M sbiret :=
  sbi_ecall 0x10 3 extension_id 0 0 0 0 0.
Definition sbi_get_mvendorid : M sbiret := sbi_ecall 0x10 4 0 0 0 0 0 0.
Definition sbi_get_marchid : M sbiret := sbi_ecall 0x10 5 0 0 0 0 0 0.
Definition sbi_get_mimpid : M sbiret := sbi_ecall 0x10 6 0 0 0 0 0 0.

Definition sbi_set_timer (stime_value : Z) : M sbiret :=
  sbi_ecall 0x54494D45 0 stime_value 0 0 0 0 0.

Definition sbi_send_ipi (hart_mask hart_mask_base : Z) : M sbiret :=
  sbi_ecall 0x735049 0 hart_mask hart_mask_base 0 0 0 0.

Definition sbi_remote_fence_i (hart_mask hart_mask_base : Z) : M sbiret :=
  sbi_ecall 0x52464e43 0 hart_mask hart_mask_base 0 0 0 0.
Definition sbi_remote_sfence_vma (hart_mask hart_mask_base start_addr size : Z) : M sbiret :=
  sbi_ecall 0x52464e43 1 hart_mask hart_mask_base start_addr size 0 0.
Definition sbi_remote_sfence_vma_asid (hart_mask hart_mask_base start_addr size asid : Z) : M sbiret :=
  sbi_ecall 0x52464e43 2 hart_mask hart_mask_base start_addr size asid 0.
Definition sbi_remote_hfence_gvma_vmid (hart_mask hart_mask_base start_addr size vmid : Z) : M sbiret :=
  sbi_ecall 0x52464e43 3 hart_mask hart_mask_base start_addr size vmid 0.
Definition sbi_remote_hfence_gvma (hart_mask hart_mask_base start_addr size : Z) : M sbiret :=
  sbi_ecall 0x52464e43 4 hart_mask hart_mask_base start_addr size 0 0.
Definition sbi_remote_hfence_vvma_asid (hart_mask hart_mask_base start_addr size asid : Z) : M sbiret :=
  sbi_ecall 0x52464e43 5 hart_mask hart_mask_base start_addr size asid 0.
Definition sbi_remote_hfence_vvma (hart_mask hart_mask_base start_addr size : Z) : M sbiret :=
  sbi_ecall 0x52464e43 6 hart_mask hart_mask_base start_addr size 0 0.

Definition sbi_hart_start (hartid start_addr opaque : Z) : M sbiret :=
  sbi_ecall 0x48534d 0 hartid start_addr opaque 0 0 0.
Definition sbi_hart_stop : M sbiret := sbi_ecall 0x48534d 1 0 0 0 0 0 0.
Definition sbi_hart_get_status (hartid : Z) : M sbiret := sbi_ecall 0x48534d 2 hartid 0 0 0 0 0.
Definition sbi_hart_suspend (suspend_type resume_addr opaque : Z) : M sbiret :=
  sbi_ecall 0x48534d 3 (u32 suspend_type) resume_addr opaque 0 0 0.
End sbi.

(** ** The SBI specification's reading of the registers *)

Inductive sbi_request :=
| GetSpecVersion | GetImplId | GetImplVersion | ProbeExtension (eid : Z)
| GetMvendorid | GetMarchid | GetMimpid
| SetTimer (stime : Z)
| SendIpi (mask base : Z)
| RemoteFenceI (mask base : Z)
| RemoteSfenceVma (mask base start size : Z)
| RemoteSfenceVmaAsid (mask base start size asid : Z)
| RemoteHfenceGvmaVmid (mask base start size vmid : Z)
| RemoteHfenceGvma (mask base start size : Z)
| RemoteHfenceVvmaAsid (mask base start size asid : Z)
| RemoteHfenceVvma (mask base start size : Z)
| HartStart (hartid start opaque : Z) | HartStop | HartGetStatus (hartid : Z)
| HartSuspend (type resume opaque : Z).

(** Extension "BASE" is 0x10; the others are named by ASCII letters, as the
    specification assigns them. *)
Definition ascii_eid (s : string) : Z :=
  fold_left (λ n c, n * 256 + Z.of_N (Ascii.N_of_ascii c)) (String.list_ascii_of_string s) 0.

Definition sbi_decode (r : sbi_regs) : option sbi_request :=
  let '(mk_sbi_regs a0 a1 a2 a3 a4 a5 fid eid) := r in
  if eid =? 0x10 then
    match fid with
    | 0 => Some GetSpecVersion | 1 => Some GetImplId | 2 => Some GetImplVersion
    | 3 => Some (ProbeExtension a0) | 4 => Some GetMvendorid | 5 => Some GetMarchid
    | 6 => Some GetMimpid | _ => None
    end
  else if eid =? ascii_eid "TIME" then if fid =? 0 then Some (SetTimer a0) else None
  else if eid =? ascii_eid "sPI" then if fid =? 0 then Some (SendIpi a0 a1) else None
  else if eid =? ascii_eid "RFNC" then
    match fid with
    | 0 => Some (RemoteFenceI a0 a1)
    | 1 => Some (RemoteSfenceVma a0 a1 a2 a3)
    | 2 => Some (RemoteSfenceVmaAsid a0 a1 a2 a3 a4)
    | 3 => Some (RemoteHfenceGvmaVmid a0 a1 a2 a3 a4)
    | 4 => Some (RemoteHfenceGvma a0 a1 a2 a3)
    | 5 => Some (RemoteHfenceVvmaAsid a0 a1 a2 a3 a4)
    | 6 => Some (RemoteHfenceVvma a0 a1 a2 a3)
    | _ => None
    end
  else if eid =? ascii_eid "HSM" then
    match fid with
    | 0 => Some (HartStart a0 a1 a2) | 1 => Some HartStop | 2 => Some (HartGetStatus a0)
    | 3 => Some (HartSuspend a0 a1 a2) | _ => None
    end
  else None.

(** The wrapper of a request. *)
Definition sbi_wrapper {W} (ecall : sbi_regs → cmd W (Z * Z)) (q : sbi_request) : cmd W sbiret :=
  match q with
  | GetSpecVersion => sbi_get_spec_version ecall
  | GetImplId => sbi_get_impl_id ecall
  | GetImplVersion => sbi_get_impl_version ecall
  | ProbeExtension e => sbi_probe_extension ecall e
  | GetMvendorid => sbi_get_mvendorid ecall
  | GetMarchid => sbi_get_marchid ecall
  | GetMimpid => sbi_get_mimpid ecall
  | SetTimer t => sbi_set_timer ecall t
  | SendIpi m b => sbi_send_ipi ecall m b
  | RemoteFenceI m b => sbi_remote_fence_i ecall m b
  | RemoteSfenceVma m b s n => sbi_remote_sfence_vma ecall m b s n
  | RemoteSfenceVmaAsid m b s n a => sbi_remote_sfence_vma_asid ecall m b s n a
  | RemoteHfenceGvmaVmid m b s n v => sbi_remote_hfence_gvma_vmid ecall m b s n v
  | RemoteHfenceGvma m b s n => sbi_remote_hfence_gvma ecall m b s n
  | RemoteHfenceVvmaAsid m b s n a => sbi_remote_hfence_vvma_asid ecall m b s n a
  | RemoteHfenceVvma m b s n => sbi_remote_hfence_vvma ecall m b s n
  | HartStart h s o => sbi_hart_start ecall h s o
  | HartStop => sbi_hart_stop ecall
  | HartGetStatus h => sbi_hart_get_status ecall h
  | HartSuspend t r o => sbi_hart_suspend ecall t r o
  end.

Definition request_args (q : sbi_request) : list Z :=
  match q with
  | GetSpecVersion | GetImplId | GetImplVersion | GetMvendorid | GetMarchid | GetMimpid | HartStop => []
  | ProbeExtension x | SetTimer x | HartGetStatus x => [x]
  | SendIpi m b | RemoteFenceI m b => [m; b]
  | HartStart x y z | HartSuspend x y z => [x; y; z]
  | RemoteSfenceVma a b c d | RemoteHfenceGvma a b c d | RemoteHfenceVvma a b c d => [a; b; c; d]
  | RemoteSfenceVmaAsid a b c d e | RemoteHfenceGvmaVmid a b c d e | RemoteHfenceVvmaAsid a b c d e =>
      [a; b; c; d; e]
  end.

(** Arguments of C type [unsigned long]; the suspend type is a [uint32]. *)
Definition request_ok (q : sbi_request) : Prop :=
  Forall (λ x, 0 <= x < 2 ^ 64) (request_args q) ∧
  match q with HartSuspend t _ _ => t < 2 ^ 32 | _ => True end.

(** C33: every wrapper of lib/sbi.c makes exactly one firmware call, whose registers
    the SBI specification decodes to the request the wrapper is named after, with
    the caller's arguments, and returns the two result registers as error and
    value. *)
Theorem sbi_wrappers_decode {W} (ecall : sbi_regs → cmd W (Z * Z)) q w : request_ok q →
  ∃ r, sbi_decode r = Some q ∧
    sbi_wrapper ecall q w =
    match ecall r w with
    | Ok (x, y) w' => Ok (mk_sbiret (s64 x) (s64 y)) w'
    | Panic m w' => Panic m w'
    | Fault p w' => Fault p w'
    | Hang w' => Hang w'
    end.
Proof.
  intros [Ha Hs]. assert (E : ∀ e f x0 x1 x2 x3 x4 x5, sbi_ecall ecall e f x0 x1 x2 x3 x4 x5 w =
    match ecall (mk_sbi_regs (u64 x0) (u64 x1) (u64 x2) (u64 x3) (u64 x4) (u64 x5) (u64 f) (u64 e)) w with
    | Ok (x, y) w' => Ok (mk_sbiret (s64 x) (s64 y)) w'
    | Panic m w' => Panic m w' | Fault p w' => Fault p w' | Hang w' => Hang w' end).
  { intros. unfold sbi_ecall, mbind, cmd_bind. by destruct (ecall _ w) as [[? ?]| | |]. }
  destruct q; cbn [request_args sbi_wrapper] in *; rewrite ?Forall_cons in Ha;
    (eexists; split; [|apply E]); rewrite ?(u32_id type), ?u64_id by lia; reflexivity.
Qed.

(** A firmware that answers every call with its first argument. *)
Lemma sbi_wrappers_decode_witness :
  let fw (r : sbi_regs) : cmd unit (Z * Z) := mret (0, sbi_a0 r) in
  ∃ r, sbi_decode r = Some (HartStart 1 0x80100000 7) ∧
       sbi_wrapper fw (HartStart 1 0x80100000 7) tt = Ok (mk_sbiret 0 1) tt.
Proof.
  intros fw. destruct (sbi_wrappers_decode fw (HartStart 1 0x80100000 7) tt) as (r & Hd & Hr).
  - split; [repeat constructor; lia|done].
  - exists r. split; [exact Hd|]. done.
Defined.
