(* ===== verification/Lock.v ===== *)
(** * Lock: spinlocks and barriers under interleaving (lib/lock.c, lib/spinlock.S)

    A hart is a program counter inside the routine it executes; a step of hart
    [i] performs one memory access of it on the shared structure, and a schedule
    is the list of harts that step.  Memory is sequentially consistent.  A hart
    that spins repeats its load: its step leaves the state as it is. *)

From S2P Require Import Prelude Layout Memory Machine.

(** ** Counting harts *)

Fixpoint cnt {A} (f : A → bool) (l : list A) : Z :=
  match l with [] => 0 | x :: l' => Z.b2z (f x) + cnt f l' end.

Lemma cnt_range {A} (f : A → bool) l : 0 <= cnt f l <= Z.of_nat (length l).
Proof. induction l as [|x l IH]; cbn [cnt length]; [lia|]. destruct (f x); cbn [Z.b2z]; lia. Qed.

Lemma cnt_insert {A} (f : A → bool) l i x y : l !! i = Some x →
  cnt f (<[i := y]> l) = cnt f l - Z.b2z (f x) + Z.b2z (f y).
Proof.
  revert i. induction l as [|z l IH]; intros [|i]; try done; cbn [cnt].
  - intros [= ->]. simpl. lia.
  - intros H. change (<[S i := y]> (z :: l)) with (z :: <[i := y]> l). cbn [cnt]. rewrite (IH i) by done. lia.
Qed.

Lemma cnt_one {A} (f : A → bool) l i x : l !! i = Some x → f x = true → 1 <= cnt f l.
Proof.
  revert i. induction l as [|z l IH]; intros [|i]; try done; cbn [cnt]; pose proof (cnt_range f l).
  - intros [= ->] ->. cbn [Z.b2z]. lia.
  - intros H1 H2. specialize (IH i H1 H2). destruct (f z); cbn [Z.b2z]; lia.
Qed.

Lemma cnt_two {A} (f : A → bool) l i j x y : i ≠ j → l !! i = Some x → l !! j = Some y →
  f x = true → f y = true → 2 <= cnt f l.
Proof.
  revert i j. induction l as [|z l IH]; intros [|i] [|j] Hne; try done; cbn [cnt].
  - intros [= ->] Hy -> Hfy. pose proof (cnt_one f l j y Hy Hfy). cbn [Z.b2z]. lia.
  - intros Hx [= ->] Hfx ->. pose proof (cnt_one f l i x Hx Hfx). cbn [Z.b2z]. lia.
  - intros Hx Hy Hfx Hfy. assert (2 <= cnt f l) by (apply (IH i j); [congruence|done..]).
    destruct (f z); cbn [Z.b2z]; lia.
Qed.

Lemma cnt_all {A} (f : A → bool) l i x : cnt f l = Z.of_nat (length l) → l !! i = Some x → f x = true.
Proof.
  revert i. induction l as [|z l IH]; intros [|i]; try done; cbn [cnt length]; pose proof (cnt_range f l).
  - intros H1 [= ->]. destruct (f x); [done|]. cbn [Z.b2z] in H1. lia.
  - intros H1 H2. apply (IH i); [|done]. destruct (f z); cbn [Z.b2z] in H1; lia.
Qed.

Lemma cnt_pos {A} (f : A → bool) l : 0 < cnt f l → ∃ i x, l !! i = Some x ∧ f x = true.
Proof.
  induction l as [|z l IH]; cbn [cnt]; [lia|]. destruct (f z) eqn:E; intros H; [by exists O, z|].
  destruct IH as (i & x & Hi & Hx); [cbn [Z.b2z] in H; lia|]. by exists (S i), x.
Qed.

(** A schedule is run from left to right. *)
Definition run {S} (step : nat → S → S) (sched : list nat) (s : S) : S := foldl (λ s i, step i s) s sched.

Lemma run_invariant {S} (step : nat → S → S) (I : S → Prop) :
  (∀ i s, I s → I (step i s)) → ∀ sched s, I s → I (run step sched s).
Proof. intros Hs sched. induction sched as [|i sched IH]; intros s Hi; [done|]. apply IH, Hs, Hi. Qed.

Lemma run_app {S} (step : nat → S → S) s1 s2 (s : S) : run step (s1 ++ s2) s = run step s2 (run step s1 s).
Proof. apply foldl_app. Qed.

(** ** Initialisation (include/lock.h, lib/lock.c): a lock is its word; init_barrier
    leaves [passed] as it is, a static initialiser makes it zero *)

Definition LOCK_INITIALIZER : Z := 0.
Definition BARRIER_INITIALIZER (cnt : Z) : barrier := mk_barrier cnt cnt 0 LOCK_INITIALIZER.

Definition init_lock (locked : Z) : Z := 0.
Definition init_barrier (b : barrier) (count : Z) : barrier :=
  mk_barrier count count (passed b) (init_lock (bar_lk b)).

(** ** The spinlock of lib/spinlock.S *)

Module Spinlock.

(** Where a hart is: outside; at the load of the non-atomic test; at the
    amoswap; inside the critical section. *)
Inductive spin_pc := Outside | Test | Swap | Inside.

#[export] Instance pc_eq_dec : EqDecision spin_pc.
Proof. solve_decision. Defined.

Record spin_state := mk_state { locked : Z; harts : list spin_pc }.

(** [acquire]: li; 1: lw; bnez 1b; amoswap.w.aq; bnez 1b; ret.
    [release]: amoswap.w.rl zero. *)
Definition spin_step (i : nat) (s : spin_state) : spin_state :=
  match harts s !! i with
  | Some Outside => mk_state (locked s) (<[i := Test]> (harts s))
  | Some Test =>
      if negb (locked s =? 0) then s else mk_state (locked s) (<[i := Swap]> (harts s))
  | Some Swap =>
      mk_state 1 (<[i := if negb (locked s =? 0) then Test else Inside]> (harts s))
  | Some Inside => mk_state 0 (<[i := Outside]> (harts s))
  | None => s
  end.

Definition inside (p : spin_pc) : bool := match p with Inside => true | _ => false end.

(** init_lock, nobody inside. *)
Definition init (n : nat) : spin_state := mk_state LOCK_INITIALIZER (replicate n Outside).

(** The lock word is the number of harts inside. *)
Definition inv (s : spin_state) : Prop := cnt inside (harts s) = locked s ∧ 0 <= locked s <= 1.

Lemma spin_inv_init n : inv (init n).
Proof.
  split; [|unfold init, LOCK_INITIALIZER; simpl; lia]. simpl. induction n as [|n IH]; [done|]. cbn [replicate cnt]. by rewrite IH.
Qed.

Lemma spin_inv_step i s : inv s → inv (spin_step i s).
Proof.
  intros [Hc Hl]. unfold spin_step. destruct (harts s !! i) as [[]|] eqn:E; [| | | |done].
  - split; [|done]. cbn [harts locked]. rewrite (cnt_insert _ _ _ _ _ E). simpl. lia.
  - destruct (Z.eqb_spec (locked s) 0); cbn [negb]; [|done].
    split; [|done]. cbn [harts locked]. rewrite (cnt_insert _ _ _ _ _ E). simpl. lia.
  - split; cbn [harts locked]; [|lia]. rewrite (cnt_insert _ _ _ _ _ E).
    destruct (Z.eqb_spec (locked s) 0); simpl; lia.
  - split; cbn [harts locked]; [|lia]. rewrite (cnt_insert _ _ _ _ _ E).
    pose proof (cnt_one inside _ _ _ E eq_refl). simpl. lia.
Qed.

(** C29: mutual exclusion: whatever the number of harts and the interleaving of
    their loads and swaps, no two harts are between acquire and release of the
    same lock at the same time. *)
Theorem spinlock_mutual_exclusion n sched i j :
  let s := run spin_step sched (init n) in
  harts s !! i = Some Inside → harts s !! j = Some Inside → i = j.
Proof.
  intros s Hi Hj. destruct (run_invariant spin_step inv spin_inv_step sched _ (spin_inv_init n)) as [Hc Hl].
  fold s in Hc, Hl. destruct (decide (i = j)) as [|Hne]; [done|].
  pose proof (cnt_two inside _ _ _ _ _ Hne Hi Hj eq_refl eq_refl). lia.
Qed.

Lemma spinlock_mutual_exclusion_witness :
  let s := run spin_step [0; 1; 1; 0; 1; 0]%nat (init 2) in
  harts s !! 1%nat = Some Inside ∧ ∀ j, harts s !! j = Some Inside → j = 1%nat.
Proof.
  split; [done|]. intros j Hj.
  by apply (spinlock_mutual_exclusion 2 [0; 1; 1; 0; 1; 0]%nat).
Defined.

(** A free lock is acquired: from every reachable state in which nobody is
    inside, a hart that is trying gets the lock when it runs on its own, in at
    most two steps; and a hart that is trying never gets past a held lock. *)
Theorem spinlock_progress n sched i p :
  let s := run spin_step sched (init n) in
  harts s !! i = Some p → p = Test ∨ p = Swap →
  (locked s = 0 → harts (run spin_step (if decide (p = Test) then [i; i] else [i]) s) !! i = Some Inside) ∧
  (locked s ≠ 0 → ∀ q, harts (spin_step i s) !! i = Some q → q = Test).
Proof.
  intros s Hi Hp. pose proof (lookup_lt_Some _ _ _ Hi) as Hlt. split.
  - intros Hl. destruct Hp as [-> | ->]; cbn [run foldl decide].
    + rewrite decide_True by done. unfold run. cbn [foldl].
      unfold spin_step at 2. rewrite Hi, Hl. cbn [negb Z.eqb]. unfold spin_step. cbn [harts locked].
      rewrite list_lookup_insert_eq by done. cbn [negb Z.eqb harts].
      apply list_lookup_insert_eq. by rewrite length_insert.
    + rewrite decide_False by done. unfold run. cbn [foldl].
      unfold spin_step. rewrite Hi, Hl. cbn [negb Z.eqb harts]. by apply list_lookup_insert_eq.
  - intros Hl q. unfold spin_step. rewrite Hi, (proj2 (Z.eqb_neq _ 0) Hl).
    destruct Hp as [-> | ->]; cbn [negb harts].
    + rewrite Hi. by intros [= <-].
    + rewrite list_lookup_insert_eq by done. by intros [= <-].
Qed.

Lemma spinlock_progress_witness :
  let s := run spin_step [0; 0]%nat (init 1) in harts (run spin_step [0]%nat s) !! 0%nat = Some Inside.
Proof.
  destruct (spinlock_progress 1 [0; 0]%nat 0 Swap) as [H _]; [done|by right|]. by apply H.
Defined.
End Spinlock.

(** ** The barrier of lib/lock.c *)

Module Barrier.

(** Where a hart is inside wait_barrier; the loads and stores of the volatile
    fields are separate steps, and acquire is the step that takes the free lock
    (Spinlock). *)
Inductive bar_pc :=
| Acquire1 | DecLoad | DecStore (t : Z) | Release1
| TestLast
| StorePassed | StoreTokens | SpinPassed
| SpinTokens | Acquire2 | IncLoad | IncStore (p : Z) | Release2
| Done.

Record bar_state := mk_state { b : barrier; harts : list bar_pc }.

Definition set_tokens x (b : barrier) := mk_barrier (initial b) x (passed b) (bar_lk b).
Definition set_passed x (b : barrier) := mk_barrier (initial b) (tokens b) x (bar_lk b).
Definition set_lk x (b : barrier) := mk_barrier (initial b) (tokens b) (passed b) x.

(** The next program counter and the effect on the barrier; [None]: the hart
    spins. *)
Definition wait_barrier (p : bar_pc) (b : barrier) : option (bar_pc * barrier) :=
  match p with
  | Acquire1 => if bar_lk b =? 0 then Some (DecLoad, set_lk 1 b) else None
  | DecLoad => Some (DecStore (tokens b), b)
  | DecStore t => Some (Release1, set_tokens (s32 (t - 1)) b)
  | Release1 => Some (TestLast, set_lk 0 b)
  | TestLast => Some (if tokens b =? 0 then StorePassed else SpinTokens, b)
  | StorePassed => Some (StoreTokens, set_passed 1 b)
  | StoreTokens => Some (SpinPassed, set_tokens (initial b) b)
  | SpinPassed => if negb (passed b =? initial b) then None else Some (Done, b)
  | SpinTokens => if negb (tokens b =? initial b) then None else Some (Acquire2, b)
  | Acquire2 => if bar_lk b =? 0 then Some (IncLoad, set_lk 1 b) else None
  | IncLoad => Some (IncStore (passed b), b)
  | IncStore p => Some (Release2, set_passed (s32 (p + 1)) b)
  | Release2 => Some (Done, set_lk 0 b)
  | Done => None
  end.

Definition bar_step (i : nat) (s : bar_state) : bar_state :=
  match harts s !! i with
  | Some p => match wait_barrier p (b s) with
              | Some (p', b') => mk_state b' (<[i := p']> (harts s))
              | None => s
              end
  | None => s
  end.

(** [n] harts call wait_barrier on a barrier for [n] harts. *)
Definition init (n : nat) : bar_state :=
  mk_state (init_barrier (mk_barrier 0 0 0 0) (Z.of_nat n)) (replicate n Acquire1).

(** ** Nobody passes early *)

(** The hart has entered: its decrement has been stored. *)
Definition entered (p : bar_pc) : bool :=
  match p with Acquire1 | DecLoad | DecStore _ => false | _ => true end.
Definition holds (p : bar_pc) : bool :=
  match p with
  | DecLoad | DecStore _ | Release1 | IncLoad | IncStore _ | Release2 => true
  | _ => false
  end.

(** Where harts can be while some hart has not entered. *)
Definition early (tk : Z) (p : bar_pc) : Prop :=
  match p with
  | Acquire1 | DecLoad | Release1 | TestLast | SpinTokens => True
  | DecStore t => t = tk
  | _ => False
  end.

Record inv (n : Z) (s : bar_state) : Prop := {
  i_len : Z.of_nat (length (harts s)) = n;
  i_initial : initial (b s) = n;
  i_lock : cnt holds (harts s) = bar_lk (b s) ∧ 0 <= bar_lk (b s) <= 1;
  i_early : cnt entered (harts s) < n →
    tokens (b s) = n - cnt entered (harts s) ∧ ∀ i p, harts s !! i = Some p → early (tokens (b s)) p
}.

Lemma cnt_replicate f n p : f p = false → cnt (A:=bar_pc) f (replicate n p) = 0.
Proof. intros Hf. induction n as [|n IH]; cbn [replicate cnt]; [done|]. by rewrite Hf, IH. Qed.

Lemma bar_inv_init n : inv (Z.of_nat n) (init n).
Proof.
  split; cbn [init harts b init_barrier init_lock initial bar_lk tokens].
  - by rewrite length_replicate.
  - done.
  - rewrite cnt_replicate by done. unfold init_lock; lia.
  - rewrite cnt_replicate by done. split; [lia|]. by intros i p [-> _]%lookup_replicate.
Qed.

(** Mutual exclusion of the two critical sections. *)
Lemma bar_inv_excl n s i j p q : inv n s → harts s !! i = Some p → harts s !! j = Some q →
  holds p = true → holds q = true → i = j.
Proof.
  intros Hs Hp Hq Hhp Hhq. destruct (decide (i = j)) as [|Hne]; [done|].
  pose proof (cnt_two holds _ _ _ _ _ Hne Hp Hq Hhp Hhq). destruct (i_lock _ _ Hs). lia.
Qed.

(** A step from an early position keeps the others' positions early. *)
Lemma early_insert n s i p p' tk : inv n s → harts s !! i = Some p →
  (∀ j q, harts s !! j = Some q → early (tokens (b s)) q) →
  early tk p' → (tk ≠ tokens (b s) → holds p = true) →
  ∀ j q, <[i := p']> (harts s) !! j = Some q → early tk q.
Proof.
  intros Hs Hp He Hp' Htk j q Hq. destruct (decide (i = j)) as [<-|Hne].
  - rewrite list_lookup_insert_eq in Hq by (by eapply lookup_lt_Some). by injection Hq as <-.
  - rewrite list_lookup_insert_ne in Hq by done. specialize (He j q Hq).
    destruct (decide (tk = tokens (b s))) as [->|Hd]; [done|].
    destruct q; try done. exfalso. apply Hne. by eapply bar_inv_excl; [exact Hs|exact Hp|exact Hq|apply Htk|].
Qed.

Lemma bar_inv_step n i s : 0 < n < 2 ^ 31 → inv n s → inv n (bar_step i s).
Proof.
  intros Hn Hs. unfold bar_step. destruct (harts s !! i) as [p|] eqn:Hp; [|done].
  destruct (wait_barrier p (b s)) as [[p' b']|] eqn:Hx; [|done].
  pose proof Hs as [Hlen Hini [Hlk Hlb] Hear].
  pose proof (cnt_insert holds _ _ _ p' Hp) as Hch. pose proof (cnt_insert entered _ _ _ p' Hp) as Hce.
  assert (Hhold : holds p = true → bar_lk (b s) = 1).
  { intros Hh. pose proof (cnt_one holds _ _ _ Hp Hh). lia. }
  split; cbn [harts b].
  - by rewrite length_insert.
  - destruct p; cbn [wait_barrier] in Hx; repeat case_match; simplify_eq; done.
  - rewrite Hch.
    destruct p; cbn [wait_barrier] in Hx; repeat case_match; simplify_eq; b2p; cbn [holds Z.b2z set_lk bar_lk set_tokens set_passed];
      try specialize (Hhold eq_refl); try lia; by destruct (tokens (b s) =? 0); cbn; lia.
  - rewrite Hce. intros Hlt. assert (Hk : cnt entered (harts s) < n).
    { pose proof (cnt_range entered (harts s)).
      destruct p; cbn [wait_barrier] in Hx; repeat case_match; simplify_eq; cbn [entered Z.b2z] in Hlt; try lia;
        destruct (tokens _ =? 0); cbn [entered Z.b2z] in Hlt; lia. }
    destruct (Hear Hk) as [Ht He]. pose proof (He i p Hp) as Hep.
    pose proof (early_insert n s i p p' (tokens b') Hs Hp He) as Hins.
    assert (Hent : entered p = true → 1 <= cnt entered (harts s)) by (intros; by eapply cnt_one).
    destruct p; try done; cbn [wait_barrier] in Hx; repeat case_match; simplify_eq; b2p;
      cbn [entered holds early Z.b2z set_lk set_tokens tokens] in *; try (by split; [lia|apply Hins]).
    + rewrite s32_id in * by (pose proof (cnt_range entered (harts s)); lia).
      split; [lia|]. by apply Hins.
    + destruct (Z.eqb_spec (tokens (b s)) 0); [lia|]. cbn [entered Z.b2z]. split; [lia|by apply Hins].
    + specialize (Hent eq_refl). lia.
Qed.

(** Safety of the barrier: when [n] harts use a fresh barrier for [n] harts,
    then at no point of any interleaving has a hart left wait_barrier while
    another has not yet entered it. *)
Theorem barrier_nobody_early n sched i j p :
  0 < Z.of_nat n < 2 ^ 31 →
  let s := run bar_step sched (init n) in
  harts s !! i = Some Done → harts s !! j = Some p → entered p = true.
Proof.
  intros Hn s Hi Hj.
  assert (Hs : inv (Z.of_nat n) s) by (apply run_invariant; [intros; by apply bar_inv_step|apply bar_inv_init]).
  pose proof (cnt_range entered (harts s)). pose proof (i_len _ _ Hs) as Hlen.
  destruct (decide (cnt entered (harts s) < Z.of_nat n)) as [Hlt|Hge].
  - destruct (i_early _ _ Hs Hlt) as [_ He]. destruct (He i Done Hi).
  - eapply cnt_all; [|exact Hj]. lia.
Qed.

(** Hart 0 waits while hart 1 resets: both leave. *)
Definition good_schedule : list nat :=
  [0; 0; 0; 0; 0; 1; 1; 1; 1; 1; 1; 1; 0; 0; 0; 0; 0; 1]%nat.

Lemma barrier_nobody_early_witness :
  let s := run bar_step good_schedule (init 2) in
  harts s = [Done; Done] ∧ ∃ p, harts s !! 1%nat = Some p ∧ entered p = true.
Proof.
  split; [by vm_compute|]. exists Done. split; [by vm_compute|].
  by apply (barrier_nobody_early 2 good_schedule 0 1).
Defined.

(** ** Both harts last *)

(** Both harts decrement before either looks whether it is the last. *)
Definition bad_schedule : list nat :=
  [0; 0; 0; 0; 1; 1; 1; 1; 0; 1; 0; 0; 1; 1]%nat.

(** C37: the barrier can deadlock: LAST_HART reads the token count after the lock
    has been released, so when both of two harts decrement before either reads,
    both take themselves for the last one; each then waits for the other to be
    counted as passed, and from that reachable state no schedule lets either
    hart leave. *)
Theorem barrier_deadlock :
  let s := run bar_step bad_schedule (init 2) in
  harts s = [SpinPassed; SpinPassed] ∧ ∀ sched, run bar_step sched s = s.
Proof.
  assert (E : run bar_step bad_schedule (init 2) = mk_state (mk_barrier 2 2 1 0) [SpinPassed; SpinPassed])
    by by vm_compute.
  rewrite E. split; [done|]. intros sched. unfold run.
  induction sched as [|[|[|i]] sched IH]; [done|exact IH|exact IH|exact IH].
Qed.
End Barrier.
