(* ===== verification/BarrierRounds.v ===== *)
(** * BarrierRounds: a barrier that is used again and again (lib/lock.c)

    wait_barrier resets the barrier, so main and vm_run use the same one several
    times.  Here the harts call it in a loop: two harts, as the machine has, stay
    in step for ever, and the only way to get stuck is that both take themselves
    for the last one; three harts can also get stuck because one of them starts the
    next round too early. *)

From S2P Require Import Prelude Layout Memory Machine Lock.
Import Lock.Barrier.

#[export] Instance bar_pc_dec : EqDecision bar_pc.
Proof. solve_decision. Defined.
#[export] Instance barrier_dec : EqDecision barrier.
Proof. solve_decision. Defined.

(** The barrier, where each hart is, and how many calls it has begun. *)
Record rounds := mk_rounds { r_bar : bar_state; calls : list Z }.

(** A hart that has left wait_barrier calls it again. *)
Definition round_step (i : nat) (s : rounds) : rounds :=
  match harts (r_bar s) !! i with
  | Some Done => mk_rounds (mk_state (b (r_bar s)) (<[i := Acquire1]> (harts (r_bar s))))
                   (<[i := calls s !!! i + 1]> (calls s))
  | _ => mk_rounds (bar_step i (r_bar s)) (calls s)
  end.

Definition start (n : nat) : rounds := mk_rounds (init n) (replicate n 1).

(** The calls a hart has entered and the ones it has left. *)
Definition calls_entered (p : bar_pc) (k : Z) : Z := if entered p then k else k - 1.
Definition calls_left (p : bar_pc) (k : Z) : Z := if decide (p = Done) then k else k - 1.

(** ** Two harts *)

(** What the harts' behaviour depends on: the numbers of calls only through their
    difference. *)
Record duo := mk_duo { d_bar : barrier; d_0 : bar_pc; d_1 : bar_pc; ahead : Z }.
#[export] Instance duo_dec : EqDecision duo.
Proof. solve_decision. Defined.

Definition duo_call (p : bar_pc) (x : barrier) : bar_pc * barrier :=
  match p with Done => (Acquire1, x) | _ => default (p, x) (wait_barrier p x) end.
Definition duo_step (i : bool) (s : duo) : duo :=
  let 'mk_duo x p q d := s in
  if i then let '(q', x') := duo_call q x in mk_duo x' p q' (if decide (q = Done) then d - 1 else d)
  else let '(p', x') := duo_call p x in mk_duo x' p' q (if decide (p = Done) then d + 1 else d).

Fixpoint explore (fuel : nat) (seen todo : list duo) : list duo :=
  match fuel, todo with
  | S fuel', s :: todo' =>
      if decide (s ∈ seen) then explore fuel' seen todo'
      else explore fuel' (s :: seen) (duo_step false s :: duo_step true s :: todo')
  | _, _ => seen
  end.

Definition duo_start : duo := mk_duo (mk_barrier 2 2 0 0) Acquire1 Acquire1 0.
Definition duo_states : list duo := explore (Z.to_nat 5000) [] [duo_start].

(** What is checked of every state the two harts can reach. *)
Definition in_step (s : duo) : bool :=
  let 'mk_duo _ p q d := s in
  (calls_left p d <=? calls_entered q 0) && (calls_left q 0 <=? calls_entered p d).
Definition duo_stuck (s : duo) : bool := bool_decide (duo_step false s = s) && bool_decide (duo_step true s = s).
Definition both_last (s : duo) : bool := bool_decide (d_0 s = SpinPassed ∧ d_1 s = SpinPassed).

Definition duo_check (s : duo) : bool :=
  bool_decide (duo_step false s ∈ duo_states) && bool_decide (duo_step true s ∈ duo_states) &&
  in_step s && eqb (duo_stuck s) (both_last s).

Lemma duo_start_in : duo_start ∈ duo_states.
Proof. apply (bool_decide_unpack _). by vm_compute. Qed.
Lemma duo_all_checked : forallb duo_check duo_states = true.
Proof. by vm_compute. Qed.
(** A hart that waits in the call the other one has left gets on. *)
Definition lets_go (s : duo) : bool :=
  let 'mk_duo x p q d := s in
  (if decide (p = Done ∧ q ≠ Done ∧ d = 0) then bool_decide (is_Some (wait_barrier q x)) else true) &&
  (if decide (q = Done ∧ p ≠ Done ∧ d = 0) then bool_decide (is_Some (wait_barrier p x)) else true).

Lemma duo_all_let_go : forallb lets_go duo_states = true.
Proof. by vm_compute. Qed.
#[global] Opaque duo_states.

Lemma duo_checked s : s ∈ duo_states →
  (∀ i, duo_step i s ∈ duo_states) ∧ in_step s = true ∧ duo_stuck s = both_last s.
Proof.
  intros Hs. pose proof (proj1 (forallb_forall _ _) duo_all_checked s (proj1 (list_elem_of_In _ _) Hs)) as H.
  unfold duo_check in H. apply andb_true_iff in H as [H H4]. apply andb_true_iff in H as [H H3].
  apply andb_true_iff in H as [H1 H2]. split_and!; [|done|by apply eqb_prop].
  apply bool_decide_eq_true in H1, H2. by intros [|].
Qed.

(** The calls of two harts and the state they make. *)
Definition follows (s : rounds) (t : duo) : Prop :=
  harts (r_bar s) = [d_0 t; d_1 t] ∧ b (r_bar s) = d_bar t ∧ ∃ k, calls s = [k + ahead t; k].

Lemma duo_call_wait p x : p ≠ Done → duo_call p x = default (p, x) (wait_barrier p x).
Proof. by destruct p. Qed.
Lemma round_step_wait i s p : harts (r_bar s) !! i = Some p → p ≠ Done →
  round_step i s = mk_rounds (bar_step i (r_bar s)) (calls s).
Proof. intros E Hp. unfold round_step. rewrite E. by destruct p. Qed.

Definition hart_of_nat (i : nat) : option bool := match i with O => Some false | 1%nat => Some true | _ => None end.

Lemma follows_step s t i : follows s t →
  follows (round_step i s) (match hart_of_nat i with Some j => duo_step j t | None => t end).
Proof.
  destruct s as [[x hs] cs], t as [x' p q d]. intros (Eh & Eb & k & Ec). cbn in Eh, Eb, Ec. subst.
  destruct i as [|[|i]]; cbn [hart_of_nat duo_step].
  - destruct (decide (p = Done)) as [->|Hp].
    + split; [done|]. split; [done|]. exists k. cbn. f_equal. lia.
    + erewrite round_step_wait by done. rewrite duo_call_wait by done. unfold bar_step. cbn.
      destruct (wait_barrier p x') as [[p' y]|]; cbn; (split; [done|]; split; [done|]; by exists k).
  - destruct (decide (q = Done)) as [->|Hq].
    + split; [done|]. split; [done|]. exists (k + 1). cbn. f_equal. lia.
    + erewrite round_step_wait by done. rewrite duo_call_wait by done. unfold bar_step. cbn.
      destruct (wait_barrier q x') as [[q' y]|]; cbn; (split; [done|]; split; [done|]; by exists k).
  - split; [done|]. split; [done|]. by exists k.
Qed.

Lemma follows_run sched : ∃ t, t ∈ duo_states ∧ follows (run round_step sched (start 2)) t.
Proof.
  apply (run_invariant round_step (λ s, ∃ t, t ∈ duo_states ∧ follows s t)).
  - intros i s (t & Ht & Hf). eexists. split; [|by apply follows_step]. destruct (hart_of_nat i); [|done].
    by apply duo_checked.
  - exists duo_start. split; [exact duo_start_in|]. split; [done|]. split; [done|]. by exists 1.
Qed.

(** The states in which no hart moves. *)
Lemma follows_stuck s t : follows s t → t ∈ duo_states →
  (∀ i, round_step i s = s) ↔ harts (r_bar s) = [SpinPassed; SpinPassed].
Proof.
  intros Hf Ht. destruct (duo_checked t Ht) as (_ & _ & Hst). unfold both_last in Hst. split.
  - intros Hs. assert (H : ∀ i j, hart_of_nat i = Some j → duo_step j t = t).
    { intros i j Hj. pose proof (follows_step s t i Hf) as (H1 & H2 & k & H3). rewrite Hs, Hj in H1, H2, H3.
      destruct Hf as (G1 & G2 & l & G3). rewrite G1 in H1. rewrite G2 in H2. rewrite G3 in H3.
      destruct (duo_step j t) as [x p q d], t as [x' p' q' d']. cbn in *. simplify_eq. f_equal. lia. }
    assert (E : duo_stuck t = true).
    { unfold duo_stuck. by rewrite (bool_decide_eq_true_2 _ (H 0%nat false eq_refl)), (bool_decide_eq_true_2 _ (H 1%nat true eq_refl)). }
    rewrite E in Hst. symmetry in Hst. apply bool_decide_eq_true in Hst as [E0 E1].
    destruct Hf as (-> & _). by rewrite E0, E1.
  - destruct s as [[x hs] cs], t as [x' p q d], Hf as (E & Eb & k & _). cbn in E, Eb. subst. cbn. intros [= -> ->].
    rewrite bool_decide_eq_true_2 in Hst by done. unfold duo_stuck in Hst.
    apply andb_true_iff in Hst as [H0 _]. apply bool_decide_eq_true in H0. cbn in H0.
    intros [|[|i]]; unfold round_step, bar_step; cbn; destruct (negb _); try done; by injection H0.
Qed.

(** In every interleaving the harts stay in step. *)
Lemma rounds_in_step sched : let s := run round_step sched (start 2) in
  ∀ i j p q k l, harts (r_bar s) !! i = Some p → harts (r_bar s) !! j = Some q →
    calls s !! i = Some k → calls s !! j = Some l → i ≠ j → calls_left p k <= calls_entered q l.
Proof.
  intros s. destruct (follows_run sched) as (t & Ht & Hf). fold s in Hf.
  destruct (duo_checked t Ht) as (_ & Hin & _). destruct t as [x p q d]. destruct Hf as (-> & _ & k & ->). cbn in *.
  apply andb_true_iff in Hin as [H0 H1]. apply Z.leb_le in H0, H1.
  assert (A : calls_left p (k + d) <= calls_entered q k ∧ calls_left q k <= calls_entered p (k + d)).
  { unfold calls_left, calls_entered in *. repeat case_decide; repeat case_match; lia. }
  intros [|[|i]] [|[|j]] p' q' k' l' E1 E2 E3 E4 Hne; try done; cbn in *; simplify_eq; lia.
Qed.

(** A hart that waits in the call the other one has left gets on. *)
Lemma rounds_let_go sched : let s := run round_step sched (start 2) in
  ∀ i j q k, harts (r_bar s) !! i = Some Done → harts (r_bar s) !! j = Some q → q ≠ Done →
    calls s !! i = Some k → calls s !! j = Some k → is_Some (wait_barrier q (b (r_bar s))).
Proof.
  intros s. destruct (follows_run sched) as (t & Ht & Hf). fold s in Hf.
  pose proof (proj1 (forallb_forall _ _) duo_all_let_go t (proj1 (list_elem_of_In _ _) Ht)) as H.
  destruct t as [x p q d]. destruct Hf as (-> & -> & k & ->). cbn [lets_go] in H.
  apply andb_true_iff in H as [H0 H1]. cbn.
  intros [|[|i]] [|[|j]] q' k' E1 E2 Hne E3 E4; cbn in *; simplify_eq.
  - rewrite decide_True in H0 by (split_and!; [done..|lia]). by apply bool_decide_eq_true in H0.
  - rewrite decide_True in H1 by (split_and!; [done..|lia]). by apply bool_decide_eq_true in H1.
Qed.

(** Two harts are stuck in one case only. *)
Lemma rounds_stuck sched : let s := run round_step sched (start 2) in
  (∀ i, round_step i s = s) ↔ harts (r_bar s) = [SpinPassed; SpinPassed].
Proof. intros s. destruct (follows_run sched) as (t & Ht & Hf). by apply (follows_stuck s t). Qed.

(** Two harts may use a barrier as often as they like: in every interleaving no
    hart has left its k-th call while the other has not entered its own k-th call,
    so the parts of main and vm_run stay in step; and the harts get stuck in one
    case only, when both took themselves for the last one and each waits for the
    other to pass. *)
Theorem barrier_rounds sched : let s := run round_step sched (start 2) in
  (∀ i j p q k l, harts (r_bar s) !! i = Some p → harts (r_bar s) !! j = Some q →
     calls s !! i = Some k → calls s !! j = Some l → i ≠ j → calls_left p k <= calls_entered q l) ∧
  ((∀ i, round_step i s = s) ↔ harts (r_bar s) = [SpinPassed; SpinPassed]).
Proof. split; [exact (rounds_in_step sched)|exact (rounds_stuck sched)]. Qed.

(** ** Three harts *)

(** Hart 2 comes last and resets; hart 0 sees the reset, leaves and begins the next
    round before hart 1 has looked. *)
Definition hasty_schedule : list nat :=
  (replicate 5 0 ++ replicate 5 1 ++ replicate 7 2 ++ replicate 11 0)%nat.

(** The self-reset is not enough for three harts: the last hart waits for the
    others to pass, but nobody keeps a fast hart from taking a token of the next
    round while a slow one still waits to see the reset.  The slow hart then never
    sees it, the last hart never sees all others pass, and no schedule lets any of
    the three go on. *)
Theorem barrier_reuse_deadlock :
  let s := run round_step hasty_schedule (start 3) in
  harts (r_bar s) = [SpinTokens; SpinTokens; SpinPassed] ∧ calls s = [2; 1; 1] ∧
  ∀ sched, run round_step sched s = s.
Proof.
  assert (E : run round_step hasty_schedule (start 3) =
    mk_rounds (mk_state (mk_barrier 3 2 2 0) [SpinTokens; SpinTokens; SpinPassed]) [2; 1; 1]) by by vm_compute.
  rewrite E. split; [done|]. split; [done|]. intros sched. unfold run.
  induction sched as [|[|[|[|i]]] sched IH]; [done|exact IH..].
Qed.

(** Two rounds of two harts, and the beginning of a third. *)
Lemma barrier_rounds_witness :
  let s := run round_step (good_schedule ++ [0; 1] ++ good_schedule ++ [0; 0; 0; 0])%nat (start 2) in
  harts (r_bar s) = [Release1; Done] ∧ calls s = [3; 2] ∧ calls_left Release1 3 <= calls_entered Done 2.
Proof.
  split; [by vm_compute|]. split; [by vm_compute|].
  by apply (barrier_rounds (good_schedule ++ [0; 1] ++ good_schedule ++ [0; 0; 0; 0])%nat) with (i := 0%nat) (j := 1%nat).
Defined.
