(* ===== verification/LockTest.v ===== *)
(** * LockTest: the tests of the locks (test/lock_test.c)

    spinlock_test and barrier_test as interleaved steps, with the characters that
    reach the serial port.  A call of printf is one step: it holds printf_lk while
    it prints (Printf), and no two harts hold it at once (Spinlock).  A hart's id
    is its index in the list of program counters.  The tests announce what a
    correct output is; here it is proved of every interleaving. *)

From S2P Require Import Prelude Layout Memory Machine Lock BarrierRounds.

(** buf[0] = c; buf[0] += hartid() *)
Definition letter (c : Z) (h : nat) : Z := u8 (c + Z.of_nat h).
Definition block (c : Z) (h : nat) : list Z := replicate 400 (letter c h).
Definition newline : list Z := [10].

(** A property of every hart after one of them moved. *)
Lemma insert_all {A} (P : nat → A → Prop) (l : list A) h q :
  P h q → (∀ j r, j ≠ h → l !! j = Some r → P j r) → ∀ j r, <[h := q]> l !! j = Some r → P j r.
Proof.
  intros Hq Hr j r Hj. destruct (decide (j = h)) as [->|Hne].
  - apply list_lookup_insert_Some in Hj as [(_ & -> & _)|[? _]]; done.
  - rewrite list_lookup_insert_ne in Hj by done. by apply Hr.
Qed.

(** ** spinlock_test *)

Module SpinlockTest.

Definition banner : list (list Z) :=
  [ newline ++ chars "SPINLOCK TEST (only runs on 3 cpus)" ++ newline;
    chars "[info] successful if As, Bs and Cs are seperated when using locks" ++ newline;
    chars "[info] first output is just sanity check and As, Bs and Cs should be mixed" ++ newline;
    chars "No locking:" ++ newline ].
Definition note_text : list Z := newline ++ chars "Using locks:" ++ newline.

(** Where a hart is: before the printf calls of hart 0 (the texts still to print;
    none: at the store to init_finished); in the loop on init_finished; in the
    first loop with so many turns left (none: at the store to its hart<n>_finished);
    before the load of hart<k>_finished in the second loop; in acquire; before the
    test, the printf and the store of written_note; in the last loop (no turn left:
    in release); after the test. *)
Inductive spin_test_pc :=
| Banner (rest : list (list Z)) | WaitInit
| Mixed (n : nat) | WaitFinished (k : nat)
| Test | Swap
| TestNote | Note | SetNote
| Locked (n : nat) | Done.

#[export] Instance spin_test_pc_dec : EqDecision spin_test_pc.
Proof. solve_decision. Defined.

(** The globals of lock_test.c, the harts and the output. *)
Record spin_test_state := mk_test {
  lock_test_lk : Z;
  init_finished : Z;
  finished : list Z;            (* hart0_finished, hart1_finished, hart2_finished *)
  written_note : Z;
  pcs : list spin_test_pc;
  out : list Z
}.

Definition move (s : spin_test_state) (h : nat) (p : spin_test_pc) : spin_test_state :=
  mk_test (lock_test_lk s) (init_finished s) (finished s) (written_note s) (<[h := p]> (pcs s)) (out s).
Definition print (s : spin_test_state) (t : list Z) (h : nat) (p : spin_test_pc) : spin_test_state :=
  mk_test (lock_test_lk s) (init_finished s) (finished s) (written_note s) (<[h := p]> (pcs s)) (out s ++ t).

(** One access of hart [h] in spinlock_test. *)
Definition spinlock_test (h : nat) (s : spin_test_state) : spin_test_state :=
  match pcs s !! h with
  | Some (Banner (t :: rest)) => print s t h (Banner rest)
  | Some (Banner []) =>
      mk_test (lock_test_lk s) 1 (finished s) (written_note s) (<[h := WaitInit]> (pcs s)) (out s)
  | Some WaitInit => if init_finished s =? 0 then s else move s h (Mixed 400)
  | Some (Mixed (S n)) => print s [letter 65 h] h (Mixed n)
  | Some (Mixed 0) =>
      mk_test (lock_test_lk s) (init_finished s) (<[h := 1]> (finished s)) (written_note s)
        (<[h := WaitFinished 0]> (pcs s)) (out s)
  | Some (WaitFinished k) =>
      if finished s !!! k =? 0 then move s h (WaitFinished 0)
      else move s h (if decide (k = 2%nat) then Test else WaitFinished (S k))
  | Some Test => if negb (lock_test_lk s =? 0) then s else move s h Swap
  | Some Swap =>
      mk_test 1 (init_finished s) (finished s) (written_note s)
        (<[h := if negb (lock_test_lk s =? 0) then Test else TestNote]> (pcs s)) (out s)
  | Some TestNote => move s h (if written_note s =? 0 then Note else Locked 400)
  | Some Note => print s note_text h SetNote
  | Some SetNote =>
      mk_test (lock_test_lk s) (init_finished s) (finished s) 1 (<[h := Locked 400]> (pcs s)) (out s)
  | Some (Locked (S n)) => print s [letter 65 h] h (Locked n)
  | Some (Locked 0) =>
      mk_test 0 (init_finished s) (finished s) (written_note s) (<[h := Done]> (pcs s)) (out s)
  | Some Done | None => s
  end.

(** [n] harts call spinlock_test; only hart 0 has anything to do before the loop on
    init_finished. *)
Definition spin_test_start (n : nat) : spin_test_state :=
  mk_test LOCK_INITIALIZER 0 [0; 0; 0] 0
    ((λ h, if decide (h = O) then Banner banner else WaitInit) <$> seq 0 n) [].

(** *** What holds at every moment of the test on three harts *)

Definition critical (p : spin_test_pc) : bool :=
  match p with TestNote | Note | SetNote | Locked _ => true | _ => false end.
Definition past (p : spin_test_pc) : bool :=
  match p with Banner _ | WaitInit | Mixed _ => false | _ => true end.
(** The flags a hart has seen set. *)
Definition seen (p : spin_test_pc) : nat :=
  match p with Banner _ | WaitInit | Mixed _ => 0 | WaitFinished k => k | _ => 3 end.
(** The letters a hart has printed in the first loop. *)
Definition mixed (p : spin_test_pc) : nat :=
  match p with Banner _ | WaitInit => 0 | Mixed n => 400 - n | _ => 400 end.
Definition bounded (p : spin_test_pc) : Prop :=
  match p with Mixed n | Locked n => (n <= 400)%nat | WaitFinished k => (k <= 2)%nat | _ => True end.

(** The output under the lock when nobody holds it. *)
Definition settled (note : Z) (order : list nat) : list Z :=
  if note =? 0 then [] else note_text ++ concat (block 65 <$> order).
(** The output under the lock when hart [h] is at [p] and holds it. *)
Definition section (note : Z) (post : list Z) (order : list nat) (h : nat) (p : spin_test_pc) : Prop :=
  match p with
  | TestNote => post = settled note order
  | Note => note = 0 ∧ post = []
  | SetNote => note = 0 ∧ post = note_text
  | Locked n => note ≠ 0 ∧ post = settled note order ++ replicate (400 - n) (letter 65 h)
  | _ => True
  end.

Record hart_ok (init : Z) (flags : list Z) (note : Z) (mix post : list Z) (order : list nat)
  (h : nat) (p : spin_test_pc) : Prop := {
  h_flag : flags !! h = Some (Z.b2z (past p));
  h_seen : ∀ j, (j < seen p)%nat → flags !! j = Some 1;
  h_mix : filter (λ c, c = letter 65 h) mix = replicate (mixed p) (letter 65 h);
  h_bounded : bounded p;
  h_init : match p with Banner _ => h = O ∧ init = 0 | WaitInit => True | _ => init ≠ 0 end;
  h_section : section note post order h p
}.

(** The banner so far, the output of the first loops, the output under the lock
    and the harts that are through with it. *)
Record good (s : spin_test_state) (head mix post : list Z) (order : list nat) : Prop := {
  g_len : length (pcs s) = 3%nat;
  g_harts : ∀ h p, pcs s !! h = Some p →
    hart_ok (init_finished s) (finished s) (written_note s) mix post order h p;
  g_lock : cnt critical (pcs s) = lock_test_lk s ∧ 0 <= lock_test_lk s <= 1;
  g_settled : lock_test_lk s = 0 → post = settled (written_note s) order;
  g_order : NoDup order ∧ ∀ h, h ∈ order ↔ pcs s !! h = Some Done;
  g_note : if written_note s =? 0 then order = [] else ∀ j, (j < 3)%nat → finished s !! j = Some 1;
  g_letters : Forall (λ c, ∃ h, (h < 3)%nat ∧ c = letter 65 h) mix;
  g_head : if init_finished s =? 0 then ∃ r, pcs s !! O = Some (Banner r) ∧ head ++ concat r = concat banner
           else head = concat banner;
  g_out : out s = head ++ mix ++ post
}.

Lemma good_start : good (spin_test_start 3) [] [] [] [].
Proof.
  split; try done.
  - intros [|[|[|h]]] p [= <-]; split; try done; cbn; lia.
  - split; [by constructor|]. intros [|[|[|h]]]; cbn; (split; [set_solver|done]).
  - cbn. by eexists.
Qed.

(** A hart outside the critical section: the output under the lock is not its. *)
Lemma section_outside note post order h p : critical p = false → section note post order h p.
Proof. by destruct p. Qed.

(** While some hart has not finished its first loop nobody has come to the lock. *)
Lemma good_quiet s head mix post order h p : good s head mix post order →
  pcs s !! h = Some p → past p = false →
  lock_test_lk s = 0 ∧ written_note s = 0 ∧ order = [] ∧ post = [].
Proof.
  intros G Hp Hpast. pose proof (lookup_lt_Some _ _ _ Hp) as Hh. rewrite (g_len _ _ _ _ _ G) in Hh.
  assert (Hno : ¬ ∀ j, (j < 3)%nat → finished s !! j = Some 1).
  { intros H. pose proof (h_flag _ _ _ _ _ _ _ _ (g_harts _ _ _ _ _ G h p Hp)) as Hf.
    rewrite H, Hpast in Hf by lia. done. }
  assert (Hn : written_note s = 0).
  { pose proof (g_note _ _ _ _ _ G) as H. destruct (Z.eqb_spec (written_note s) 0); [done|]. by destruct Hno. }
  assert (Hl : lock_test_lk s = 0).
  { destruct (g_lock _ _ _ _ _ G) as [Hc Hb]. destruct (decide (lock_test_lk s = 0)) as [|Hne]; [done|].
    destruct (cnt_pos critical (pcs s)) as (j & r & Hr & Hcr); [lia|]. destruct Hno. intros i Hi.
    apply (h_seen _ _ _ _ _ _ _ _ (g_harts _ _ _ _ _ G j r Hr)). by destruct r. }
  pose proof (g_note _ _ _ _ _ G) as Ho. rewrite Hn in Ho. cbn in Ho.
  split_and!; [done..|]. rewrite (g_settled _ _ _ _ _ G Hl), Hn. done.
Qed.

(** The hart that holds the lock is alone. *)
Lemma good_alone s head mix post order h p j r : good s head mix post order →
  pcs s !! h = Some p → critical p = true → pcs s !! j = Some r → j ≠ h → critical r = false.
Proof.
  intros G Hp Hc Hr Hne. destruct (critical r) eqn:E; [|done].
  pose proof (cnt_two critical _ _ _ _ _ Hne Hr Hp E Hc). destruct (g_lock _ _ _ _ _ G). lia.
Qed.

Lemma letter_inj j h : (j < 3)%nat → (h < 3)%nat → letter 65 j = letter 65 h → j = h.
Proof. unfold letter, u8. intros ?? E. rewrite !Z.mod_small in E; lia. Qed.

Lemma replicate_S_r {A} (n : nat) (x : A) : replicate n x ++ [x] = replicate (S n) x.
Proof. by rewrite <- replicate_S_end. Qed.

(** The harts that are through, after a move of one that is not. *)
Lemma done_insert (order : list nat) (l : list spin_test_pc) h p q :
  (∀ j, j ∈ order ↔ l !! j = Some Done) → l !! h = Some p → p ≠ Done → q ≠ Done →
  ∀ j, j ∈ order ↔ <[h := q]> l !! j = Some Done.
Proof.
  intros Ho Hp Hpd Hqd j. rewrite Ho. destruct (decide (j = h)) as [->|Hne].
  - rewrite list_lookup_insert_eq by (by eapply lookup_lt_Some). rewrite Hp. split; intros [= ->]; done.
  - by rewrite list_lookup_insert_ne.
Qed.

(** A hart moves on and the shared variables stay. *)
Lemma good_move s head mix post order h p q : good s head mix post order →
  pcs s !! h = Some p → critical q = critical p → p ≠ Done → q ≠ Done → (∀ r, p ≠ Banner r) →
  hart_ok (init_finished s) (finished s) (written_note s) mix post order h q →
  good (move s h q) head mix post order.
Proof.
  intros G Hp Hc Hpd Hqd Hpb Hq. pose proof (lookup_lt_Some _ _ _ Hp) as Hlt.
  destruct G as [Hlen Hh [Hl Hb] Hs [Hnd Ho] Hn Hle Hhd Hout]. split; cbn; try done.
  - by rewrite length_insert.
  - apply insert_all; [done|]. intros j r _ Hr. by apply Hh.
  - rewrite (cnt_insert _ _ _ _ _ Hp), Hc. lia.
  - split; [done|]. by apply (done_insert _ _ _ _ _ Ho Hp).
  - destruct (init_finished s =? 0); [|done]. destruct Hhd as (r & Hr & E). exists r. split; [|done].
    rewrite list_lookup_insert_ne; [done|]. intros ->. rewrite Hp in Hr. injection Hr as ->. by apply (Hpb r).
Qed.

(** The hart that holds the lock prints. *)
Lemma good_print s head mix post order h p q t : good s head mix post order →
  pcs s !! h = Some p → critical p = true → critical q = true →
  hart_ok (init_finished s) (finished s) (written_note s) mix (post ++ t) order h q →
  good (print s t h q) head mix (post ++ t) order.
Proof.
  intros G Hp Hcp Hcq Hq. pose proof (lookup_lt_Some _ _ _ Hp) as Hlt.
  pose proof (λ j r, good_alone s head mix post order h p j r G Hp Hcp) as Hal.
  pose proof (cnt_one critical _ _ _ Hp Hcp).
  destruct G as [Hlen Hh [Hl Hb] Hs [Hnd Ho] Hn Hle Hhd Hout]. split; cbn; try done.
  - by rewrite length_insert.
  - apply insert_all; [done|]. intros j r Hne Hr. destruct (Hh j r Hr). split; try done.
    by apply section_outside, (Hal j).
  - rewrite (cnt_insert _ _ _ _ _ Hp), Hcp, Hcq. lia.
  - lia.
  - split; [done|]. apply (done_insert _ _ _ _ _ Ho Hp); by intros ->.
  - destruct (init_finished s =? 0); [|done]. destruct Hhd as (r & Hr & E). exists r. split; [|done].
    rewrite list_lookup_insert_ne; [done|]. intros ->. rewrite Hp in Hr. injection Hr as ->. done.
  - rewrite Hout. by rewrite <- !app_assoc.
Qed.

(** Hart 0 prints the banner. *)
Lemma good_banner s head mix post order h t rest : good s head mix post order →
  pcs s !! h = Some (Banner (t :: rest)) → good (print s t h (Banner rest)) (head ++ t) mix post order.
Proof.
  intros G Hp. pose proof (lookup_lt_Some _ _ _ Hp) as Hlt.
  destruct (good_quiet s head mix post order h _ G Hp eq_refl) as (_ & _ & _ & Epost).
  destruct G as [Hlen Hh [Hl Hb] Hs [Hnd Ho] Hn Hle Hhd Hout].
  destruct (Hh _ _ Hp) as [Hf Hse Hm Hbd [-> Hi] Hsec]. rewrite Hi in *. cbn in Hhd.
  destruct Hhd as (r & Hr & Ehd). rewrite Hp in Hr. injection Hr as <-. cbn [concat] in Ehd.
  assert (Emix : mix = []).
  { destruct mix as [|c mix]; [done|]. apply Forall_cons_1 in Hle as [(j & Hj & ->) _]. exfalso.
    destruct (lookup_lt_is_Some_2 (pcs s) j) as [r Hr]; [lia|]. destruct (Hh j r Hr) as [_ _ Hmj _ Hij _].
    rewrite filter_cons_True in Hmj by done. destruct r; done. }
  split; cbn; try done.
  - by rewrite length_insert.
  - apply insert_all; [by split|]. intros j q _ Hq. rewrite Hi. by apply Hh.
  - rewrite (cnt_insert _ _ _ _ _ Hp). cbn. lia.
  - split; [done|]. by apply (done_insert _ _ _ _ _ Ho Hp).
  - rewrite Hi. cbn. exists rest. split; [by apply list_lookup_insert_eq|]. by rewrite <- app_assoc.
  - by rewrite Hout, Emix, Epost, !app_nil_r.
Qed.

Lemma good_init s head mix post order h : good s head mix post order → pcs s !! h = Some (Banner []) →
  good (spinlock_test h s) head mix post order.
Proof.
  intros G Hp. pose proof (lookup_lt_Some _ _ _ Hp) as Hlt. unfold spinlock_test. rewrite Hp.
  destruct G as [Hlen Hh [Hl Hb] Hs [Hnd Ho] Hn Hle Hhd Hout].
  destruct (Hh _ _ Hp) as [Hf Hse Hm Hbd [-> Hi] Hsec]. rewrite Hi in Hhd. cbn in Hhd.
  destruct Hhd as (r & Hr & Ehd). rewrite Hp in Hr. injection Hr as <-. rewrite app_nil_r in Ehd.
  split; cbn; try done.
  - by rewrite length_insert.
  - apply insert_all; [by split|]. intros j q Hne Hq. destruct (Hh j q Hq) as [? ? ? ? Hq' ?].
    split; try done. destruct q; try done. by destruct Hq'.
  - rewrite (cnt_insert _ _ _ _ _ Hp). cbn. lia.
  - split; [done|]. by apply (done_insert _ _ _ _ _ Ho Hp).
Qed.

(** A letter of the first loop. *)
Lemma good_mixed s head mix post order h n : good s head mix post order → pcs s !! h = Some (Mixed (S n)) →
  good (print s [letter 65 h] h (Mixed n)) head (mix ++ [letter 65 h]) post order.
Proof.
  intros G Hp. pose proof (lookup_lt_Some _ _ _ Hp) as Hlt.
  destruct (good_quiet s head mix post order h _ G Hp eq_refl) as (_ & _ & _ & Epost).
  destruct G as [Hlen Hh [Hl Hb] Hs [Hnd Ho] Hn Hle Hhd Hout].
  destruct (Hh _ _ Hp) as [Hf Hse Hm Hbd Hi Hsec]. cbn in Hbd. split; cbn; try done.
  - by rewrite length_insert.
  - apply insert_all.
    + split; try done; [|cbn; lia]. rewrite filter_app, Hm, filter_cons_True, filter_nil by done. cbn [mixed].
      rewrite replicate_S_r. f_equal. lia.
    + intros j q Hne Hq. destruct (Hh j q Hq) as [? ? Hmj ? ? ?]. split; try done.
      rewrite filter_app, Hmj, filter_cons_False, filter_nil, app_nil_r; [done|].
      intros E. apply Hne. symmetry. pose proof (lookup_lt_Some _ _ _ Hq). apply letter_inj; [lia..|done].
  - rewrite (cnt_insert _ _ _ _ _ Hp). cbn. lia.
  - split; [done|]. by apply (done_insert _ _ _ _ _ Ho Hp).
  - apply Forall_app. split; [done|]. constructor; [|done]. exists h. split; [lia|done].
  - by rewrite (proj2 (Z.eqb_neq _ 0) Hi) in *.
  - by rewrite Hout, Epost, !app_nil_r, app_assoc.
Qed.

(** The end of the first loop. *)
Lemma good_finished s head mix post order h : good s head mix post order → pcs s !! h = Some (Mixed 0) →
  good (spinlock_test h s) head mix post order.
Proof.
  intros G Hp. pose proof (lookup_lt_Some _ _ _ Hp) as Hlt. unfold spinlock_test. rewrite Hp.
  destruct (good_quiet s head mix post order h _ G Hp eq_refl) as (_ & En & _ & _).
  destruct G as [Hlen Hh [Hl Hb] Hs [Hnd Ho] Hn Hle Hhd Hout].
  destruct (Hh _ _ Hp) as [Hf Hse Hm Hbd Hi Hsec]. pose proof (lookup_lt_Some _ _ _ Hf) as Hfl.
  split; cbn; try done.
  - by rewrite length_insert.
  - apply insert_all.
    + split; try done; cbn; [by apply list_lookup_insert_eq|lia|lia].
    + intros j q Hne Hq. destruct (Hh j q Hq) as [Hfj Hsj Hmj ? ? ?]. split; try done.
      * by rewrite list_lookup_insert_ne.
      * intros i Hi'. destruct (decide (i = h)) as [->|Hnh]; [by apply list_lookup_insert_eq|].
        rewrite list_lookup_insert_ne by done. by apply Hsj.
  - rewrite (cnt_insert _ _ _ _ _ Hp). cbn. lia.
  - split; [done|]. by apply (done_insert _ _ _ _ _ Ho Hp).
  - by rewrite En in *.
  - by rewrite (proj2 (Z.eqb_neq _ 0) Hi) in *.
Qed.

(** A hart in the loop on the three flags looks at one of them. *)
Lemma good_wait s head mix post order h k : good s head mix post order → pcs s !! h = Some (WaitFinished k) →
  good (spinlock_test h s) head mix post order.
Proof.
  intros G Hp. unfold spinlock_test. rewrite Hp. destruct (g_harts _ _ _ _ _ G _ _ Hp) as [Hf Hse Hm Hbd Hi Hsec].
  cbn in Hbd, Hse. destruct (Z.eqb_spec (finished s !!! k) 0) as [E|E].
  - apply (good_move _ _ _ _ _ _ _ _ G Hp); try done. split; try done; cbn; lia.
  - assert (Hk : finished s !! k = Some 1).
    { destruct (lookup_lt_is_Some_2 (pcs s) k) as [r Hr]; [rewrite (g_len _ _ _ _ _ G); lia|].
      pose proof (h_flag _ _ _ _ _ _ _ _ (g_harts _ _ _ _ _ G _ _ Hr)) as Hfk.
      rewrite (list_lookup_total_correct _ _ _ Hfk) in E. rewrite Hfk. by destruct (past r). }
    assert (Hseen : ∀ j, (j < S k)%nat → finished s !! j = Some 1).
    { intros j Hj. destruct (decide (j = k)) as [->|]; [done|]. apply Hse. lia. }
    case_decide as Hd; apply (good_move _ _ _ _ _ _ _ _ G Hp); try done; split; try done.
    + intros j Hj. apply Hseen. cbn in Hj. lia.
    + cbn. lia.
Qed.

(** The amoswap of acquire. *)
Lemma good_swap s head mix post order h : good s head mix post order → pcs s !! h = Some Swap →
  good (spinlock_test h s) head mix post order.
Proof.
  intros G Hp. pose proof (lookup_lt_Some _ _ _ Hp) as Hlt. unfold spinlock_test. rewrite Hp.
  destruct G as [Hlen Hh [Hl Hb] Hs [Hnd Ho] Hn Hle Hhd Hout].
  destruct (Hh _ _ Hp) as [Hf Hse Hm Hbd Hi Hsec].
  split; cbn; try done.
  - by rewrite length_insert.
  - apply insert_all; [|intros j r _ Hr; by apply Hh].
    destruct (Z.eqb_spec (lock_test_lk s) 0) as [E|E]; cbn; (split; try done). cbn. by apply Hs.
  - rewrite (cnt_insert _ _ _ _ _ Hp). destruct (Z.eqb_spec (lock_test_lk s) 0); cbn; lia.
  - split; [done|]. apply (done_insert _ _ _ _ _ Ho Hp); [done|]. by destruct (negb _).
  - by rewrite (proj2 (Z.eqb_neq _ 0) Hi) in *.
Qed.

(** The first hart inside has printed the note. *)
Lemma good_set_note s head mix post order h : good s head mix post order → pcs s !! h = Some SetNote →
  good (spinlock_test h s) head mix post order.
Proof.
  intros G Hp. pose proof (lookup_lt_Some _ _ _ Hp) as Hlt. unfold spinlock_test. rewrite Hp.
  pose proof (λ j r, good_alone s head mix post order h _ j r G Hp eq_refl) as Hal.
  pose proof (cnt_one critical _ _ _ Hp eq_refl).
  destruct G as [Hlen Hh [Hl Hb] Hs [Hnd Ho] Hn Hle Hhd Hout].
  destruct (Hh _ _ Hp) as [Hf Hse Hm Hbd Hi [En Epost]]. rewrite En in Hn. cbn in Hn. subst order.
  split; cbn; try done.
  - by rewrite length_insert.
  - apply insert_all.
    + split; try done. cbn. lia.
    + intros j q Hne Hq. destruct (Hh j q Hq). split; try done. by apply section_outside, (Hal j).
  - rewrite (cnt_insert _ _ _ _ _ Hp). cbn. lia.
  - split; [done|]. by apply (done_insert _ _ _ _ _ Ho Hp).
  - by rewrite (proj2 (Z.eqb_neq _ 0) Hi) in *.
Qed.

(** release *)
Lemma good_release s head mix post order h : good s head mix post order → pcs s !! h = Some (Locked 0) →
  good (spinlock_test h s) head mix post (order ++ [h]).
Proof.
  intros G Hp. pose proof (lookup_lt_Some _ _ _ Hp) as Hlt. unfold spinlock_test. rewrite Hp.
  pose proof (λ j r, good_alone s head mix post order h _ j r G Hp eq_refl) as Hal.
  pose proof (cnt_one critical _ _ _ Hp eq_refl).
  destruct G as [Hlen Hh [Hl Hb] Hs [Hnd Ho] Hn Hle Hhd Hout].
  destruct (Hh _ _ Hp) as [Hf Hse Hm Hbd Hi [En Epost]]. rewrite (proj2 (Z.eqb_neq _ 0) En) in Hn.
  split; cbn; try done.
  - by rewrite length_insert.
  - apply insert_all; [by split|].
    intros j q Hne Hq. destruct (Hh j q Hq). split; try done. by apply section_outside, (Hal j).
  - rewrite (cnt_insert _ _ _ _ _ Hp). cbn. lia.
  - intros _. rewrite Epost. unfold settled. rewrite (proj2 (Z.eqb_neq _ 0) En), fmap_app, concat_app.
    cbn [fmap list_fmap concat]. by rewrite app_nil_r, app_assoc.
  - split.
    + apply NoDup_app. split_and!; [done| |by apply NoDup_singleton].
      intros j Hj ->%list_elem_of_singleton. apply Ho in Hj. by rewrite Hp in Hj.
    + intros j. rewrite elem_of_app, list_elem_of_singleton, Ho. destruct (decide (j = h)) as [->|Hne].
      * rewrite list_lookup_insert_eq by done. by split; [|right].
      * rewrite list_lookup_insert_ne by done. split; [by intros [|]|by left].
  - by rewrite (proj2 (Z.eqb_neq _ 0) En).
  - by rewrite (proj2 (Z.eqb_neq _ 0) Hi) in *.
Qed.

Definition reachable (s : spin_test_state) : Prop := ∃ head mix post order, good s head mix post order.

Lemma spinlock_test_inv h s : reachable s → reachable (spinlock_test h s).
Proof.
  intros (head & mix & post & order & G). unfold reachable.
  destruct (pcs s !! h) as [p|] eqn:Hp; [|unfold spinlock_test; rewrite Hp; do 4 eexists; exact G].
  pose proof (g_harts _ _ _ _ _ G _ _ Hp) as Hh. pose proof Hh as [Hf Hse Hm Hbd Hi Hsec].
  pose proof (good_move s head mix post order h p) as Hmove.
  pose proof (good_print s head mix post order h p) as Hprint.
  destruct p as [[|t rest]| |[|n]|k| | | | | |[|n]|];
    try solve [do 4 eexists; eauto using good_init, good_finished, good_wait, good_swap, good_set_note, good_release];
    unfold spinlock_test; rewrite Hp; try solve [do 4 eexists; eauto using good_banner, good_mixed].
  - destruct (Z.eqb_spec (init_finished s) 0); [do 4 eexists; exact G|]. exists head, mix, post, order. apply Hmove; try done. split; try done; cbn; lia.
  - destruct (negb _); [do 4 eexists; exact G|]. exists head, mix, post, order. by apply Hmove.
  - exists head, mix, post, order. pose proof (g_note _ _ _ _ _ G) as Hn. cbn in Hsec.
    destruct (Z.eqb_spec (written_note s) 0) as [E|E]; apply Hmove; try done; (split; try done).
    + cbn. split; [done|]. rewrite Hsec, E. done.
    + cbn. lia.
    + split; [done|]. by rewrite Nat.sub_diag, app_nil_r.
  - exists head, mix, (post ++ note_text), order. destruct Hsec as [En ->]. by apply Hprint.
  - exists head, mix, (post ++ [letter 65 h]), order. destruct Hsec as [En Epost]. cbn in Hbd.
    apply Hprint; [done..|]. split; try done; [cbn; lia|]. split; [done|].
    rewrite Epost, <- app_assoc, replicate_S_r. do 2 f_equal. lia.
Qed.

Lemma spinlock_test_reachable sched : reachable (run spinlock_test sched (spin_test_start 3)).
Proof.
  apply run_invariant; [apply spinlock_test_inv|]. exists [], [], [], []. exact good_start.
Qed.

(** *** The test ends *)

(** How much a hart has still to do. *)
Definition work (p : spin_test_pc) : nat :=
  match p with
  | Banner r => 1400 + length r
  | WaitInit => 1300
  | Mixed n => 800 + n
  | WaitFinished k => 500 - k
  | Test => 490 | Swap => 489
  | TestNote => 488 | Note => 487 | SetNote => 486
  | Locked n => 1 + n
  | Done => 0
  end.
Definition works (l : list spin_test_pc) : nat := sum_list (work <$> l).

Lemma works_insert (l : list spin_test_pc) h p q : l !! h = Some p → (work q < work p)%nat → (works (<[h := q]> l) < works l)%nat.
Proof.
  assert (Hc : ∀ x l, works (x :: l) = (work x + works l)%nat) by done.
  revert h. induction l as [|x l IH]; intros [|h] Hp Hlt; try done.
  - injection Hp as ->. change (<[O := q]> (p :: l)) with (q :: l). rewrite !Hc. lia.
  - change (<[S h := q]> (x :: l)) with (x :: <[h := q]> l). rewrite !Hc. specialize (IH h Hp Hlt). lia.
Qed.

(** A hart that is not held up gets on. *)
Definition can_go (s : spin_test_state) (p : spin_test_pc) : Prop :=
  match p with
  | WaitInit => init_finished s ≠ 0
  | WaitFinished k => finished s !!! k ≠ 0
  | Test | Swap => lock_test_lk s = 0
  | Done => False
  | _ => True
  end.

#[local] Instance can_go_dec s p : Decision (can_go s p).
Proof. destruct p; cbn; apply _. Defined.

Lemma can_go_works s h p : pcs s !! h = Some p → bounded p → can_go s p →
  (works (pcs (spinlock_test h s)) < works (pcs s))%nat.
Proof.
  intros Hp Hb Hg. unfold spinlock_test. rewrite Hp.
  destruct p as [[|t rest]| |[|n]|k| | | | | |[|n]|]; cbn in Hg, Hb; try done;
    try (rewrite (proj2 (Z.eqb_neq _ 0) Hg)); try (rewrite Hg); cbn [negb Z.eqb];
    try case_decide; apply (works_insert _ _ _ _ Hp); cbn; try lia.
  destruct (written_note s =? 0); cbn; lia.
Qed.

(** In every reachable state some hart gets on, until all are through. *)
Lemma some_can_go s : reachable s → (∀ h p, pcs s !! h = Some p → p = Done) ∨
  ∃ h p, pcs s !! h = Some p ∧ bounded p ∧ can_go s p.
Proof.
  intros (head & mix & post & order & G).
  assert (Hb : ∀ h p, pcs s !! h = Some p → bounded p) by (intros h p Hp; apply (g_harts _ _ _ _ _ G h p Hp)).
  destruct (decide (lock_test_lk s = 0)) as [El|El].
  2:{ right. destruct (g_lock _ _ _ _ _ G) as [Hc ?]. destruct (cnt_pos critical (pcs s)) as (j & r & Hr & Hcr); [lia|].
      exists j, r. split_and!; [done|by apply (Hb j)|by destruct r]. }
  destruct (decide (init_finished s = 0)) as [Ei|Ei].
  { right. pose proof (g_head _ _ _ _ _ G) as Hh. rewrite Ei in Hh. destruct Hh as (r & Hr & _).
    exists O, (Banner r). split_and!; [done|by apply (Hb O)|done]. }
  destruct (decide (Forall (λ p, p = Done) (pcs s))) as [Hd|Hd].
  { left. by apply Forall_lookup. }
  right. apply not_Forall_Exists, Exists_exists in Hd; [|intros; apply _]. destruct Hd as (p & Hin & Hnd).
  apply list_elem_of_lookup in Hin as [h Hp].
  destruct (decide (can_go s p)) as [Hg|Hg]; [exists h, p; split_and!; [done|by apply (Hb h)|done]|].
  destruct p as [| | |k| | | | | | |]; cbn in Hg; try (by destruct Hg); try (by destruct Hnd).
  destruct (lookup_lt_is_Some_2 (pcs s) k) as [q Hq].
  { pose proof (Hb _ _ Hp). rewrite (g_len _ _ _ _ _ G). cbn in *. lia. }
  exists k, q. split_and!; [done|by apply (Hb k)|].
  pose proof (h_flag _ _ _ _ _ _ _ _ (g_harts _ _ _ _ _ G _ _ Hq)) as Hf.
  rewrite (list_lookup_total_correct _ _ _ Hf) in Hg. by destruct q; cbn in Hg; try (destruct Hg; done).
Qed.

Definition all_done (s : spin_test_state) : Prop := ∀ h p, pcs s !! h = Some p → p = Done.

(** In no interleaving do the three harts block each other: from every state they
    get into, some continuation takes all of them to the end. *)
Lemma spinlock_test_ends sched :
  ∃ sched', all_done (run spinlock_test (sched ++ sched') (spin_test_start 3)).
Proof.
  pose proof (spinlock_test_reachable sched) as Hr. setoid_rewrite run_app.
  set (s := run spinlock_test sched (spin_test_start 3)) in *. clearbody s.
  remember (works (pcs s)) as w eqn:Ew. revert s Ew Hr. induction (lt_wf w) as [w _ IH]. intros s -> Hr.
  destruct (some_can_go s Hr) as [Hd|(h & p & Hp & Hb & Hg)]; [by exists []|].
  destruct (IH _ (can_go_works s h p Hp Hb Hg) _ eq_refl (spinlock_test_inv h s Hr)) as [sched' H].
  by exists (h :: sched').
Qed.

(** The letters of the first loops, sorted by hart. *)
Lemma mix_permutation mix :
  Forall (λ c, ∃ h, (h < 3)%nat ∧ c = letter 65 h) mix →
  mix ≡ₚ filter (λ c, c = letter 65 0) mix ++ filter (λ c, c = letter 65 1) mix ++ filter (λ c, c = letter 65 2) mix.
Proof.
  induction 1 as [|c mix (h & Hh & ->) _ IH]; [done|].
  destruct h as [|[|[|h]]]; [| | |lia]; rewrite !filter_cons; repeat case_decide; try done; cbn.
  - by rewrite IH at 1.
  - rewrite <- Permutation_middle. by rewrite IH at 1.
  - rewrite app_assoc, <- Permutation_middle, <- app_assoc. by rewrite IH at 1.
Qed.

(** The output of a finished run. *)
Lemma spinlock_test_output sched :
  let s := run spinlock_test sched (spin_test_start 3) in
  all_done s →
  ∃ mix order,
    mix ≡ₚ block 65 0 ++ block 65 1 ++ block 65 2 ∧ order ≡ₚ [0; 1; 2]%nat ∧
    out s = concat banner ++ mix ++ note_text ++ concat (block 65 <$> order).
Proof.
  intros s Hd. destruct (spinlock_test_reachable sched) as (head & mix & post & order & G). fold s in G.
  assert (Hl : ∀ h, (h < 3)%nat → pcs s !! h = Some Done).
  { intros h Hh. destruct (lookup_lt_is_Some_2 (pcs s) h) as [p Hp]; [by rewrite (g_len _ _ _ _ _ G)|].
    by rewrite Hp, (Hd h p Hp). }
  pose proof (λ h Hh, g_harts _ _ _ _ _ G h _ (Hl h Hh)) as Hok.
  destruct (g_order _ _ _ _ _ G) as [Hnd Ho]. exists mix, order. split_and!.
  - rewrite (mix_permutation mix (g_letters _ _ _ _ _ G)) at 1.
    by rewrite (h_mix _ _ _ _ _ _ _ _ (Hok 0%nat ltac:(lia))), (h_mix _ _ _ _ _ _ _ _ (Hok 1%nat ltac:(lia))),
      (h_mix _ _ _ _ _ _ _ _ (Hok 2%nat ltac:(lia))).
  - apply NoDup_Permutation; [done|by apply (bool_decide_unpack _)|]. intros h. rewrite Ho, !elem_of_cons, elem_of_nil. split.
    + intros Hh%lookup_lt_Some. rewrite (g_len _ _ _ _ _ G) in Hh. lia.
    + intros Hh. apply Hl. lia.
  - rewrite (g_out _ _ _ _ _ G). pose proof (g_head _ _ _ _ _ G) as Hh.
    pose proof (h_init _ _ _ _ _ _ _ _ (Hok O ltac:(lia))) as Hi. cbn in Hi.
    rewrite (proj2 (Z.eqb_neq _ 0) Hi) in Hh. rewrite Hh. do 2 f_equal.
    assert (El : lock_test_lk s = 0).
    { destruct (g_lock _ _ _ _ _ G) as [Hc Hb]. destruct (decide (lock_test_lk s = 0)) as [|Hne]; [done|].
      destruct (cnt_pos critical (pcs s)) as (j & r & Hr & Hcr); [lia|]. by rewrite (Hd j r Hr) in Hcr. }
    rewrite (g_settled _ _ _ _ _ G El). unfold settled. pose proof (g_note _ _ _ _ _ G) as Hn.
    destruct (written_note s =? 0); [|done]. specialize (Ho O). rewrite Hn, (Hl O), elem_of_nil in Ho by lia.
    by destruct (proj2 Ho).
Qed.

(** C36: the spinlock test does what it announces on three harts: however they are
    interleaved, from every state they get into some continuation takes all of
    them to the end; and when they are through, the output is the banner, the
    letters of the first loops in some order, the note, and then the 400 letters of
    each hart unmixed, one hart after the other. *)
Theorem spinlock_test_separates sched :
  (∃ sched', all_done (run spinlock_test (sched ++ sched') (spin_test_start 3))) ∧
  let s := run spinlock_test sched (spin_test_start 3) in
  all_done s →
  ∃ mix order,
    mix ≡ₚ block 65 0 ++ block 65 1 ++ block 65 2 ∧ order ≡ₚ [0; 1; 2]%nat ∧
    out s = concat banner ++ mix ++ note_text ++ concat (block 65 <$> order).
Proof. split; [exact (spinlock_test_ends sched)|exact (spinlock_test_output sched)]. Qed.

(** Each hart runs on its own for a while, three times. *)
Definition turns : list nat :=
  let l := replicate 500 0%nat ++ replicate 500 1%nat ++ replicate 500 2%nat in l ++ l ++ l.

Lemma spinlock_test_separates_witness : ∃ mix order,
  mix ≡ₚ block 65 0 ++ block 65 1 ++ block 65 2 ∧ order ≡ₚ [0; 1; 2]%nat ∧
  out (run spinlock_test turns (spin_test_start 3)) = concat banner ++ mix ++ note_text ++ concat (block 65 <$> order).
Proof.
  apply (proj2 (spinlock_test_separates turns)).
  assert (E : pcs (run spinlock_test turns (spin_test_start 3)) = [Done; Done; Done]) by (vm_compute; reflexivity).
  intros h p. rewrite E. by destruct h as [|[|[|h]]]; intros [= <-].
Defined.

(** On two harts, as the machine of dtb.h has, nobody gets past the wait for
    hart2_finished. *)
Theorem spinlock_test_needs_three sched h p :
  pcs (run spinlock_test sched (spin_test_start 2)) !! h = Some p → (seen p <= 2)%nat.
Proof.
  set (I := λ s, length (pcs s) = 2%nat ∧ finished s !! 2%nat = Some 0 ∧
    ∀ h p, pcs s !! h = Some p → (seen p <= 2)%nat).
  enough (H : I (run spinlock_test sched (spin_test_start 2))) by apply H.
  apply run_invariant.
  - intros i s (Hlen & Hf & Hs). unfold spinlock_test. destruct (pcs s !! i) as [q|] eqn:Hq; [|done].
    pose proof (Hs i q Hq) as Hsi. pose proof (lookup_lt_Some _ _ _ Hq) as Hi.
    destruct q as [[|t rest]| |[|n]|k| | | | | |[|n]|]; cbn in Hsi; try lia; repeat case_match; try done;
      (split; [cbn; by rewrite ?length_insert|]; split; [cbn; by rewrite ?list_lookup_insert_ne by lia|]);
      (apply insert_all; [cbn; try lia|intros; by eapply Hs]).
    all: try case_decide; subst; cbn; try lia.
    by rewrite (list_lookup_total_correct _ _ _ Hf) in *.
  - split; [done|]. split; [done|]. intros [|[|j]] q [= <-]; cbn; lia.
Qed.
End SpinlockTest.

(** ** barrier_test *)

Module BarrierTest.
Import Lock.Barrier.

(** What hart [h] prints before its first call of wait_barrier and after each of
    the three. *)
Definition texts (h k : nat) : list (list Z) :=
  match k with
  | 0 => if decide (h = O)
         then [ newline ++ chars "BARRIER TEST (runs on DTB_NR_CPUS)" ++ newline;
                chars "[info] successful if all ABCs seperated from DEFs" ++ newline ]
         else []
  | 1 => replicate 400 [letter 65 h]
  | 2 => if decide (h = O) then [newline ++ chars "Barrier:" ++ newline] else []
  | 3 => replicate 400 [letter (65 + DTB_NR_CPUS) h]
  | _ => []
  end%nat.

(** Where a hart is: after its k-th call, with these texts still to print; in its
    k-th call; after the test. *)
Inductive bar_test_pc :=
| Printing (k : nat) (rest : list (list Z))
| Waiting (k : nat) (p : bar_pc)
| Finished.

(** The barrier b1, the harts and the output. *)
Record bar_test_state := mk_test { b1 : barrier; pcs : list bar_test_pc; out : list Z }.

Definition barrier_test (h : nat) (s : bar_test_state) : bar_test_state :=
  match pcs s !! h with
  | Some (Printing k (t :: rest)) => mk_test (b1 s) (<[h := Printing k rest]> (pcs s)) (out s ++ t)
  | Some (Printing k []) =>
      mk_test (b1 s) (<[h := if decide (k = 3%nat) then Finished else Waiting (S k) Acquire1]> (pcs s)) (out s)
  | Some (Waiting k p) =>
      match wait_barrier p (b1 s) with
      | Some (p', b') =>
          mk_test b' (<[h := if decide (p' = Done) then Printing k (texts h k) else Waiting k p']> (pcs s)) (out s)
      | None => s
      end
  | Some Finished | None => s
  end.

Definition bar_test_start : bar_test_state :=
  mk_test (BARRIER_INITIALIZER DTB_NR_CPUS)
    ((λ h, Printing 0 (texts h 0)) <$> seq 0 (Z.to_nat DTB_NR_CPUS)) [].

(** *** The calls of the barrier are rounds of it *)

Definition bar_of (q : bar_test_pc) : bar_pc :=
  match q with Printing 0 _ => Acquire1 | Printing _ _ | Finished => Done | Waiting _ p => p end.
Definition call_of (q : bar_test_pc) : Z :=
  match q with Printing 0 _ => 1 | Printing k _ | Waiting k _ => Z.of_nat k | Finished => 3 end.
Definition rounds_of (s : bar_test_state) : rounds :=
  mk_rounds (mk_state (b1 s) (bar_of <$> pcs s)) (call_of <$> pcs s).

Lemma round_step_run i sched r : round_step i (run round_step sched r) = run round_step (sched ++ [i]) r.
Proof. by rewrite run_app. Qed.

Lemma fmap_insert_id {A B} (f : A → B) (l : list A) h p q : l !! h = Some p → f q = f p → f <$> <[h := q]> l = f <$> l.
Proof. intros Hp E. rewrite list_fmap_insert, E. apply list_insert_id. by rewrite list_lookup_fmap, Hp. Qed.

(** A step of the test is a step of the barrier or none. *)
Lemma rounds_of_step h s :
  (∀ q, pcs s !! h = Some q → match q with Waiting k p => p ≠ Done ∧ (k ≠ 0)%nat | Printing k _ => (k <= 3)%nat | _ => True end) →
  rounds_of (barrier_test h s) = rounds_of s ∨ rounds_of (barrier_test h s) = round_step h (rounds_of s).
Proof.
  intros Hok. unfold barrier_test. destruct (pcs s !! h) as [q|] eqn:Hq; [|by left].
  specialize (Hok q eq_refl). destruct q as [k [|t rest]|k p|]; [| | |by left].
  - unfold rounds_of. case_decide as Hk; [subst; left|destruct k as [|k]; [left|right]]; cbn [b1 pcs].
    + by rewrite !(fmap_insert_id _ _ _ _ _ Hq).
    + by rewrite !(fmap_insert_id _ _ _ _ _ Hq).
    + unfold round_step. cbn [r_bar harts calls b]. rewrite list_lookup_fmap, Hq. cbn [fmap option_fmap option_map bar_of].
      rewrite !list_fmap_insert. do 2 f_equal. cbn [call_of].
      rewrite (list_lookup_total_correct _ _ (Z.of_nat (S k))) by (by rewrite list_lookup_fmap, Hq). lia.
  - left. unfold rounds_of. cbn [b1 pcs]. rewrite !(fmap_insert_id _ _ _ _ _ Hq); by destruct k.
  - destruct Hok as [Hd Hk]. right. rewrite (round_step_wait _ _ p); [|cbn; by rewrite list_lookup_fmap, Hq|done].
    unfold bar_step. cbn [rounds_of r_bar harts b]. rewrite list_lookup_fmap, Hq. cbn [fmap option_fmap option_map bar_of].
    destruct (wait_barrier p (b1 s)) as [[p' b']|] eqn:Ex; [|done]. unfold rounds_of. cbn [b1 pcs calls].
    f_equal; [f_equal|]; [rewrite list_fmap_insert; f_equal|apply (fmap_insert_id _ _ _ _ _ Hq)];
      case_decide; subst; destruct k; done.
Qed.

(** *** What each hart has printed and has still to print *)

(** The texts printed between two calls, with the harts that printed them. *)
Abbreviation log := (list (nat * list Z)).
Definition own (h : nat) (l : log) : list (list Z) := snd <$> filter (λ e, e.1 = h) l.
Definition flat (logs : nat → log) : log := logs 0%nat ++ logs 1%nat ++ logs 2%nat ++ logs 3%nat.

Definition todo (h : nat) (q : bar_test_pc) (j : nat) : list (list Z) :=
  match q with
  | Printing k rest => if decide (j < k)%nat then [] else if decide (j = k) then rest else texts h j
  | Waiting k _ => if decide (j < k)%nat then [] else texts h j
  | Finished => []
  end.
Definition place_ok (q : bar_test_pc) : Prop :=
  match q with
  | Printing k _ => (k <= 3)%nat
  | Waiting k p => p ≠ Done ∧ (1 <= k <= 3)%nat
  | Finished => True
  end.

Record good (s : bar_test_state) (logs : nat → log) : Prop := {
  g_len : length (pcs s) = 2%nat;
  g_rounds : ∃ sched, rounds_of s = run round_step sched (BarrierRounds.start 2);
  g_places : ∀ h q, pcs s !! h = Some q → place_ok q;
  g_harts : ∀ h q, pcs s !! h = Some q → ∀ j, own h (logs j) ++ todo h q j = texts h j;
  g_logs : ∀ j, Forall (λ e, (e.1 < 2)%nat) (logs j);
  g_out : out s = concat (snd <$> flat logs)
}.

Lemma bar_good_start : good bar_test_start (λ _, []).
Proof.
  split; try done.
  - by exists [].
  - intros [|[|h]] q [= <-]; cbn; lia.
  - intros [|[|h]] q [= <-] j; cbn [own filter list_filter fmap list_fmap app todo]; repeat case_decide; try lia; by subst.
Qed.

Lemma own_nil l : Forall (λ e : nat * list Z, (e.1 < 2)%nat) l → own 0 l = [] → own 1 l = [] → l = [].
Proof.
  intros Hl H0 H1. destruct l as [|[i t] l]; [done|]. apply Forall_cons_1 in Hl as [Hi _]. cbn in Hi.
  unfold own in *. rewrite filter_cons in H0, H1. cbn in H0, H1. destruct i as [|[|i]]; [done|done|lia].
Qed.

Lemma app_self_nil {A} (l t : list A) : l ++ t = t → l = [].
Proof. intros E. apply (f_equal length) in E. rewrite length_app in E. destruct l; cbn in E; [done|lia]. Qed.

(** While a hart prints after its k-th call nobody prints after a later one. *)
Lemma later_empty s logs h k rest : good s logs → pcs s !! h = Some (Printing k rest) →
  ∀ j, (k < j)%nat → logs j = [].
Proof.
  intros G Hp j Hj.
  assert (Hall : ∀ i q, pcs s !! i = Some q → own i (logs j) = []).
  { intros i q Hq. apply (app_self_nil _ (texts i j)). rewrite <- (g_harts _ _ G i q Hq j) at 2. f_equal.
    pose proof (g_places _ _ G _ _ Hq) as Hpl.
    destruct (decide (i = h)) as [->|Hne].
    - rewrite Hp in Hq. injection Hq as <-. cbn. by rewrite !decide_False by lia.
    - destruct (g_rounds _ _ G) as [sched E].
      assert (Hr : calls_left (bar_of q) (call_of q) <= calls_entered (bar_of (Printing k rest)) (call_of (Printing k rest))).
      { apply (rounds_in_step sched i h); rewrite <- ?E; cbn; rewrite ?list_lookup_fmap, ?Hp, ?Hq; done. }
      assert (Hk : calls_entered (bar_of (Printing k rest)) (call_of (Printing k rest)) = Z.of_nat k) by (by destruct k).
      rewrite Hk in Hr. unfold calls_left in Hr. destruct q as [l r|l p|]; cbn [bar_of call_of place_ok todo] in *.
      + destruct l; [by rewrite !decide_False by lia|].
        rewrite decide_True in Hr by done. by rewrite !decide_False by lia.
      + rewrite decide_False in Hr by apply Hpl. by rewrite decide_False by lia.
      + rewrite decide_True in Hr by done. destruct j as [|[|[|[|j]]]]; try lia; done. }
  assert (Hlt : ∀ i, (i < 2)%nat → own i (logs j) = []).
  { intros i Hi. destruct (lookup_lt_is_Some_2 (pcs s) i) as [q Hq]; [by rewrite (g_len _ _ G)|]. by apply (Hall i q). }
  apply own_nil; [apply (g_logs _ _ G)|apply Hlt; lia|apply Hlt; lia].
Qed.

Definition log_add (logs : nat → log) (k : nat) (e : nat * list Z) (j : nat) : log :=
  if decide (j = k) then logs j ++ [e] else logs j.

Lemma flat_add logs k e : (k <= 3)%nat → (∀ j, (k < j)%nat → logs j = []) → flat (log_add logs k e) = flat logs ++ [e].
Proof.
  intros Hk Hl. unfold flat, log_add. destruct k as [|[|[|[|k]]]]; [..|lia]; cbn;
    rewrite ?(Hl 1%nat), ?(Hl 2%nat), ?(Hl 3%nat) by lia; by rewrite ?app_nil_r, <- ?app_assoc.
Qed.

Lemma own_add h l e : own h (l ++ [e]) = own h l ++ (if decide (e.1 = h) then [e.2] else []).
Proof. unfold own. rewrite filter_app, fmap_app, filter_cons, filter_nil. by case_decide. Qed.

Lemma good_rounds_step h s logs : good s logs →
  ∃ sched, rounds_of (barrier_test h s) = run round_step sched (BarrierRounds.start 2).
Proof.
  intros G. destruct (g_rounds _ _ G) as [sched E]. destruct (rounds_of_step h s) as [E'|E'].
  - intros q Hq. pose proof (g_places _ _ G _ _ Hq) as Hpl. destruct q; cbn in Hpl; try done. split; [apply Hpl|lia].
  - exists sched. by rewrite E'.
  - exists (sched ++ [h]). by rewrite E', E, round_step_run.
Qed.

(** A hart moves on without printing. *)
Lemma good_silent s logs h q q' x : good s logs → pcs s !! h = Some q → place_ok q' →
  (∀ j, todo h q' j = todo h q j) →
  barrier_test h s = mk_test x (<[h := q']> (pcs s)) (out s) → good (barrier_test h s) logs.
Proof.
  intros G Hq Hpl Ht E. pose proof (good_rounds_step h s logs G) as Hr. rewrite E in *.
  destruct G as [Hlen _ Hps Hh Hl Ho]. split; cbn [pcs out]; try done.
  - by rewrite length_insert.
  - apply insert_all; [done|]. intros. by eapply Hps.
  - apply (insert_all (λ i r, ∀ j, own i (logs j) ++ todo i r j = texts i j)).
    + intros j. rewrite Ht. by apply Hh.
    + intros. by apply Hh.
Qed.

Lemma bar_good_print s logs h k t rest : good s logs → pcs s !! h = Some (Printing k (t :: rest)) →
  good (barrier_test h s) (log_add logs k (h, t)).
Proof.
  intros G Hq. pose proof (good_rounds_step h s logs G) as Hr. pose proof (later_empty s logs h k _ G Hq) as Hle.
  unfold barrier_test in *. rewrite Hq in *. pose proof (g_places _ _ G _ _ Hq) as Hk. cbn in Hk.
  pose proof (lookup_lt_Some _ _ _ Hq) as Hlt.
  destruct G as [Hlen _ Hps Hh Hl Ho]. split; cbn [pcs out]; try done.
  - by rewrite length_insert.
  - apply insert_all; [done|]. intros. by eapply Hps.
  - apply (insert_all (λ i r, ∀ j, own i (log_add logs k (h, t) j) ++ todo i r j = texts i j)).
    + intros j. unfold log_add. specialize (Hh _ _ Hq j). case_decide as Hj.
      * subst j. rewrite own_add, decide_True by done. rewrite <- Hh, <- app_assoc. f_equal.
        cbn. repeat case_decide; done || lia.
      * rewrite <- Hh. f_equal. cbn. repeat case_decide; done || lia.
    + intros i r Hne Hr' j. unfold log_add. specialize (Hh _ _ Hr' j). case_decide; [|done].
      by rewrite own_add, decide_False, app_nil_r by done.
  - intros j. unfold log_add. case_decide; [|apply Hl]. apply Forall_app. split; [apply Hl|].
    constructor; [cbn; lia|done].
  - rewrite flat_add, fmap_app, concat_app, Ho by done. cbn. by rewrite app_nil_r.
Qed.

Definition reachable (s : bar_test_state) : Prop := ∃ logs, good s logs.

Lemma barrier_test_inv h s : reachable s → reachable (barrier_test h s).
Proof.
  intros [logs G]. destruct (pcs s !! h) as [q|] eqn:Hq; [|exists logs; unfold barrier_test; by rewrite Hq].
  pose proof (g_places _ _ G _ _ Hq) as Hpl. destruct q as [k [|t rest]|k p|]; cbn in Hpl.
  - exists logs. eapply (good_silent _ _ _ _ _ _ G Hq); [| |unfold barrier_test; rewrite Hq; reflexivity].
    + case_decide; cbn; [done|]. split; [done|lia].
    + intros j. case_decide; cbn; repeat case_decide; subst; try done; try lia.
      destruct j as [|[|[|[|j]]]]; try lia; done.
  - exists (log_add logs k (h, t)). by apply (bar_good_print _ _ _ _ _ rest).
  - destruct (wait_barrier p (b1 s)) as [[p' x]|] eqn:Hx.
    + exists logs. eapply (good_silent _ _ _ _ _ x G Hq); [| |unfold barrier_test; rewrite Hq, Hx; reflexivity].
      * case_decide; cbn; [lia|]. split; [done|lia].
      * intros j. case_decide; cbn; repeat case_decide; subst; try done; lia.
    + exists logs. unfold barrier_test. by rewrite Hq, Hx.
  - exists logs. unfold barrier_test. by rewrite Hq.
Qed.

Lemma barrier_test_reachable sched : reachable (run barrier_test sched bar_test_start).
Proof. apply run_invariant; [apply barrier_test_inv|]. exists (λ _, []). exact bar_good_start. Qed.

(** The texts of both harts, sorted by hart. *)
Lemma own_permutation l : Forall (λ e : nat * list Z, (e.1 < 2)%nat) l → snd <$> l ≡ₚ own 0 l ++ own 1 l.
Proof.
  induction 1 as [|[i t] l Hi _ IH]; [done|]. cbn in Hi. unfold own in *. rewrite !filter_cons. cbn.
  destruct i as [|[|i]]; [| |lia]; cbn.
  - by rewrite IH.
  - etrans; [apply perm_skip, IH|]. apply Permutation_middle.
Qed.
Lemma own_alone l : Forall (λ e : nat * list Z, (e.1 < 2)%nat) l → own 1 l = [] → snd <$> l = own 0 l.
Proof.
  induction 1 as [|[i t] l Hi _ IH]; [done|]. cbn in Hi. unfold own in *. rewrite !filter_cons. cbn.
  destruct i as [|[|i]]; [|done|lia]; cbn. intros H. by rewrite IH.
Qed.

Lemma concat_letters n (c : Z) : concat (replicate n [c]) = replicate n c.
Proof. induction n as [|n IH]; [done|]. cbn. by rewrite IH. Qed.

Lemma concat_perm {A} (l k : list (list A)) : l ≡ₚ k → concat l ≡ₚ concat k.
Proof. induction 1; cbn; [done|by f_equiv| |by etrans]. rewrite !app_assoc. f_equiv. apply Permutation_app_comm. Qed.

Definition all_finished (s : bar_test_state) : Prop := ∀ h q, pcs s !! h = Some q → q = Finished.

(** What barrier_test announces is what it prints: when the two harts are
    through, in whatever interleaving, every letter of the first loops comes before
    the line that hart 0 prints in between, and every letter of the second loops
    after it. *)
Theorem barrier_test_separates sched :
  let s := run barrier_test sched bar_test_start in
  all_finished s →
  ∃ first second,
    first ≡ₚ block 65 0 ++ block 65 1 ∧ second ≡ₚ block 67 0 ++ block 67 1 ∧
    out s = concat (texts 0 0) ++ first ++ concat (texts 0 2) ++ second.
Proof.
  intros s Hd. destruct (barrier_test_reachable sched) as [logs G]. fold s in G.
  assert (Hown : ∀ h j, (h < 2)%nat → own h (logs j) = texts h j).
  { intros h j Hh. destruct (lookup_lt_is_Some_2 (pcs s) h) as [q Hq]; [by rewrite (g_len _ _ G)|].
    rewrite <- (g_harts _ _ G h q Hq j), (Hd h q Hq). cbn. by rewrite app_nil_r. }
  pose proof (g_logs _ _ G) as Hl.
  assert (Hmid : ∀ j c, (∀ h, texts h j = replicate 400 [letter c h]) →
    concat (snd <$> logs j) ≡ₚ block c 0 ++ block c 1).
  { intros j c Ht. rewrite (concat_perm _ _ (own_permutation _ (Hl j))), concat_app, !Hown, !Ht, !concat_letters by lia.
    done. }
  exists (concat (snd <$> logs 1%nat)), (concat (snd <$> logs 3%nat)).
  split_and!; [by apply Hmid|by apply Hmid|].
  rewrite (g_out _ _ G). unfold flat. rewrite !fmap_app, !concat_app.
  rewrite (own_alone (logs 0%nat)), (own_alone (logs 2%nat)) by (apply Hl || (rewrite Hown by lia; done)).
  by rewrite !Hown by lia.
Qed.

(** Both harts run the good schedule of each barrier and print on their own. *)
Definition turns : list nat :=
  (replicate 3 0 ++ replicate 1 1 ++ good_schedule ++ replicate 401 0 ++ replicate 401 1 ++ good_schedule ++
   replicate 2 0 ++ replicate 1 1 ++ good_schedule ++ replicate 401 0 ++ replicate 401 1)%nat.

Lemma barrier_test_separates_witness : ∃ first second,
  first ≡ₚ block 65 0 ++ block 65 1 ∧ second ≡ₚ block 67 0 ++ block 67 1 ∧
  out (run barrier_test turns bar_test_start) = concat (texts 0 0) ++ first ++ concat (texts 0 2) ++ second.
Proof.
  apply (barrier_test_separates turns).
  assert (E : pcs (run barrier_test turns bar_test_start) = [Finished; Finished]) by (vm_compute; reflexivity).
  intros h q. rewrite E. by destruct h as [|[|h]]; intros [= <-].
Defined.

(** *** When the test does not end *)

Lemma wait_barrier_moves p x p' x' : wait_barrier p x = Some (p', x') → p' ≠ p.
Proof. destruct p; cbn; repeat case_match; intros [= <- <-]; done. Qed.

(** A hart that does not move is through or spins. *)
Lemma stays_put s h q : pcs s !! h = Some q → place_ok q → barrier_test h s = s →
  q = Finished ∨ ∃ k p, q = Waiting k p ∧ wait_barrier p (b1 s) = None.
Proof.
  intros Hq Hpl E. apply (f_equal (λ s, pcs s !! h)) in E. unfold barrier_test in E. rewrite Hq in E.
  pose proof (lookup_lt_Some _ _ _ Hq) as Hlt. destruct q as [k [|t rest]|k p|]; [exfalso|exfalso|right|by left].
  - cbn in E. rewrite list_lookup_insert_eq in E by done. by case_decide.
  - cbn in E. rewrite list_lookup_insert_eq in E by done. injection E as E.
    apply (f_equal length) in E. cbn in E. lia.
  - exists k, p. split; [done|]. destruct (wait_barrier p (b1 s)) as [[p' x]|] eqn:Hx; [|done]. cbn in E.
    rewrite list_lookup_insert_eq in E by done. case_decide; [done|].
    injection E as E. by destruct (wait_barrier_moves _ _ _ _ Hx).
Qed.

(** A hart that waits does not wait for one that is through. *)
Lemma finished_lets_go s logs i j k p : good s logs →
  pcs s !! i = Some Finished → pcs s !! j = Some (Waiting k p) → is_Some (wait_barrier p (b1 s)).
Proof.
  intros G Hi Hj. destruct (g_rounds _ _ G) as [sched E].
  pose proof (g_places _ _ G _ _ Hj) as [Hp Hk].
  assert (Hr : calls_left Done 3 <= calls_entered p (Z.of_nat k)).
  { apply (rounds_in_step sched i j); rewrite <- ?E; cbn; rewrite ?list_lookup_fmap, ?Hi, ?Hj; try done.
    intros ->. by rewrite Hi in Hj. }
  unfold calls_left, calls_entered in Hr. rewrite decide_True in Hr by done.
  assert (k = 3%nat) as -> by (destruct (entered p); lia).
  assert (Hb : b1 s = b (r_bar (run round_step sched (BarrierRounds.start 2)))) by (by rewrite <- E).
  rewrite Hb. apply (rounds_let_go sched i j p 3); rewrite <- ?E; cbn; rewrite ?list_lookup_fmap, ?Hi, ?Hj; done.
Qed.

(** Barrier_test either ends or gets stuck in the known way: a state of two
    harts in which neither can go on is the end of the test, or both took
    themselves for the last one at the barrier. *)
Theorem barrier_test_stuck sched :
  let s := run barrier_test sched bar_test_start in
  (∀ h, barrier_test h s = s) →
  all_finished s ∨ ∃ k l, pcs s = [Waiting k SpinPassed; Waiting l SpinPassed].
Proof.
  intros s Hst. destruct (barrier_test_reachable sched) as [logs G]. fold s in G.
  pose proof (g_len _ _ G) as Hlen. destruct (pcs s) as [|q0 [|q1 [|]]] eqn:Ep; try done.
  assert (H0 : pcs s !! 0%nat = Some q0) by (by rewrite Ep). assert (H1 : pcs s !! 1%nat = Some q1) by (by rewrite Ep).
  destruct (stays_put s _ _ H0 (g_places _ _ G _ _ H0) (Hst _)) as [->|(k & p & -> & Np)];
    destruct (stays_put s _ _ H1 (g_places _ _ G _ _ H1) (Hst _)) as [->|(l & r & -> & Nr)].
  - left. intros h q. rewrite Ep. by destruct h as [|[|h]]; intros [= <-].
  - destruct (finished_lets_go s logs _ _ _ _ G H0 H1) as [? Hx]. by rewrite Nr in Hx.
  - destruct (finished_lets_go s logs _ _ _ _ G H1 H0) as [? Hx]. by rewrite Np in Hx.
  - right. exists k, l. destruct (g_rounds _ _ G) as [sched' E].
    pose proof (g_places _ _ G _ _ H0) as [Hp _]. pose proof (g_places _ _ G _ _ H1) as [Hr _].
    assert (Hs : harts (r_bar (rounds_of s)) = [SpinPassed; SpinPassed]).
    { rewrite E. apply rounds_stuck. rewrite <- E. intros i. destruct (harts (r_bar (rounds_of s)) !! i) as [x|] eqn:Hx.
      - assert (Hn : x ≠ Done ∧ wait_barrier x (b1 s) = None)
          by (cbn in Hx; rewrite Ep in Hx; destruct i as [|[|i]]; [by injection Hx as <-..|done]).
        rewrite (round_step_wait _ _ _ Hx (proj1 Hn)). unfold bar_step. rewrite Hx. cbn [rounds_of r_bar b].
        by rewrite (proj2 Hn).
      - unfold round_step, bar_step. by rewrite Hx. }
    cbn in Hs. rewrite Ep in Hs. by injection Hs as -> ->.
Qed.

(** The two harts run into the deadlock of Lock.v at the first barrier. *)
Lemma barrier_test_stuck_witness :
  let s := run barrier_test ([0; 0; 0; 1] ++ bad_schedule)%nat bar_test_start in
  all_finished s ∨
  ∃ k l, pcs s = [Waiting k SpinPassed; Waiting l SpinPassed].
Proof.
  apply (barrier_test_stuck ([0; 0; 0; 1] ++ bad_schedule)%nat).
  intros [|[|h]]; vm_compute; reflexivity.
Defined.
End BarrierTest.
