(* ===== verification/Kmem.v ===== *)
(** * Kmem: the page allocator of mem/kmem.c

    Free pages form a singly linked list whose links are stored in the pages
    themselves.  [kmem_inv w fl] says that the list in RAM is exactly [fl]; the
    theorems say what each operation does to it and to the rest of memory. *)

From S2P Require Import Prelude Layout Memory Machine.

(** What the linker script guarantees about [dynamic], the end of the image:
    it is page aligned and lies above the firmware, inside RAM. *)
Class LinkerOk (L : Linker) : Prop := {
  dynamic_aligned : sym_dynamic mod PAGE_SIZE = 0;
  dynamic_range : VAS_KERNEL + FIRMWARE_SIZE <= sym_dynamic < VAS_KERNEL + DTB_MEMORY_SIZE
}.

(** ** Operations *)

Section ops.
Context {D : Type} {L : Linker}.
#[local] Abbreviation M := (cmd (world D)).

Definition valid_address (kpa : Z) : bool :=
  if negb (kpa mod PAGE_SIZE =? 0) then false
  else if (kpa <? KVA2KPA sym_dynamic) || (PA2KPA DTB_MEMORY_END <=? kpa) then false
  else true.

Definition set_freelist (p : Z) : M unit :=
  modify (λ w, set_kmem (mk_kmem (kmem_lk (w_kmem w)) p) w).

Definition kmalloc : M Z :=
  acquire_kmem ;;
  page ← gets (λ w, freelist (w_kmem w));
  whenM (truthy page) (next ← load64 page; set_freelist next) ;;
  release_kmem ;;
  memset page 0 PAGE_SIZE ;;
  mret page.

Definition kfree (kpa : Z) : M unit :=
  if negb (valid_address kpa) then panic "kfree"
  else
    acquire_kmem ;;
    next ← gets (λ w, freelist (w_kmem w));
    store64 kpa next ;;
    set_freelist kpa ;;
    release_kmem.

Definition bootstrap_kfree (kpa : Z) : M unit :=
  next ← gets (λ w, freelist (w_kmem w));
  store64 kpa next ;;
  set_freelist kpa.

(** [while (valid_address(kpa)) { bootstrap_kfree(kpa); kpa += PAGE_SIZE; }] *)
Fixpoint init_kmem_loop (fuel : nat) (kpa : Z) : M unit :=
  match fuel with
  | O => hang
  | S fuel' =>
      if valid_address kpa
      then bootstrap_kfree kpa ;; init_kmem_loop fuel' (u64 (kpa + PAGE_SIZE))
      else mret tt
  end.

Definition init_kmem : M unit :=
  init_kmem_loop (Z.to_nat (DTB_MEMORY_SIZE / PAGE_SIZE + 1))
    (KVA2KPA (PGROUNDUP sym_dynamic)).
End ops.

(** ** The free list in memory *)

Section inv.
Context {D : Type} {L : Linker} `{!LinkerOk L}.
Implicit Types (w : world D) (m : ram) (fl : list Z).

Fixpoint is_freelist m (p : Z) fl : Prop :=
  match fl with
  | [] => p = 0
  | x :: fl' => p = x ∧ valid_address x = true ∧
      ∃ next, rd64 m (KPA2PA x) = Some next ∧ is_freelist m next fl'
  end.

(** All of RAM above the image is backed by memory. *)
Definition ram_ok m : Prop :=
  has_bytes m (KVA2PA sym_dynamic) (DTB_MEMORY_END - KVA2PA sym_dynamic).

(** The pages [fl] are. *)
Definition pages_ok m fl : Prop := ∀ x, x ∈ fl → has_bytes m (KPA2PA x) PAGE_SIZE.

Definition kmem_inv w fl : Prop :=
  kmem_lk (w_kmem w) = 0 ∧ is_freelist (w_mem w) (freelist (w_kmem w)) fl ∧
  NoDup fl ∧ pages_ok (w_mem w) fl.

(** Every byte backed by memory stays so. *)
Definition backed m m' : Prop := ∀ p n, has_bytes m p n → has_bytes m' p n.
Lemma pages_ok_backed m m' fl : backed m m' → pages_ok m fl → pages_ok m' fl.
Proof. intros Hb Hp x Hx. by apply Hb, Hp. Qed.
Lemma pages_ok_sub m fl fl' : fl' ⊆ fl → pages_ok m fl → pages_ok m fl'.
Proof. intros Hs Hp x Hx. by apply Hp, Hs. Qed.

(** [w'] differs from [w] in RAM and in the allocator's variables only. *)
Definition mem_only w w' : Prop := ∃ m k, w' = set_mem m (set_kmem k w).

#[export] Instance mem_only_preorder : PreOrder mem_only.
Proof.
  split.
  - intros w. exists (w_mem w), (w_kmem w). by destruct w.
  - intros w1 w2 w3 (m & k & ->) (m' & k' & ->). by exists m', k'.
Qed.

Lemma mem_only_intro w w' : w' = set_mem (w_mem w') (set_kmem (w_kmem w') w) → mem_only w w'.
Proof. intros H. by exists (w_mem w'), (w_kmem w'). Qed.

Lemma dynamic_pa : KVA2PA sym_dynamic = DTB_MEMORY + (sym_dynamic - VAS_KERNEL) ∧
  KVA2KPA sym_dynamic = VAS_RAM + (sym_dynamic - VAS_KERNEL).
Proof.
  pose proof dynamic_range. unfold FIRMWARE_SIZE, DTB_MEMORY_SIZE in *.
  rewrite <- KVA2PA_off, <- KVA2KPA_off by lia.
  by replace (VAS_KERNEL + (sym_dynamic - VAS_KERNEL)) with sym_dynamic by lia.
Qed.

(** A valid page as an offset from the start of RAM. *)
Lemma valid_address_off x : valid_address x = true ↔
  ∃ o, x = VAS_RAM + o ∧ o mod PAGE_SIZE = 0 ∧
       sym_dynamic - VAS_KERNEL <= o < DTB_MEMORY_SIZE.
Proof.
  pose proof dynamic_range as Hd. pose proof dynamic_aligned as Ha.
  unfold FIRMWARE_SIZE, DTB_MEMORY_SIZE, PAGE_SIZE in *.
  pose proof dynamic_pa as [_ HK].
  assert (HE : PA2KPA DTB_MEMORY_END = VAS_RAM + 0x10000000) by done.
  assert (HV : VAS_RAM mod 4096 = 0) by done.
  unfold valid_address. rewrite HK, HE. split.
  - destruct (Z.eqb_spec (x mod PAGE_SIZE) 0) as [Hx|]; [|done]. simpl.
    destruct (Z.ltb_spec x (VAS_RAM + (sym_dynamic - VAS_KERNEL))); [done|].
    destruct (Z.leb_spec (VAS_RAM + 0x10000000) x); [done|]. intros _.
    exists (x - VAS_RAM). unfold PAGE_SIZE in *. split; [lia|].
    split; [|lia]. revert Hx HV. clear. intros. dlia.
  - intros (o & -> & Ho & Hr).
    destruct (Z.eqb_spec ((VAS_RAM + o) mod PAGE_SIZE) 0) as [Hx|Hx].
    + simpl. rewrite (proj2 (Z.ltb_ge _ _)), (proj2 (Z.leb_gt _ _)) by lia. done.
    + exfalso. apply Hx. unfold PAGE_SIZE. revert Ho HV. clear. intros. dlia.
Qed.

Lemma valid_address_pa x : valid_address x = true →
  KPA2PA x mod PAGE_SIZE = 0 ∧
  KVA2PA sym_dynamic <= KPA2PA x ∧ KPA2PA x + PAGE_SIZE <= DTB_MEMORY_END ∧
  x = PA2KPA (KPA2PA x) ∧ kptr_range x (KPA2PA x) PAGE_SIZE ∧ x ≠ 0.
Proof.
  intros (o & -> & Ho & Hr)%valid_address_off. pose proof dynamic_range.
  unfold FIRMWARE_SIZE, DTB_MEMORY_SIZE in *.
  assert (o + PAGE_SIZE <= 0x10000000) by (unfold PAGE_SIZE in *; revert Ho Hr; clear; intros; dlia).
  rewrite KPA2PA_off, (proj1 dynamic_pa) by lia. split_and!.
  - unfold DTB_MEMORY, PAGE_SIZE in *. revert Ho; clear; intros; dlia.
  - lia.
  - unfold DTB_MEMORY_END, DTB_MEMORY_SIZE. lia.
  - symmetry. apply PA2KPA_off. lia.
  - apply kptr_range_kpa; unfold GIGAPAGE; lia.
  - unfold VAS_RAM. lia.
Qed.

Lemma KPA2PA_inj x y : valid_address x = true → valid_address y = true →
  KPA2PA x = KPA2PA y → x = y.
Proof.
  intros Hx Hy E. apply valid_address_pa in Hx as (_ & _ & _ & -> & _).
  apply valid_address_pa in Hy as (_ & _ & _ & -> & _). by rewrite E.
Qed.

(** The pages of two distinct valid addresses do not overlap. *)
Lemma pages_disjoint x y : valid_address x = true → valid_address y = true → x ≠ y →
  KPA2PA x + PAGE_SIZE <= KPA2PA y ∨ KPA2PA y + PAGE_SIZE <= KPA2PA x.
Proof.
  intros Hx Hy Hne. assert (KPA2PA x ≠ KPA2PA y) by (by intros E; apply Hne, KPA2PA_inj).
  apply valid_address_pa in Hx as (Hx & _). apply valid_address_pa in Hy as (Hy & _).
  unfold PAGE_SIZE in *. revert Hx Hy H. clear. intros. dlia.
Qed.

Lemma ram_ok_page m x : ram_ok m → valid_address x = true → has_bytes m (KPA2PA x) PAGE_SIZE.
Proof.
  intros Hm Hx. apply valid_address_pa in Hx as (_ & ? & ? & _).
  eapply has_bytes_sub; [exact Hm|..]; lia.
Qed.

Lemma is_freelist_valid m p fl : is_freelist m p fl → Forall (λ x, valid_address x = true) fl.
Proof.
  revert p. induction fl as [|x fl IH]; intros p; simpl; [constructor|].
  intros (_ & Hx & next & _ & Hfl). constructor; eauto.
Qed.

Lemma freelist_elem_valid w x fl : kmem_inv w fl → x ∈ fl → valid_address x = true.
Proof.
  intros (_ & Hfl & _). pose proof (is_freelist_valid _ _ _ Hfl) as Hf.
  rewrite Forall_forall in Hf. apply Hf.
Qed.

(** Only the first word of each free page matters. *)
Lemma is_freelist_frame m m' p fl : is_freelist m p fl →
  (∀ x, x ∈ fl → ∀ a, KPA2PA x <= a < KPA2PA x + 8 → m !! a = m' !! a) →
  is_freelist m' p fl.
Proof.
  revert p. induction fl as [|x fl IH]; intros p; simpl; [done|].
  intros (-> & Hx & next & Hn & Hfl) Hext. split_and!; [done..|].
  exists next. split.
  - rewrite <- Hn. symmetry. apply rd64_ext. intros a Ha. apply (Hext x); [apply elem_of_cons; by left|done].
  - apply IH; [done|]. intros y Hy. apply Hext. set_solver.
Qed.

(** A memory that changes only inside page [x], not a free page, has the same
    free list. *)
Lemma is_freelist_page m m' p fl x : is_freelist m p fl → valid_address x = true → x ∉ fl →
  (∀ a, ¬ (KPA2PA x <= a < KPA2PA x + PAGE_SIZE) → m !! a = m' !! a) →
  is_freelist m' p fl.
Proof.
  intros Hfl Hx Hni Hext. eapply is_freelist_frame; [exact Hfl|].
  intros y Hy a Ha. apply Hext.
  assert (Hv : valid_address y = true) by (pose proof (is_freelist_valid _ _ _ Hfl) as Hf;
    rewrite Forall_forall in Hf; by apply Hf).
  destruct (pages_disjoint y x Hv Hx) as [|]; [by intros ->| |]; unfold PAGE_SIZE in *; lia.
Qed.
End inv.

(** ** What the operations do *)

Section spec.
Context {D : Type} {L : Linker} `{!LinkerOk L}.
Implicit Types (w : world D) (m : ram) (fl : list Z).

(** [w'] is [w] after the free page [x] was taken off the list and cleared. *)
Definition page_taken (x : Z) w w' : Prop :=
  mem_only w w' ∧ zeroed (w_mem w') (KPA2PA x) PAGE_SIZE ∧
  ∀ a, ¬ (KPA2PA x <= a < KPA2PA x + PAGE_SIZE) → w_mem w' !! a = w_mem w !! a.

(** A page of memory cleared by [memset]. *)
Definition clear_page (m : ram) (p : Z) : ram :=
  wr_bytes m p (replicate (Z.to_nat PAGE_SIZE) (byte.of_Z 0)).

Lemma lookup_clear_page m p a :
  clear_page m p !! a = if decide (p <= a < p + PAGE_SIZE) then Some Byte.x00 else m !! a.
Proof.
  unfold clear_page. change (byte.of_Z 0) with Byte.x00.
  rewrite lookup_wr_bytes, length_replicate.
  rewrite Z2Nat.id by (unfold PAGE_SIZE; lia). destruct (decide _); [|done].
  apply lookup_replicate. split; [done|]. unfold PAGE_SIZE in *. lia.
Qed.

Lemma memset_page w x p : kptr_range x p PAGE_SIZE → has_bytes (w_mem w) p PAGE_SIZE →
  memset x 0 PAGE_SIZE w = Ok x (set_mem (clear_page (w_mem w) p) w).
Proof. intros. by apply memset_ok. Qed.

Lemma zeroed_clear_page m p : zeroed (clear_page m p) p PAGE_SIZE.
Proof. intros a Ha. by rewrite lookup_clear_page, decide_True. Qed.

Lemma has_bytes_clear_page m p q n : has_bytes m q n → has_bytes (clear_page m p) q n.
Proof. apply has_bytes_wr. Qed.

Lemma kmalloc_ok w x fl : kmem_inv w (x :: fl) →
  ∃ w', kmalloc w = Ok x w' ∧ kmem_inv w' fl ∧ page_taken x w w'.
Proof.
  intros (Hlk & (Hp & Hx & next & Hnx & Hfl) & Hnd & Hram).
  pose proof (valid_address_pa x Hx) as (_ & _ & _ & _ & Hrg & Hx0).
  set (w1 := set_kmem (mk_kmem 0 next) w).
  exists (set_mem (clear_page (w_mem w) (KPA2PA x)) w1).
  apply NoDup_cons in Hnd as [Hni Hnd]. split_and!.
  - unfold kmalloc. rewrite (bind_ok _ _ _ tt (set_kmem (mk_kmem 1 x) w))
      by (unfold acquire_kmem; rewrite Hlk; simpl; by rewrite <- Hp).
    csimp. rewrite (bind_ok _ _ _ tt (set_kmem (mk_kmem 1 next) w)).
    + unfold release_kmem. csimp. rewrite (bind_ok _ _ _ x (set_mem (clear_page (w_mem w) (KPA2PA x)) w1)); [done|].
      apply (memset_page w1); [done|]. apply Hram. by left.
    + simpl. rewrite (proj2 (truthy_true x)) by done. simpl.
      rewrite (bind_ok _ _ _ next (set_kmem (mk_kmem 1 x) w)); [done|].
      apply (load64_ok _ x (KPA2PA x)); [|done].
      specialize (Hrg 0). rewrite !Z.add_0_r in Hrg. apply Hrg. by vm_compute.
  - split_and!; [done| |done|].
    + eapply is_freelist_page; [exact Hfl|done|done|].
      intros a Ha. cbn [w_mem set_mem]. by rewrite lookup_clear_page, decide_False.
    + eapply pages_ok_backed; [intros p n; apply has_bytes_clear_page|].
      eapply pages_ok_sub; [|exact Hram]. intros y Hy. by right.
  - split_and!; [by exists (clear_page (w_mem w) (KPA2PA x)), (mk_kmem 0 next)|apply zeroed_clear_page|].
    intros a Ha. cbn [w_mem set_mem]. by rewrite lookup_clear_page, decide_False.
Qed.

(** Clearing a page that was just taken changes nothing more. *)
Lemma memset_taken w w1 x fl : valid_address x = true → x ∉ fl →
  kmem_inv w1 fl → page_taken x w w1 →
  ∃ w2, memset x 0 PAGE_SIZE w1 = Ok x w2 ∧ kmem_inv w2 fl ∧ page_taken x w w2.
Proof.
  intros Hx Hni (Hlk & Hfl & Hnd & Hram) ((m & k & ->) & Hz & Hf).
  destruct (valid_address_pa x Hx) as (_ & _ & _ & _ & Hrg & _).
  eexists. split; [apply memset_page; [exact Hrg|by apply zeroed_has_bytes]|].
  cbn [w_mem set_mem] in *. split.
  - split_and!; [exact Hlk| |exact Hnd|eapply pages_ok_backed; [intros p n; apply has_bytes_clear_page|exact Hram]].
    eapply is_freelist_page; [exact Hfl|exact Hx|exact Hni|].
    intros a Ha. cbn [w_mem set_mem]. by rewrite lookup_clear_page, decide_False.
  - split_and!; [by exists (clear_page m (KPA2PA x)), k|apply zeroed_clear_page|].
    intros a Ha. cbn [w_mem set_mem]. rewrite lookup_clear_page, decide_False by done.
    by apply Hf.
Qed.

(** With no free page the clearing loop runs on the null pointer. *)
Lemma kmalloc_empty w : kmem_inv w [] →
  kmalloc w = Fault 0 w.
Proof.
  intros (Hlk & Hp & _). simpl in Hp. unfold kmalloc.
  rewrite (bind_ok _ _ _ tt (set_kmem (mk_kmem 1 0) w))
    by (unfold acquire_kmem; rewrite Hlk; simpl; by rewrite Hp).
  unfold release_kmem. csimp. simpl freelist. cbn [truthy whenM negb Z.eqb]. csimp.
  erewrite bind_fault; [|by apply memset_fault]. destruct w as [? [lk f] ? ? ? ? ? ? ? ?].
  simpl in *. by subst.
Qed.

Lemma push_page w x fl : kmem_inv w fl → valid_address x = true → x ∉ fl →
  has_bytes (w_mem w) (KPA2PA x) PAGE_SIZE → ∀ lk, kmem_inv (set_kmem (mk_kmem 0 x)
          (set_mem (wr64 (w_mem w) (KPA2PA x) (freelist (w_kmem w))) (set_kmem lk w)))
          (x :: fl).
Proof.
  intros (Hlk & Hfl & Hnd & Hram) Hx Hni Hpg lk.
  assert (Hf : 0 <= freelist (w_kmem w) < 2 ^ 64).
  { destruct fl as [|y fl]; simpl in Hfl; [lia|]. destruct Hfl as (-> & Hy & _).
    apply valid_address_off in Hy as (o & -> & _ & ?). pose proof dynamic_range.
    unfold VAS_RAM, FIRMWARE_SIZE, DTB_MEMORY_SIZE in *. lia. }
  split_and!; simpl.
  - done.
  - split_and!; [done..|]. exists (freelist (w_kmem w)).
    rewrite rd64_wr64_same, u64_id by done. split; [done|].
    eapply is_freelist_page; [exact Hfl|exact Hx|done|].
    intros a Ha. rewrite lookup_wr64, decide_False; [done|]. unfold PAGE_SIZE in Ha. lia.
  - by constructor.
  - intros y [->|Hy]%elem_of_cons; apply has_bytes_wr64; [done|by apply Hram].
Qed.

Lemma store_link w x v : has_bytes (w_mem w) (KPA2PA x) PAGE_SIZE → valid_address x = true →
  store64 x v w = Ok tt (set_mem (wr64 (w_mem w) (KPA2PA x) v) w).
Proof.
  intros Hram Hx. pose proof (valid_address_pa x Hx) as (_ & _ & _ & _ & Hrg & _).
  apply store64_ok.
  - specialize (Hrg 0). rewrite !Z.add_0_r in Hrg. apply Hrg. by vm_compute.
  - eapply has_bytes_sub; [exact Hram|lia|]. unfold PAGE_SIZE. lia.
Qed.

Lemma kfree_ok w x fl : kmem_inv w fl → valid_address x = true → x ∉ fl →
  has_bytes (w_mem w) (KPA2PA x) PAGE_SIZE →
  ∃ w', kfree x w = Ok tt w' ∧ kmem_inv w' (x :: fl) ∧ mem_only w w' ∧
    ∀ a, ¬ (KPA2PA x <= a < KPA2PA x + 8) → w_mem w' !! a = w_mem w !! a.
Proof.
  intros Hinv Hx Hni Hpg. pose proof Hinv as (Hlk & Hfl & Hnd & Hram).
  set (f := freelist (w_kmem w)).
  exists (set_kmem (mk_kmem 0 x) (set_mem (wr64 (w_mem w) (KPA2PA x) f)
           (set_kmem (mk_kmem 1 f) w))). split_and!.
  - unfold kfree. rewrite Hx. simpl.
    rewrite (bind_ok _ _ _ tt (set_kmem (mk_kmem 1 f) w))
      by (unfold acquire_kmem; rewrite Hlk; done).
    csimp. erewrite bind_ok; [|by apply store_link]. csimp. done.
  - by apply push_page.
  - by apply mem_only_intro.
  - intros a Ha. simpl. by rewrite lookup_wr64, decide_False.
Qed.

Lemma bootstrap_kfree_ok w x fl : kmem_inv w fl → valid_address x = true → x ∉ fl →
  has_bytes (w_mem w) (KPA2PA x) PAGE_SIZE →
  ∃ w', bootstrap_kfree x w = Ok tt w' ∧ kmem_inv w' (x :: fl) ∧ mem_only w w' ∧
    backed (w_mem w) (w_mem w').
Proof.
  intros Hinv Hx Hni Hpg. pose proof Hinv as (Hlk & Hfl & Hnd & Hram).
  exists (set_kmem (mk_kmem 0 x) (set_mem (wr64 (w_mem w) (KPA2PA x) (freelist (w_kmem w)))
           (set_kmem (w_kmem w) w))). split_and!.
  - unfold bootstrap_kfree. csimp. erewrite bind_ok; [|by apply store_link].
    simpl. unfold set_freelist. rewrite modify_run. simpl. rewrite Hlk. by destruct w.
  - by apply push_page.
  - by apply mem_only_intro.
  - intros p n. apply has_bytes_wr64.
Qed.

(** ** Initialisation *)

(** The pages [base, base + PAGE_SIZE, ...], the last one first. *)
Fixpoint pages_down (base : Z) (n : nat) : list Z :=
  match n with
  | O => []
  | S n' => (base + PAGE_SIZE * Z.of_nat n') :: pages_down base n'
  end.

Lemma elem_of_pages_down base n p : p ∈ pages_down base n ↔
  ∃ k, 0 <= k < Z.of_nat n ∧ p = base + PAGE_SIZE * k.
Proof.
  induction n as [|n IH]; cbn [pages_down].
  - split; [by intros ?%not_elem_of_nil|]. intros (k & ? & _). lia.
  - rewrite elem_of_cons, IH. split.
    + intros [->|(k & ? & ->)]; [exists (Z.of_nat n)|exists k]; split; lia || done.
    + intros (k & ? & ->). destruct (decide (k = Z.of_nat n)) as [->|]; [by left|].
      right. exists k. split; [lia|done].
Qed.

Lemma length_pages_down base n : length (pages_down base n) = n.
Proof. induction n as [|n IH]; cbn [pages_down length]; [done|]. by rewrite IH. Qed.

Lemma init_kmem_loop_ok n k fuel base w :
  (n < fuel)%nat →
  (∀ i, 0 <= i → (valid_address (base + PAGE_SIZE * i) = true ↔ i < Z.of_nat (k + n))) →
  0 <= base → base + PAGE_SIZE * Z.of_nat (k + n) < 2 ^ 64 →
  kmem_inv w (pages_down base k) → ram_ok (w_mem w) →
  ∃ w', init_kmem_loop fuel (base + PAGE_SIZE * Z.of_nat k) w = Ok tt w' ∧
        kmem_inv w' (pages_down base (k + n)) ∧ mem_only w w' ∧ backed (w_mem w) (w_mem w').
Proof.
  revert k fuel w. induction n as [|n IH]; intros k [|fuel] w Hf Hv Hb Hlt Hinv Hram; try lia.
  - rewrite Nat.add_0_r in *. exists w. split_and!; [|done|reflexivity|by intros p n]. cbn [init_kmem_loop].
    destruct (valid_address _) eqn:E; [|done]. apply Hv in E; lia.
  - cbn [init_kmem_loop]. assert (E : valid_address (base + PAGE_SIZE * Z.of_nat k) = true)
      by (apply Hv; lia).
    rewrite E.
    destruct (bootstrap_kfree_ok w _ _ Hinv E) as (w1 & Hrun & Hinv1 & Ho & Hb1).
    { rewrite elem_of_pages_down. intros (j & ? & ?). unfold PAGE_SIZE in *. lia. }
    { by apply ram_ok_page. }
    erewrite bind_ok by exact Hrun.
    replace (u64 (base + PAGE_SIZE * Z.of_nat k + PAGE_SIZE))
      with (base + PAGE_SIZE * Z.of_nat (S k))
      by (unfold PAGE_SIZE in *; rewrite u64_id; lia).
    destruct (IH (S k) fuel w1) as (w2 & H2 & Hinv2 & Ho2 & Hb2); [lia|..|].
    + intros i Hi. rewrite Hv by done. replace (S k + n)%nat with (k + S n)%nat by lia. done.
    + done.
    + replace (S k + n)%nat with (k + S n)%nat by lia. done.
    + done.
    + by apply Hb1.
    + exists w2. split_and!; [done| |by etrans|intros p m Hp; by apply Hb2, Hb1].
      by replace (k + S n)%nat with (S k + n)%nat by lia.
Qed.

(** The pages [init_kmem] hands to the allocator. *)
Definition all_pages : list Z :=
  pages_down (KVA2KPA sym_dynamic)
    (Z.to_nat ((VAS_KERNEL + DTB_MEMORY_SIZE - sym_dynamic) / PAGE_SIZE)).

Lemma PGROUNDUP_dynamic : PGROUNDUP sym_dynamic = sym_dynamic.
Proof.
  pose proof dynamic_range. pose proof dynamic_aligned.
  unfold VAS_KERNEL, DTB_MEMORY_SIZE, FIRMWARE_SIZE, PAGE_SIZE in *.
  rewrite PGROUNDUP_spec by (unfold PAGE_SIZE; lia). unfold PAGE_SIZE.
  revert H H0. clear. intros. dlia.
Qed.

Lemma valid_address_index i : 0 <= i →
  valid_address (KVA2KPA sym_dynamic + PAGE_SIZE * i) = true ↔
  i < (VAS_KERNEL + DTB_MEMORY_SIZE - sym_dynamic) / PAGE_SIZE.
Proof.
  intros Hi. pose proof dynamic_range as Hr. pose proof dynamic_aligned as Ha.
  rewrite valid_address_off.
  rewrite (proj2 dynamic_pa).
  unfold VAS_KERNEL, FIRMWARE_SIZE, DTB_MEMORY_SIZE, PAGE_SIZE in *.
  revert Hr Ha Hi. generalize sym_dynamic. generalize VAS_RAM. clear. intros V d ???.
  split.
  - intros (o & E & Ho & Hlt). assert (o = d - 0xffffffc000000000 + 4096 * i) by lia. subst o.
    dlia.
  - intros Hlt. exists (d - 0xffffffc000000000 + 4096 * i). split_and!; [lia| | |]; dlia.
Qed.

Lemma init_kmem_ok w : kmem_lk (w_kmem w) = 0 → freelist (w_kmem w) = 0 → ram_ok (w_mem w) →
  ∃ w', init_kmem w = Ok tt w' ∧ kmem_inv w' all_pages ∧ mem_only w w' ∧
    backed (w_mem w) (w_mem w').
Proof.
  intros Hlk Hf Hram. pose proof dynamic_range as Hr. pose proof dynamic_aligned as Ha.
  unfold init_kmem. rewrite PGROUNDUP_dynamic. unfold all_pages.
  set (n := Z.to_nat _) at 2.
  assert (Hn : Z.of_nat n = (VAS_KERNEL + DTB_MEMORY_SIZE - sym_dynamic) / PAGE_SIZE).
  { unfold n. rewrite Z2Nat.id; [done|].
    unfold VAS_KERNEL, FIRMWARE_SIZE, DTB_MEMORY_SIZE, PAGE_SIZE in *.
    revert Hr. clear. intros. dlia. }
  pose proof dynamic_pa as [_ HK].
  pose proof (init_kmem_loop_ok n 0 (Z.to_nat (DTB_MEMORY_SIZE / PAGE_SIZE + 1))
    (KVA2KPA sym_dynamic) w) as Hl.
  rewrite Z.mul_0_r, Z.add_0_r in Hl. apply Hl.
  - apply Nat2Z.inj_lt. rewrite Hn.
    unfold VAS_KERNEL, FIRMWARE_SIZE, DTB_MEMORY_SIZE, PAGE_SIZE in *.
    revert Hr. clear. intros. rewrite Z2Nat.id by dlia. dlia.
  - intros i Hi. rewrite valid_address_index by done. by rewrite Nat.add_0_l, Hn.
  - rewrite HK. unfold VAS_RAM, FIRMWARE_SIZE in *. lia.
  - rewrite Nat.add_0_l, Hn, HK.
    unfold VAS_RAM, VAS_KERNEL, FIRMWARE_SIZE, DTB_MEMORY_SIZE, PAGE_SIZE in *.
    revert Hr. clear. intros. dlia.
  - split_and!; [done| |constructor|by intros x ?%not_elem_of_nil]. by rewrite Hf.
  - exact Hram.
Qed.

Lemma NoDup_pages_down base n : NoDup (pages_down base n).
Proof.
  induction n as [|n IH]; cbn [pages_down]; constructor; [|done].
  intros (k & Hk & E)%elem_of_pages_down. unfold PAGE_SIZE in E. lia.
Qed.

Lemma elem_of_all_pages p : p ∈ all_pages ↔ valid_address p = true.
Proof.
  pose proof dynamic_range as Hr. unfold all_pages. rewrite elem_of_pages_down.
  rewrite Z2Nat.id by (unfold VAS_KERNEL, FIRMWARE_SIZE, DTB_MEMORY_SIZE, PAGE_SIZE in *;
    revert Hr; clear; intros; dlia).
  split.
  - intros (k & Hk & ->). apply valid_address_index; lia.
  - intros Hp. pose proof Hp as (o & E & Ho & Hlt)%valid_address_off.
    pose proof dynamic_aligned as Ha.
    pose proof dynamic_pa as [_ HK].
    set (k := (o - (sym_dynamic - VAS_KERNEL)) / PAGE_SIZE).
    assert (Hk : p = KVA2KPA sym_dynamic + PAGE_SIZE * k ∧ 0 <= k).
    { rewrite HK, E. unfold k. unfold PAGE_SIZE, VAS_KERNEL in *. revert Ho Ha Hlt.
      generalize VAS_RAM. generalize sym_dynamic. clear. intros. dlia. }
    destruct Hk as [Hk Hk0]. exists k. split; [|done]. split; [done|].
    apply valid_address_index; [done|]. by rewrite <- Hk.
Qed.
End spec.
