(* ===== verification/Cpu.v ===== *)
(** * Cpu: per-hart data of driver/cpu.c

    [struct cpu] holds the hart id (and the stack, which the model leaves out).
    Before [cpu_mapped] is set a hart finds its structure with [tp]; afterwards
    every hart sees its own structure at [VAS_CPU_STRUCT], whatever [tp] holds. *)

From S2P Require Import Prelude Layout Memory Machine.

(** sizeof(struct cpu): the 8-byte id padded to a page, then two stack pages. *)
Definition CPU_SIZE := 3 * PAGE_SIZE.

Section cpu.
Context {D : Type} {L : Linker}.
Implicit Type w : world D.
#[local] Abbreviation M := (cmd (world D)).

Definition mycpu : M Z := λ w,
  if truthy (w_cpu_mapped w) then Ok VAS_CPU_STRUCT w
  else Ok (u64 (sym_cpu_structs + w_tp w * CPU_SIZE)) w.

(** The element of [cpus] an address designates on the running hart: its own
    page table maps [VAS_CPU_STRUCT] to its own structure (init_vmem). *)
Definition cpu_index (p : Z) w : option nat :=
  if p =? VAS_CPU_STRUCT then Some (Z.to_nat (w_hart w))
  else let o := p - sym_cpu_structs in
       if (0 <=? o) && (o mod CPU_SIZE =? 0) then Some (Z.to_nat (o / CPU_SIZE)) else None.

Definition load_hartid (p : Z) : M Z := λ w,
  match cpu_index p w ≫= λ i, w_cpus w !! i with
  | Some id => Ok id w
  | None => Fault p w
  end.

Definition store_hartid (p v : Z) : M unit := λ w,
  match cpu_index p w with
  | Some i => if (i <? length (w_cpus w))%nat
              then Ok tt (set_cpus (<[i := v]> (w_cpus w)) w) else Fault p w
  | None => Fault p w
  end.

Definition get_hartid : M Z := p ← mycpu; load_hartid p.

(** init_hart up to the switch of the stack: everything but [relocate_stack],
    which only moves [sp] and [fp]. *)
Definition init_hart (pgtable : Z) : M unit :=
  p ← mycpu;
  tp ← gets w_tp;
  store_hartid p tp ;;
  CSRS sie SIE_SEIE ;;
  CSRC sie SIE_STIE ;;
  let reg := sym_hstrapvec .& ~64 TVEC_MODE in
  CSRW stvec (reg .| TVEC_MODE_DIRECT) ;;
  CSRW satp ((KPA2PA pgtable .>> 12) .| ATP_MODE_SV39).

(** The state after boot: this hart's structure is mapped and filled in. *)
Definition cpu_ready w : Prop :=
  w_cpu_mapped w ≠ 0 ∧ 0 <= w_hart w < DTB_NR_CPUS ∧
  w_cpus w !! Z.to_nat (w_hart w) = Some (w_hart w).

Lemma get_hartid_ready w : cpu_ready w → get_hartid w = Ok (w_hart w) w.
Proof.
  intros (Hm & Hh & Hc). unfold get_hartid.
  rewrite (bind_ok _ _ _ VAS_CPU_STRUCT w)
    by (unfold mycpu; by rewrite (proj2 (truthy_true _) Hm)).
  unfold load_hartid, cpu_index. rewrite Z.eqb_refl. simpl. by rewrite Hc.
Qed.
End cpu.
