(* ===== verification/Linkerscript.v ===== *)
(** * Linkerscript: where the image goes, helper/linkerscript.c and helper/structs_in_asm.c

    The linker script as a computation on the location counter and the load
    offset, and the offsets handed to the assembler.  [image_layout] shows what
    the C code takes for granted: the sections of the kernel are page aligned,
    in order, do not share pages, and every one is loaded at the physical
    address KVA2PA gives for its virtual address. *)

From Stdlib Require Import Sorting.Sorted.
From S2P Require Import Prelude Layout Memory Machine Kmem Cpu.

(** ** helper/structs_in_asm.c *)

(** [hartid] has 8 bytes; [stack] is the next member, aligned to a page. *)
Definition CPU_STACK_OFF := PGROUNDUP 8.
Definition CPU_STACK_SIZE := 2 * PAGE_SIZE.

Lemma CPU_SIZE_layout : CPU_SIZE = CPU_STACK_OFF + CPU_STACK_SIZE.
Proof. done. Qed.

(** ** helper/linkerscript.c *)

(** Sizes of the output sections, which depend on the code that is linked. *)
Record section_sizes := mk_sizes {
  sz_boottext : Z; sz_bootdata : Z; sz_bsp : Z;
  sz_text : Z; sz_rodata : Z; sz_data : Z; sz_cpu_structs : Z; sz_vm_images : Z
}.

(** An output section: its virtual address, load address and end. *)
Record placed := mk_placed { vma : Z; lma : Z; vend : Z }.

Definition ALIGN (a : Z) : Z := PGROUNDUP a.

(** [.name ALIGN(PAGE_SIZE) : { ... }]: before paging, VMA == LMA; [dot] is the
    location counter. *)
Definition boot_section (dot size : Z) : placed :=
  let s := ALIGN dot in mk_placed s s (u64 (s + size)).

(** [.name ALIGN(PAGE_SIZE) : AT(phys_base + offset) { ... }], then
    [offset = ALIGN(offset + SIZEOF(.name), PAGE_SIZE)]. *)
Definition phys_base_sym := DTB_MEMORY + FIRMWARE_SIZE.
Definition kernel_base := PA2KVA phys_base_sym.
Definition kernel_section (dot offset size : Z) : placed * Z :=
  let s := ALIGN dot in
  (mk_placed s (u64 (phys_base_sym + offset)) (u64 (s + size)), ALIGN (u64 (offset + size))).

Record image := mk_image {
  im_boottext : placed; im_bootdata : placed; im_bsp : placed;
  im_text : placed; im_rodata : placed; im_data : placed;
  im_cpu_structs : placed; im_vm_images : placed;
  im_dynamic : Z
}.
Definition im_eboot (i : image) : Z := vend (im_bsp i).

Definition link_script (sz : section_sizes) : image :=
  let boottext := boot_section phys_base_sym (sz_boottext sz) in
  let bootdata := boot_section (vend boottext) (sz_bootdata sz) in
  let bsp := boot_section (vend bootdata) (sz_bsp sz) in
  let dot := ALIGN (vend bsp) in
  let offset := u64 (dot - phys_base_sym) in
  let dot := u64 (kernel_base + offset) in
  let '(text, offset) := kernel_section dot offset (sz_text sz) in
  let '(rodata, offset) := kernel_section (vend text) offset (sz_rodata sz) in
  let '(data, offset) := kernel_section (vend rodata) offset (sz_data sz) in
  let '(cpu_structs, offset) := kernel_section (vend data) offset (sz_cpu_structs sz) in
  let '(vm_images, offset) := kernel_section (vend cpu_structs) offset (sz_vm_images sz) in
  mk_image boottext bootdata bsp text rodata data cpu_structs vm_images (ALIGN (vend vm_images)).

(** The symbols the C code uses; [vcpus_off] and [trap_off] are where the compiler
    put [vcpus] inside .data and [hstrapvec] inside .text. *)
Definition link (sz : section_sizes) (vcpus_off trap_off : Z) : Linker :=
  let i := link_script sz in {|
    sym_text := vma (im_text i); sym_etext := vend (im_text i);
    sym_rodata := vma (im_rodata i); sym_erodata := vend (im_rodata i);
    sym_data := vma (im_data i); sym_edata := vend (im_data i);
    sym_cpu_structs := vma (im_cpu_structs i);
    sym_dynamic := im_dynamic i;
    sym_vcpus := vma (im_data i) + vcpus_off;
    sym_hstrapvec := vma (im_text i) + trap_off
  |}.

Lemma link_text sz o o' : @sym_text (link sz o o') = vma (im_text (link_script sz)).
Proof. unfold link. cbn [sym_text]. reflexivity. Qed.
Lemma link_cpu_structs sz o o' : @sym_cpu_structs (link sz o o') = vma (im_cpu_structs (link_script sz)).
Proof. unfold link. cbn [sym_cpu_structs]. reflexivity. Qed.
#[global] Opaque link_script.

(** ** What holds of the symbols *)

(** The layout the memory code relies on. *)
Class ImageOk (L : Linker) : Prop := {
  image_linker :: LinkerOk L;
  text_aligned : sym_text mod PAGE_SIZE = 0;
  rodata_aligned : sym_rodata mod PAGE_SIZE = 0;
  data_aligned : sym_data mod PAGE_SIZE = 0;
  cpu_structs_aligned : sym_cpu_structs mod PAGE_SIZE = 0;
  image_order : VAS_KERNEL + FIRMWARE_SIZE <= sym_text ∧ sym_text <= sym_etext ∧
    sym_etext <= sym_rodata ∧ sym_rodata <= sym_erodata ∧ sym_erodata <= sym_data ∧
    sym_data <= sym_edata ∧ sym_edata <= sym_cpu_structs ∧
    sym_cpu_structs + DTB_NR_CPUS * CPU_SIZE <= sym_dynamic
}.

(** Sizes rounded up to whole pages. *)
Definition pages_of (size : Z) : Z := ALIGN size.

(** The page of bootstrap tables and the array [cpus] have the sizes the sources
    give them; everything fits into RAM above the firmware. *)
Record sizes_ok (sz : section_sizes) : Prop := {
  so_pos : 0 <= sz_boottext sz ∧ 0 <= sz_bootdata sz ∧ 0 <= sz_text sz ∧ 0 <= sz_rodata sz ∧
           0 <= sz_data sz ∧ 0 <= sz_vm_images sz;
  so_bsp : sz_bsp sz = PAGE_SIZE;
  so_cpus : sz_cpu_structs sz = DTB_NR_CPUS * CPU_SIZE;
  so_small : sz_boottext sz < 2 ^ 40 ∧ sz_bootdata sz < 2 ^ 40 ∧ sz_text sz < 2 ^ 40 ∧
             sz_rodata sz < 2 ^ 40 ∧ sz_data sz < 2 ^ 40 ∧ sz_vm_images sz < 2 ^ 40;
  so_fits : pages_of (sz_boottext sz) + pages_of (sz_bootdata sz) + pages_of (sz_bsp sz) +
            pages_of (sz_text sz) + pages_of (sz_rodata sz) + pages_of (sz_data sz) +
            pages_of (sz_cpu_structs sz) + pages_of (sz_vm_images sz) < DTB_MEMORY_SIZE - FIRMWARE_SIZE
}.

Lemma ALIGN_aligned a : 0 <= a <= 2 ^ 64 - 4096 → a mod 4096 = 0 → ALIGN a = a.
Proof.
  intros Ha H. unfold ALIGN. rewrite PGROUNDUP_spec by (unfold PAGE_SIZE; lia).
  unfold PAGE_SIZE. dlia.
Qed.

Lemma pages_of_bound s : 0 <= s < 2 ^ 63 → s <= pages_of s < s + 4096 ∧ pages_of s mod 4096 = 0.
Proof.
  intros Hs. unfold pages_of, ALIGN. rewrite PGROUNDUP_spec by (unfold PAGE_SIZE; lia).
  unfold PAGE_SIZE. dlia.
Qed.

(** Rounding up after an aligned start. *)
Lemma ALIGN_add a s : 0 <= a → 0 <= s → a + s <= 2 ^ 64 - 4096 → a mod 4096 = 0 →
  ALIGN (a + s) = a + pages_of s.
Proof.
  intros Ha Hs Hb H. unfold pages_of, ALIGN.
  rewrite !PGROUNDUP_spec by (unfold PAGE_SIZE; lia). unfold PAGE_SIZE. dlia.
Qed.

(** A boot section on an aligned location counter. *)
Lemma boot_section_ok dot a s : ALIGN dot = a → 0 <= a → 0 <= s → a + s < 2 ^ 63 → a mod 4096 = 0 →
  let p := boot_section dot s in
  vma p = a ∧ lma p = a ∧ vend p = a + s ∧ ALIGN (vend p) = a + pages_of s.
Proof.
  intros E Ha Hs Hb Hal p. unfold p, boot_section. rewrite E. cbn [vma lma vend].
  rewrite u64_id by lia. split_and!; [done|done|done|]. apply ALIGN_add; lia.
Qed.

(** A kernel section when the location counter and the load offset are in step:
    they still are after it. *)
Lemma kernel_section_ok dot o s : ALIGN dot = VAS_KERNEL + FIRMWARE_SIZE + o →
  0 <= o → 0 <= s → o + s < 2 ^ 32 → o mod 4096 = 0 →
  let '(p, o') := kernel_section dot o s in
  vma p = VAS_KERNEL + FIRMWARE_SIZE + o ∧ vend p = vma p + s ∧ lma p = KVA2PA (vma p) ∧
  o' = o + pages_of s ∧ ALIGN (vend p) = VAS_KERNEL + FIRMWARE_SIZE + o'.
Proof.
  intros E Ho Hs Hb Hal. unfold kernel_section. rewrite E. cbn [vma vend lma].
  rewrite !u64_id by (unfold phys_base_sym, VAS_KERNEL, FIRMWARE_SIZE, DTB_MEMORY; lia).
  split_and!; [done|done| | |].
  - replace (VAS_KERNEL + FIRMWARE_SIZE + o) with (VAS_KERNEL + (FIRMWARE_SIZE + o)) by lia.
    rewrite KVA2PA_off by (unfold FIRMWARE_SIZE; lia). unfold phys_base_sym. lia.
  - apply ALIGN_add; lia.
  - rewrite ALIGN_add; [|unfold VAS_KERNEL, FIRMWARE_SIZE; lia..|].
    + rewrite ALIGN_add by lia. lia.
    + unfold VAS_KERNEL, FIRMWARE_SIZE. dlia.
Qed.

(** The physical pages a section is loaded to. *)
Definition load_end (p : placed) : Z := lma p + (vend p - vma p).

#[local] Transparent link_script.
Section layout.
Context (sz : section_sizes) (Hok : sizes_ok sz).
Let i := link_script sz.

(** Pages of the boot sections, and the offset of each kernel section. *)
Let ob : Z := pages_of (sz_boottext sz) + pages_of (sz_bootdata sz) + pages_of (sz_bsp sz).
Let o1 : Z := ob + pages_of (sz_text sz).
Let o2 : Z := o1 + pages_of (sz_rodata sz).
Let o3 : Z := o2 + pages_of (sz_data sz).
Let o4 : Z := o3 + pages_of (sz_cpu_structs sz).
Let o5 : Z := o4 + pages_of (sz_vm_images sz).
Let K (o : Z) : Z := VAS_KERNEL + FIRMWARE_SIZE + o.

Definition size_ok (s : Z) : Prop := 0 <= s <= pages_of s ∧ pages_of s mod 4096 = 0.

Lemma sizes_bounds :
  Forall size_ok [sz_boottext sz; sz_bootdata sz; sz_bsp sz; sz_text sz; sz_rodata sz; sz_data sz;
                  sz_cpu_structs sz; sz_vm_images sz] ∧
  o5 < DTB_MEMORY_SIZE - FIRMWARE_SIZE.
Proof.
  destruct Hok as [Hp Hb Hc Hs Hf]. split; [|unfold o5, o4, o3, o2, o1, ob; lia].
  assert (H : ∀ s, 0 <= s < 2 ^ 40 → size_ok s).
  { intros s Hr. pose proof (pages_of_bound s ltac:(lia)). split; lia. }
  unfold PAGE_SIZE, DTB_NR_CPUS, CPU_SIZE, PAGE_SIZE in *.
  repeat (apply Forall_cons; split; [apply H; lia|]). constructor.
Qed.

(** Where each section is. *)
Lemma link_script_places :
  (vma (im_boottext i) = phys_base_sym ∧ vend (im_boottext i) = phys_base_sym + sz_boottext sz ∧
   lma (im_boottext i) = phys_base_sym) ∧
  (vma (im_bootdata i) = phys_base_sym + pages_of (sz_boottext sz) ∧
   vend (im_bootdata i) = phys_base_sym + pages_of (sz_boottext sz) + sz_bootdata sz ∧
   lma (im_bootdata i) = phys_base_sym + pages_of (sz_boottext sz)) ∧
  (vma (im_bsp i) = phys_base_sym + pages_of (sz_boottext sz) + pages_of (sz_bootdata sz) ∧
   vend (im_bsp i) = phys_base_sym + ob ∧
   lma (im_bsp i) = phys_base_sym + pages_of (sz_boottext sz) + pages_of (sz_bootdata sz)) ∧
  (vma (im_text i) = K ob ∧ vend (im_text i) = K ob + sz_text sz ∧ lma (im_text i) = KVA2PA (K ob)) ∧
  (vma (im_rodata i) = K o1 ∧ vend (im_rodata i) = K o1 + sz_rodata sz ∧ lma (im_rodata i) = KVA2PA (K o1)) ∧
  (vma (im_data i) = K o2 ∧ vend (im_data i) = K o2 + sz_data sz ∧ lma (im_data i) = KVA2PA (K o2)) ∧
  (vma (im_cpu_structs i) = K o3 ∧ vend (im_cpu_structs i) = K o3 + sz_cpu_structs sz ∧
   lma (im_cpu_structs i) = KVA2PA (K o3)) ∧
  (vma (im_vm_images i) = K o4 ∧ vend (im_vm_images i) = K o4 + sz_vm_images sz ∧
   lma (im_vm_images i) = KVA2PA (K o4)) ∧
  im_dynamic i = K o5.
Proof.
  destruct sizes_bounds as (Hs & Hf). rewrite !Forall_cons in Hs.
  destruct Hs as (H1 & H2 & H3 & H4 & H5 & H6 & H7 & H8 & _). unfold size_ok in *.
  assert (Hoff : 0 <= ob ∧ ob <= o1 ∧ o1 <= o2 ∧ o2 <= o3 ∧ o3 <= o4 ∧ o4 <= o5)
    by (unfold o5, o4, o3, o2, o1, ob; lia).
  assert (Hal : ob mod 4096 = 0 ∧ o1 mod 4096 = 0 ∧ o2 mod 4096 = 0 ∧ o3 mod 4096 = 0 ∧ o4 mod 4096 = 0).
  { unfold o4, o3, o2, o1, ob. clear -H1 H2 H3 H4 H5 H6 H7. dlia. }
  unfold DTB_MEMORY_SIZE, FIRMWARE_SIZE in Hf.
  assert (Hpb : phys_base_sym = 0x80100000) by done.
  destruct (boot_section_ok phys_base_sym phys_base_sym (sz_boottext sz)) as (A1 & D1 & B1 & C1);
    [by vm_compute|lia|lia|unfold ob in *; lia|by vm_compute|].
  destruct (boot_section_ok _ _ (sz_bootdata sz) C1) as (A2 & D2 & B2 & C2);
    [lia|lia|unfold ob in *; lia|rewrite Hpb; clear -H1; dlia|].
  destruct (boot_section_ok _ _ (sz_bsp sz) C2) as (A3 & D3 & B3 & C3);
    [lia|lia|unfold ob in *; lia|rewrite Hpb; clear -H1 H2; dlia|].
  fold ob in C3.
  unfold i, link_script. set (b1 := boot_section phys_base_sym (sz_boottext sz)) in *.
  set (b2 := boot_section (vend b1) (sz_bootdata sz)) in *.
  set (b3 := boot_section (vend b2) (sz_bsp sz)) in *. cbn zeta.
  assert (Ho : u64 (ALIGN (vend b3) - phys_base_sym) = ob)
    by (rewrite C3, Hpb, u64_id; unfold ob in *; lia).
  rewrite Ho. assert (Hkb : u64 (kernel_base + ob) = K ob).
  { unfold K, kernel_base. change (PA2KVA phys_base_sym) with (VAS_KERNEL + FIRMWARE_SIZE).
    apply u64_id. unfold VAS_KERNEL, FIRMWARE_SIZE. lia. }
  rewrite Hkb. assert (HK : ALIGN (K ob) = K ob).
  { apply ALIGN_aligned; [|]; unfold K, VAS_KERNEL, FIRMWARE_SIZE; [lia|]. clear -Hal. dlia. }
  pose proof (kernel_section_ok (K ob) ob (sz_text sz) HK) as S1.
  destruct (kernel_section _ ob _) as [p1 q1]. destruct S1 as (V1 & E1 & L1 & -> & N1); [unfold o5, o4, o3, o2, o1 in *; lia..|].
  pose proof (kernel_section_ok (vend p1) o1 (sz_rodata sz) N1) as S2.
  fold o1. destruct (kernel_section _ o1 _) as [p2 q2]. destruct S2 as (V2 & E2 & L2 & -> & N2); [unfold o5, o4, o3, o2 in *; lia..|].
  pose proof (kernel_section_ok (vend p2) o2 (sz_data sz) N2) as S3.
  fold o2. destruct (kernel_section _ o2 _) as [p3 q3]. destruct S3 as (V3 & E3 & L3 & -> & N3); [unfold o5, o4, o3 in *; lia..|].
  pose proof (kernel_section_ok (vend p3) o3 (sz_cpu_structs sz) N3) as S4.
  fold o3. destruct (kernel_section _ o3 _) as [p4 q4]. destruct S4 as (V4 & E4 & L4 & -> & N4); [unfold o5, o4 in *; lia..|].
  pose proof (kernel_section_ok (vend p4) o4 (sz_vm_images sz) N4) as S5.
  fold o4. destruct (kernel_section _ o4 _) as [p5 q5]. destruct S5 as (V5 & E5 & L5 & -> & N5); [unfold o5 in *; lia..|].
  cbn [im_boottext im_bootdata im_bsp im_text im_rodata im_data im_cpu_structs im_vm_images im_dynamic].
  fold (K ob) (K o1) (K o2) (K o3) (K o4) in *.
  rewrite N5, E1, E2, E3, E4, E5, L1, L2, L3, L4, L5, V1, V2, V3, V4, V5.
  split_and!; try done. rewrite B3. unfold ob.
  replace (pages_of (sz_bsp sz)) with (sz_bsp sz); [lia|]. by rewrite (so_bsp _ Hok).
Qed.

Lemma offsets_order : 0 <= ob ∧ ob + sz_text sz <= o1 ∧ o1 + sz_rodata sz <= o2 ∧ o2 + sz_data sz <= o3 ∧
  o3 + DTB_NR_CPUS * CPU_SIZE <= o4 ∧ o4 + sz_vm_images sz <= o5 ∧ o5 < DTB_MEMORY_SIZE - FIRMWARE_SIZE ∧
  (ob mod 4096 = 0 ∧ o1 mod 4096 = 0 ∧ o2 mod 4096 = 0 ∧ o3 mod 4096 = 0 ∧ o4 mod 4096 = 0 ∧ o5 mod 4096 = 0).
Proof.
  destruct sizes_bounds as (Hs & Hf). rewrite !Forall_cons in Hs.
  destruct Hs as (H1 & H2 & H3 & H4 & H5 & H6 & H7 & H8 & _). unfold size_ok in *.
  rewrite <- (so_cpus _ Hok). split_and!; try (unfold o5, o4, o3, o2, o1, ob in *; lia);
    unfold o5, o4, o3, o2, o1, ob; clear -H1 H2 H3 H4 H5 H6 H7 H8; dlia.
Qed.

#[export] Instance link_image_ok vcpus_off trap_off : ImageOk (link sz vcpus_off trap_off).
Proof.
  destruct link_script_places as (_ & _ & _ & (Vt & Et & _) & (Vr & Er & _) & (Vd & Ed & _) &
    (Vc & Ec & _) & _ & Hd).
  destruct offsets_order as (Hb & H1 & H2 & H3 & H4 & H5 & H6 & Hal).
  destruct (so_pos _ Hok) as (_ & _ & ? & ? & ? & ?).
  assert (HK : ∀ o, o mod 4096 = 0 → K o mod PAGE_SIZE = 0)
    by (intros o Ho; unfold K, PAGE_SIZE, VAS_KERNEL, FIRMWARE_SIZE; dlia).
  split; [split|..]; unfold link; cbn [sym_text sym_etext sym_rodata sym_erodata sym_data sym_edata
    sym_cpu_structs sym_dynamic]; fold i;
    rewrite ?Vt, ?Et, ?Vr, ?Er, ?Vd, ?Ed, ?Vc, ?Ec, ?Hd; try (apply HK; tauto); unfold K;
    unfold DTB_NR_CPUS, CPU_SIZE, PAGE_SIZE, DTB_MEMORY_SIZE, FIRMWARE_SIZE in *; lia.
Qed.

Lemma K_pa o : 0 <= o < 2 ^ 32 → KVA2PA (K o) = phys_base_sym + o.
Proof.
  intros Ho. unfold K, phys_base_sym. rewrite <- !Z.add_assoc. apply KVA2PA_off.
  unfold FIRMWARE_SIZE. lia.
Qed.

Lemma layout_sorted : StronglySorted (λ p q, load_end p <= lma q)
    [im_boottext i; im_bootdata i; im_bsp i; im_text i; im_rodata i; im_data i; im_cpu_structs i;
     im_vm_images i] ∧
  load_end (im_vm_images i) <= KVA2PA (im_dynamic i) < DTB_MEMORY_END.
Proof.
  destruct link_script_places as ((Va & Ea & La) & (Vb & Eb & Lb) & (Vs & Es & Ls) & (Vt & Et & Lt) &
    (Vr & Er & Lr) & (Vd & Ed & Ld) & (Vc & Ec & Lc) & (Vi & Ei & Li) & Hd).
  destruct offsets_order as (Hb & H1 & H2 & H3 & H4 & H5 & H6 & _).
  destruct sizes_bounds as (Hs & _). rewrite !Forall_cons in Hs.
  destruct Hs as ([S1 _] & [S2 _] & [S3 _] & [S4 _] & [S5 _] & [S6 _] & [S7 _] & [S8 _] & _).
  pose proof (so_cpus _ Hok). unfold DTB_NR_CPUS, CPU_SIZE, PAGE_SIZE, DTB_MEMORY_SIZE, FIRMWARE_SIZE in *.
  assert (Hob : ob = pages_of (sz_boottext sz) + pages_of (sz_bootdata sz) + pages_of (sz_bsp sz)) by done.
  rewrite !K_pa in * by lia.
  split.
  - repeat constructor; unfold load_end;
      rewrite ?Va, ?Ea, ?La, ?Vb, ?Eb, ?Lb, ?Vs, ?Es, ?Ls, ?Vt, ?Et, ?Lt, ?Vr, ?Er, ?Lr, ?Vd, ?Ed, ?Ld,
        ?Vc, ?Ec, ?Lc, ?Vi, ?Ei, ?Li; lia.
  - unfold load_end. rewrite Vi, Ei, Li, Hd, K_pa by lia.
    replace phys_base_sym with 0x80100000 by done. change DTB_MEMORY_END with 0x90000000. lia.
Qed.

Lemma bsp_place : phys_base_sym <= vma (im_bsp i) < DTB_MEMORY_END ∧ vma (im_bsp i) mod 4096 = 0 ∧
  phys_base_sym <= im_eboot i < DTB_MEMORY_END ∧ lma (im_boottext i) = phys_base_sym.
Proof.
  destruct link_script_places as ((_ & _ & Lb) & _ & (Vs & Es & _) & _). unfold im_eboot. rewrite Vs, Es, Lb.
  destruct offsets_order as (Hb & H1 & H2 & H3 & H4 & H5 & H6 & _).
  destruct sizes_bounds as (Hs & _). rewrite !Forall_cons in Hs.
  destruct Hs as (S1 & S2 & S3 & S4 & S5 & S6 & S7 & S8 & _). unfold size_ok in *.
  unfold DTB_NR_CPUS, CPU_SIZE, PAGE_SIZE, DTB_MEMORY_SIZE, FIRMWARE_SIZE in *.
  replace phys_base_sym with 0x80100000 by done. change DTB_MEMORY_END with 0x90000000.
  split; [unfold ob in *; lia|]. split; [clear -S1 S2; dlia|]. split; [unfold ob in *; lia|done].
Qed.
End layout.

(** ** The theorem *)

Lemma kernel_sections_placed sz : sizes_ok sz → let i := link_script sz in
  Forall (λ p, vma p mod PAGE_SIZE = 0 ∧ lma p = KVA2PA (vma p) ∧ vma p <= vend p)
    [im_text i; im_rodata i; im_data i; im_cpu_structs i; im_vm_images i].
Proof.
  intros Hok. cbn zeta. destruct (link_script_places sz Hok) as (_ & _ & _ & (Vt & Et & Lt) &
    (Vr & Er & Lr) & (Vd & Ed & Ld) & (Vc & Ec & Lc) & (Vi & Ei & Li) & _).
  destruct (offsets_order sz Hok) as (Hb & H1 & H2 & H3 & H4 & H5 & H6 & Hal).
  destruct (so_pos _ Hok) as (_ & _ & ? & ? & ? & ?). pose proof (so_cpus _ Hok) as Hcs.
  assert (HK : ∀ o, o mod 4096 = 0 → (VAS_KERNEL + FIRMWARE_SIZE + o) mod PAGE_SIZE = 0)
    by (intros o Ho; unfold PAGE_SIZE, VAS_KERNEL, FIRMWARE_SIZE; dlia).
  unfold DTB_NR_CPUS, CPU_SIZE, PAGE_SIZE in Hcs.
  repeat (apply Forall_cons; split; [split_and!; [|congruence|lia]|]);
    [rewrite Vt|rewrite Vr|rewrite Vd|rewrite Vc|rewrite Vi|constructor]; apply HK; tauto.
Qed.

Lemma eboot_is_text sz : sizes_ok sz → PA2KVA (im_eboot (link_script sz)) = vma (im_text (link_script sz)).
Proof.
  intros Hok. destruct (link_script_places sz Hok) as (_ & _ & (_ & Es & _) & (Vt & _) & _).
  destruct (offsets_order sz Hok) as (Hb & H1 & H2 & H3 & H4 & H5 & H6 & Hal).
  destruct (so_pos _ Hok) as (_ & _ & ? & ? & ? & ?). pose proof (so_cpus _ Hok) as Hcs.
  unfold im_eboot. rewrite Es, Vt. unfold PA2KVA, phys_base_sym.
  unfold DTB_NR_CPUS, CPU_SIZE, PAGE_SIZE, DTB_MEMORY_SIZE, FIRMWARE_SIZE, VAS_KERNEL, DTB_MEMORY in *.
  rewrite u64_id; lia.
Qed.

(** C24: the linker script keeps virtual and physical addresses in step: every
    section of the kernel starts on a page and is loaded where KVA2PA says, and the
    sections (boot sections included) occupy disjoint ranges of physical memory in
    order, below the dynamic region, which is inside RAM.  The address enter_vas
    computes by hand from eboot is the first byte of .text. *)
Theorem image_layout sz : sizes_ok sz →
  let i := link_script sz in
  Forall (λ p, vma p mod PAGE_SIZE = 0 ∧ lma p = KVA2PA (vma p) ∧ vma p <= vend p)
    [im_text i; im_rodata i; im_data i; im_cpu_structs i; im_vm_images i] ∧
  StronglySorted (λ p q, load_end p <= lma q)
    [im_boottext i; im_bootdata i; im_bsp i; im_text i; im_rodata i; im_data i; im_cpu_structs i;
     im_vm_images i] ∧
  load_end (im_vm_images i) <= KVA2PA (im_dynamic i) < DTB_MEMORY_END ∧
  PA2KVA (im_eboot i) = vma (im_text i).
Proof.
  intros Hok. cbn zeta. destruct (layout_sorted sz Hok) as [Hs Hd].
  split; [by apply kernel_sections_placed|]. split; [exact Hs|]. split; [exact Hd|by apply eboot_is_text].
Qed.

(** Sizes of the order of the repository's build. *)
Definition demo_sizes : section_sizes :=
  mk_sizes 0x200 0x10 PAGE_SIZE 0x7800 0x70000 0x6f000 (DTB_NR_CPUS * CPU_SIZE) 0x9000.

Lemma demo_sizes_ok : sizes_ok demo_sizes.
Proof. split; by vm_compute. Qed.

Lemma image_layout_witness :
  vma (im_text (link_script demo_sizes)) = VAS_KERNEL + 0x103000 ∧
  PA2KVA (im_eboot (link_script demo_sizes)) = vma (im_text (link_script demo_sizes)).
Proof. split; [by vm_compute|]. apply (image_layout demo_sizes demo_sizes_ok). Defined.
