(* ===== verification/Vmem.v ===== *)
(** * Vmem: the page tables of mem/vmem.c

    The operations, statement by statement.  Pointers are kernel addresses;
    [x4], [alloc] and the results are C integers. *)

From S2P Require Import Prelude Layout Bits Memory Machine Kmem Cpu.

Section ops.
Context {D : Type} {L : Linker}.
#[local] Abbreviation M := (cmd (world D)).

Definition va2idx (va level x4 : Z) : Z :=
  if (level =? LEVELS - 1) && truthy x4
  then get_value va (level * 9 + PAGE_SHIFT) 11
  else get_value va (level * 9 + PAGE_SHIFT) 9.

(** [&kpa[i]] for a [pte_t *kpa]. *)
Definition pte_ptr (kpa i : Z) : Z := u64 (kpa + PTE_SIZE * i).

(** The loop of walk, from [level] down to 1, and the final [&kpa[...]];
    returning 0 is the null pointer of the early return. *)
Fixpoint walk_loop (level : nat) (kpa va alloc x4 : Z) : M Z :=
  match level with
  | O => mret (pte_ptr kpa (va2idx va 0 x4))
  | S level' =>
      let pte := pte_ptr kpa (va2idx va (Z.of_nat level) x4) in
      v ← load64 pte;
      if truthy (v .& PTE_V) then
        walk_loop level' (PA2KPA (PTE2PA v)) va alloc x4
      else if negb (truthy alloc) then mret 0
      else
        kpa' ← kmalloc;
        if kpa' =? 0 then mret 0
        else
          memset kpa' 0 PAGE_SIZE ;;
          store64 pte (PA2PTE (KPA2PA kpa') .| PTE_V) ;;
          walk_loop level' kpa' va alloc x4
  end.

Definition walk (pgtable va alloc x4 : Z) : M Z :=
  if pgtable =? 0 then panic "root page table doesn't exist"
  else walk_loop (Z.to_nat (LEVELS - 1)) pgtable va alloc x4.

Definition map_page (pgtable va pa pte_flags x4 : Z) : M Z :=
  leaf ← walk pgtable va 1 x4;
  if leaf =? 0 then mret (-1)
  else
    v ← load64 leaf;
    if truthy (v .& PTE_V) then panic "tried to remap page"
    else
      store64 leaf (PA2PTE pa .| u64 pte_flags .| PTE_V) ;;
      mret 0.

(** [for (uint64 i = 0; i < PGROUNDUP(size); i += PAGE_SIZE)] *)
Fixpoint map_pages_loop (fuel : nat) (i pgtable va pa size pte_flags x4 : Z) : M Z :=
  match fuel with
  | O => hang
  | S fuel' =>
      if i <? PGROUNDUP size then
        tmp ← (if pa =? 0 then p ← kmalloc; mret (KPA2PA p) else mret (u64 (pa + i)));
        rv ← map_page pgtable (u64 (va + i)) tmp pte_flags x4;
        if rv <? 0 then mret (-1)
        else map_pages_loop fuel' (u64 (i + PAGE_SIZE)) pgtable va pa size pte_flags x4
      else mret 0
  end.

Definition map_pages (pgtable va pa size pte_flags x4 : Z) : M Z :=
  map_pages_loop (Z.to_nat (PGROUNDUP size / PAGE_SIZE + 1)) 0
    pgtable va pa size pte_flags x4.

Definition convert_va_to_pa (pgtable va x4 : Z) : M Z :=
  pte ← walk pgtable va 0 x4;
  if pte =? 0 then panic "bad walk for va"
  else
    v ← load64 pte;
    mret (PTE2PA v .| get_value va 0 12).

Definition init_vmem : M Z :=
  root ← kmalloc;
  (if root =? 0 then panic "couldn't allocate root page table" else mret tt) ;;
  memset root 0 PAGE_SIZE ;;
  let RWG := PTE_R .| PTE_W .| PTE_G in
  r1 ← map_page root DTB_FLASH DTB_FLASH RWG 0;
  r2 ← map_page root DTB_PLATFORM_BUS DTB_PLATFORM_BUS RWG 0;
  r3 ← map_page root DTB_RTC DTB_RTC RWG 0;
  r4 ← map_page root DTB_SERIAL DTB_SERIAL RWG 0;
  r5 ← map_pages root DTB_PCI DTB_PCI DTB_PCI_SIZE RWG 0;
  r6 ← map_pages root DTB_VIRTIO0 DTB_VIRTIO0 DTB_VIRTIO_SIZE RWG 0;
  r7 ← map_pages root DTB_PLIC DTB_PLIC DTB_PLIC_SIZE RWG 0;
  r8 ← map_pages root DTB_CLINT DTB_CLINT DTB_CLINT_SIZE RWG 0;
  (if r1 + r2 + r3 + r4 + r5 + r6 + r7 + r8 <? 0 then panic "failed to map MMIO"
   else mret tt) ;;
  let size := s32 (u32 (sym_etext - sym_text)) in
  t ← map_pages root sym_text (KVA2PA sym_text) (u64 size) (PTE_R .| PTE_X .| PTE_G) 0;
  (if truthy t then panic "failed to map .text" else mret tt) ;;
  let size := s32 (u32 (sym_erodata - sym_rodata)) in
  t ← map_pages root sym_rodata (KVA2PA sym_rodata) (u64 size) (PTE_R .| PTE_G) 0;
  (if truthy t then panic "failed to map .rodata" else mret tt) ;;
  let size := s32 (u32 (sym_edata - sym_data)) in
  t ← map_pages root sym_data (KVA2PA sym_data) (u64 size) RWG 0;
  (if truthy t then panic "failed to map .data" else mret tt) ;;
  cpu ← mycpu;
  t ← map_pages root VAS_CPU_STRUCT (KVA2PA cpu) CPU_SIZE (PTE_R .| PTE_W) 0;
  (if truthy t then panic "failed to map cpu struct" else mret tt) ;;
  let pa := KVA2PA sym_dynamic in
  let size := s32 (DTB_MEMORY_SIZE - (pa - DTB_MEMORY)) in
  t ← map_pages root (KVA2KPA sym_dynamic) pa (u64 size) RWG 0;
  (if truthy t then panic "failed to map RAM" else mret tt) ;;
  mret root.
End ops.
