(* ===== verification/PageTable.v ===== *)
(** * PageTable: what the tables in memory mean

    A pure reading of the three-level tables ([pt_look], the entry that maps a
    page number), the ownership map that says which page is which table of which
    tree ([tab]), and the invariant [pt_inv] that the operations of Vmem keep. *)

From S2P Require Import Prelude Layout Bits Memory Machine Kmem Vmem.

(** ** Page numbers and indices *)

(** The page number of an address: 27 bits (Sv39) or 29 bits (Sv39x4). *)
Definition vpn (va : Z) (x4 : bool) : Z := va / 4096 mod 2 ^ (if x4 then 29 else 27).

Definition idx (l : nat) (v : Z) : Z :=
  match l with O => v mod 512 | 1%nat => v / 512 mod 512 | _ => v / 2 ^ 18 end.

(** The indices above level [l]: which table of that level serves the page. *)
Definition pre (l : nat) (v : Z) : Z :=
  match l with O => v / 512 | 1%nat => v / 2 ^ 18 | _ => 0 end.

Arguments idx : simpl never.
Arguments pre : simpl never.

Definition vpn_bound (x4 : bool) : Z := if x4 then 2 ^ 29 else 2 ^ 27.

Lemma vpn_range va x4 : 0 <= vpn va x4 < vpn_bound x4.
Proof. unfold vpn, vpn_bound. destruct x4; apply Z.mod_pos_bound; lia. Qed.

Lemma div_mod_pow2 a k n : 0 <= k → 0 <= n → a mod 2 ^ (k + n) / 2 ^ k = a / 2 ^ k mod 2 ^ n.
Proof.
  intros. rewrite Z.pow_add_r by lia. rewrite Z.rem_mul_r by lia.
  rewrite (Z.mul_comm (2 ^ k)), Z.div_add by lia.
  rewrite (Z.div_small (a mod 2 ^ k)); [lia|]. apply Z.mod_pos_bound. lia.
Qed.
Lemma mod_mod_pow2 a k n : 0 <= k → 0 <= n → a mod 2 ^ (k + n) mod 2 ^ k = a mod 2 ^ k.
Proof.
  intros. rewrite Z.pow_add_r, Z.rem_mul_r by lia.
  by rewrite (Z.mul_comm (2 ^ k)), Z.mod_add, Z.mod_mod by lia.
Qed.

Lemma va2idx_vpn va l x4 : (l <= 2)%nat → va2idx va (Z.of_nat l) x4 = idx l (vpn va (truthy x4)).
Proof.
  intros Hl. unfold va2idx, LEVELS, PAGE_SHIFT, vpn.
  change 4096 with (2 ^ 12). destruct l as [|[|[|l]]]; [| | |lia]; unfold idx.
  - change (Z.of_nat 0) with 0. change (0 =? 3 - 1) with false.
    cbn [andb]. rewrite get_value_spec by lia.
    change 512 with (2 ^ 9). symmetry.
    destruct (truthy x4); [apply (mod_mod_pow2 _ 9 20)|apply (mod_mod_pow2 _ 9 18)]; lia.
  - change (Z.of_nat 1) with 1. change (1 =? 3 - 1) with false.
    cbn [andb]. rewrite get_value_spec by lia.
    change (1 * 9 + 12) with (12 + 9).
    rewrite Z.pow_add_r, <- Z.div_div by lia. change 512 with (2 ^ 9). symmetry.
    destruct (truthy x4).
    + change 29 with (9 + 20). rewrite div_mod_pow2 by lia. apply (mod_mod_pow2 _ 9 11); lia.
    + change 27 with (9 + 18). rewrite div_mod_pow2 by lia. apply (mod_mod_pow2 _ 9 9); lia.
  - change (Z.of_nat 2) with 2. change (2 =? 3 - 1) with true. cbn [andb].
    destruct (truthy x4); rewrite get_value_spec by lia; change (2 * 9 + 12) with (12 + 18);
      rewrite Z.pow_add_r, <- Z.div_div by lia; symmetry;
      [apply (div_mod_pow2 _ 18 11)|apply (div_mod_pow2 _ 18 9)]; lia.
Qed.

(** ** Ownership of table pages *)

Record tab := mk_tab { t_root : Z; t_x4 : bool; t_level : nat; t_pre : Z }.

(** Number of entries and size in bytes: 2048 at an Sv39x4 root, 512 elsewhere. *)
Definition nidx (i : tab) : Z := if t_x4 i && (t_level i =? 2)%nat then 2048 else 512.
Definition tsize (i : tab) : Z := PTE_SIZE * nidx i.

Lemma tsize_pos i : PAGE_SIZE <= tsize i.
Proof. unfold PAGE_SIZE, tsize, nidx, PTE_SIZE. destruct (_ && _); lia. Qed.

Lemma idx_range i v : (t_level i <= 2)%nat → 0 <= v < vpn_bound (t_x4 i) →
  0 <= idx (t_level i) v < nidx i.
Proof.
  unfold nidx, vpn_bound. destruct i as [r x4 l p]. simpl.
  intros Hl Hv. destruct l as [|[|[|l]]]; [| | |lia]; unfold idx; cbn [Nat.eqb];
    rewrite ?andb_false_r, ?andb_true_r.
  - apply Z.mod_pos_bound. lia.
  - apply Z.mod_pos_bound. lia.
  - destruct x4; dlia.
Qed.

Lemma pre_child l v : (l < 2)%nat → pre l v = pre (S l) v * 512 + idx (S l) v.
Proof.
  intros. destruct l as [|[|l]]; [| |lia]; unfold pre, idx; [|lia].
  change (2 ^ 18) with (512 * 512). rewrite <- Z.div_div by lia. dlia.
Qed.

(** ** The pure reading of a tree *)

Definition pte_valid (e : Z) : bool := e mod 2 =? 1.

(** The valid leaf entry that maps page [v], from table [t] of level [l]. *)
Fixpoint pt_look (m : ram) (l : nat) (t v : Z) : option Z :=
  e ← rd64 m (t + PTE_SIZE * idx l v);
  if pte_valid e then
    match l with O => Some e | S l' => pt_look m l' (PTE2PA e) v end
  else None.

(** The address of the leaf entry for page [v], when the tables down to it exist. *)
Fixpoint pt_slot (m : ram) (l : nat) (t v : Z) : option Z :=
  match l with
  | O => Some (t + PTE_SIZE * idx 0 v)
  | S l' => e ← rd64 m (t + PTE_SIZE * idx l v);
            if pte_valid e then pt_slot m l' (PTE2PA e) v else None
  end.

(** The number of tables that mapping page [v] has to allocate. *)
Fixpoint missing (m : ram) (l : nat) (t v : Z) : nat :=
  match l with
  | O => 0
  | S l' => match rd64 m (t + PTE_SIZE * idx l v) with
            | Some e => if pte_valid e then missing m l' (PTE2PA e) v else l
            | None => l
            end
  end.

Lemma missing_le m l t v : (missing m l t v <= l)%nat.
Proof.
  revert t. induction l as [|l IH]; intros t; simpl; [lia|].
  destruct (rd64 _ _); [|lia]. destruct (pte_valid _); [|lia].
  specialize (IH (PTE2PA z)). lia.
Qed.

Lemma pt_look_slot m l t v s : pt_slot m l t v = Some s →
  pt_look m l t v = (e ← rd64 m s; if pte_valid e then Some e else None).
Proof.
  revert t. induction l as [|l IH]; intros t; simpl; [by intros [= <-]|].
  destruct (rd64 m (t + _)) as [e|]; simpl; [|done]. destruct (pte_valid e); [|done]. apply IH.
Qed.

Lemma missing_0_slot m l t v : missing m l t v = 0%nat ↔ is_Some (pt_slot m l t v).
Proof.
  revert t. induction l as [|l IH]; intros t; simpl; [by split; eauto|].
  destruct (rd64 _ _) as [e|]; simpl.
  - destruct (pte_valid e); [apply IH|]. split; [lia|by intros []].
  - split; [lia|by intros []].
Qed.

(** ** The invariant *)

Section inv.
Context {L : Linker} `{!LinkerOk L}.
Implicit Types (m : ram) (tabs : gmap Z tab) (fl : list Z).

Record pt_inv m tabs : Prop := {
  pt_mem t i : tabs !! t = Some i →
    has_bytes m t (tsize i) ∧ 0 <= t < 2 ^ 56 ∧ t mod 4096 = 0 ∧ (t_level i <= 2)%nat;
  pt_kind t i : tabs !! t = Some i →
    if (t_level i =? 2)%nat then t = t_root i ∧ t_pre i = 0
    else ∃ x, valid_address x = true ∧ t = KPA2PA x;
  pt_disj t i t' i' : tabs !! t = Some i → tabs !! t' = Some i' → t ≠ t' →
    t + tsize i <= t' ∨ t' + tsize i' <= t;
  pt_child t i l k e : tabs !! t = Some i → t_level i = S l → 0 <= k < nidx i →
    rd64 m (t + PTE_SIZE * k) = Some e → pte_valid e = true →
    ∃ t', e = PA2PTE t' .| PTE_V ∧
          tabs !! t' = Some (mk_tab (t_root i) (t_x4 i) l (t_pre i * 512 + k))
}.

(** No free page is part of a table. *)
Definition pt_free tabs fl : Prop := ∀ x t i, x ∈ fl → tabs !! t = Some i →
  KPA2PA x + PAGE_SIZE <= t ∨ t + tsize i <= KPA2PA x.

(** [t] is the table of level [l] on the path of page [v] from its root. *)
Definition on_path tabs (t : Z) (i : tab) (l : nat) (v : Z) : Prop :=
  tabs !! t = Some i ∧ t_level i = l ∧ t_pre i = pre l v ∧ 0 <= v < vpn_bound (t_x4 i).

Lemma PTE2PA_link t : 0 <= t < 2 ^ 56 → t mod 4096 = 0 → PTE2PA (PA2PTE t .| PTE_V) = t.
Proof.
  intros. change PTE_V with 1. rewrite PTE2PA_PA2PTE by lia. dlia.
Qed.

Lemma pte_valid_V y : pte_valid (y .| PTE_V) = true.
Proof.
  unfold pte_valid. change PTE_V with (Z.ones 1).
  apply Z.eqb_eq. change 2 with (2 ^ 1). rewrite <- Z.land_ones by lia.
  apply Z.bits_inj'. intros n Hn. rewrite Z.land_spec, Z.lor_spec.
  change (Z.testbit 1 n) with (Z.testbit (Z.ones 1) n).
  destruct (Z.testbit (Z.ones 1) n); [by rewrite orb_true_r|by rewrite andb_false_r].
Qed.

(** Following a valid entry along a path stays on the path. *)
Lemma on_path_child m tabs t i l v e : pt_inv m tabs → on_path tabs t i (S l) v →
  rd64 m (t + PTE_SIZE * idx (S l) v) = Some e → pte_valid e = true →
  on_path tabs (PTE2PA e) (mk_tab (t_root i) (t_x4 i) l (pre l v)) l v.
Proof.
  intros Hinv (Ht & Hl & Hp & Hv) He Hval.
  destruct (pt_mem _ _ Hinv _ _ Ht) as (_ & _ & _ & Hl2).
  pose proof (idx_range i v Hl2 Hv) as Hi. rewrite Hl in Hi.
  destruct (pt_child _ _ Hinv _ _ l _ _ Ht Hl Hi He Hval) as (t' & -> & Ht').
  destruct (pt_mem _ _ Hinv _ _ Ht') as (_ & ? & ? & _).
  rewrite PTE2PA_link by done. rewrite Hp in Ht'. rewrite <- pre_child in Ht' by lia.
  split; [exact Ht'|]. simpl. auto.
Qed.

Lemma on_path_entry m tabs t i l v : pt_inv m tabs → on_path tabs t i l v →
  ∃ e, rd64 m (t + PTE_SIZE * idx l v) = Some e ∧ 0 <= idx l v < nidx i.
Proof.
  intros Hinv (Ht & Hl & Hp & Hv). destruct (pt_mem _ _ Hinv _ _ Ht) as (Hb & _ & _ & Hl2).
  pose proof (idx_range i v Hl2 Hv) as Hi. rewrite Hl in Hi.
  destruct (proj1 (rd64_has m (t + PTE_SIZE * idx l v))) as [e He]; [|by exists e].
  eapply has_bytes_sub; [exact Hb|..]; unfold tsize, PTE_SIZE; lia.
Qed.

(** Memories that agree on every table read the same. *)
Definition agree_tabs tabs m m' : Prop := ∀ t i a, tabs !! t = Some i →
  t <= a < t + tsize i → m !! a = m' !! a.

Lemma agree_entry tabs m m' t i k : agree_tabs tabs m m' → tabs !! t = Some i →
  0 <= k < nidx i → rd64 m (t + PTE_SIZE * k) = rd64 m' (t + PTE_SIZE * k).
Proof.
  intros Ha Ht Hk. apply rd64_ext. intros a Hr. eapply Ha; [exact Ht|].
  unfold tsize, PTE_SIZE in *. lia.
Qed.

Lemma pt_look_frame m m' tabs l : pt_inv m tabs → agree_tabs tabs m m' →
  ∀ t i v, on_path tabs t i l v → pt_look m' l t v = pt_look m l t v.
Proof.
  intros Hinv Hag. induction l as [|l IH]; intros t i v Hp; simpl;
    destruct (on_path_entry _ _ _ _ _ _ Hinv Hp) as (e & He & Hk);
    rewrite <- (agree_entry _ _ _ _ _ _ Hag (proj1 Hp) Hk), He; simpl; [done|].
  destruct (pte_valid e) eqn:Hv; [|done]. eapply IH. by eapply on_path_child.
Qed.

Lemma pt_slot_frame m m' tabs l : pt_inv m tabs → agree_tabs tabs m m' →
  ∀ t i v s, on_path tabs t i l v → pt_slot m l t v = Some s → pt_slot m' l t v = Some s.
Proof.
  intros Hinv Hag. induction l as [|l IH]; intros t i v s Hp; simpl; [done|].
  destruct (on_path_entry _ _ _ _ _ _ Hinv Hp) as (e & He & Hk).
  rewrite <- (agree_entry _ _ _ _ _ _ Hag (proj1 Hp) Hk), He; simpl.
  destruct (pte_valid e) eqn:Hv; [|done]. eapply IH. by eapply on_path_child.
Qed.

Lemma missing_frame m m' tabs l : pt_inv m tabs → agree_tabs tabs m m' →
  ∀ t i v, on_path tabs t i l v → missing m' l t v = missing m l t v.
Proof.
  intros Hinv Hag. induction l as [|l IH]; intros t i v Hp; cbn [missing]; [done|].
  destruct (on_path_entry _ _ _ _ _ _ Hinv Hp) as (e & He & Hk).
  rewrite <- (agree_entry _ _ _ _ _ _ Hag (proj1 Hp) Hk), He.
  destruct (pte_valid e) eqn:Hv; [|done]. eapply IH. by eapply on_path_child.
Qed.

Lemma pt_inv_frame m m' tabs : pt_inv m tabs → agree_tabs tabs m m' → pt_inv m' tabs.
Proof.
  intros Hinv Hag. split.
  - intros t i Ht. destruct (pt_mem _ _ Hinv _ _ Ht) as (Hb & Hr). split; [|exact Hr].
    intros a Ha. rewrite <- (Hag _ _ _ Ht Ha). by apply Hb.
  - apply (pt_kind _ _ Hinv).
  - apply (pt_disj _ _ Hinv).
  - intros t i l k e Ht Hl Hk He. rewrite <- (agree_entry _ _ _ _ _ _ Hag Ht Hk) in He.
    by eapply (pt_child _ _ Hinv).
Qed.
End inv.

(** ** Writing entries *)

Section write.
Context {L : Linker} `{!LinkerOk L}.
Implicit Types (m : ram) (tabs : gmap Z tab) (fl : list Z).

Lemma entry_sep m tabs t i k t' i' k' : pt_inv m tabs →
  tabs !! t = Some i → tabs !! t' = Some i' → 0 <= k < nidx i → 0 <= k' < nidx i' →
  (t, k) ≠ (t', k') →
  t + PTE_SIZE * k + 8 <= t' + PTE_SIZE * k' ∨ t' + PTE_SIZE * k' + 8 <= t + PTE_SIZE * k.
Proof.
  intros Hinv Ht Ht' Hk Hk' Hne. unfold PTE_SIZE. destruct (decide (t = t')) as [->|Hne'].
  - assert (k ≠ k') by (by intros ->). lia.
  - destruct (pt_disj _ _ Hinv _ _ _ _ Ht Ht' Hne'); unfold tsize, PTE_SIZE in *; lia.
Qed.

(** Reading another entry after a write to entry [k] of table [t]. *)
Lemma rd64_entry_other m m1 tabs t i k t' i' k' e : pt_inv m tabs →
  tabs !! t = Some i → tabs !! t' = Some i' → 0 <= k < nidx i → 0 <= k' < nidx i' →
  (t, k) ≠ (t', k') →
  rd64 (wr64 m1 (t + PTE_SIZE * k) e) (t' + PTE_SIZE * k') = rd64 m1 (t' + PTE_SIZE * k').
Proof.
  intros. apply rd64_wr64_other. by eapply entry_sep.
Qed.

Section link.
(** A cleared page [t'], no part of any table, linked from the invalid entry [k]
    of table [t]. *)
Context m tabs (t : Z) (i : tab) (l0 : nat) (k t' : Z) (x : Z) (e0 : Z).
Context (Hinv : pt_inv m tabs) (Ht : tabs !! t = Some i) (Hl : t_level i = S l0)
  (Hk : 0 <= k < nidx i) (He0 : rd64 m (t + PTE_SIZE * k) = Some e0)
  (Hinvalid : pte_valid e0 = false)
  (Hx : valid_address x = true) (Hx' : t' = KPA2PA x)
  (Hzero : zeroed m t' PAGE_SIZE)
  (Hsep : ∀ u j, tabs !! u = Some j → t' + PAGE_SIZE <= u ∨ u + tsize j <= t').

Let new := mk_tab (t_root i) (t_x4 i) l0 (t_pre i * 512 + k).
Let m2 := wr64 m (t + PTE_SIZE * k) (PA2PTE t' .| PTE_V).
Let tabs2 := <[t' := new]> tabs.

Lemma link_t' : 0 <= t' < 2 ^ 56 ∧ t' mod 4096 = 0.
Proof.
  destruct (valid_address_pa x Hx) as (Ha & Hlo & Hhi & _). pose proof dynamic_range.
  rewrite Hx'. unfold PAGE_SIZE, DTB_MEMORY_END, DTB_MEMORY, DTB_MEMORY_SIZE in *.
  split; [|done]. rewrite (proj1 dynamic_pa) in Hlo.
  unfold DTB_MEMORY, FIRMWARE_SIZE in *. lia.
Qed.

Lemma link_fresh : tabs !! t' = None.
Proof.
  destruct (tabs !! t') as [j|] eqn:E; [|done].
  pose proof (tsize_pos j). destruct (Hsep _ _ E); unfold PAGE_SIZE in *; lia.
Qed.

Lemma link_level : (l0 < 2)%nat.
Proof. destruct (pt_mem _ _ Hinv _ _ Ht) as (_ & _ & _ & ?). lia. Qed.

Lemma nidx_new : nidx new = 512.
Proof.
  pose proof link_level. unfold nidx, new. simpl.
  destruct (Nat.eqb_spec l0 2); [lia|]. by rewrite andb_false_r.
Qed.

(** The link does not touch the new table. *)
Lemma link_zero j : 0 <= j < 512 → rd64 m2 (t' + PTE_SIZE * j) = Some 0.
Proof.
  intros Hj. unfold m2. rewrite rd64_wr64_other.
  - apply (zeroed_rd64 _ t' PAGE_SIZE); [done|..]; unfold PTE_SIZE, PAGE_SIZE in *; lia.
  - destruct (Hsep _ _ Ht); unfold tsize, PTE_SIZE, PAGE_SIZE in *; lia.
Qed.

Lemma link_same : rd64 m2 (t + PTE_SIZE * k) = Some (PA2PTE t' .| PTE_V).
Proof.
  pose proof link_t' as [Hr _]. unfold m2. rewrite rd64_wr64_same.
  rewrite PA2PTE_flags by (done || by vm_compute). change PTE_V with 1.
  rewrite u64_id by dlia. done.
Qed.

Lemma link_other u j k' : tabs !! u = Some j → 0 <= k' < nidx j → (t, k) ≠ (u, k') →
  rd64 m2 (u + PTE_SIZE * k') = rd64 m (u + PTE_SIZE * k').
Proof. intros. unfold m2. by apply (rd64_entry_other m m tabs t i k u j). Qed.

(** No page number is mapped differently after the link. *)
Lemma pt_look_link l u j v : on_path tabs u j l v → pt_look m2 l u v = pt_look m l u v.
Proof.
  revert u j. induction l as [|l IH]; intros u j Hp; simpl;
    destruct (on_path_entry _ _ _ _ _ _ Hinv Hp) as (e & He & Hidx);
    pose proof Hp as (Hu & Hlu & _).
  - by rewrite (link_other u j) by (done || intros [= <- _]; congruence).
  - destruct (decide ((t, k) = (u, idx (S l) v))) as [[= <- Hkk]|Hne].
    + rewrite <- Hkk, He0, link_same. simpl. rewrite Hinvalid.
      assert (l = l0) as -> by congruence.
      destruct (pte_valid (PA2PTE t' .| PTE_V)); [|done]. pose proof link_t' as [Hr Ha].
      rewrite PTE2PA_link by done. pose proof link_level.
      assert (0 <= idx l0 v < 512)
        by (destruct l0 as [|[|?]]; [| |lia]; unfold idx; apply Z.mod_pos_bound; lia).
      pose proof (link_zero (idx l0 v) H0) as Hz. revert Hz. generalize t'. clear.
      intros u Hz. destruct l0; simpl; by rewrite Hz.
    + rewrite (link_other u j) by done. rewrite He. simpl.
      destruct (pte_valid e) eqn:Hv; [|done]. eapply IH. by eapply on_path_child.
Qed.

Lemma pt_slot_link l u j v s : on_path tabs u j l v →
  pt_slot m l u v = Some s → pt_slot m2 l u v = Some s.
Proof.
  revert u j. induction l as [|l IH]; intros u j Hp; simpl; [done|].
  destruct (on_path_entry _ _ _ _ _ _ Hinv Hp) as (e & He & Hidx).
  pose proof Hp as (Hu & Hlu & _). rewrite He. simpl.
  destruct (pte_valid e) eqn:Hv; [|done].
  rewrite (link_other u j); [|done|done|].
  - rewrite He. simpl. rewrite Hv. eapply IH. by eapply on_path_child.
  - intros [= <- Hkk]. congruence.
Qed.

Lemma pt_inv_link : pt_inv m2 tabs2.
Proof.
  pose proof link_t' as [Hr Ha]. pose proof link_fresh as Hfr. pose proof nidx_new as Hn.
  assert (Hts : tsize new = PAGE_SIZE) by (unfold tsize; by rewrite Hn).
  split; unfold tabs2.
  - intros u j [[<- <-]|[? Hu]]%lookup_insert_Some.
    + split; [|split; [exact Hr|split; [exact Ha|simpl; pose proof link_level; lia]]].
      rewrite Hts. apply has_bytes_wr64. by apply zeroed_has_bytes.
    + destruct (pt_mem _ _ Hinv _ _ Hu) as (Hb & Hrest). split; [by apply has_bytes_wr64|done].
  - intros u j [[<- <-]|[? Hu]]%lookup_insert_Some; [|by apply (pt_kind _ _ Hinv)].
    simpl. pose proof link_level. destruct (Nat.eqb_spec l0 2); [lia|]. by exists x.
  - intros u j u' j' [[<- <-]|[? Hu]]%lookup_insert_Some [[<- <-]|[? Hu']]%lookup_insert_Some Hne.
    + done.
    + rewrite Hts. by apply Hsep.
    + rewrite Hts. destruct (Hsep _ _ Hu); [by right|by left].
    + by apply (pt_disj _ _ Hinv).
  - intros u j l' k' e [[<- <-]|[? Hu]]%lookup_insert_Some Hlu Hk' He Hv.
    + rewrite Hn in Hk'. rewrite link_zero in He by done. by injection He as <-.
    + destruct (decide ((t, k) = (u, k'))) as [[= <- <-]|Hne].
      * rewrite link_same in He. injection He as <-. exists t'. split; [done|]. rewrite lookup_insert_eq. unfold new.
        assert (i = j) as <- by congruence. by assert (l0 = l') as <- by congruence.
      * rewrite (link_other u j) in He by done.
        destruct (pt_child _ _ Hinv _ _ _ _ _ Hu Hlu Hk' He Hv) as (t'' & -> & Ht'').
        exists t''. split; [done|]. rewrite lookup_insert_ne; [done|]. congruence.
Qed.
End link.

Section leaf.
(** Entry [k] of a level-0 table [t] is overwritten: only page
    [t_pre i * 512 + k] of that tree is affected. *)
Context m tabs (t : Z) (i : tab) (k e : Z).
Context (Hinv : pt_inv m tabs) (Ht : tabs !! t = Some i) (Hl : t_level i = 0%nat)
  (Hk : 0 <= k < nidx i).
Let m2 := wr64 m (t + PTE_SIZE * k) e.

Lemma leaf_other u j k' : tabs !! u = Some j → 0 <= k' < nidx j → (t, k) ≠ (u, k') →
  rd64 m2 (u + PTE_SIZE * k') = rd64 m (u + PTE_SIZE * k').
Proof. intros. unfold m2. by apply (rd64_entry_other m m tabs t i k u j). Qed.

Lemma pt_look_leaf_other l u j v : on_path tabs u j l v →
  t_root j ≠ t_root i ∨ v ≠ t_pre i * 512 + k →
  pt_look m2 l u v = pt_look m l u v.
Proof.
  revert u j. induction l as [|l IH]; intros u j Hp Hne; simpl;
    destruct (on_path_entry _ _ _ _ _ _ Hinv Hp) as (e' & He & Hidx);
    pose proof Hp as (Hu & Hlu & Hpre & _).
  - rewrite (leaf_other u j); [done..|]. intros [= <- ->].
    assert (i = j) as <- by congruence. destruct Hne as [|Hne]; [done|]. apply Hne.
    rewrite Hpre. unfold pre, idx. dlia.
  - rewrite (leaf_other u j); [|done|done|].
    + rewrite He. simpl. destruct (pte_valid e') eqn:Hv; [|done].
      eapply IH; [by eapply on_path_child|done].
    + intros [= <- _]. congruence.
Qed.

Lemma pt_slot_leaf l u j v : on_path tabs u j l v → pt_slot m2 l u v = pt_slot m l u v.
Proof.
  revert u j. induction l as [|l IH]; intros u j Hp; simpl; [done|].
  destruct (on_path_entry _ _ _ _ _ _ Hinv Hp) as (e' & He & Hidx).
  pose proof Hp as (Hu & Hlu & _). rewrite (leaf_other u j); [|done|done|].
  - rewrite He. simpl. destruct (pte_valid e') eqn:Hv; [|done].
    eapply IH. by eapply on_path_child.
  - intros [= <- _]. congruence.
Qed.

Lemma pt_inv_leaf : pt_inv m2 tabs.
Proof.
  split.
  - intros u j Hu. destruct (pt_mem _ _ Hinv _ _ Hu) as (Hb & Hr).
    split; [by apply has_bytes_wr64|done].
  - apply (pt_kind _ _ Hinv).
  - apply (pt_disj _ _ Hinv).
  - intros u j l k' e' Hu Hlu Hk' He. rewrite (leaf_other u j) in He; [|done|done|].
    + by eapply (pt_child _ _ Hinv).
    + intros [= <- _]. congruence.
Qed.
End leaf.

(** The slot of a page lies in the level-0 table of its block. *)
Lemma pt_slot_tab m tabs l t i v s : pt_inv m tabs → on_path tabs t i l v →
  pt_slot m l t v = Some s →
  ∃ t0, on_path tabs t0 (mk_tab (t_root i) (t_x4 i) 0 (pre 0 v)) 0 v ∧
        s = t0 + PTE_SIZE * idx 0 v.
Proof.
  intros Hinv. revert t i. induction l as [|l IH]; intros t i Hp; simpl.
  - intros [= <-]. exists t. split; [|done]. destruct Hp as (Ht & Hl & Hpre & Hv).
    destruct i as [r x l p]; simpl in *; subst. split; [done|]. simpl. auto.
  - destruct (on_path_entry _ _ _ _ _ _ Hinv Hp) as (e' & He & Hidx). rewrite He. simpl.
    destruct (pte_valid e') eqn:Hv; [|done]. intros Hs.
    by apply (IH _ _ (on_path_child _ _ _ _ _ _ _ Hinv Hp He Hv)).
Qed.

(** The tables of a page depend on its block of 512 pages only. *)
Lemma pt_slot_block m l t v v' : (l <= 2)%nat → v / 512 = v' / 512 →
  is_Some (pt_slot m l t v) → is_Some (pt_slot m l t v').
Proof.
  intros Hl Hb. revert t. induction l as [|l IH]; intros t; simpl; [by eauto|].
  replace (idx (S l) v') with (idx (S l) v).
  - destruct (rd64 _ _) as [e|]; simpl; [|by intros []].
    destruct (pte_valid e); [apply IH; lia|by intros []].
  - destruct l as [|[|l]]; [| |lia]; unfold idx; [by rewrite Hb|].
    change (2 ^ 18) with (512 * 512). rewrite <- !Z.div_div by lia. by rewrite Hb.
Qed.
End write.
