(* ===== verification/VmemSpec.v ===== *)
(** * VmemSpec: what the operations of mem/vmem.c do to the tables

    The invariant of memory ([mem_inv]: free list, tables and their separation),
    the growth relation [pt_grow] of an operation that may allocate tables, and
    the run lemmas of walk, map_page and map_pages. *)

From S2P Require Import Prelude Layout Bits Memory Machine Kmem Vmem PageTable.

Section spec.
Context {D : Type} {L : Linker} `{!LinkerOk L}.
Implicit Types (w : world D) (m : ram) (tabs : gmap Z tab) (fl used data : list Z).

(** The free list is [fl], the tables are [tabs], and [data] are allocated pages
    that are not tables; no page has two roles. *)
Record mem_inv w tabs fl data : Prop := {
  mi_kmem : kmem_inv w fl;
  mi_pt : pt_inv (w_mem w) tabs;
  mi_free : pt_free tabs (fl ++ data);
  mi_nodup : NoDup (fl ++ data);
  mi_data : Forall (λ x, valid_address x = true) data
}.

(** Before there are tables. *)
Lemma mem_inv_boot w fl : kmem_inv w fl → mem_inv w ∅ fl [].
Proof.
  intros H. split; [exact H| | |rewrite app_nil_r; apply H|constructor].
  - split; intros; by rewrite lookup_empty in *.
  - intros x t i _ Ht. by rewrite lookup_empty in Ht.
Qed.

Lemma mi_valid w tabs fl data x : mem_inv w tabs fl data → x ∈ fl ++ data → valid_address x = true.
Proof.
  intros Hmi [Hx|Hx]%elem_of_app.
  - eapply freelist_elem_valid; [apply Hmi|done].
  - pose proof (mi_data _ _ _ _ Hmi) as Hd. rewrite Forall_forall in Hd. by apply Hd.
Qed.

(** From [w] to [w'] the pages [used] were taken off the free list and became
    tables; every page number is mapped as before, and only tables changed. *)
Record pt_grow data w tabs fl w' tabs' fl' used : Prop := {
  g_inv : mem_inv w' tabs' fl' data;
  g_fl : fl = used ++ fl';
  g_only : mem_only w w';
  g_sub : tabs ⊆ tabs';
  g_new u j : tabs' !! u = Some j → tabs !! u = Some j ∨ ∃ x, x ∈ used ∧ u = KPA2PA x;
  g_look l u j v : on_path tabs u j l v →
    pt_look (w_mem w') l u v = pt_look (w_mem w) l u v;
  g_entry u j k e : tabs !! u = Some j → t_level j ≠ 0%nat → 0 <= k < nidx j →
    rd64 (w_mem w) (u + PTE_SIZE * k) = Some e → pte_valid e = true →
    rd64 (w_mem w') (u + PTE_SIZE * k) = Some e;
  g_frame a : (∀ u j, tabs' !! u = Some j → ¬ (u <= a < u + tsize j)) →
    w_mem w' !! a = w_mem w !! a
}.

Lemma pt_grow_refl data w tabs fl : mem_inv w tabs fl data → pt_grow data w tabs fl w tabs fl [].
Proof. intros H. split; try done; eauto. Qed.

Lemma on_path_sub tabs tabs' t i l v : tabs ⊆ tabs' → on_path tabs t i l v → on_path tabs' t i l v.
Proof. intros Hs (Ht & ?). split; [by eapply lookup_weaken|done]. Qed.

Lemma pt_grow_trans data w1 tabs1 fl1 w2 tabs2 fl2 used w3 tabs3 fl3 used' :
  pt_grow data w1 tabs1 fl1 w2 tabs2 fl2 used →
  pt_grow data w2 tabs2 fl2 w3 tabs3 fl3 used' →
  pt_grow data w1 tabs1 fl1 w3 tabs3 fl3 (used ++ used').
Proof.
  intros G H. split.
  - apply (g_inv _ _ _ _ _ _ _ _ H).
  - rewrite <- app_assoc, <- (g_fl _ _ _ _ _ _ _ _ H). apply (g_fl _ _ _ _ _ _ _ _ G).
  - etrans; [apply (g_only _ _ _ _ _ _ _ _ G)|apply (g_only _ _ _ _ _ _ _ _ H)].
  - etrans; [apply (g_sub _ _ _ _ _ _ _ _ G)|apply (g_sub _ _ _ _ _ _ _ _ H)].
  - intros u j Hu. destruct (g_new _ _ _ _ _ _ _ _ H _ _ Hu) as [Hu'|(x & ? & ->)].
    + destruct (g_new _ _ _ _ _ _ _ _ G _ _ Hu') as [|(x & ? & ->)]; [by left|].
      right. exists x. rewrite elem_of_app. auto.
    + right. exists x. rewrite elem_of_app. auto.
  - intros l u j v Hp. rewrite <- (g_look _ _ _ _ _ _ _ _ G _ _ _ _ Hp).
    apply (g_look _ _ _ _ _ _ _ _ H _ _ j).
    eapply on_path_sub; [apply (g_sub _ _ _ _ _ _ _ _ G)|done].
  - intros u j k e Hu Hl Hk He Hv. apply (g_entry _ _ _ _ _ _ _ _ H u j); try done.
    + eapply lookup_weaken; [done|apply (g_sub _ _ _ _ _ _ _ _ G)].
    + by eapply (g_entry _ _ _ _ _ _ _ _ G).
  - intros a Ha. rewrite (g_frame _ _ _ _ _ _ _ _ H) by done.
    apply (g_frame _ _ _ _ _ _ _ _ G). intros u j Hu. apply Ha.
    eapply lookup_weaken; [done|apply (g_sub _ _ _ _ _ _ _ _ H)].
Qed.

(** Tables that exist stay where they are. *)
Lemma pt_grow_slot data w tabs fl w' tabs' fl' used l u j v s :
  pt_inv (w_mem w) tabs → pt_grow data w tabs fl w' tabs' fl' used → on_path tabs u j l v →
  pt_slot (w_mem w) l u v = Some s → pt_slot (w_mem w') l u v = Some s.
Proof.
  intros Hinv G. revert u j. induction l as [|l IH]; intros u j Hp; simpl; [done|].
  destruct (on_path_entry _ _ _ _ _ _ Hinv Hp) as (e & He & Hk).
  pose proof Hp as (Hu & Hlj & _). rewrite He. simpl. destruct (pte_valid e) eqn:Hv; [|done].
  rewrite (g_entry _ _ _ _ _ _ _ _ G u j _ e) by (done || lia). simpl. rewrite Hv.
  eapply IH. by eapply on_path_child.
Qed.

(** ** Pointers to entries *)

Lemma kptr_pa_range a p : kptr_pa a = Some p → VAS_KERNEL <= a < VAS_RAM + GIGAPAGE.
Proof.
  unfold kptr_pa, GIGAPAGE.
  destruct (Z.leb_spec VAS_KERNEL a), (Z.ltb_spec a (VAS_KERNEL + 2 ^ 30)),
    (Z.leb_spec VAS_RAM a), (Z.ltb_spec a (VAS_RAM + 2 ^ 30)); cbn [andb]; intros E;
    try discriminate E; clear E; unfold VAS_KERNEL, VAS_RAM in *; lia.
Qed.

Lemma kptr_pte kpa t i k : kptr_range kpa t (tsize i) → 0 <= k < nidx i →
  kptr_pa (pte_ptr kpa k) = Some (t + PTE_SIZE * k) ∧ pte_ptr kpa k ≠ 0.
Proof.
  intros Hr Hk. pose proof (Hr (PTE_SIZE * k)) as H. unfold tsize, PTE_SIZE in *.
  specialize (H ltac:(lia)). pose proof (kptr_pa_range _ _ H).
  unfold pte_ptr, PTE_SIZE, VAS_KERNEL, VAS_RAM, GIGAPAGE in *.
  rewrite u64_id by lia. split; [done|lia].
Qed.

Lemma load_entry w tabs kpa t i l v : pt_inv (w_mem w) tabs → on_path tabs t i l v →
  kptr_range kpa t (tsize i) →
  ∃ e, rd64 (w_mem w) (t + PTE_SIZE * idx l v) = Some e ∧
       load64 (pte_ptr kpa (idx l v)) w = Ok e w.
Proof.
  intros Hinv Hp Hr. destruct (on_path_entry _ _ _ _ _ _ Hinv Hp) as (e & He & Hk).
  exists e. split; [done|]. eapply load64_ok; [|done]. by eapply kptr_pte.
Qed.

Lemma truthy_PTE_V e : truthy (e .& PTE_V) = pte_valid e.
Proof.
  rewrite land_PTE_V. unfold truthy, pte_valid.
  destruct (Z.eqb_spec (e mod 2) 0), (Z.eqb_spec (e mod 2) 1); dlia || done.
Qed.

(** A pointer made from a valid entry designates the child table. *)
Lemma child_ptr m tabs t i : pt_inv m tabs → tabs !! t = Some i → (t_level i < 2)%nat →
  kptr_range (PA2KPA t) t (tsize i).
Proof.
  intros Hinv Ht Hl. pose proof (pt_kind _ _ Hinv _ _ Ht) as Hk.
  destruct (Nat.eqb_spec (t_level i) 2); [lia|]. destruct Hk as (x & Hx & ->).
  destruct (valid_address_pa x Hx) as (_ & _ & _ & Hx' & Hr & _). rewrite <- Hx'.
  replace (tsize i) with PAGE_SIZE; [done|]. unfold tsize, nidx.
  destruct (Nat.eqb_spec (t_level i) 2); [lia|]. by rewrite andb_false_r.
Qed.

(** ** walk *)

(** Clearing a free page leaves the tables as they are. *)
Lemma taken_agree w w2 tabs x fl data : mem_inv w tabs (x :: fl) data → page_taken x w w2 →
  agree_tabs tabs (w_mem w) (w_mem w2).
Proof.
  intros Hmi (_ & _ & Hf) u j a Hu Ha. symmetry. apply Hf.
  destruct (mi_free _ _ _ _ Hmi x u j) as [|]; [by left|exact Hu|lia..].
Qed.

Section alloc.
(** The free page [x] was taken and cleared ([w2]) and is about to be linked from
    the invalid entry of table [t] for page [v]. *)
Context w w2 tabs (x : Z) fl data (t : Z) (i : tab) (l : nat) (v e : Z).
Context (Hmi : mem_inv w tabs (x :: fl) data) (Hk2 : kmem_inv w2 fl) (Hpg : page_taken x w w2)
  (Hp : on_path tabs t i (S l) v)
  (He : rd64 (w_mem w) (t + PTE_SIZE * idx (S l) v) = Some e) (Hv : pte_valid e = false).
Let k := idx (S l) v.
Let m3 := wr64 (w_mem w2) (t + PTE_SIZE * k) (PA2PTE (KPA2PA x) .| PTE_V).
Let i' := mk_tab (t_root i) (t_x4 i) l (pre l v).
Let tabs' := <[KPA2PA x := i']> tabs.

Lemma alloc_valid : valid_address x = true ∧ x ∉ fl.
Proof.
  destruct (mi_kmem _ _ _ _ Hmi) as (_ & (_ & Hx & _) & Hnd & _).
  by apply NoDup_cons in Hnd as [? _].
Qed.

Lemma alloc_sep u j : tabs !! u = Some j → KPA2PA x + PAGE_SIZE <= u ∨ u + tsize j <= KPA2PA x.
Proof. intros Hu. apply (mi_free _ _ _ _ Hmi x u j); [by left|done]. Qed.

Lemma alloc_agree : agree_tabs tabs (w_mem w) (w_mem w2).
Proof. eapply taken_agree; [exact Hmi|exact Hpg]. Qed.

Lemma alloc_pt2 : pt_inv (w_mem w2) tabs.
Proof. eapply pt_inv_frame; [apply (mi_pt _ _ _ _ Hmi)|apply alloc_agree]. Qed.

Lemma alloc_idx : 0 <= k < nidx i ∧ (l < 2)%nat.
Proof.
  destruct (on_path_entry _ _ _ _ _ _ (mi_pt _ _ _ _ Hmi) Hp) as (_ & _ & Hidx).
  split; [exact Hidx|]. destruct Hp as (Ht & Hl & _).
  destruct (pt_mem _ _ (mi_pt _ _ _ _ Hmi) _ _ Ht) as (_ & _ & _ & ?). lia.
Qed.

Lemma alloc_entry : rd64 (w_mem w2) (t + PTE_SIZE * k) = Some e.
Proof.
  rewrite <- (agree_entry _ _ _ _ _ _ alloc_agree (proj1 Hp)); [exact He|apply alloc_idx].
Qed.

Lemma alloc_tsize : tsize i' = PAGE_SIZE.
Proof.
  pose proof alloc_idx as [_ Hl]. unfold tsize, nidx, i'. simpl.
  destruct (Nat.eqb_spec l 2); [lia|]. by rewrite andb_false_r.
Qed.

Lemma alloc_i' : i' = mk_tab (t_root i) (t_x4 i) l (t_pre i * 512 + k).
Proof.
  pose proof alloc_idx as [_ Hl]. destruct Hp as (_ & _ & Hpre & _).
  unfold i', k. by rewrite Hpre, <- pre_child by lia.
Qed.

Lemma alloc_pt_inv : pt_inv m3 tabs'.
Proof.
  unfold tabs', m3. rewrite alloc_i'. pose proof alloc_valid as [Hx _].
  eapply (pt_inv_link _ _ t i l _ _ x).
  - exact alloc_pt2.
  - apply Hp.
  - apply Hp.
  - apply alloc_idx.
  - exact Hx.
  - reflexivity.
  - apply Hpg.
  - exact alloc_sep.
Qed.

Lemma alloc_link : rd64 m3 (t + PTE_SIZE * k) = Some (PA2PTE (KPA2PA x) .| PTE_V).
Proof.
  pose proof alloc_valid as [Hx _]. pose proof alloc_idx as [Hk _].
  eapply (link_same _ t i l _ _ x); [apply Hp|exact Hk|exact Hx|reflexivity].
Qed.

Lemma alloc_path : on_path tabs' (KPA2PA x) i' l v.
Proof. split; [apply lookup_insert_eq|]. destruct Hp as (_ & _ & _ & Hv'). by auto. Qed.

Lemma alloc_missing : missing m3 l (KPA2PA x) v = l.
Proof.
  pose proof alloc_idx as [Hk Hl]. pose proof (alloc_sep) as Hs.
  assert (Hz : ∀ j, 0 <= j < 512 → rd64 m3 (KPA2PA x + PTE_SIZE * j) = Some 0).
  { intros j Hj. eapply (link_zero _ tabs t i l); [apply Hp..|exact Hk|apply Hpg|exact Hs|exact Hj]. }
  revert Hz. generalize m3. intros m Hz. destruct l as [|l']; [reflexivity|]. cbn [missing].
  rewrite Hz; [reflexivity|].
  destruct l' as [|?]; [|lia]. unfold idx. apply Z.mod_pos_bound. lia.
Qed.

Lemma alloc_kmem : kmem_inv (set_mem m3 w2) fl.
Proof.
  destruct Hk2 as (Hlk & Hfl & Hnd & Hram). pose proof alloc_idx as [Hk _].
  split_and!; [exact Hlk| |exact Hnd|eapply pages_ok_backed; [intros p' n; apply has_bytes_wr64|exact Hram]].
  eapply is_freelist_frame; [exact Hfl|]. intros y Hy a Ha. cbn [w_mem set_mem].
  unfold m3. rewrite lookup_wr64, decide_False; [reflexivity|].
  destruct (mi_free _ _ _ _ Hmi y t i) as [|];
    [apply elem_of_app; left; by right|apply Hp|..]; unfold tsize, PTE_SIZE, PAGE_SIZE in *; lia.
Qed.

Lemma alloc_free : pt_free tabs' (fl ++ data).
Proof.
  pose proof alloc_valid as [Hx Hni]. pose proof (mi_nodup _ _ _ _ Hmi) as Hnd.
  apply NoDup_cons in Hnd as [Hni' _].
  intros y u j Hy [[<- <-]|[? Hu]]%lookup_insert_Some.
  - rewrite alloc_tsize. destruct (pages_disjoint x y Hx) as [|].
    + eapply mi_valid; [exact Hmi|by right].
    + intros ->. done.
    + right. lia.
    + left. lia.
  - apply (mi_free _ _ _ _ Hmi y u j); [by right|exact Hu].
Qed.

Lemma alloc_frame a : (∀ u j, tabs' !! u = Some j → ¬ (u <= a < u + tsize j)) →
  m3 !! a = w_mem w !! a.
Proof.
  intros Ha. pose proof alloc_idx as [Hk _]. unfold m3. rewrite lookup_wr64, decide_False.
  - apply Hpg. rewrite <- alloc_tsize. apply Ha. apply lookup_insert_eq.
  - intros Hin. apply (Ha t i); [|unfold tsize, PTE_SIZE in *; lia].
    unfold tabs'. rewrite lookup_insert_ne; [apply Hp|]. intros E.
    pose proof alloc_sep t i (proj1 Hp). pose proof (tsize_pos i). rewrite E in *.
    unfold PAGE_SIZE in *. lia.
Qed.

Lemma alloc_grow : pt_grow data w tabs (x :: fl) (set_mem m3 w2) tabs' fl [x].
Proof.
  pose proof alloc_valid as [Hx Hni]. pose proof alloc_idx as [Hk _].
  pose proof Hp as (Ht & Hl & _).
  split.
  - split; [exact alloc_kmem|exact alloc_pt_inv|exact alloc_free| |apply Hmi].
    pose proof (mi_nodup _ _ _ _ Hmi) as Hnd. by apply NoDup_cons in Hnd as [_ ?].
  - reflexivity.
  - destruct Hpg as ((mm & kk & ->) & _). by exists m3, kk.
  - apply insert_subseteq. destruct (tabs !! KPA2PA x) as [j|] eqn:E; [|reflexivity].
    pose proof (alloc_sep _ _ E). pose proof (tsize_pos j). unfold PAGE_SIZE in *. lia.
  - intros u j [[<- <-]|[? Hu]]%lookup_insert_Some; [right|by left].
    exists x. split; [apply elem_of_cons; by left|reflexivity].
  - intros l' u j v' Hu. cbn [w_mem set_mem].
    etrans; [eapply (pt_look_link _ tabs t i l _ _ x e);
      [exact alloc_pt2|exact Ht|exact Hl|exact Hk|exact alloc_entry|exact Hv|exact Hx
      |reflexivity|apply Hpg|exact alloc_sep|exact Hu]|].
    eapply pt_look_frame; [apply (mi_pt _ _ _ _ Hmi)|exact alloc_agree|exact Hu].
  - intros u j k' e' Hu Hlj Hk' He' Hv'. cbn [w_mem set_mem].
    rewrite <- He', (agree_entry _ _ _ _ _ _ alloc_agree Hu Hk').
    eapply (rd64_entry_other _ _ tabs t i k u j);
      [exact alloc_pt2|exact Ht|exact Hu|exact Hk|exact Hk'|].
    intros [= <- <-]. unfold k in He'. rewrite He in He'. congruence.
  - intros a Ha. cbn [w_mem set_mem]. by apply alloc_frame.
Qed.
End alloc.

(** Allocating a table as walk does: kmalloc, the null test, memset, the link. *)
Lemma alloc_run {B} w tabs x fl data kpa t i l v e (K : Z → cmd (world D) B) :
  mem_inv w tabs (x :: fl) data → on_path tabs t i (S l) v → kptr_range kpa t (tsize i) →
  rd64 (w_mem w) (t + PTE_SIZE * idx (S l) v) = Some e → pte_valid e = false →
  let i' := mk_tab (t_root i) (t_x4 i) l (pre l v) in
  let tabs' := <[KPA2PA x := i']> tabs in
  ∃ w3,
    (∀ N, (kpa' ← kmalloc;
           if kpa' =? 0 then N
           else memset kpa' 0 PAGE_SIZE ;;
                store64 (pte_ptr kpa (idx (S l) v)) (PA2PTE (KPA2PA kpa') .| PTE_V) ;;
                K kpa') w = K x w3) ∧
    pt_grow data w tabs (x :: fl) w3 tabs' fl [x] ∧
    rd64 (w_mem w3) (t + PTE_SIZE * idx (S l) v) = Some (PA2PTE (KPA2PA x) .| PTE_V) ∧
    on_path tabs' (KPA2PA x) i' l v ∧ kptr_range x (KPA2PA x) (tsize i') ∧
    missing (w_mem w3) l (KPA2PA x) v = l.
Proof.
  intros Hmi Hp Hr He Hv i' tabs'.
  destruct (kmalloc_ok _ _ _ (mi_kmem _ _ _ _ Hmi)) as (w1 & Hkm & Hk1 & Hpg1).
  destruct (alloc_valid _ _ _ _ _ Hmi) as [Hx Hni].
  destruct (memset_taken _ _ _ _ Hx Hni Hk1 Hpg1) as (w2 & Hms & Hk2 & Hpg2).
  destruct (valid_address_pa x Hx) as (_ & _ & _ & _ & Hrg & Hx0).
  eexists. split_and!.
  - intros N. erewrite bind_ok by exact Hkm. rewrite (proj2 (Z.eqb_neq x 0) Hx0). cbn iota.
    erewrite bind_ok by exact Hms. erewrite bind_ok; [reflexivity|].
    eapply store64_ok; [eapply kptr_pte; [exact Hr|eapply alloc_idx; eassumption]|].
    apply rd64_has. eexists. eapply alloc_entry; eassumption.
  - eapply alloc_grow; eassumption.
  - cbn [w_mem set_mem]. eapply alloc_link; eassumption.
  - eapply alloc_path; eassumption.
  - unfold i'. erewrite alloc_tsize by eassumption. exact Hrg.
  - cbn [w_mem set_mem]. eapply alloc_missing; eassumption.
Qed.

(** The loop of walk with allocation: it finds or builds the tables for page [v]
    and returns a pointer to the leaf entry. *)
Lemma walk_loop_alloc l w tabs fl data kpa t i va x4 :
  mem_inv w tabs fl data → on_path tabs t i l (vpn va (truthy x4)) →
  kptr_range kpa t (tsize i) →
  (missing (w_mem w) l t (vpn va (truthy x4)) <= length fl)%nat →
  ∃ w' tabs' fl' used ptr s,
    walk_loop l kpa va 1 x4 w = Ok ptr w' ∧ pt_grow data w tabs fl w' tabs' fl' used ∧
    length used = missing (w_mem w) l t (vpn va (truthy x4)) ∧
    pt_slot (w_mem w') l t (vpn va (truthy x4)) = Some s ∧ kptr_pa ptr = Some s ∧ ptr ≠ 0.
Proof.
  set (v := vpn va (truthy x4)). revert w tabs fl kpa t i.
  induction l as [|l IH]; intros w tabs fl kpa t i Hmi Hp Hr Hlen;
    pose proof (mi_pt _ _ _ _ Hmi) as Hpt;
    destruct (on_path_entry _ _ _ _ _ _ Hpt Hp) as (e0 & He0 & Hk).
  - destruct (kptr_pte _ _ _ _ Hr Hk) as [Hptr Hnz].
    exists w, tabs, fl, [], (pte_ptr kpa (idx 0 v)), (t + PTE_SIZE * idx 0 v).
    split_and!; [|by apply pt_grow_refl|reflexivity|reflexivity|exact Hptr|exact Hnz].
    cbn [walk_loop]. change 0 with (Z.of_nat 0). by rewrite va2idx_vpn by lia.
  - pose proof Hp as (Ht & Hl & _). destruct (pt_mem _ _ Hpt _ _ Ht) as (_ & _ & _ & Hl2).
    destruct (load_entry _ _ _ _ _ _ _ Hpt Hp Hr) as (e & He & Hld).
    cbn [walk_loop]. rewrite va2idx_vpn by lia. fold v.
    erewrite bind_ok by exact Hld. rewrite truthy_PTE_V.
    cbn [missing] in Hlen |- *. rewrite He in Hlen |- *.
    destruct (pte_valid e) eqn:Hv.
    + pose proof (on_path_child _ _ _ _ _ _ _ Hpt Hp He Hv) as Hp'. pose proof Hp' as (Ht' & _).
      destruct (IH w tabs fl (PA2KPA (PTE2PA e)) _ _ Hmi Hp')
        as (w' & tabs' & fl' & used & ptr & s & Hrun & G & Hu & Hs & Hptr);
        [eapply child_ptr; [exact Hpt|exact Ht'|simpl; lia]|exact Hlen|].
      exists w', tabs', fl', used, ptr, s.
      split; [exact Hrun|]. split; [exact G|]. split; [exact Hu|]. split; [|exact Hptr].
      cbn [pt_slot]. rewrite (g_entry _ _ _ _ _ _ _ _ G t i _ e) by (done || lia).
      simpl. by rewrite Hv.
    + destruct fl as [|x fl]; [simpl in Hlen; lia|]. simpl in Hlen.
      destruct (alloc_run w tabs x fl data kpa t i l v e (λ k, walk_loop l k va 1 x4) Hmi Hp Hr He Hv)
        as (w3 & Hrun3 & G1 & Hlink & Hp3 & Hr3 & Hmiss).
      destruct (IH w3 _ fl x _ _ (g_inv _ _ _ _ _ _ _ _ G1) Hp3 Hr3)
        as (w' & tabs' & fl' & used & ptr & s & Hrun & G & Hu & Hs & Hptr); [lia|].
      exists w', tabs', fl', (x :: used), ptr, s.
      change (negb (truthy 1)) with false. cbn iota. rewrite Hrun3.
      split; [exact Hrun|]. split; [exact (pt_grow_trans _ _ _ _ _ _ _ [x] _ _ _ _ G1 G)|].
      split; [by rewrite <- Hmiss, <- Hu|]. split; [|exact Hptr].
      cbn [pt_slot]. pose proof (pte_valid_V (PA2PTE (KPA2PA x))) as HV.
      rewrite (g_entry _ _ _ _ _ _ _ _ G t i _ (PA2PTE (KPA2PA x) .| PTE_V));
        [|eapply lookup_weaken; [exact Ht|apply (g_sub _ _ _ _ _ _ _ _ G1)]|lia|exact Hk|exact Hlink|exact HV].
      simpl. rewrite HV.
      destruct (pt_mem _ _ (mi_pt _ _ _ _ (g_inv _ _ _ _ _ _ _ _ G1)) _ _ (proj1 Hp3)) as (_ & Hb & Hal & _).
      by rewrite PTE2PA_link.
Qed.

(** ** Steps that map pages

    [upd r v] is the new entry of page [v] in the tree rooted at [r]; [new] are
    the pages taken as data. *)
Definition is_root tabs (r : Z) (x4 : bool) : Prop := tabs !! r = Some (mk_tab r x4 2 0).
Implicit Type upd : Z → Z → option Z.

Record pt_step data w tabs fl w' tabs' fl' new upd : Prop := {
  s_inv : mem_inv w' tabs' fl' (new ++ data);
  s_fl : ∃ used, fl = used ++ fl' ∧ new ⊆ used;
  s_only : mem_only w w';
  s_sub : tabs ⊆ tabs';
  s_new u j : tabs' !! u = Some j →
    tabs !! u = Some j ∨ ∃ x, valid_address x = true ∧ u = KPA2PA x;
  s_look r x4 v : is_root tabs r x4 → 0 <= v < vpn_bound x4 →
    pt_look (w_mem w') 2 r v =
    match upd r v with Some e => Some e | None => pt_look (w_mem w) 2 r v end;
  s_slot r x4 v : is_root tabs r x4 → 0 <= v < vpn_bound x4 →
    is_Some (pt_slot (w_mem w) 2 r v) → is_Some (pt_slot (w_mem w') 2 r v);
  s_zero x : x ∈ new → zeroed (w_mem w') (KPA2PA x) PAGE_SIZE;
  s_frame a : (∀ u j, tabs' !! u = Some j → ¬ (u <= a < u + tsize j)) →
    (∀ x, x ∈ new → ¬ (KPA2PA x <= a < KPA2PA x + PAGE_SIZE)) →
    w_mem w' !! a = w_mem w !! a
}.

Lemma root_path tabs r x4 v : is_root tabs r x4 → 0 <= v < vpn_bound x4 →
  on_path tabs r (mk_tab r x4 2 0) 2 v.
Proof. intros Hr Hv. split; [exact Hr|]. simpl. auto. Qed.

Lemma pt_grow_step data w tabs fl w' tabs' fl' used : mem_inv w tabs fl data →
  pt_grow data w tabs fl w' tabs' fl' used →
  pt_step data w tabs fl w' tabs' fl' [] (λ _ _, None).
Proof.
  intros Hmi G. pose proof (mi_pt _ _ _ _ Hmi) as Hinv. split; try apply G.
  - exists used. split; [apply G|]. apply list_subseteq_nil.
  - intros u j Hu. destruct (g_new _ _ _ _ _ _ _ _ G _ _ Hu) as [|(x & Hx & ->)]; [by left|right].
    exists x. split; [|done]. eapply mi_valid; [exact Hmi|].
    rewrite (g_fl _ _ _ _ _ _ _ _ G), !elem_of_app. auto.
  - intros r x4 v Hr Hv. apply (g_look _ _ _ _ _ _ _ _ G 2 r (mk_tab r x4 2 0)).
    by apply root_path.
  - intros r x4 v Hr Hv [s Hs]. exists s. eapply pt_grow_slot; [exact Hinv|exact G| |exact Hs].
    by apply root_path.
  - intros x Hx. by apply not_elem_of_nil in Hx.
  - intros a Ha _. by apply (g_frame _ _ _ _ _ _ _ _ G).
Qed.

(** A page of [new ++ data] lies outside the tables and the other data pages. *)
Lemma data_sep w tabs fl new data x y a : mem_inv w tabs fl (new ++ data) →
  x ∈ data → KPA2PA x <= a < KPA2PA x + PAGE_SIZE →
  (∀ u j, tabs !! u = Some j → ¬ (u <= a < u + tsize j)) ∧
  (y ∈ new → ¬ (KPA2PA y <= a < KPA2PA y + PAGE_SIZE)).
Proof.
  intros Hmi Hx Ha. split.
  - intros u j Hu. destruct (mi_free _ _ _ _ Hmi x u j); [|exact Hu|lia..].
    rewrite !elem_of_app. auto.
  - intros Hy Hin. pose proof (mi_nodup _ _ _ _ Hmi) as Hnd.
    apply NoDup_app in Hnd as (_ & _ & Hnd). apply NoDup_app in Hnd as (_ & Hdis & _).
    destruct (pages_disjoint x y) as [|]; [..|lia|lia].
    + eapply mi_valid; [exact Hmi|]. rewrite !elem_of_app. auto.
    + eapply mi_valid; [exact Hmi|]. rewrite !elem_of_app. auto.
    + intros ->. by apply (Hdis y).
Qed.

Lemma pt_step_trans data w1 tabs1 fl1 w2 tabs2 fl2 new1 upd1 w3 tabs3 fl3 new2 upd2 :
  pt_step data w1 tabs1 fl1 w2 tabs2 fl2 new1 upd1 →
  pt_step (new1 ++ data) w2 tabs2 fl2 w3 tabs3 fl3 new2 upd2 →
  pt_step data w1 tabs1 fl1 w3 tabs3 fl3 (new2 ++ new1)
    (λ r v, match upd2 r v with Some e => Some e | None => upd1 r v end).
Proof.
  intros G H.
  assert (Hroot : ∀ r x4, is_root tabs1 r x4 → is_root tabs2 r x4).
  { intros r x4 Hr. eapply lookup_weaken; [exact Hr|apply G]. }
  split.
  - rewrite <- app_assoc. apply H.
  - destruct (s_fl _ _ _ _ _ _ _ _ _ G) as (u1 & -> & Hs1).
    destruct (s_fl _ _ _ _ _ _ _ _ _ H) as (u2 & -> & Hs2).
    exists (u1 ++ u2). rewrite app_assoc. split; [done|].
    intros x. rewrite !elem_of_app. intros [Hx|Hx]; auto.
  - etrans; [apply G|apply H].
  - etrans; [apply G|apply H].
  - intros u j Hu. destruct (s_new _ _ _ _ _ _ _ _ _ H _ _ Hu) as [Hu'|]; [|by right].
    by apply (s_new _ _ _ _ _ _ _ _ _ G).
  - intros r x4 v Hr Hv. rewrite (s_look _ _ _ _ _ _ _ _ _ H r x4) by auto.
    destruct (upd2 r v); [done|]. by apply (s_look _ _ _ _ _ _ _ _ _ G r x4).
  - intros r x4 v Hr Hv Hs. apply (s_slot _ _ _ _ _ _ _ _ _ H r x4); [auto..|].
    by apply (s_slot _ _ _ _ _ _ _ _ _ G r x4).
  - intros x [Hx|Hx]%elem_of_app; [by apply (s_zero _ _ _ _ _ _ _ _ _ H)|].
    intros a Ha. rewrite (s_frame _ _ _ _ _ _ _ _ _ H).
    + by apply (s_zero _ _ _ _ _ _ _ _ _ G x Hx).
    + eapply (data_sep _ _ _ _ _ x x); [apply H| |exact Ha]. apply elem_of_app. by left.
    + intros y. eapply (data_sep _ _ _ _ _ x y); [apply H| |exact Ha]. apply elem_of_app. by left.
  - intros a Ha Hd. rewrite (s_frame _ _ _ _ _ _ _ _ _ H); [|exact Ha|].
    + apply (s_frame _ _ _ _ _ _ _ _ _ G).
      * intros u j Hu. apply Ha. eapply lookup_weaken; [exact Hu|apply H].
      * intros x Hx. apply Hd. apply elem_of_app. by right.
    + intros x Hx. apply Hd. apply elem_of_app. by left.
Qed.

(** ** map_page *)

(** The entry map_page writes. *)
Definition leaf_pte (pa flags : Z) : Z := PA2PTE pa .| flags .| PTE_V.

Lemma leaf_pte_range pa flags : 0 <= pa < 2 ^ 56 → 0 <= flags < 1024 →
  0 <= leaf_pte pa flags < 2 ^ 54.
Proof.
  intros. unfold leaf_pte. apply lor_range; [lia| |by vm_compute].
  apply lor_range; [lia| |lia]. rewrite PA2PTE_div by lia. dlia.
Qed.

Lemma leaf_step data w tabs fl r x4 v s pa flags : mem_inv w tabs fl data →
  is_root tabs r x4 → 0 <= v < vpn_bound x4 → pt_slot (w_mem w) 2 r v = Some s →
  0 <= pa < 2 ^ 56 → 0 <= flags < 1024 →
  pt_step data w tabs fl (set_mem (wr64 (w_mem w) s (leaf_pte pa flags)) w) tabs fl []
    (λ r' v', if decide (r' = r ∧ v' = v) then Some (leaf_pte pa flags) else None).
Proof.
  intros Hmi Hr Hv Hs Hpa Hfl. pose proof (mi_pt _ _ _ _ Hmi) as Hpt.
  destruct (pt_slot_tab _ _ _ _ _ _ _ Hpt (root_path _ _ _ _ Hr Hv) Hs) as (t0 & Hp0 & ->).
  destruct (on_path_entry _ _ _ _ _ _ Hpt Hp0) as (e0 & He0 & Hk).
  cbn [t_root t_x4] in Hp0, Hk.
  pose proof Hp0 as (Ht0 & _). pose proof (leaf_pte_range pa flags Hpa Hfl) as Hrng.
  set (m' := wr64 _ _ _).
  split; cbn [w_mem set_mem].
  - split; [|eapply pt_inv_leaf; [exact Hpt|exact Ht0|reflexivity|exact Hk]|apply Hmi..].
    destruct (mi_kmem _ _ _ _ Hmi) as (Hlk & Hfr & Hnd & Hram).
    split_and!; [exact Hlk| |exact Hnd|eapply pages_ok_backed; [intros p' n; apply has_bytes_wr64|exact Hram]].
    eapply is_freelist_frame; [exact Hfr|]. intros y Hy a Ha. cbn [w_mem set_mem].
    unfold m'. rewrite lookup_wr64, decide_False; [done|].
    destruct (mi_free _ _ _ _ Hmi y _ _ (proj2 (elem_of_app _ _ _) (or_introl Hy)) Ht0);
      unfold tsize, PTE_SIZE, PAGE_SIZE in *; lia.
  - exists []. split; done.
  - apply mem_only_intro. by destruct w.
  - done.
  - by left.
  - intros r' x' v' Hr' Hv'. pose proof (root_path _ _ _ _ Hr' Hv') as Hp'.
    destruct (decide (r' = r ∧ v' = v)) as [[-> ->]|Hne].
    + erewrite pt_look_slot.
      2:{ unfold m'. erewrite pt_slot_leaf; [exact Hs|exact Hpt|exact Ht0|reflexivity|exact Hk|exact Hp']. }
      unfold m'. rewrite rd64_wr64_same, u64_id by lia. simpl.
      unfold leaf_pte at 1. by rewrite pte_valid_V.
    + eapply pt_look_leaf_other; [exact Hpt|exact Ht0|reflexivity|exact Hk|exact Hp'|].
      simpl. destruct (decide (r' = r)) as [->|]; [right|by left].
      unfold pre, idx. intros E. apply Hne. split; [done|]. rewrite E. dlia.
  - intros r' x' v' Hr' Hv' Hs'. unfold m'.
    erewrite pt_slot_leaf; [exact Hs'|exact Hpt|exact Ht0|reflexivity|exact Hk|by apply root_path].
  - intros x Hx. by apply not_elem_of_nil in Hx.
  - intros a Ha _. unfold m'. rewrite lookup_wr64, decide_False; [done|]. intros Hin.
    apply (Ha _ _ Ht0). unfold tsize, PTE_SIZE in *. lia.
Qed.

(** The tree rooted at [r], reached through the pointer [pgtable]. *)
Definition root_ptr tabs (pgtable r x4 : Z) : Prop :=
  is_root tabs r (truthy x4) ∧ kptr_range pgtable r (tsize (mk_tab r (truthy x4) 2 0)).

Lemma root_ptr_nz tabs pgtable r x4 : root_ptr tabs pgtable r x4 → (pgtable =? 0) = false.
Proof.
  intros [_ Hk]. apply Z.eqb_neq. intros ->. specialize (Hk 0).
  pose proof (tsize_pos (mk_tab r (truthy x4) 2 0)) as Hp. unfold PAGE_SIZE in Hp.
  specialize (Hk ltac:(lia)). apply kptr_pa_range in Hk. unfold VAS_KERNEL in Hk. lia.
Qed.

Lemma map_page_ok w tabs fl data pgtable r x4 va pa flags :
  mem_inv w tabs fl data → root_ptr tabs pgtable r x4 →
  0 <= pa < 2 ^ 56 → 0 <= flags < 1024 →
  let v := vpn va (truthy x4) in
  pt_look (w_mem w) 2 r v = None →
  (missing (w_mem w) 2 r v <= length fl)%nat →
  ∃ w' tabs' fl',
    map_page pgtable va pa flags x4 w = Ok 0 w' ∧
    (length fl' + missing (w_mem w) 2 r v = length fl)%nat ∧
    pt_step data w tabs fl w' tabs' fl' []
      (λ r' v', if decide (r' = r ∧ v' = v) then Some (leaf_pte pa flags) else None) ∧
    is_Some (pt_slot (w_mem w') 2 r v).
Proof.
  intros Hmi [Hr Hk] Hpa Hfl v Hnone Hlen. pose proof (vpn_range va (truthy x4)) as Hv.
  pose proof (root_path _ _ _ _ Hr Hv) as Hp.
  destruct (walk_loop_alloc 2 w tabs fl data pgtable r _ va x4 Hmi Hp Hk Hlen)
    as (w1 & tabs1 & fl1 & used & ptr & s & Hrun & G & Hu & Hs & Hptr & Hnz).
  fold v in Hs, Hu.
  pose proof (pt_grow_step _ _ _ _ _ _ _ _ Hmi G) as S1.
  assert (Hr1 : is_root tabs1 r (truthy x4)) by (eapply lookup_weaken; [exact Hr|apply G]).
  pose proof (leaf_step _ _ _ _ r _ v s pa flags (g_inv _ _ _ _ _ _ _ _ G) Hr1 Hv Hs Hpa Hfl) as S2.
  pose proof (pt_step_trans _ _ _ _ _ _ _ _ _ _ _ _ _ _ S1 S2) as S12.
  assert (Hl1 : pt_look (w_mem w1) 2 r v = None)
    by (rewrite <- Hnone; eapply (g_look _ _ _ _ _ _ _ _ G); exact Hp).
  rewrite (pt_look_slot _ _ _ _ _ Hs) in Hl1.
  destruct (pt_slot_tab _ _ _ _ _ _ _ (mi_pt _ _ _ _ (g_inv _ _ _ _ _ _ _ _ G))
    (root_path _ _ _ _ Hr1 Hv) Hs) as (t0 & Hp0 & Hs0).
  destruct (on_path_entry _ _ _ _ _ _ (mi_pt _ _ _ _ (g_inv _ _ _ _ _ _ _ _ G)) Hp0) as (e0 & He0 & _).
  rewrite <- Hs0 in He0. rewrite He0 in Hl1. simpl in Hl1.
  destruct (pte_valid e0) eqn:Hv0; [done|].
  eexists _, tabs1, fl1. split_and!.
  - unfold map_page, walk. rewrite (root_ptr_nz tabs pgtable r x4) by (by split).
    change (Z.to_nat (LEVELS - 1)) with 2%nat. erewrite bind_ok by exact Hrun.
    rewrite (proj2 (Z.eqb_neq ptr 0) Hnz). cbn iota.
    erewrite bind_ok by (eapply load64_ok; [exact Hptr|exact He0]).
    rewrite truthy_PTE_V, Hv0. rewrite (u64_id flags) by lia.
    erewrite bind_ok; [reflexivity|]. eapply store64_ok; [exact Hptr|]. apply rd64_has. by exists e0.
  - rewrite (g_fl _ _ _ _ _ _ _ _ G), length_app, <- Hu. lia.
  - split; try apply S12. intros r' x' v' Hr' Hv'. rewrite (s_look _ _ _ _ _ _ _ _ _ S12 r' x') by done.
    by destruct (decide _).
  - apply (s_slot _ _ _ _ _ _ _ _ _ S2 r (truthy x4)); [exact Hr1|exact Hv|by exists s].
Qed.

(** ** map_pages *)

Lemma pt_step_ext data w tabs fl w' tabs' fl' new upd upd' :
  (∀ r v, upd r v = upd' r v) →
  pt_step data w tabs fl w' tabs' fl' new upd → pt_step data w tabs fl w' tabs' fl' new upd'.
Proof.
  intros E S. split; try apply S. intros r x4 v Hr Hv. rewrite <- E.
  by apply (s_look _ _ _ _ _ _ _ _ _ S r x4).
Qed.

(** Consecutive pages from [v] on, mapped to the physical pages [pas]. *)
Definition upd_list (r v : Z) (pas : list Z) (flags r' v' : Z) : option Z :=
  if decide (r' = r ∧ v <= v') then (λ p, leaf_pte p flags) <$> pas !! Z.to_nat (v' - v)
  else None.

Lemma upd_list_cons r v p pas flags r' v' :
  upd_list r v (p :: pas) flags r' v' =
  match upd_list r (v + 1) pas flags r' v' with
  | Some e => Some e
  | None => if decide (r' = r ∧ v' = v) then Some (leaf_pte p flags) else None
  end.
Proof.
  unfold upd_list. destruct (decide (r' = r)) as [->|Hne].
  - destruct (decide (v' = v)) as [->|Hv].
    + rewrite decide_True, decide_False, decide_True by lia. by rewrite Z.sub_diag.
    + rewrite (decide_False (P := r = r ∧ v' = v)) by lia. destruct (decide (v <= v')).
      * rewrite !decide_True by lia.
        replace (Z.to_nat (v' - v)) with (S (Z.to_nat (v' - (v + 1)))) by lia. simpl.
        by destruct (pas !! _).
      * by rewrite !decide_False by lia.
  - rewrite !decide_False; [done|by intros [? _]..].
Qed.

Lemma upd_list_nil r v flags r' v' : upd_list r v [] flags r' v' = None.
Proof. unfold upd_list. by destruct (decide _). Qed.

(** Mapping consecutive physical pages. *)
Lemma upd_fixed r v pa n flags r' v' :
  upd_list r v ((λ j, pa + PAGE_SIZE * j) <$> seqZ 0 (Z.of_nat n)) flags r' v' =
  if decide (r' = r ∧ v <= v' < v + Z.of_nat n) then Some (leaf_pte (pa + PAGE_SIZE * (v' - v)) flags)
  else None.
Proof.
  unfold upd_list. destruct (decide (r' = r ∧ v <= v')) as [[-> Hv]|Hn].
  - rewrite list_lookup_fmap. destruct (decide (r = r ∧ v <= v' < v + Z.of_nat n)) as [[_ Hlt]|Hge].
    + rewrite lookup_seqZ_lt by lia. cbn [fmap option_fmap option_map].
      by replace (0 + Z.of_nat (Z.to_nat (v' - v))) with (v' - v) by lia.
    + by rewrite lookup_seqZ_ge by lia.
  - rewrite decide_False; [done|]. intros [-> ?]. apply Hn. lia.
Qed.

(** Free pages that mapping [n] pages from [v] on may use for tables: at most two
    for every further block of 512 pages, and what the first page needs. *)
Definition tables_needed m (r v : Z) (n : nat) : nat :=
  match n with
  | O => 0
  | S n' => 2 * Z.to_nat ((v + Z.of_nat n') / 512 - v / 512) + missing m 2 r v
  end.

Lemma tables_needed_le m r v n :
  (tables_needed m r v n <= 2 * Z.to_nat ((v + Z.of_nat n - 1) / 512 - v / 512 + 1))%nat.
Proof.
  destruct n as [|n]; cbn [tables_needed]; [lia|]. pose proof (missing_le m 2 r v).
  replace (v + Z.of_nat (S n) - 1) with (v + Z.of_nat n) by lia. dlia.
Qed.

Lemma tables_needed_next m m' r v n : is_Some (pt_slot m' 2 r v) →
  (tables_needed m' r (v + 1) n + missing m 2 r v <= tables_needed m r v (S n))%nat.
Proof.
  intros Hs. destruct n as [|n]; cbn [tables_needed]; [lia|].
  pose proof (missing_le m' 2 r (v + 1)).
  replace (v + 1 + Z.of_nat n) with (v + Z.of_nat (S n)) by lia.
  destruct (decide ((v + 1) / 512 = v / 512)) as [E|E].
  - assert (missing m' 2 r (v + 1) = 0%nat) as ->.
    { apply missing_0_slot. by eapply (pt_slot_block _ _ _ v). }
    rewrite E. lia.
  - assert ((v + 1) / 512 = v / 512 + 1) as -> by dlia.
    assert (v / 512 + 1 <= (v + Z.of_nat (S n)) / 512) by dlia. lia.
Qed.

(** Taking a data page. *)
Lemma kmalloc_step w tabs x fl data : mem_inv w tabs (x :: fl) data →
  ∃ w', kmalloc w = Ok x w' ∧ pt_step data w tabs (x :: fl) w' tabs fl [x] (λ _ _, None) ∧
        ∀ r x4 v, is_root tabs r x4 → 0 <= v < vpn_bound x4 →
          missing (w_mem w') 2 r v = missing (w_mem w) 2 r v.
Proof.
  intros Hmi. destruct (kmalloc_ok _ _ _ (mi_kmem _ _ _ _ Hmi)) as (w' & Hrun & Hk & Hpg).
  pose proof (taken_agree _ _ _ _ _ _ Hmi Hpg) as Hag. pose proof (mi_pt _ _ _ _ Hmi) as Hpt.
  exists w'. split; [exact Hrun|]. split.
  - split; [| | | |by left|intros r x4 v Hr Hv|intros r x4 v Hr Hv [s Hs]| |].
    + split; [exact Hk|by eapply pt_inv_frame|..].
      * intros y u j Hy. apply (mi_free _ _ _ _ Hmi).
        simpl in Hy. rewrite elem_of_app, elem_of_cons in Hy.
        rewrite elem_of_app, elem_of_cons. tauto.
      * pose proof (mi_nodup _ _ _ _ Hmi) as Hnd. revert Hnd. apply (NoDup_Permutation_proper (A:=Z)).
        simpl. symmetry. apply Permutation_middle.
      * constructor; [eapply mi_valid; [exact Hmi|by left]|apply Hmi].
    + exists [x]. split; done.
    + apply Hpg.
    + done.
    + eapply pt_look_frame; [exact Hpt|exact Hag|by apply root_path].
    + exists s. eapply pt_slot_frame; [exact Hpt|exact Hag|by apply root_path|exact Hs].
    + intros y ->%list_elem_of_singleton. apply Hpg.
    + intros a _ Ha. apply Hpg. apply Ha. by apply list_elem_of_singleton.
  - intros r x4 v Hr Hv. eapply missing_frame; [exact Hpt|exact Hag|by apply root_path].
Qed.

(** The page number of the [k]-th page from [va] on. *)
Lemma vpn_next va x4 k : 0 <= k → 0 <= va → va + 4096 * k < 2 ^ 64 →
  vpn va x4 + k < vpn_bound x4 → vpn (u64 (va + PAGE_SIZE * k)) x4 = vpn va x4 + k.
Proof.
  intros Hk Hva Hlt Hv. unfold PAGE_SIZE. rewrite u64_id by lia.
  unfold vpn, vpn_bound in *. rewrite (Z.mul_comm 4096), Z.div_add by lia.
  destruct x4; rewrite <- Z.add_mod_idemp_l by lia; apply Z.mod_small; dlia.
Qed.

(** One page mapped, then the rest: the steps of the loop put together. *)
Lemma upd_list_step data w tabs fl w1 tabs1 fl1 new1 w2 tabs2 fl2 new2 r v p pas flags :
  pt_step data w tabs fl w1 tabs1 fl1 new1
    (λ r' v', if decide (r' = r ∧ v' = v) then Some (leaf_pte p flags) else None) →
  pt_step (new1 ++ data) w1 tabs1 fl1 w2 tabs2 fl2 new2 (upd_list r (v + 1) pas flags) →
  pt_step data w tabs fl w2 tabs2 fl2 (new2 ++ new1) (upd_list r v (p :: pas) flags).
Proof.
  intros S1 S2. eapply pt_step_ext; [|exact (pt_step_trans _ _ _ _ _ _ _ _ _ _ _ _ _ _ S1 S2)].
  intros r' v'. simpl. by rewrite upd_list_cons.
Qed.

Lemma pt_step_root data w tabs fl w' tabs' fl' new upd pgtable r x4 :
  pt_step data w tabs fl w' tabs' fl' new upd →
  root_ptr tabs pgtable r x4 → root_ptr tabs' pgtable r x4.
Proof. intros S [Hr Hk]. split; [|exact Hk]. eapply lookup_weaken; [exact Hr|apply S]. Qed.

(** Mapping given physical pages: [n] pages from the [k]-th on. *)
Lemma map_pages_loop_fixed n k w tabs fl data pgtable r x4 va pa size flags fuel :
  mem_inv w tabs fl data → root_ptr tabs pgtable r x4 →
  0 < pa → pa + PAGE_SIZE * Z.of_nat (k + n) <= 2 ^ 56 → 0 <= flags < 1024 →
  0 <= va → va + PAGE_SIZE * Z.of_nat (k + n) < 2 ^ 64 →
  vpn va (truthy x4) + Z.of_nat (k + n) <= vpn_bound (truthy x4) →
  PGROUNDUP size = PAGE_SIZE * Z.of_nat (k + n) → (n < fuel)%nat →
  let v := vpn va (truthy x4) + Z.of_nat k in
  (∀ j, v <= j < v + Z.of_nat n → pt_look (w_mem w) 2 r j = None) →
  (tables_needed (w_mem w) r v n <= length fl)%nat →
  ∃ w' tabs' fl',
    map_pages_loop fuel (PAGE_SIZE * Z.of_nat k) pgtable va pa size flags x4 w = Ok 0 w' ∧
    (length fl <= length fl' + tables_needed (w_mem w) r v n)%nat ∧
    pt_step data w tabs fl w' tabs' fl' []
      (upd_list r v ((λ j, pa + PAGE_SIZE * j) <$> seqZ (Z.of_nat k) (Z.of_nat n)) flags).
Proof.
  revert k w tabs fl fuel.
  induction n as [|n IH]; intros k w tabs fl [|fuel] Hmi Hroot Hpa Hpa' Hfl Hva Hva' Hb Hsz Hfu v Hun Hnd;
    [lia| |lia|]; cbn [map_pages_loop].
  - rewrite Hsz, Nat.add_0_r, (proj2 (Z.ltb_ge _ _)) by lia. exists w, tabs, fl. split; [done|]. split; [lia|].
    eapply pt_step_ext; [|eapply pt_grow_step; [exact Hmi|by apply pt_grow_refl]].
    intros r' v'. by rewrite upd_list_nil.
  - unfold PAGE_SIZE in *.
    rewrite Hsz, (proj2 (Z.ltb_lt _ _)), (proj2 (Z.eqb_neq pa 0)) by lia. cbn iota.
    rewrite bind_mret. rewrite (u64_id (pa + _)) by lia.
    pose proof (vpn_next va (truthy x4) (Z.of_nat k)) as Hvk. unfold PAGE_SIZE in Hvk.
    specialize (Hvk ltac:(lia) Hva ltac:(lia) ltac:(lia)). fold v in Hvk.
    destruct (map_page_ok w tabs fl data pgtable r x4 (u64 (va + 4096 * Z.of_nat k))
      (pa + 4096 * Z.of_nat k) flags) as (w1 & tabs1 & fl1 & Hrun & Hfl1 & S1 & Hsl);
      [exact Hmi|exact Hroot|lia|exact Hfl|rewrite Hvk; apply Hun; lia| |].
    { rewrite Hvk. cbn [tables_needed] in Hnd. fold v in Hnd. lia. }
    rewrite Hvk in *. erewrite bind_ok by exact Hrun.
    change (0 <? 0) with false. cbn iota.
    replace (u64 (4096 * Z.of_nat k + 4096)) with (4096 * Z.of_nat (S k)) by (rewrite u64_id; lia).
    destruct (IH (S k) w1 tabs1 fl1 fuel) as (w2 & tabs2 & fl2 & Hrun2 & Hlen2 & S2);
      try (replace (S k + n)%nat with (k + S n)%nat by lia); try done; try lia.
    + apply S1.
    + by eapply pt_step_root.
    + intros j Hj. rewrite (s_look _ _ _ _ _ _ _ _ _ S1 r (truthy x4));
        [|apply Hroot|pose proof (vpn_range va (truthy x4)); lia].
      rewrite decide_False by lia. apply Hun. lia.
    + pose proof (tables_needed_next (w_mem w) (w_mem w1) r v n Hsl).
      replace (vpn va (truthy x4) + Z.of_nat (S k)) with (v + 1) by lia. lia.
    + exists w2, tabs2, fl2. split; [exact Hrun2|].
      replace (vpn va (truthy x4) + Z.of_nat (S k)) with (v + 1) in Hlen2 by lia.
      pose proof (tables_needed_next (w_mem w) (w_mem w1) r v n Hsl). split; [lia|].
      rewrite seqZ_cons by lia. cbn [fmap list_fmap].
      replace (Z.succ (Z.of_nat k)) with (Z.of_nat (S k)) by lia.
      replace (Z.pred (Z.of_nat (S n))) with (Z.of_nat n) by lia.
      replace (vpn va (truthy x4) + Z.of_nat (S k)) with (v + 1) in S2 by lia.
      exact (upd_list_step _ _ _ _ _ _ _ _ _ _ _ _ _ _ _ _ _ S1 S2).
Qed.

(** A fresh data page mapped at page [v]: kmalloc, then map_page. *)
Lemma map_fresh_page w tabs x fl data pgtable r x4 va flags :
  mem_inv w tabs (x :: fl) data → root_ptr tabs pgtable r x4 → 0 <= flags < 1024 →
  let v := vpn va (truthy x4) in
  pt_look (w_mem w) 2 r v = None → (missing (w_mem w) 2 r v <= length fl)%nat →
  ∃ w0 w' tabs' fl',
    kmalloc w = Ok x w0 ∧ map_page pgtable va (KPA2PA x) flags x4 w0 = Ok 0 w' ∧
    (length fl' + missing (w_mem w) 2 r v = length fl)%nat ∧
    pt_step data w tabs (x :: fl) w' tabs' fl' [x]
      (λ r' v', if decide (r' = r ∧ v' = v) then Some (leaf_pte (KPA2PA x) flags) else None) ∧
    is_Some (pt_slot (w_mem w') 2 r v).
Proof.
  intros Hmi Hroot Hfl v Hun Hlen. pose proof (vpn_range va (truthy x4)) as Hv.
  destruct (kmalloc_step _ _ _ _ _ Hmi) as (w0 & Hrun0 & S0 & Hmiss).
  assert (Hx : valid_address x = true) by (eapply mi_valid; [exact Hmi|by left]).
  assert (Hpa : 0 <= KPA2PA x < 2 ^ 56).
  { destruct (valid_address_pa x Hx) as (_ & Hlo & Hhi & _). pose proof dynamic_range.
    rewrite (proj1 dynamic_pa) in Hlo.
    unfold DTB_MEMORY_END, DTB_MEMORY_SIZE, DTB_MEMORY, PAGE_SIZE, FIRMWARE_SIZE in *. lia. }
  destruct (map_page_ok w0 tabs fl ([x] ++ data) pgtable r x4 va (KPA2PA x) flags)
    as (w1 & tabs1 & fl1 & Hrun1 & Hfl1 & S1 & Hsl); [apply S0|exact Hroot|exact Hpa|exact Hfl|..].
  - rewrite (s_look _ _ _ _ _ _ _ _ _ S0 r (truthy x4)); [exact Hun|apply Hroot|exact Hv].
  - rewrite (Hmiss r (truthy x4)); [exact Hlen|apply Hroot|exact Hv].
  - fold v in Hfl1, S1, Hsl. rewrite (Hmiss r (truthy x4)) in Hfl1; [|apply Hroot|exact Hv].
    exists w0, w1, tabs1, fl1. split_and!; [exact Hrun0|exact Hrun1|exact Hfl1| |exact Hsl].
    eapply pt_step_ext; [|exact (pt_step_trans _ _ _ _ _ _ _ _ _ _ _ _ _ _ S0 S1)].
    intros r' v'. simpl. by destruct (decide _).
Qed.

(** Mapping fresh pages: [n] pages from the [k]-th on. *)
Lemma map_pages_loop_fresh n k w tabs fl data pgtable r x4 va size flags fuel :
  mem_inv w tabs fl data → root_ptr tabs pgtable r x4 → 0 <= flags < 1024 →
  0 <= va → va + PAGE_SIZE * Z.of_nat (k + n) < 2 ^ 64 →
  vpn va (truthy x4) + Z.of_nat (k + n) <= vpn_bound (truthy x4) →
  PGROUNDUP size = PAGE_SIZE * Z.of_nat (k + n) → (n < fuel)%nat →
  let v := vpn va (truthy x4) + Z.of_nat k in
  (∀ j, v <= j < v + Z.of_nat n → pt_look (w_mem w) 2 r j = None) →
  (n + tables_needed (w_mem w) r v n <= length fl)%nat →
  ∃ w' tabs' fl' pages,
    map_pages_loop fuel (PAGE_SIZE * Z.of_nat k) pgtable va 0 size flags x4 w = Ok 0 w' ∧
    length pages = n ∧
    (length fl <= length fl' + n + tables_needed (w_mem w) r v n)%nat ∧
    pt_step data w tabs fl w' tabs' fl' (reverse pages) (upd_list r v (KPA2PA <$> pages) flags).
Proof.
  revert k w tabs fl data fuel.
  induction n as [|n IH]; intros k w tabs fl data [|fuel] Hmi Hroot Hfl Hva Hva' Hb Hsz Hfu v Hun Hnd;
    [lia| |lia|]; cbn [map_pages_loop].
  - rewrite Hsz, Nat.add_0_r, (proj2 (Z.ltb_ge _ _)) by lia. exists w, tabs, fl, [].
    split; [done|]. split; [done|]. split; [lia|].
    eapply pt_step_ext; [|eapply pt_grow_step; [exact Hmi|by apply pt_grow_refl]].
    intros r' v'. simpl. by rewrite upd_list_nil.
  - unfold PAGE_SIZE in *.
    rewrite Hsz, (proj2 (Z.ltb_lt _ _)) by lia. change (0 =? 0) with true. cbn iota.
    pose proof (vpn_next va (truthy x4) (Z.of_nat k)) as Hvk. unfold PAGE_SIZE in Hvk.
    specialize (Hvk ltac:(lia) Hva ltac:(lia) ltac:(lia)). fold v in Hvk.
    destruct fl as [|x fl]; [cbn [length] in Hnd; lia|]. cbn [length] in Hnd.
    destruct (map_fresh_page w tabs x fl data pgtable r x4 (u64 (va + 4096 * Z.of_nat k)) flags)
      as (w0 & w1 & tabs1 & fl1 & Hrun0 & Hrun & Hfl1 & S1 & Hsl);
      [exact Hmi|exact Hroot|exact Hfl|rewrite Hvk; apply Hun; lia| |].
    { rewrite Hvk. cbn [tables_needed] in Hnd. fold v in Hnd. lia. }
    rewrite Hvk in *. rewrite bind_bind. erewrite bind_ok by exact Hrun0. rewrite bind_mret.
    erewrite bind_ok by exact Hrun. change (0 <? 0) with false. cbn iota.
    replace (u64 (4096 * Z.of_nat k + 4096)) with (4096 * Z.of_nat (S k)) by (rewrite u64_id; lia).
    destruct (IH (S k) w1 tabs1 fl1 ([x] ++ data) fuel) as (w2 & tabs2 & fl2 & pages & Hrun2 & Hlen & Hlen2 & S2);
      try (replace (S k + n)%nat with (k + S n)%nat by lia); try done; try lia.
    + apply S1.
    + by eapply pt_step_root.
    + intros j Hj. rewrite (s_look _ _ _ _ _ _ _ _ _ S1 r (truthy x4));
        [|apply Hroot|pose proof (vpn_range va (truthy x4)); lia].
      rewrite decide_False by lia. apply Hun. lia.
    + pose proof (tables_needed_next (w_mem w) (w_mem w1) r v n Hsl).
      replace (vpn va (truthy x4) + Z.of_nat (S k)) with (v + 1) by lia. lia.
    + exists w2, tabs2, fl2, (x :: pages). split; [exact Hrun2|]. split; [simpl; lia|].
      replace (vpn va (truthy x4) + Z.of_nat (S k)) with (v + 1) in Hlen2 by lia.
      pose proof (tables_needed_next (w_mem w) (w_mem w1) r v n Hsl). split; [cbn [length]; lia|].
      replace (vpn va (truthy x4) + Z.of_nat (S k)) with (v + 1) in S2 by lia.
      rewrite reverse_cons. exact (upd_list_step _ _ _ _ _ _ _ _ _ _ _ _ _ _ _ _ _ S1 S2).
Qed.

(** ** map_pages as a whole *)

Lemma map_pages_fixed w tabs fl data pgtable r x4 va pa size flags n :
  mem_inv w tabs fl data → root_ptr tabs pgtable r x4 →
  0 < pa → pa + PAGE_SIZE * Z.of_nat n <= 2 ^ 56 → 0 <= flags < 1024 →
  0 <= va → va + PAGE_SIZE * Z.of_nat n < 2 ^ 64 →
  let v := vpn va (truthy x4) in
  v + Z.of_nat n <= vpn_bound (truthy x4) →
  PGROUNDUP size = PAGE_SIZE * Z.of_nat n →
  (∀ j, v <= j < v + Z.of_nat n → pt_look (w_mem w) 2 r j = None) →
  (tables_needed (w_mem w) r v n <= length fl)%nat →
  ∃ w' tabs' fl',
    map_pages pgtable va pa size flags x4 w = Ok 0 w' ∧
    (length fl <= length fl' + tables_needed (w_mem w) r v n)%nat ∧
    pt_step data w tabs fl w' tabs' fl' []
      (upd_list r v ((λ j, pa + PAGE_SIZE * j) <$> seqZ 0 (Z.of_nat n)) flags).
Proof.
  intros Hmi Hroot Hpa Hpa' Hfl Hva Hva' v Hb Hsz Hun Hnd.
  pose proof (map_pages_loop_fixed n 0 w tabs fl data pgtable r x4 va pa size flags
    (Z.to_nat (PGROUNDUP size / PAGE_SIZE + 1))) as Hl.
  rewrite Z.mul_0_r, Z.add_0_r in Hl. apply Hl; try done.
  rewrite Hsz, Z.mul_comm, Z.div_mul by done. lia.
Qed.

Lemma map_pages_fresh w tabs fl data pgtable r x4 va size flags n :
  mem_inv w tabs fl data → root_ptr tabs pgtable r x4 → 0 <= flags < 1024 →
  0 <= va → va + PAGE_SIZE * Z.of_nat n < 2 ^ 64 →
  let v := vpn va (truthy x4) in
  v + Z.of_nat n <= vpn_bound (truthy x4) →
  PGROUNDUP size = PAGE_SIZE * Z.of_nat n →
  (∀ j, v <= j < v + Z.of_nat n → pt_look (w_mem w) 2 r j = None) →
  (n + tables_needed (w_mem w) r v n <= length fl)%nat →
  ∃ w' tabs' fl' pages,
    map_pages pgtable va 0 size flags x4 w = Ok 0 w' ∧ length pages = n ∧
    (length fl <= length fl' + n + tables_needed (w_mem w) r v n)%nat ∧
    pt_step data w tabs fl w' tabs' fl' (reverse pages) (upd_list r v (KPA2PA <$> pages) flags).
Proof.
  intros Hmi Hroot Hfl Hva Hva' v Hb Hsz Hun Hnd.
  pose proof (map_pages_loop_fresh n 0 w tabs fl data pgtable r x4 va size flags
    (Z.to_nat (PGROUNDUP size / PAGE_SIZE + 1))) as Hl.
  rewrite Z.mul_0_r, Z.add_0_r in Hl. apply Hl; try done.
  rewrite Hsz, Z.mul_comm, Z.div_mul by done. lia.
Qed.

(** ** Reading: walk without allocation and convert_va_to_pa *)

Lemma walk_loop_read l w tabs kpa t i va x4 : pt_inv (w_mem w) tabs →
  on_path tabs t i l (vpn va (truthy x4)) → kptr_range kpa t (tsize i) →
  ∃ ptr, walk_loop l kpa va 0 x4 w = Ok ptr w ∧
    match pt_slot (w_mem w) l t (vpn va (truthy x4)) with
    | Some s => kptr_pa ptr = Some s ∧ ptr ≠ 0
    | None => ptr = 0
    end.
Proof.
  set (v := vpn va (truthy x4)). intros Hpt. revert kpa t i.
  induction l as [|l IH]; intros kpa t i Hp Hr;
    destruct (on_path_entry _ _ _ _ _ _ Hpt Hp) as (e0 & He0 & Hk).
  - exists (pte_ptr kpa (idx 0 v)). cbn [walk_loop pt_slot]. change 0 with (Z.of_nat 0) at 1.
    rewrite va2idx_vpn by lia. split; [done|]. by eapply kptr_pte.
  - pose proof Hp as (Ht & Hl & _). destruct (pt_mem _ _ Hpt _ _ Ht) as (_ & _ & _ & Hl2).
    destruct (load_entry _ _ _ _ _ _ _ Hpt Hp Hr) as (e & He & Hld).
    cbn [walk_loop pt_slot]. rewrite va2idx_vpn by lia. fold v.
    erewrite bind_ok by exact Hld. rewrite truthy_PTE_V, He. simpl.
    destruct (pte_valid e) eqn:Hv; [|by exists 0].
    pose proof (on_path_child _ _ _ _ _ _ _ Hpt Hp He Hv) as Hp'. pose proof Hp' as (Ht' & _).
    eapply IH; [exact Hp'|]. eapply child_ptr; [exact Hpt|exact Ht'|simpl; lia].
Qed.

(** With the tables in place walk finds the entry, allocating or not. *)
Lemma walk_loop_mapped l w tabs kpa t i va x4 s : pt_inv (w_mem w) tabs →
  on_path tabs t i l (vpn va (truthy x4)) → kptr_range kpa t (tsize i) →
  pt_slot (w_mem w) l t (vpn va (truthy x4)) = Some s →
  ∃ ptr, walk_loop l kpa va 1 x4 w = Ok ptr w ∧ kptr_pa ptr = Some s ∧ ptr ≠ 0.
Proof.
  set (v := vpn va (truthy x4)). intros Hpt. revert kpa t i.
  induction l as [|l IH]; intros kpa t i Hp Hr Hs;
    destruct (on_path_entry _ _ _ _ _ _ Hpt Hp) as (e & He & Hk); cbn [pt_slot] in Hs.
  - injection Hs as <-. exists (pte_ptr kpa (idx 0 v)). cbn [walk_loop].
    change 0 with (Z.of_nat 0) at 1. rewrite va2idx_vpn by lia. split; [done|]. by eapply kptr_pte.
  - pose proof Hp as (Ht & Hl & _). destruct (pt_mem _ _ Hpt _ _ Ht) as (_ & _ & _ & Hl2).
    destruct (load_entry _ _ _ _ _ _ _ Hpt Hp Hr) as (e' & He' & Hld).
    rewrite He' in Hs. cbn [mbind option_bind] in Hs.
    cbn [walk_loop]. rewrite va2idx_vpn by lia. fold v.
    erewrite bind_ok by exact Hld. rewrite truthy_PTE_V. destruct (pte_valid e') eqn:Hv; [|done].
    pose proof (on_path_child _ _ _ _ _ _ _ Hpt Hp He' Hv) as Hp'. pose proof Hp' as (Ht' & _).
    eapply IH; [exact Hp'| |exact Hs]. eapply child_ptr; [exact Hpt|exact Ht'|simpl; lia].
Qed.

(** A mapped page has a slot, which holds its valid entry. *)
Lemma mapped_slot m l t v e : pt_look m l t v = Some e →
  ∃ s, pt_slot m l t v = Some s ∧ rd64 m s = Some e ∧ pte_valid e = true.
Proof.
  revert t. induction l as [|l IH]; intros t; cbn [pt_look pt_slot];
    destruct (rd64 m _) as [e'|] eqn:He; cbn [mbind option_bind]; try done;
    destruct (pte_valid e') eqn:Hv; try done; [|apply IH].
  intros [= <-]. by eexists.
Qed.

(** When the tables for the page exist, convert_va_to_pa reads the leaf entry,
    valid or not; when one is missing it panics. *)
Lemma convert_run w tabs pgtable r x4 va : pt_inv (w_mem w) tabs → root_ptr tabs pgtable r x4 →
  match pt_slot (w_mem w) 2 r (vpn va (truthy x4)) with
  | Some s => ∃ e, rd64 (w_mem w) s = Some e ∧
      convert_va_to_pa pgtable va x4 w = Ok (PTE2PA e .| get_value va 0 12) w
  | None => convert_va_to_pa pgtable va x4 w = Panic "bad walk for va" w
  end.
Proof.
  intros Hpt [Hr Hk]. pose proof (vpn_range va (truthy x4)) as Hv.
  pose proof (root_path _ _ _ _ Hr Hv) as Hp.
  destruct (walk_loop_read 2 w tabs pgtable r _ va x4 Hpt Hp Hk) as (ptr & Hrun & Hptr).
  unfold convert_va_to_pa, walk. rewrite (root_ptr_nz tabs pgtable r x4) by (by split).
  change (Z.to_nat (LEVELS - 1)) with 2%nat.
  destruct (pt_slot (w_mem w) 2 r (vpn va (truthy x4))) as [s|] eqn:Hs.
  - destruct Hptr as [Hptr Hnz].
    destruct (pt_slot_tab _ _ _ _ _ _ _ Hpt Hp Hs) as (t0 & Hp0 & ->).
    destruct (on_path_entry _ _ _ _ _ _ Hpt Hp0) as (e & He & _). exists e. split; [done|].
    erewrite bind_ok by exact Hrun. rewrite (proj2 (Z.eqb_neq ptr 0) Hnz). cbn iota.
    by erewrite bind_ok by (eapply load64_ok; [exact Hptr|exact He]).
  - erewrite bind_ok by exact Hrun. by subst.
Qed.
End spec.
