(* ===== verification/Sv39.v ===== *)
(** * Sv39: the hardware's view of the tables

    The address-translation algorithm of the privileged specification for Sv39
    and Sv39x4, as the MMU runs it, and the proof that on the tables mem/vmem.c
    builds it computes what [pt_look] describes.  Also how a zero-filled block of
    memory becomes a root table. *)

From S2P Require Import Prelude Layout Bits Memory Machine Kmem Vmem PageTable VmemSpec.

(** ** The specification *)

Definition pte_R (e : Z) : bool := Z.testbit e 1.
Definition pte_W (e : Z) : bool := Z.testbit e 2.
Definition pte_X (e : Z) : bool := Z.testbit e 3.
Definition pte_U (e : Z) : bool := Z.testbit e 4.

(** The physical page number, bits 53..10. *)
Definition pte_ppn (e : Z) : Z := e / 2 ^ 10 mod 2 ^ 44.

(** Translation from the table at [t] of level [l]; the result is the leaf entry
    and the physical address of the page of [v] ([None]: page fault).  A leaf has
    R or X; at level [l] it maps [512 ^ l] pages and must be aligned. *)
Fixpoint hw_walk (m : ram) (l : nat) (t v : Z) : option (Z * Z) :=
  e ← rd64 m (t + PTE_SIZE * idx l v);
  if negb (pte_valid e) || (negb (pte_R e) && pte_W e) then None
  else if pte_R e || pte_X e then
    let span := 512 ^ Z.of_nat l in
    if pte_ppn e mod span =? 0 then Some (e, (pte_ppn e + v mod span) * 4096) else None
  else match l with
       | O => None
       | S l' => hw_walk m l' (pte_ppn e * 4096) v
       end.

Inductive access := ARead | AWrite | AExec.

Definition permits (a : access) (e : Z) : bool :=
  match a with ARead => pte_R e | AWrite => pte_W e | AExec => pte_X e end.

(** A guest-physical address has 41 bits; with any bit above set the access is a
    guest page fault.  (The check that a Sv39 address is sign-extended is in [mmu].) *)
Definition in_space (x4 : bool) (va : Z) : bool := negb x4 || (0 <=? va) && (va <? 2 ^ 41).

(** Translation of [va] for an access; G-stage translation ([x4]) treats every
    access as a user access. *)
Definition hw_translate (m : ram) (x4 : bool) (r : Z) (a : access) (va : Z) : option Z :=
  '(e, p) ← hw_walk m 2 r (vpn va x4);
  if permits a e && (negb x4 || pte_U e) && in_space x4 va then Some (p + va mod 4096) else None.

(** ** Leaf entries *)

Lemma land_flags e : (e .& Z.ones 10) = e mod 1024.
Proof. by rewrite Z.land_ones by lia. Qed.

Lemma leaf_pte_div pa flags : 0 <= pa < 2 ^ 56 → 0 <= flags < 1024 →
  leaf_pte pa flags = pa / 4096 * 1024 + (flags .| PTE_V).
Proof.
  intros Hpa Hfl. unfold leaf_pte. rewrite <- Z.lor_assoc.
  apply PA2PTE_flags; [done|]. change 1024 with (2 ^ 10). apply lor_range; [lia|lia|by vm_compute].
Qed.

Lemma leaf_ppn pa flags : 0 <= pa < 2 ^ 56 → 0 <= flags < 1024 → pte_ppn (leaf_pte pa flags) = pa / 4096.
Proof.
  intros Hpa Hfl. unfold pte_ppn. rewrite leaf_pte_div by done.
  assert (0 <= flags .| PTE_V < 1024).
  { change 1024 with (2 ^ 10). apply lor_range; [lia|lia|by vm_compute]. }
  change (2 ^ 10) with 1024. rewrite Z.div_add_l, (Z.div_small (flags .| _)), Z.add_0_r by lia.
  apply Z.mod_small. dlia.
Qed.

Lemma leaf_bit pa flags k : 0 <= pa < 2 ^ 56 → 0 <= flags < 1024 → 1 <= k < 10 →
  Z.testbit (leaf_pte pa flags) k = Z.testbit flags k.
Proof.
  intros Hpa Hfl Hk. unfold leaf_pte. rewrite !Z.lor_spec.
  rewrite PA2PTE_div by done. change 1024 with (2 ^ 10). rewrite Z.mul_pow2_bits by lia.
  rewrite Z.testbit_neg_r by lia. change PTE_V with (2 ^ 0).
  rewrite Z.pow2_bits_false by lia. by rewrite orb_false_r.
Qed.

Lemma PTE2PA_ppn e : 0 <= e < 2 ^ 54 → PTE2PA e = pte_ppn e * 4096.
Proof.
  intros He. rewrite PTE2PA_div by done. unfold pte_ppn.
  rewrite Z.mod_small by dlia. by change (2 ^ 10) with 1024.
Qed.

(** A link to a table: no permission bit, so the MMU descends. *)
Lemma link_bits t : 0 <= t < 2 ^ 56 → t mod 4096 = 0 →
  let e := PA2PTE t .| PTE_V in
  pte_valid e = true ∧ pte_R e = false ∧ pte_W e = false ∧ pte_X e = false ∧ pte_ppn e * 4096 = t.
Proof.
  intros Ht Ha e. assert (E : e = leaf_pte t 0) by (unfold leaf_pte; by rewrite Z.lor_0_r).
  split; [apply pte_valid_V|]. unfold pte_R, pte_W, pte_X.
  rewrite E, !leaf_bit, leaf_ppn by lia. split_and!; [done..|]. dlia.
Qed.

(** ** Refinement *)

Section refine.
Context {L : Linker} `{!LinkerOk L}.
Implicit Types (m : ram) (tabs : gmap Z tab).

(** What the MMU makes of a leaf entry at level 0. *)
Definition leaf_result (e : Z) : option (Z * Z) :=
  if negb (pte_R e) && pte_W e then None
  else if pte_R e || pte_X e then Some (e, pte_ppn e * 4096) else None.

Lemma hw_walk_look m tabs l t i v : pt_inv m tabs → on_path tabs t i l v →
  hw_walk m l t v = pt_look m l t v ≫= leaf_result.
Proof.
  intros Hinv. revert t i. induction l as [|l IH]; intros t i Hp; cbn [hw_walk pt_look];
    destruct (on_path_entry _ _ _ _ _ _ Hinv Hp) as (e & He & Hk); rewrite He; cbn [mbind option_bind].
  - destruct (pte_valid e); cbn [negb orb]; [|done]. cbn [mbind option_bind]. unfold leaf_result.
    destruct (negb (pte_R e) && pte_W e); [done|]. destruct (pte_R e || pte_X e); [|done].
    change (512 ^ Z.of_nat 0) with 1. rewrite !Z.mod_1_r. cbn [Z.eqb]. by rewrite Z.add_0_r.
  - destruct (pte_valid e) eqn:Hv; cbn [negb orb]; [|done].
    pose proof (on_path_child _ _ _ _ _ _ _ Hinv Hp He Hv) as Hp'.
    pose proof Hp as (Ht & Hl & _).
    destruct (pt_child _ _ Hinv _ _ l _ _ Ht Hl Hk He Hv) as (t' & -> & Ht').
    destruct (pt_mem _ _ Hinv _ _ Ht') as (_ & Hr & Ha & _).
    destruct (link_bits t' Hr Ha) as (_ & ER & EW & EX & EP).
    rewrite ER, EW, EX, EP. cbn [negb andb orb]. rewrite PTE2PA_link in * by done. by eapply IH.
Qed.

(** ** New roots *)

Lemma pt_inv_root m tabs r x4 : let i := mk_tab r x4 2 0 in
  pt_inv m tabs → zeroed m r (tsize i) → 0 <= r < 2 ^ 56 → r mod 4096 = 0 →
  (∀ u j, tabs !! u = Some j → r + tsize i <= u ∨ u + tsize j <= r) →
  pt_inv m (<[r := i]> tabs) ∧ tabs !! r = None ∧
  ∀ v, 0 <= v < vpn_bound x4 → pt_look m 2 r v = None ∧ missing m 2 r v = 2%nat.
Proof.
  intros i Hinv Hz Hr Ha Hsep.
  assert (Hfr : tabs !! r = None).
  { destruct (tabs !! r) as [j|] eqn:E; [|done]. pose proof (tsize_pos i). pose proof (tsize_pos j).
    destruct (Hsep _ _ E); unfold PAGE_SIZE in *; lia. }
  assert (He : ∀ k, 0 <= k < nidx i → rd64 m (r + PTE_SIZE * k) = Some 0).
  { intros k Hk. eapply zeroed_rd64; [exact Hz|unfold PTE_SIZE; lia|unfold tsize, PTE_SIZE; lia]. }
  split; [|split; [exact Hfr|]].
  - split.
    + intros t j [[<- <-]|[Hne Ht]]%lookup_insert_Some; [|by apply Hinv].
      split_and!; [by apply zeroed_has_bytes|lia..|done|simpl; lia].
    + intros t j [[<- <-]|[Hne Ht]]%lookup_insert_Some; [done|by apply (pt_kind _ _ Hinv)].
    + intros t j t' j' [[<- <-]|[Hne Ht]]%lookup_insert_Some [[<- <-]|[Hne' Ht']]%lookup_insert_Some Hd;
        [done|by apply Hsep|destruct (Hsep _ _ Ht); [right|left]; done|by eapply (pt_disj _ _ Hinv)].
    + intros t j l k e [[<- <-]|[Hne Ht]]%lookup_insert_Some Hl Hk Hrd Hv.
      * rewrite He in Hrd by done. by injection Hrd as <-.
      * destruct (pt_child _ _ Hinv _ _ _ _ _ Ht Hl Hk Hrd Hv) as (t' & -> & Ht').
        exists t'. split; [done|]. rewrite lookup_insert_ne; [done|]. intros <-. congruence.
  - intros v Hv. pose proof (idx_range i v ltac:(simpl; lia) Hv) as Hidx. cbn [t_level i] in Hidx.
    cbn [pt_look missing]. by rewrite He.
Qed.

Lemma mem_inv_root {D} (w : world D) tabs fl data r x4 : let i := mk_tab r x4 2 0 in
  mem_inv w tabs fl data → zeroed (w_mem w) r (tsize i) → 0 <= r < 2 ^ 56 → r mod 4096 = 0 →
  (∀ u j, tabs !! u = Some j → r + tsize i <= u ∨ u + tsize j <= r) →
  (∀ x, x ∈ fl ++ data → KPA2PA x + PAGE_SIZE <= r ∨ r + tsize i <= KPA2PA x) →
  mem_inv w (<[r := i]> tabs) fl data.
Proof.
  intros i Hmi Hz Hr Ha Hsep Hf.
  destruct (pt_inv_root _ _ r x4 (mi_pt _ _ _ _ Hmi) Hz Hr Ha Hsep) as (Hpt & Hfr & _).
  split; [apply Hmi|exact Hpt| |apply Hmi|apply Hmi].
  intros x t j Hx [[<- <-]|[Hne Ht]]%lookup_insert_Some; [by apply Hf|by apply (mi_free _ _ _ _ Hmi)].
Qed.

(** A page from the allocator as an Sv39 root (init_vmem). *)
Lemma kmalloc_root {D} (w : world D) tabs x fl data : mem_inv w tabs (x :: fl) data →
  let r := KPA2PA x in
  ∃ w', kmalloc w = Ok x w' ∧ mem_only w w' ∧
    mem_inv w' (<[r := mk_tab r false 2 0]> tabs) fl data ∧ root_ptr (<[r := mk_tab r false 2 0]> tabs) x r 0 ∧
    zeroed (w_mem w') r PAGE_SIZE ∧
    ∀ v, 0 <= v < vpn_bound false → pt_look (w_mem w') 2 r v = None ∧ missing (w_mem w') 2 r v = 2%nat.
Proof.
  intros Hmi r. destruct (kmalloc_ok _ _ _ (mi_kmem _ _ _ _ Hmi)) as (w' & Hrun & Hk & Hpg).
  assert (Hx : valid_address x = true) by (eapply mi_valid; [exact Hmi|by left]).
  destruct (valid_address_pa x Hx) as (Ha & Hlo & Hhi & _ & Hrg & _).
  pose proof (mi_nodup _ _ _ _ Hmi) as [Hni Hnd]%NoDup_cons.
  assert (Hmi' : mem_inv w' tabs fl data).
  { split; [exact Hk| | |exact Hnd|apply Hmi].
    - eapply pt_inv_frame; [apply Hmi|]. by eapply taken_agree.
    - intros y t j Hy. apply (mi_free _ _ _ _ Hmi). by right. }
  assert (Hr : 0 <= r < 2 ^ 56).
  { pose proof dynamic_range. rewrite (proj1 dynamic_pa) in Hlo. unfold r.
    unfold DTB_MEMORY_END, DTB_MEMORY_SIZE, DTB_MEMORY, PAGE_SIZE, FIRMWARE_SIZE in *. lia. }
  assert (Hsep : ∀ u j, tabs !! u = Some j → r + PAGE_SIZE <= u ∨ u + tsize j <= r).
  { intros u j Hu. apply (mi_free _ _ _ _ Hmi x u j); [by left|done]. }
  exists w'. split; [exact Hrun|]. split; [apply Hpg|]. split.
  - apply mem_inv_root; [exact Hmi'|apply Hpg|exact Hr|exact Ha|exact Hsep|].
    intros y Hy. destruct (pages_disjoint x y Hx) as [|]; [|by intros ->|right|left]; try done.
    eapply mi_valid; [exact Hmi|by right].
  - split; [split; [apply lookup_insert_eq|exact Hrg]|]. split; [apply Hpg|].
    eapply (pt_inv_root _ tabs r false); [apply Hmi'|apply Hpg|exact Hr|exact Ha|exact Hsep].
Qed.

(** Static memory below the dynamic region as an Sv39x4 root, cleared by memset
    (init_hs_pgtable). *)
Lemma memset_root {D} (w : world D) tabs fl data pg r :
  mem_inv w tabs fl data → kptr_range pg r (PAGE_SIZE * 4) → has_bytes (w_mem w) r (PAGE_SIZE * 4) →
  0 <= r → r mod 4096 = 0 → r + PAGE_SIZE * 4 <= KVA2PA sym_dynamic →
  (∀ u j, tabs !! u = Some j → r + PAGE_SIZE * 4 <= u ∨ u + tsize j <= r) →
  let tabs' := <[r := mk_tab r true 2 0]> tabs in
  ∃ w', memset pg 0 (PAGE_SIZE * 4) w = Ok pg w' ∧ mem_only w w' ∧
    mem_inv w' tabs' fl data ∧ root_ptr tabs' pg r 1 ∧
    (∀ v, 0 <= v < vpn_bound true → pt_look (w_mem w') 2 r v = None ∧ missing (w_mem w') 2 r v = 2%nat) ∧
    (∀ r' b v, is_root tabs r' b → 0 <= v < vpn_bound b →
       pt_look (w_mem w') 2 r' v = pt_look (w_mem w) 2 r' v) ∧
    (∀ a, ¬ (r <= a < r + PAGE_SIZE * 4) → w_mem w' !! a = w_mem w !! a) ∧
    backed (w_mem w) (w_mem w').
Proof.
  intros Hmi Hk Hb Hr0 Ha Hdyn Hsep tabs'.
  set (bs := replicate (Z.to_nat (PAGE_SIZE * 4)) (byte.of_Z 0)).
  set (m' := wr_bytes (w_mem w) r bs).
  assert (Hlen : Z.of_nat (length bs) = PAGE_SIZE * 4).
  { unfold bs. rewrite length_replicate, Z2Nat.id; [done|by vm_compute]. }
  assert (Hf : ∀ a, ¬ (r <= a < r + PAGE_SIZE * 4) → m' !! a = w_mem w !! a).
  { intros a Hna. unfold m'. by rewrite lookup_wr_bytes, Hlen, decide_False. }
  assert (Hz : zeroed m' r (PAGE_SIZE * 4)).
  { rewrite <- Hlen. unfold m', bs. rewrite length_replicate. apply zeroed_wr_replicate. }
  assert (Hrun : memset pg 0 (PAGE_SIZE * 4) w = Ok pg (set_mem m' w)) by (by apply memset_ok).
  assert (Hbk : backed (w_mem w) m') by (intros p n; apply has_bytes_wr).
  clearbody m'. clear bs Hlen.
  assert (Hag : agree_tabs tabs (w_mem w) m').
  { intros u j a Hu Ha'. symmetry. apply Hf. destruct (Hsep _ _ Hu); lia. }
  assert (Hpages : ∀ x, x ∈ fl ++ data → r + PAGE_SIZE * 4 <= KPA2PA x).
  { intros x Hx. destruct (valid_address_pa x) as (_ & ? & _); [by eapply mi_valid|lia]. }
  assert (Hmi' : mem_inv (set_mem m' w) tabs fl data).
  { destruct (mi_kmem _ _ _ _ Hmi) as (Hlk & Hfl & Hnd & Hram).
    split; [|by eapply pt_inv_frame; [apply Hmi|]|apply Hmi..].
    split_and!; [exact Hlk| |exact Hnd|by eapply pages_ok_backed].
    eapply is_freelist_frame; [exact Hfl|]. intros x Hx a Ha'. symmetry. apply Hf.
    specialize (Hpages x). rewrite elem_of_app in Hpages. specialize (Hpages (or_introl Hx)). lia. }
  assert (Hr : 0 <= r < 2 ^ 56).
  { pose proof dynamic_range. rewrite (proj1 dynamic_pa) in Hdyn.
    unfold DTB_MEMORY_SIZE, DTB_MEMORY, PAGE_SIZE, FIRMWARE_SIZE in *. lia. }
  exists (set_mem m' w). split; [exact Hrun|].
  split; [exists m', (w_kmem w); by destruct w|].
  split; [apply mem_inv_root; [exact Hmi'|exact Hz|exact Hr|exact Ha|exact Hsep|]|].
  { intros x Hx. right. by apply Hpages. }
  split; [split; [apply lookup_insert_eq|exact Hk]|].
  split; [eapply (pt_inv_root _ tabs r true); [apply Hmi'|exact Hz|exact Hr|exact Ha|exact Hsep]|].
  split; [intros r' b v Hr' Hv; eapply pt_look_frame; [apply Hmi|exact Hag|by apply root_path]|].
  split; [exact Hf|exact Hbk].
Qed.
End refine.

(** ** Translation after a step *)

Section translate.
Context {D : Type} {L : Linker} `{!LinkerOk L}.
Implicit Types (w : world D) (tabs : gmap Z tab) (fl data : list Z).

(** The translation a leaf entry gives. *)
Definition entry_translate (x4 : bool) (e : Z) (a : access) (va : Z) : option Z :=
  '(e', p) ← leaf_result e;
  if permits a e' && (negb x4 || pte_U e') && in_space x4 va then Some (p + va mod 4096) else None.

(** Whether flag bits allow an access: a leaf has R or X, never W without R, the
    access is permitted, and G-stage leaves need U. *)
Definition access_ok (x4 : bool) (flags : Z) (a : access) : bool :=
  negb (negb (pte_R flags) && pte_W flags) && (pte_R flags || pte_X flags) &&
  permits a flags && (negb x4 || pte_U flags).

Lemma entry_translate_leaf x4 pa flags a va : 0 <= pa < 2 ^ 56 → 0 <= flags < 1024 →
  entry_translate x4 (leaf_pte pa flags) a va =
  if access_ok x4 flags a && in_space x4 va then Some (pa / 4096 * 4096 + va mod 4096) else None.
Proof.
  intros Hpa Hfl. unfold entry_translate, leaf_result, access_ok.
  assert (Hb : pte_R (leaf_pte pa flags) = pte_R flags ∧ pte_W (leaf_pte pa flags) = pte_W flags ∧
    pte_X (leaf_pte pa flags) = pte_X flags ∧ pte_U (leaf_pte pa flags) = pte_U flags ∧
    permits a (leaf_pte pa flags) = permits a flags).
  { unfold permits, pte_R, pte_W, pte_X, pte_U. split_and!; [..|destruct a]; apply leaf_bit; lia. }
  destruct Hb as (HR & HW & HX & HU & Ha). rewrite HR, HW, HX, leaf_ppn by done.
  destruct (negb (pte_R flags) && pte_W flags); [done|].
  destruct (pte_R flags || pte_X flags); [|done]. cbn [mbind option_bind negb andb].
  by rewrite HU, Ha.
Qed.

Lemma hw_translate_look w tabs r x4 a va : pt_inv (w_mem w) tabs → is_root tabs r x4 →
  hw_translate (w_mem w) x4 r a va =
  e ← pt_look (w_mem w) 2 r (vpn va x4); entry_translate x4 e a va.
Proof.
  intros Hinv Hr. unfold hw_translate. pose proof (vpn_range va x4).
  erewrite hw_walk_look; [|exact Hinv|by apply root_path].
  by destruct (pt_look _ _ _ _).
Qed.

(** A step updates the translation of exactly the pages it maps. *)
Lemma hw_translate_step data w tabs fl w' tabs' fl' new upd r x4 a va :
  mem_inv w tabs fl data → pt_step data w tabs fl w' tabs' fl' new upd → is_root tabs r x4 →
  hw_translate (w_mem w') x4 r a va =
  match upd r (vpn va x4) with
  | Some e => entry_translate x4 e a va
  | None => hw_translate (w_mem w) x4 r a va
  end.
Proof.
  intros Hmi S Hr. pose proof (vpn_range va x4) as Hv.
  rewrite (hw_translate_look w' tabs'), (hw_translate_look w tabs);
    [|apply Hmi|exact Hr|apply S|eapply lookup_weaken; [exact Hr|apply S]].
  rewrite (s_look _ _ _ _ _ _ _ _ _ S r x4) by done. by destruct (upd _ _).
Qed.
End translate.
