(* ===== verification/Plic.v ===== *)
(** * Plic: the PLIC driver of driver/plic.c

    The PLIC is hardware: its states are the parameter [D] of the world and
    [PlicDevice] is its register interface (32-bit accesses by byte offset from
    [DTB_PLIC]).  The driver's functions become commands over the world.  Every
    access is a [plic_op], so that what a piece of code did to the device can be
    stated as the list of its accesses. *)

From S2P Require Import Prelude Layout Memory Machine.

Class PlicDevice (D : Type) := {
  dev_load : Z → D → Z * D;
  dev_store : Z → Z → D → D;
  dev_amoand : Z → Z → D → D;
  dev_amoor : Z → Z → D → D
}.

(** What the PLIC specification says of the registers this code reads: only a
    claim has a side effect. *)
Definition claim_off (ctx : Z) : Z := 0x200004 + 0x1000 * ctx.
Class PlicLaws (D : Type) {P : PlicDevice D} : Prop := {
  dev_load_pure off (d : D) : (∀ ctx, 0 <= ctx → off ≠ claim_off ctx) → (dev_load off d).2 = d;
  dev_load_u32 off (d : D) : 0 <= (dev_load off d).1 < 2 ^ 32
}.

Inductive plic_op :=
| PLoad (off : Z)
| PStore (off v : Z)
| PAmoAnd (off m : Z)
| PAmoOr (off m : Z).

#[export] Instance plic_op_eq_dec : EqDecision plic_op.
Proof. solve_decision. Defined.

Section driver.
Context {D : Type} {P : PlicDevice D}.
Implicit Types (w : world D) (d : D).
#[local] Abbreviation M := (cmd (world D)).

(** ** Register accesses: [plic[i]] is the word at byte offset [4 * i]. *)

Definition plic_rd (i : Z) : M Z := λ w,
  let '(v, d) := dev_load (4 * i) (w_plic w) in Ok (u32 v) (set_plic d w).
Definition plic_wr (i v : Z) : M unit :=
  modify (λ w, set_plic (dev_store (4 * i) v (w_plic w)) w).
Definition plic_amoand (i m : Z) : M unit :=
  modify (λ w, set_plic (dev_amoand (4 * i) m (w_plic w)) w).
Definition plic_amoor (i m : Z) : M unit :=
  modify (λ w, set_plic (dev_amoor (4 * i) m (w_plic w)) w).

(** ** The driver *)

Definition bad_source (interrupt_source : Z) : bool :=
  (interrupt_source <? 1) || (1023 <? interrupt_source).
Definition bad_context (context : Z) : bool :=
  (context <? 0) || (15871 <? context).

Definition plic_get_priority (interrupt_source : Z) : M Z :=
  if bad_source interrupt_source then mret 0 else plic_rd interrupt_source.

Definition plic_set_priority (interrupt_source priority : Z) : M unit :=
  if bad_source interrupt_source then mret tt else plic_wr interrupt_source priority.

Definition plic_get_pending (interrupt_source : Z) : M Z :=
  if bad_source interrupt_source then mret 0
  else
    let offset := 0x1000 / 4 in
    let offset := offset + interrupt_source / (4 * 8) in
    let mask := u32 (1 .<< (interrupt_source mod (4 * 8))) in
    v ← plic_rd offset; mret (v .& mask).

Definition plic_get_enabled (context interrupt_source : Z) : M Z :=
  if bad_source interrupt_source then mret 0
  else
    let source_offset := interrupt_source / (4 * 8) in
    let source_mask := u32 (1 .<< (interrupt_source mod (4 * 8))) in
    if bad_context context then mret 0
    else
      let context_offset := 1024 / (4 * 8) in
      let offset := 0x2000 / 4 in
      let offset := offset + context_offset * context in
      let offset := offset + source_offset in
      v ← plic_rd offset; mret (v .& source_mask).

Definition plic_set_enabled (context interrupt_source enable : Z) : M unit :=
  if bad_source interrupt_source then mret tt
  else
    let source_offset := interrupt_source / (4 * 8) in
    let source_mask := u32 (1 .<< (interrupt_source mod (4 * 8))) in
    if bad_context context then mret tt
    else
      let context_offset := 1024 / (4 * 8) in
      let offset := 0x2000 / 4 in
      let offset := offset + context_offset * context in
      let offset := offset + source_offset in
      if enable =? 0 then plic_amoand offset (~32 source_mask)
      else plic_amoor offset source_mask.

Definition plic_get_threshold (context : Z) : M Z :=
  if bad_context context then mret 0
  else
    let context_offset := 0x1000 / 4 in
    let offset := 0x200000 / 4 in
    plic_rd (offset + context_offset * context).

Definition plic_set_threshold (context threshold : Z) : M unit :=
  if bad_context context then mret tt
  else
    let context_offset := 0x1000 / 4 in
    let offset := 0x200000 / 4 in
    plic_wr (offset + context_offset * context) threshold.

Definition plic_claim (context : Z) : M Z :=
  if bad_context context then mret 0
  else
    let context_offset := 0x1000 / 4 in
    let offset := 0x200004 / 4 in
    plic_rd (offset + context_offset * context).

Definition plic_complete (context interrupt_id : Z) : M unit :=
  if bad_context context then mret tt
  else
    let context_offset := 0x1000 / 4 in
    let offset := 0x200004 / 4 in
    plic_wr (offset + context_offset * context) interrupt_id.

(** ** Traces *)

Definition run_op (o : plic_op) (d : D) : D :=
  match o with
  | PLoad off => (dev_load off d).2
  | PStore off v => dev_store off v d
  | PAmoAnd off m => dev_amoand off m d
  | PAmoOr off m => dev_amoor off m d
  end.

Definition run_ops (ops : list plic_op) (d : D) : D := foldl (flip run_op) d ops.

Lemma run_ops_app o1 o2 d : run_ops (o1 ++ o2) d = run_ops o2 (run_ops o1 d).
Proof. apply foldl_app. Qed.

(** [m] returns from [w], its only effect is accesses to the PLIC, all of which
    satisfy [Q]. *)
Definition plic_only {A} (Q : plic_op → Prop) (m : M A) : Prop := ∀ w, ∃ a ops,
  m w = Ok a (set_plic (run_ops ops (w_plic w)) w) ∧ Forall Q ops.

Lemma set_plic_id w : set_plic (w_plic w) w = w.
Proof. by destruct w. Qed.

Lemma plic_only_ret {A} Q (a : A) : plic_only Q (mret a).
Proof. intros w. exists a, []. unfold run_ops. cbn [foldl]. by rewrite set_plic_id. Qed.

Lemma plic_only_bind {A B} Q (m : M A) (k : A → M B) :
  plic_only Q m → (∀ a, plic_only Q (k a)) → plic_only Q (m ≫= k).
Proof.
  intros Hm Hk w. destruct (Hm w) as (a & o1 & H1 & F1).
  destruct (Hk a (set_plic (run_ops o1 (w_plic w)) w)) as (b & o2 & H2 & F2).
  exists b, (o1 ++ o2). erewrite bind_ok by exact H1. rewrite H2, run_ops_app.
  split; [done|]. by apply Forall_app.
Qed.

Lemma plic_only_weaken {A} (Q Q' : plic_op → Prop) (m : M A) :
  (∀ o, Q o → Q' o) → plic_only Q m → plic_only Q' m.
Proof.
  intros HQ Hm w. destruct (Hm w) as (a & o & H & F). exists a, o. split; [done|].
  eapply Forall_impl; [exact F|exact HQ].
Qed.

Lemma plic_only_rd (Q : plic_op → Prop) i : Q (PLoad (4 * i)) → plic_only Q (plic_rd i).
Proof.
  intros HQ w. unfold plic_rd. destruct (dev_load (4 * i) (w_plic w)) as [v d] eqn:E.
  exists (u32 v), [PLoad (4 * i)]. unfold run_ops. simpl. rewrite E. split; [done|by constructor].
Qed.

Lemma plic_only_wr (Q : plic_op → Prop) i v : Q (PStore (4 * i) v) → plic_only Q (plic_wr i v).
Proof. intros HQ w. exists tt, [PStore (4 * i) v]. split; [done|by constructor]. Qed.

Lemma plic_only_amoand (Q : plic_op → Prop) i m : Q (PAmoAnd (4 * i) m) → plic_only Q (plic_amoand i m).
Proof. intros HQ w. exists tt, [PAmoAnd (4 * i) m]. split; [done|by constructor]. Qed.

Lemma plic_only_amoor (Q : plic_op → Prop) i m : Q (PAmoOr (4 * i) m) → plic_only Q (plic_amoor i m).
Proof. intros HQ w. exists tt, [PAmoOr (4 * i) m]. split; [done|by constructor]. Qed.
End driver.

Create HintDb plic.
#[export] Hint Resolve plic_only_ret plic_only_bind : plic.

(** ** Register addresses *)

Definition priority_off (irq : Z) : Z := 4 * irq.
Definition pending_off (irq : Z) : Z := 0x1000 + 4 * (irq / 32).
Definition enable_off (ctx irq : Z) : Z := 0x2000 + 0x80 * ctx + 4 * (irq / 32).
Definition threshold_off (ctx : Z) : Z := 0x200000 + 0x1000 * ctx.
Definition irq_bit (irq : Z) : Z := 2 ^ (irq mod 32).

Lemma source_mask_bit irq : u32 (1 .<< (irq mod (4 * 8))) = irq_bit irq.
Proof.
  change (4 * 8) with 32. assert (0 <= irq mod 32 < 32) by (apply Z.mod_pos_bound; lia).
  unfold irq_bit. rewrite Z.shiftl_mul_pow2, Z.mul_1_l by lia. apply u32_id.
  split; [apply Z.pow_nonneg; lia|apply Z.pow_lt_mono_r; lia].
Qed.

Lemma bad_source_false irq : bad_source irq = false ↔ 1 <= irq <= 1023.
Proof. unfold bad_source. rewrite orb_false_iff, !Z.ltb_ge. lia. Qed.
Lemma bad_context_false ctx : bad_context ctx = false ↔ 0 <= ctx <= 15871.
Proof. unfold bad_context. rewrite orb_false_iff, !Z.ltb_ge. lia. Qed.

Section spec.
Context {D : Type} {P : PlicDevice D}.
Implicit Types (w : world D) (d : D).

(** ** What each driver function does on valid arguments *)

Lemma plic_rd_run i w : plic_rd i w =
  Ok (u32 (dev_load (4 * i) (w_plic w)).1) (set_plic (dev_load (4 * i) (w_plic w)).2 w).
Proof. unfold plic_rd. by destruct (dev_load _ _). Qed.

Lemma plic_rd_pure `{!PlicLaws D} i w : (∀ ctx, 0 <= ctx → 4 * i ≠ claim_off ctx) →
  plic_rd i w = Ok (dev_load (4 * i) (w_plic w)).1 w.
Proof.
  intros H. rewrite plic_rd_run, dev_load_pure by done. rewrite u32_id by apply dev_load_u32.
  by rewrite set_plic_id.
Qed.

Lemma not_claim off : 0 <= off < 0x200000 → ∀ ctx, 0 <= ctx → off ≠ claim_off ctx.
Proof. unfold claim_off. lia. Qed.

End spec.
