(* ===== verification/Vcpu.v ===== *)
(** * Vcpu: virtual CPUs, virtual/vcpu.c

    Each hart runs one virtual CPU of the VM whose [cpu_affinity] contains it.
    A [struct vcpu *] is the index in [vcpus] it designates. *)

From S2P Require Import Prelude Layout Bits Memory Machine Cpu.

(** sizeof(struct vcpu) and offsetof(struct vcpu, regs). *)
Definition VCPU_SIZE := 280.
Definition VCPU_REGS := 24.

(** [1 << hartid], an [int], converted to [uint64]. *)
Definition hart_bit (hartid : Z) : Z := u64 (s32 (1 .<< hartid)).

Section ops.
Context {D : Type} {L : Linker}.
Implicit Type w : world D.
#[local] Abbreviation M := (cmd (world D)).

(** [for (int i = 0; i < nr_vms; i++) if (config[i].cpu_affinity & (1 << hartid))
    return &config[i];], with [i] the index of the head of [cs] *)
Fixpoint config_loop (cs : list vm_config) (i : nat) (hartid : Z) : option nat :=
  match cs with
  | [] => None
  | c :: cs' => if truthy (cpu_affinity c .& hart_bit hartid) then Some i
                else config_loop cs' (S i) hartid
  end.

Definition get_config_for_cpu (hartid : Z) : M nat :=
  cs ← gets w_config;
  match config_loop cs 0 hartid with
  | Some i => mret i
  | None => panic "No way (CPU configuration was already checked)"
  end.

Fixpoint vhartid_loop (n : nat) (cpu_affinity vhartid : Z) : Z :=
  match n with
  | O => vhartid
  | S n' => vhartid_loop n' (cpu_affinity .>> 1)
              (if truthy (cpu_affinity .& 1) then u64 (vhartid + 1) else vhartid)
  end.
Definition get_vhartid (hartid cpu_affinity : Z) : Z :=
  vhartid_loop (Z.to_nat hartid) cpu_affinity 0.

Definition get_vcpu : M Z := get_hartid.

(** [vcpu->field = ...] *)
Definition vcpu_upd (i : Z) (f : vcpu → vcpu) : M unit :=
  v ← vcpu_get i; vcpu_set i (f v).
Definition set_vhartid x v := mk_vcpu x (last_claimed_irq_id v) (conf v) (regs v).
Definition set_last_claimed x v := mk_vcpu (vhartid v) x (conf v) (regs v).
Definition set_conf x v := mk_vcpu (vhartid v) (last_claimed_irq_id v) x (regs v).
Definition set_regs x v := mk_vcpu (vhartid v) (last_claimed_irq_id v) (conf v) x.
Definition set_reg (r x : Z) v := set_regs (<[Z.to_nat r := x]> (regs v)) v.
Definition get_reg (r : Z) (v : vcpu) : Z := default 0 (regs v !! Z.to_nat r).

Definition init_vcpu (vcpu : Z) : M unit :=
  hartid ← get_hartid;
  conf_i ← get_config_for_cpu hartid;
  vcpu_upd vcpu (set_conf (Some conf_i)) ;;
  vcpu_upd vcpu (set_regs (replicate 32 0)) ;;
  c ← config_get (Some conf_i);
  vcpu_upd vcpu (set_vhartid (get_vhartid hartid (cpu_affinity c))) ;;
  vcpu_upd vcpu (set_last_claimed 0) ;;
  vcpu_upd vcpu (λ v, set_reg 10 (vhartid v) v) ;;
  vcpu_upd vcpu (set_reg 11 0xff) ;;
  CSRW sscratch (u64 (sym_vcpus + VCPU_SIZE * vcpu + VCPU_REGS)).
End ops.

(** ** Lemmas *)

Lemma hart_bit_small h : 0 <= h < 31 → hart_bit h = 2 ^ h.
Proof.
  intros Hh. unfold hart_bit. rewrite Z.shiftl_mul_pow2, Z.mul_1_l by lia.
  assert (0 < 2 ^ h) by (apply Z.pow_pos_nonneg; lia).
  assert (2 ^ h <= 2 ^ 30) by (apply Z.pow_le_mono_r; lia).
  rewrite s32_id by lia. apply u64_id. lia.
Qed.

Lemma land_hart_bit a h : 0 <= h < 31 → truthy (a .& hart_bit h) = Z.testbit a h.
Proof. intros Hh. rewrite hart_bit_small by done. apply truthy_land_pow2. lia. Qed.

(** The configuration found is the first one that contains the hart. *)
Lemma config_loop_spec cs i h k : 0 <= h < 31 →
  config_loop cs i h = Some k ↔
  ∃ j c, k = (i + j)%nat ∧ cs !! j = Some c ∧ Z.testbit (cpu_affinity c) h = true ∧
    ∀ j' c', (j' < j)%nat → cs !! j' = Some c' → Z.testbit (cpu_affinity c') h = false.
Proof.
  intros Hh. revert i. induction cs as [|c cs IH]; intros i; cbn [config_loop].
  - split; [done|]. intros (j & c & _ & Hj & _). by rewrite lookup_nil in Hj.
  - rewrite land_hart_bit by done. destruct (Z.testbit (cpu_affinity c) h) eqn:E.
    + split.
      * intros [= <-]. exists 0%nat, c. split_and!; [lia|done|done|]. lia.
      * intros ([|j] & c' & -> & Hj & Ht & Hfst); [f_equal; lia|].
        rewrite (Hfst 0%nat c) in E by (lia || done). done.
    + rewrite IH. split.
      * intros (j & c' & -> & Hj & Ht & Hfst). exists (S j), c'. split_and!; [lia|done|done|].
        intros [|j'] c'' Hlt; simpl; [by intros [= <-]|]. apply Hfst. lia.
      * intros ([|j] & c' & -> & Hj & Ht & Hfst); [simpl in Hj; congruence|].
        exists j, c'. split_and!; [lia|done|done|]. intros j' c'' Hlt Hl.
        apply (Hfst (S j') c''); [lia|done].
Qed.

(** [popcount n a]: the number of affinity bits below hart [n]. *)
Lemma popcount_shift a n :
  popcount (S n) a = Z.b2z (Z.testbit a 0) + popcount n (a .>> 1).
Proof.
  induction n as [|n IH]; [cbn [popcount]; change (Z.of_nat 0) with 0; lia|].
  change (popcount (S (S n)) a) with (popcount (S n) a + Z.b2z (Z.testbit a (Z.of_nat (S n)))).
  rewrite IH. cbn [popcount].
  rewrite Z.shiftr_spec by lia. replace (Z.of_nat n + 1) with (Z.of_nat (S n)) by lia. lia.
Qed.

Lemma vhartid_loop_spec n a v : 0 <= v → v + Z.of_nat n < 2 ^ 64 →
  vhartid_loop n a v = v + popcount n a.
Proof.
  revert a v. induction n as [|n IH]; intros a v Hv Hlt; [cbn; lia|].
  cbn [vhartid_loop]. rewrite popcount_shift.
  assert (E : truthy (a .& 1) = Z.testbit a 0).
  { change 1 with (Z.ones 1). rewrite Z.land_ones by lia. change (2 ^ 1) with 2.
    rewrite Zmod_odd, Z.bit0_odd. by destruct (Z.odd a). }
  rewrite E. destruct (Z.testbit a 0); cbn [Z.b2z].
  - rewrite u64_id by lia. rewrite IH by lia. lia.
  - rewrite IH by lia. lia.
Qed.

Lemma get_vhartid_spec h a : 0 <= h < 2 ^ 64 → get_vhartid h a = popcount (Z.to_nat h) a.
Proof. intros. unfold get_vhartid. rewrite vhartid_loop_spec by lia. lia. Qed.

Lemma popcount_mono a n n' : (n <= n')%nat → popcount n a <= popcount n' a.
Proof. induction 1; cbn [popcount]; [lia|]. destruct (Z.testbit _ _); cbn; lia. Qed.

(** Harts of the same VM get different virtual ids. *)
Lemma popcount_lt a n n' : (n < n')%nat → Z.testbit a (Z.of_nat n) = true →
  popcount n a < popcount n' a.
Proof.
  intros Hlt Hn. pose proof (popcount_mono a (S n) n' Hlt) as H.
  cbn [popcount] in H. rewrite Hn in H. cbn in H. lia.
Qed.

Section run.
Context {D : Type} {L : Linker}.
Implicit Type w : world D.

Lemma vcpu_get_ok i v w : 0 <= i → w_vcpus w !! Z.to_nat i = Some v →
  vcpu_get i w = Ok v w.
Proof. intros Hi Hv. unfold vcpu_get. rewrite (proj2 (Z.ltb_ge _ _)) by lia. by rewrite Hv. Qed.

Lemma vcpu_upd_ok i f v w : 0 <= i → w_vcpus w !! Z.to_nat i = Some v →
  vcpu_upd i f w = Ok tt (set_vcpus (<[Z.to_nat i := f v]> (w_vcpus w)) w).
Proof. intros Hi Hv. unfold vcpu_upd. by rewrite (bind_ok _ _ _ _ _ (vcpu_get_ok _ _ _ Hi Hv)). Qed.

(** Two updates of the same structure in a row are one. *)
Lemma vcpu_upd_seq {B} i f v w (k : cmd (world D) B) : 0 <= i → w_vcpus w !! Z.to_nat i = Some v →
  (vcpu_upd i f ;; k) w = k (set_vcpus (<[Z.to_nat i := f v]> (w_vcpus w)) w).
Proof. intros Hi Hv. by erewrite bind_ok by by apply vcpu_upd_ok. Qed.

Lemma lookup_upd_vcpu i v v' w : w_vcpus w !! i = Some v →
  w_vcpus (set_vcpus (<[i := v']> (w_vcpus w)) w) !! i = Some v'.
Proof. intros H. simpl. apply list_lookup_insert_eq. by eapply lookup_lt_Some. Qed.

Lemma set_vcpus_twice i v v' w :
  set_vcpus (<[i := v']> (w_vcpus (set_vcpus (<[i := v]> (w_vcpus w)) w)))
    (set_vcpus (<[i := v]> (w_vcpus w)) w) = set_vcpus (<[i := v']> (w_vcpus w)) w.
Proof. destruct w. unfold set_vcpus. simpl. by rewrite list_insert_insert_eq. Qed.

Lemma config_get_ok k c w : w_config w !! k = Some c → config_get (Some k) w = Ok c w.
Proof. intros H. unfold config_get. simpl. by rewrite H. Qed.

(** What init_vcpu leaves in the structure. *)
Definition fresh_vcpu (k : nat) (vh : Z) : vcpu :=
  mk_vcpu vh 0 (Some k) (<[11%nat := 0xff]> (<[10%nat := vh]> (replicate 32 0))).

Lemma init_vcpu_run w v k c : cpu_ready w → w_hart w < 31 →
  w_vcpus w !! Z.to_nat (w_hart w) = Some v →
  config_loop (w_config w) 0 (w_hart w) = Some k → w_config w !! k = Some c →
  init_vcpu (w_hart w) w =
    Ok tt (set_csr (<[(w_hart w, sscratch) :=
                        u64 (sym_vcpus + VCPU_SIZE * w_hart w + VCPU_REGS)]> (w_csr w))
      (set_vcpus (<[Z.to_nat (w_hart w) :=
          fresh_vcpu k (popcount (Z.to_nat (w_hart w)) (cpu_affinity c))]> (w_vcpus w)) w)).
Proof.
  intros Hr Hh Hv Hk Hc. pose proof Hr as (_ & [Hh0 _] & _). unfold init_vcpu.
  erewrite bind_ok by by apply get_hartid_ready.
  rewrite (bind_ok _ _ w k w) by (unfold get_config_for_cpu; csimp; by rewrite Hk).
  do 2 (erewrite vcpu_upd_seq; [|done|first [exact Hv|eapply lookup_upd_vcpu; exact Hv]]).
  rewrite set_vcpus_twice. erewrite bind_ok by by apply config_get_ok.
  do 4 (erewrite vcpu_upd_seq; [|done|eapply lookup_upd_vcpu; exact Hv]; rewrite set_vcpus_twice).
  unfold CSRW. rewrite modify_run. rewrite get_vhartid_spec by lia. done.
Qed.
End run.
