(* ===== verification/Vplic.v ===== *)
(** * Vplic: the emulated PLIC, virtual/vplic.c

    A guest access to the PLIC's address range faults; the hypervisor decodes the
    trapped load or store and performs it on the physical PLIC, restricted to the
    interrupts of the VM's own devices and to the running hart's own context.
    The operations here are the file's functions, statement by statement. *)

From S2P Require Import Prelude Layout Bits Memory Machine Cpu Plic Vcpu.

(** ** Which register an offset designates *)

Definition is_access_to_priority_reg (offset : Z) : bool := offset <? 0x1000.
Definition is_access_to_pending_regs (offset : Z) : bool :=
  (0x1000 <=? offset) && (offset <? 0x1080).
Definition is_access_to_enable_regs (offset : Z) : bool :=
  (0x2000 <=? offset) && (offset <? 0x200000).

(** [for (ctx = 15872 - n; ctx < 15872; ctx++) if (base + ctx * 0x1000 == offset)
    return 1;] *)
Fixpoint ctx_loop (n : nat) (ctx base offset : Z) : bool :=
  match n with
  | O => false
  | S n' => if u32 (base + u32 (ctx * 0x1000)) =? offset then true
            else ctx_loop n' (ctx + 1) base offset
  end.
Definition is_access_to_threshold_reg (offset : Z) : bool :=
  ctx_loop (Z.to_nat 15872) 0 0x200000 offset.
Definition is_access_to_claim_complete_reg (offset : Z) : bool :=
  ctx_loop (Z.to_nat 15872) 0 0x200004 offset.

(** ** Interrupt numbers *)

(** [for (i = 0; i < MAX_DEVS && devs[i] != 0; i++)], stopping at the first NULL *)
Fixpoint irq_loop (n : nat) (devs : list (option mmio_dev)) (key val : mmio_dev → Z) (irq : Z) : Z :=
  match n, devs with
  | S n', Some d :: devs' => if irq =? key d then val d else irq_loop n' devs' key val irq
  | _, _ => 0
  end.
Definition virt_to_phys_irq (devs : list (option mmio_dev)) (virq : Z) : Z :=
  irq_loop (Z.to_nat MAX_DEVS) devs virt_irq phys_irq virq.
Definition phys_to_virt_irq (devs : list (option mmio_dev)) (pirq : Z) : Z :=
  irq_loop (Z.to_nat MAX_DEVS) devs phys_irq virt_irq pirq.

Section ops.
Context {D : Type} {P : PlicDevice D} {L : Linker}.
#[local] Abbreviation M := (cmd (world D)).
#[local] Abbreviation devlist := (list (option mmio_dev)).

Definition parse_htinst : M instr :=
  h ← CSRR htinst;
  let i := mk_instr (u8 (get_value h 0 7)) (u8 (get_value h 7 5)) (u8 (get_value h 12 3))
             (u8 (get_value h 15 5)) (u8 (get_value h 20 5)) 0 in
  if negb (addr_offset i =? 0) then panic "Misaligned access with C extension???"
  else if negb (get_value h 25 7 =? 0) then panic "VPLIC does not support this instruction (AMO?)"
  else mret i.

(** ** Loads *)

Definition handle_priority_reg_load (devs : devlist) (offset : Z) : M Z :=
  let virq := s32 (offset / 4) in
  let pirq := virt_to_phys_irq devs virq in
  plic_get_priority pirq.

(** The loop over the 32 bits of a group, from bit [32 - n] on. *)
Fixpoint bits_loop (n : nat) (devs : devlist) (group : Z) (get : Z → M Z) (masked : Z) : M Z :=
  match n with
  | O => mret masked
  | S n' =>
      let i := 32 - Z.of_nat n in
      let virq := s32 (group * 32 + i) in
      let pirq := virt_to_phys_irq devs virq in
      p ← get pirq;
      bits_loop n' devs group get (if truthy p then masked .| u32 (1 .<< i) else masked)
  end.

Definition handle_pending_regs_load (devs : devlist) (offset : Z) : M Z :=
  let virq_group := s32 (u64 (offset - 0x1000) / 4) in
  bits_loop 32 devs virq_group plic_get_pending 0.

Definition handle_enable_regs_load (devs : devlist) (offset vctx pctx : Z) : M Z :=
  if negb (vctx =? u64 (offset - 0x2000) / 0x80) then mret 0
  else
    let virq_group := s32 (u64 (offset - 0x2000 - vctx * 0x80) / 4) in
    bits_loop 32 devs virq_group (plic_get_enabled (s32 pctx)) 0.

Definition handle_threshold_reg_load (offset vctx pctx : Z) : M Z :=
  if negb (vctx =? u64 (offset - 0x200000) / 0x1000) then mret 0
  else plic_get_threshold (s32 pctx).

Definition handle_claim_reg_load (devs : devlist) (offset vctx : Z) : M Z :=
  if negb (vctx =? u64 (offset - 0x200004) / 0x1000) then mret 0
  else
    i ← get_vcpu;
    v ← vcpu_get i;
    mret (u32 (phys_to_virt_irq devs (s32 (last_claimed_irq_id v)))).

(** [if (instr->opcode & 2) sepc += 4 else sepc += 2] *)
Definition advance_sepc (op : Z) : M unit :=
  e ← CSRR sepc;
  if truthy (op .& 2) then CSRW sepc (u64 (e + 4)) else CSRW sepc (u64 (e + 2)).

(** The dispatch of emulate_load. *)
Definition load_dispatch (devs : devlist) (offset vctx pctx : Z) : M Z :=
  if is_access_to_priority_reg offset then handle_priority_reg_load devs offset
  else if is_access_to_pending_regs offset then handle_pending_regs_load devs offset
  else if is_access_to_enable_regs offset then handle_enable_regs_load devs offset vctx pctx
  else if is_access_to_threshold_reg offset then handle_threshold_reg_load offset vctx pctx
  else if is_access_to_claim_complete_reg offset then handle_claim_reg_load devs offset vctx
  else panic "Bad PLIC access".

Definition emulate_load (ins : instr) : M unit :=
  vi ← get_vcpu;
  v ← vcpu_get vi;
  c ← config_get (conf v);
  let devs := devices c in
  let offset := u64 (addr ins - DTB_PLIC) in
  let vctx := u64 (2 * vhartid v + 1) in
  hartid ← get_hartid;
  let pctx := u64 (2 * hartid + 1) in
  val ← load_dispatch devs offset vctx pctx;
  vcpu_upd vi (set_reg (rd ins) val) ;;
  whenM ((funct3 ins =? 2) && truthy (val .& 0x80000000))
    (vcpu_upd vi (λ v, set_reg (rd ins) (get_reg (rd ins) v .| 0xffffffff00000000) v)) ;;
  advance_sepc (opcode ins).

Definition set_addr (a : Z) (i : instr) : instr :=
  mk_instr (opcode i) (rd i) (funct3 i) (addr_offset i) (rs2 i) a.

Definition vplic_handle_load_page_fault (a : Z) : M unit :=
  i ← parse_htinst;
  if negb (opcode i .| 2 =? 0x3) then panic "Bad opcode for load"
  else if negb (funct3 i =? 2) && negb (funct3 i =? 6) then panic "Bad funct3 for load"
  else emulate_load (set_addr a i).

(** ** Stores *)

Definition handle_priority_reg_store (devs : devlist) (offset val : Z) : M unit :=
  let virq := s32 (offset / 4) in
  let pirq := virt_to_phys_irq devs virq in
  plic_set_priority pirq val.

Fixpoint enable_store_loop (n : nat) (devs : devlist) (group val pctx : Z) : M unit :=
  match n with
  | O => mret tt
  | S n' =>
      let i := 32 - Z.of_nat n in
      let virq := s32 (group * 32 + i) in
      let pirq := virt_to_phys_irq devs virq in
      plic_set_enabled (s32 pctx) pirq (s32 (u32 (1 .<< i) .& val)) ;;
      enable_store_loop n' devs group val pctx
  end.

Definition handle_enable_regs_store (devs : devlist) (offset val vctx pctx : Z) : M unit :=
  if negb (vctx =? u64 (offset - 0x2000) / 0x80) then mret tt
  else
    let virq_group := s32 (u64 (offset - 0x2000 - vctx * 0x80) / 4) in
    enable_store_loop 32 devs virq_group val pctx.

Definition handle_threshold_reg_store (offset vctx pctx val : Z) : M unit :=
  if negb (vctx =? u64 (offset - 0x200000) / 0x1000) then mret tt
  else plic_set_threshold (s32 pctx) (u32 val).

Definition handle_complete_reg_store (vi offset vctx pctx val : Z) : M unit :=
  if negb (vctx =? u64 (offset - 0x200004) / 0x1000) then mret tt
  else
    v ← vcpu_get vi;
    c ← config_get (conf v);
    let pirq := u32 (virt_to_phys_irq (devices c) (s32 val)) in
    if pirq =? last_claimed_irq_id v then
      vcpu_upd vi (set_last_claimed 0) ;;
      plic_complete (s32 pctx) pirq ;;
      CSRC hvip HVIP_VSEIP
    else mret tt.

Definition store_dispatch (devs : devlist) (vi offset vctx pctx val : Z) : M unit :=
  if is_access_to_priority_reg offset then handle_priority_reg_store devs offset val
  else if is_access_to_pending_regs offset then mret tt
  else if is_access_to_enable_regs offset then handle_enable_regs_store devs offset val vctx pctx
  else if is_access_to_threshold_reg offset then handle_threshold_reg_store offset vctx pctx val
  else if is_access_to_claim_complete_reg offset then
    handle_complete_reg_store vi offset vctx pctx val
  else panic "Bad PLIC access".

Definition emulate_store (ins : instr) : M unit :=
  vi ← get_vcpu;
  v ← vcpu_get vi;
  c ← config_get (conf v);
  let devs := devices c in
  let offset := u64 (addr ins - DTB_PLIC) in
  let vctx := u64 (2 * vhartid v + 1) in
  hartid ← get_hartid;
  let pctx := u64 (2 * hartid + 1) in
  let val := u32 (get_reg (rs2 ins) v) in
  store_dispatch devs vi offset vctx pctx val ;;
  advance_sepc (opcode ins).

Definition vplic_handle_store_or_amo_page_fault (a : Z) : M unit :=
  i ← parse_htinst;
  if negb (opcode i .| 2 =? 0x23) then panic "Bad opcode for store"
  else if negb (funct3 i =? 2) then panic "Bad funct3 for store"
  else emulate_store (set_addr a i).

(** ** Interrupts *)

Definition vplic_handle_interrupt : M unit :=
  hartid ← get_hartid;
  vi ← get_vcpu;
  irq ← plic_claim (s32 (u64 (2 * hartid + 1)));
  vcpu_upd vi (set_last_claimed irq) ;;
  v ← vcpu_get vi;
  whenM (negb (last_claimed_irq_id v =? 0)) (CSRS hvip HVIP_VSEIP).
End ops.
