(* ===== verification/Trap.v ===== *)
(** * Trap: the trap handlers of core/trap.c *)

From S2P Require Import Prelude Layout Bits Memory Machine Cpu Vmem Plic Vcpu Vplic.

Section ops.
Context {D : Type} {P : PlicDevice D} {L : Linker}.
#[local] Abbreviation M := (cmd (world D)).

Definition hs_interrupt_handler (cause : Z) : M unit :=
  let s := u64 (cause .<< 1) .>> 1 in
  if s =? INT_SUPERVISOR_TIM then t ← CSRR time; CSRW stimecmp (u64 (t + 10000000))
  else if s =? INT_SUPERVISOR_EXT then vplic_handle_interrupt
  else panic "unknown interrupt".

Definition get_pa (pgtable : Z) : M Z :=
  h ← CSRR htval;
  let gpa := u64 (h .<< 2) in
  convert_va_to_pa pgtable gpa 1.

(** The result is an [int]. *)
Definition is_access_to_plic : M Z :=
  i ← get_vcpu;
  v ← vcpu_get i;
  c ← config_get (conf v);
  a ← get_pa (vm_pgtable c);
  if (DTB_PLIC <=? a) && (a <? DTB_PLIC + DTB_PLIC_SIZE) then mret (s32 a) else mret 0.

Definition perform_walk_for_guest : M unit :=
  i ← get_vcpu;
  v ← vcpu_get i;
  c ← config_get (conf v);
  a0 ← convert_va_to_pa (vm_pgtable c) (get_reg 10 v) 1;
  vcpu_upd i (set_reg 10 a0).

Definition hs_exception_handler (cause : Z) : M unit :=
  if cause =? EXC_ECALL_FROM_VS then
    perform_walk_for_guest ;;
    e ← CSRR sepc;
    CSRW sepc (u64 (e + 4))
  else if cause =? EXC_LOAD_GUEST_PAGE_FAULT then
    r ← is_access_to_plic;
    let a := u64 r in
    if truthy a then vplic_handle_load_page_fault a else panic "Bad read access"
  else if cause =? EXC_STORE_OR_AMO_GUEST_PAGE_FAULT then
    r ← is_access_to_plic;
    let a := u64 r in
    if truthy a then vplic_handle_store_or_amo_page_fault a else panic "Bad write access"
  else panic "unknown exception".
End ops.
