(* ===== verification/VmRun.v ===== *)
(** * VmRun: starting the VMs, core/vm_run.c

    The barriers between the phases are the parameter [wait] (the state of the
    barrier and what the other harts do meanwhile are the subject of Lock.v), and
    the model stops where vm_enter (core/trap.S) switches to the guest. *)

From S2P Require Import Prelude Layout Bits Memory Machine Lock Kmem Cpu Vmem Plic Vcpu.

Definition set_bar (b : barrier) (c : vm_config) : vm_config :=
  mk_vm_config (cpu_affinity c) (image_base c) (image_end c) (memory_base c) (memory_size c)
    (entry c) (devices c) b (vm_pgtable c).

Definition HEDELEG_MASK : Z :=
  (1 .<< EXC_INSTRUCTION_ADDR_MISALIGNED) .| (1 .<< EXC_INSTRUCTION_ACCESS_FAULT)
  .| (1 .<< EXC_ILLEGAL_INSTRUCTION) .| (1 .<< EXC_BREAKPOINT)
  .| (1 .<< EXC_LOAD_ADDR_MISALIGNED) .| (1 .<< EXC_LOAD_ACCESS_FAULT)
  .| (1 .<< EXC_STORE_OR_AMO_ADDRESS_MISALIGNED) .| (1 .<< EXC_STORE_OR_AMO_ACCESS_FAULT)
  .| (1 .<< EXC_ECALL_FROM_U) .| (1 .<< EXC_INSTRUCTION_PAGE_FAULT)
  .| (1 .<< EXC_LOAD_PAGE_FAULT) .| (1 .<< EXC_STORE_OR_AMO_PAGE_FAULT).

Section ops.
Context {D : Type} {L : Linker}.
#[local] Abbreviation M := (cmd (world D)).

(** [while ((dev = conf->devices[i++]) != 0)]: past the end of the array the
    loop would read the memory that follows it. *)
Fixpoint map_devices (devs : list (option mmio_dev)) (pgtable : Z) : M unit :=
  match devs with
  | [] => fault 0
  | None :: _ => mret tt
  | Some dev :: devs' =>
      rv ← map_pages pgtable (virt_base dev) (phys_base dev) (dev_size dev)
             (s32 (perm dev .| PTE_U)) 1;
      if rv <? 0 then panic "Failed to map MMIO device" else map_devices devs' pgtable
  end.

Definition PTE_URWX : Z := PTE_U .| PTE_R .| PTE_W .| PTE_X.

Definition init_hs_pgtable (c : vm_config) : M unit :=
  memset (vm_pgtable c) 0 (PAGE_SIZE * 4) ;;
  let image_size := PGROUNDUP (u64 (image_end c - image_base c)) in
  rv ← map_pages (vm_pgtable c) (memory_base c) (image_base c) image_size PTE_URWX 1;
  if rv <? 0 then panic "failed to map VM kernel image"
  else
    rv ← map_pages (vm_pgtable c) (u64 (memory_base c + image_size)) 0
           (u64 (memory_size c - image_size)) PTE_URWX 1;
    if rv <? 0 then panic "failed to map VM RAM"
    else map_devices (devices c) (vm_pgtable c).

Definition init_hs (c : vm_config) : M unit :=
  let pgtable_pa := KVA2PA (vm_pgtable c) in
  CSRW hgatp (ATP_MODE_SV39 .| (pgtable_pa .>> 12)) ;;
  CSRW hstatus (HSTATUS_VSXL_64 .| HSTATUS_SPV) ;;
  CSRW hedeleg HEDELEG_MASK ;;
  CSRW hideleg (HIDELEG_VSTI .| HIDELEG_VSEI) ;;
  CSRW hvip 0 ;;
  CSRW hip 0 ;;
  CSRW hie 0 ;;
  CSRW hgeie 0 ;;
  CSRW hcounteren HCOUNTEREN_TM ;;
  CSRW htimedelta 0 ;;
  CSRW htval 0 ;;
  CSRW htinst 0 ;;
  CSRS henvcfg (HENVCFG_SSTC .| HENVCFG_ADUE).

Definition init_vs : M unit :=
  CSRW vsstatus 0 ;;
  CSRW vsip 0 ;;
  CSRW vsie 0 ;;
  CSRW vstvec 0 ;;
  CSRW vsscratch 0 ;;
  CSRW vsepc 0 ;;
  CSRW vscause 0 ;;
  CSRW vstval 0 ;;
  CSRW vsatp 0 ;;
  CSRW vstimecmp (u64 (-1)).

Definition init_vm_barriers : M unit :=
  modify (λ w, set_config
    ((λ c, set_bar (init_barrier (bar c) (count_set_bits (cpu_affinity c))) c) <$> w_config w) w).

(** [for (j = 0; j < i; j++) if (config[i].cpu_affinity & config[j].cpu_affinity)],
    with [prev] the configurations before [i] *)
Fixpoint overlap_loop (prev : list vm_config) (a : Z) : bool :=
  match prev with
  | [] => false
  | c :: prev' => if truthy (a .& cpu_affinity c) then true else overlap_loop prev' a
  end.
Fixpoint check_loop (prev cs : list vm_config) : bool :=
  match cs with
  | [] => false
  | c :: cs' => if overlap_loop prev (cpu_affinity c) then true else check_loop (prev ++ [c]) cs'
  end.
Fixpoint count_cpus (cs : list vm_config) (n : Z) : Z :=
  match cs with
  | [] => n
  | c :: cs' => count_cpus cs' (s32 (n + count_set_bits (cpu_affinity c)))
  end.

Definition check_cpu_configuration : M unit :=
  cs ← gets w_config;
  if check_loop [] cs then panic "VMs share the same CPU"
  else if negb (count_cpus cs 0 =? DTB_NR_CPUS) then panic "CPU number misconfiguration"
  else mret tt.

(** vm_run up to vm_enter, in the three parts its two barriers make of it.  The
    local variable [vcpu] is [i]; [vcpu->conf] is read again after a barrier. *)
Definition vm_check (hartid : Z) : M unit :=
  whenM (hartid =? 0) (init_vm_barriers ;; check_cpu_configuration).

Definition vm_setup (i : Z) : M unit :=
  init_vcpu i ;;
  v ← vcpu_get i;
  c ← config_get (conf v);
  whenM (vhartid v =? 0) (init_hs_pgtable c).

Definition vm_start (i : Z) : M unit :=
  v ← vcpu_get i;
  c ← config_get (conf v);
  init_hs c ;;
  init_vs ;;
  CSRS sstatus SSTATUS_SPP ;;
  CSRW sepc (entry c).

Definition vm_run (wait_boot wait_vm : M unit) (hartid : Z) : M unit :=
  vm_check hartid ;;
  wait_boot ;;
  i ← get_vcpu;
  vm_setup i ;;
  wait_vm ;;
  vm_start i.
End ops.
