(* ===== verification/VmemProg.v ===== *)
(** * VmemProg: mem/vmem.c access by access

    The functions that build page tables, as trees of accesses: a node is one load or
    store of the running hart, or a call of the allocator.  [run] executes a tree
    without interruption, and then it is the function of Vmem.v or VmRun.v; the
    trees are for VmemConc, where harts take turns between any two accesses. *)

From S2P Require Import Prelude Layout Bits Memory Machine Kmem Cpu Vmem Vcpu VmRun.

(** ** Programs *)

(** The ways a program ends without a result. *)
Inductive halt := HPanic (msg : string) | HFault (a : Z) | HHang.

Inductive prog (A : Type) :=
| Ret (a : A)
| Stop (o : halt)
| Load (a : Z) (k : Z → prog A)
| Store (a v : Z) (k : prog A)
| Store8 (a v : Z) (k : prog A)
| Malloc (k : Z → prog A).
Arguments Ret {A}.
Arguments Stop {A}.
Arguments Load {A}.
Arguments Store {A}.
Arguments Store8 {A}.
Arguments Malloc {A}.

Fixpoint prog_seq {A B} (p : prog A) (f : A → prog B) : prog B :=
  match p with
  | Ret a => f a
  | Stop o => Stop o
  | Load a k => Load a (λ v, prog_seq (k v) f)
  | Store a v k => Store a v (prog_seq k f)
  | Store8 a v k => Store8 a v (prog_seq k f)
  | Malloc k => Malloc (λ x, prog_seq (k x) f)
  end.
#[export] Instance prog_ret : MRet prog := @Ret.
#[export] Instance prog_bind : MBind prog := λ A B f p, prog_seq p f.

Section run.
Context {D : Type} {L : Linker}.
#[local] Abbreviation M := (cmd (world D)).

(** Commands with the same effect. *)
Definition same {A} (m m' : M A) : Prop := ∀ w, m w = m' w.
Lemma same_bind {A B} (m m' : M A) (k k' : A → M B) : same m m' → (∀ a, same (k a) (k' a)) → same (m ≫= k) (m' ≫= k').
Proof. intros Hm Hk w. unfold mbind, cmd_bind. rewrite Hm. destruct (m' w); [apply Hk|done..]. Qed.

Definition stop {A} (o : halt) : M A :=
  match o with HPanic e => panic e | HFault a => fault a | HHang => hang end.
Fixpoint run {A} (p : prog A) : M A :=
  match p with
  | Ret a => mret a
  | Stop o => stop o
  | Load a k => v ← load64 a; run (k v)
  | Store a v k => store64 a v ;; run k
  | Store8 a v k => store8 a v ;; run k
  | Malloc k => x ← kmalloc; run (k x)
  end.

Lemma run_seq {A B} (p : prog A) (f : A → prog B) : same (run (prog_seq p f)) (run p ≫= λ a, run (f a)).
Proof.
  induction p as [a|[]|a k IH|a v k IH|a v k IH|k IH]; intros w; cbn [prog_seq run]; try done;
    rewrite bind_bind; (apply same_bind; [done|]); intros x; apply IH.
Qed.

(** A program and a command with the same effect. *)
Definition runs {A} (p : prog A) (m : M A) : Prop := same (run p) m.

Lemma runs_ret {A} (a : A) : runs (mret a) (mret a).
Proof. done. Qed.
Lemma runs_panic {A} e : runs (Stop (HPanic e)) (panic e : M A).
Proof. done. Qed.
Lemma runs_fault {A} a : runs (Stop (HFault a)) (fault a : M A).
Proof. done. Qed.
Lemma runs_hang {A} : runs (Stop HHang) (hang : M A).
Proof. done. Qed.
Lemma runs_load {A} a p (k : Z → M A) : (∀ v, runs (p v) (k v)) → runs (Load a p) (v ← load64 a; k v).
Proof. intros H. by apply same_bind. Qed.
Lemma runs_store {A} a v p (k : M A) : runs p k → runs (Store a v p) (store64 a v ;; k).
Proof. intros H. by apply same_bind. Qed.
Lemma runs_store8 {A} a v p (k : M A) : runs p k → runs (Store8 a v p) (store8 a v ;; k).
Proof. intros H. by apply same_bind. Qed.
Lemma runs_malloc {A} p (k : Z → M A) : (∀ x, runs (p x) (k x)) → runs (Malloc p) (x ← kmalloc; k x).
Proof. intros H. by apply same_bind. Qed.
Lemma runs_bind {A B} (p : prog A) m (f : A → prog B) (k : A → M B) :
  runs p m → (∀ a, runs (f a) (k a)) → runs (p ≫= f) (m ≫= k).
Proof. intros Hp Hf w. etransitivity; [apply run_seq|]. by apply same_bind. Qed.
Lemma runs_if {A} (b : bool) (p p' : prog A) m m' : runs p m → runs p' m' →
  runs (if b then p else p') (if b then m else m').
Proof. by destruct b. Qed.
End run.

Create HintDb runs discriminated.
#[export] Hint Constants Opaque : runs.
#[export] Hint Resolve runs_ret runs_panic runs_fault runs_hang : runs.
(** [rn]: show that a program runs as a command, part by part. *)
Ltac rn := repeat lazymatch goal with
  | |- runs (if _ then _ else _) _ => apply runs_if
  | |- runs (Load _ _) _ => apply runs_load; intros ?
  | |- runs (Store _ _ _) _ => apply runs_store
  | |- runs (Store8 _ _ _) _ => apply runs_store8
  | |- runs (Malloc _) _ => apply runs_malloc; intros ?
  | |- runs (let _ := _ in _) _ => cbv zeta
  | |- runs (_ ≫= _) _ => apply runs_bind; [|intros ?]
  | |- runs _ _ => solve [eauto with runs]
  end.

Section vmem.
Context {D : Type} {L : Linker}.
#[local] Abbreviation M := (cmd (world D)).
#[local] Abbreviation panics e := (Stop (HPanic e)).

(** ** lib/string.c, mem/vmem.c *)

Fixpoint memset_acc_loop (n : nat) (p c : Z) : prog unit :=
  match n with
  | O => mret tt
  | S n' => Store8 p c (memset_acc_loop n' (p + 1) c)
  end.
Definition memset_acc (dst c size : Z) : prog Z :=
  memset_acc_loop (Z.to_nat size) dst c ;; mret dst.

Fixpoint walk_acc_loop (level : nat) (kpa va alloc x4 : Z) : prog Z :=
  match level with
  | O => mret (pte_ptr kpa (va2idx va 0 x4))
  | S level' =>
      let pte := pte_ptr kpa (va2idx va (Z.of_nat level) x4) in
      Load pte (λ v,
      if truthy (v .& PTE_V) then
        walk_acc_loop level' (PA2KPA (PTE2PA v)) va alloc x4
      else if negb (truthy alloc) then mret 0
      else
        Malloc (λ kpa',
        if kpa' =? 0 then mret 0
        else
          memset_acc kpa' 0 PAGE_SIZE ;;
          Store pte (PA2PTE (KPA2PA kpa') .| PTE_V) (walk_acc_loop level' kpa' va alloc x4)))
  end.
Definition walk_acc (pgtable va alloc x4 : Z) : prog Z :=
  if pgtable =? 0 then panics "root page table doesn't exist"
  else walk_acc_loop (Z.to_nat (LEVELS - 1)) pgtable va alloc x4.

Definition map_page_acc (pgtable va pa pte_flags x4 : Z) : prog Z :=
  leaf ← walk_acc pgtable va 1 x4;
  if leaf =? 0 then mret (-1)
  else
    Load leaf (λ v,
    if truthy (v .& PTE_V) then panics "tried to remap page"
    else Store leaf (PA2PTE pa .| u64 pte_flags .| PTE_V) (mret 0)).

Fixpoint map_pages_acc_loop (fuel : nat) (i pgtable va pa size pte_flags x4 : Z) : prog Z :=
  match fuel with
  | O => Stop HHang
  | S fuel' =>
      if i <? PGROUNDUP size then
        tmp ← (if pa =? 0 then Malloc (λ p, mret (KPA2PA p)) else mret (u64 (pa + i)));
        rv ← map_page_acc pgtable (u64 (va + i)) tmp pte_flags x4;
        if rv <? 0 then mret (-1)
        else map_pages_acc_loop fuel' (u64 (i + PAGE_SIZE)) pgtable va pa size pte_flags x4
      else mret 0
  end.
Definition map_pages_acc (pgtable va pa size pte_flags x4 : Z) : prog Z :=
  map_pages_acc_loop (Z.to_nat (PGROUNDUP size / PAGE_SIZE + 1)) 0
    pgtable va pa size pte_flags x4.

(** [cpu] is what mycpu() returns, a value of the hart's own. *)
Definition init_vmem_acc (cpu : Z) : prog Z :=
  Malloc (λ root,
  (if root =? 0 then panics "couldn't allocate root page table" else mret tt) ;;
  memset_acc root 0 PAGE_SIZE ;;
  let RWG := PTE_R .| PTE_W .| PTE_G in
  r1 ← map_page_acc root DTB_FLASH DTB_FLASH RWG 0;
  r2 ← map_page_acc root DTB_PLATFORM_BUS DTB_PLATFORM_BUS RWG 0;
  r3 ← map_page_acc root DTB_RTC DTB_RTC RWG 0;
  r4 ← map_page_acc root DTB_SERIAL DTB_SERIAL RWG 0;
  r5 ← map_pages_acc root DTB_PCI DTB_PCI DTB_PCI_SIZE RWG 0;
  r6 ← map_pages_acc root DTB_VIRTIO0 DTB_VIRTIO0 DTB_VIRTIO_SIZE RWG 0;
  r7 ← map_pages_acc root DTB_PLIC DTB_PLIC DTB_PLIC_SIZE RWG 0;
  r8 ← map_pages_acc root DTB_CLINT DTB_CLINT DTB_CLINT_SIZE RWG 0;
  (if r1 + r2 + r3 + r4 + r5 + r6 + r7 + r8 <? 0 then panics "failed to map MMIO"
   else mret tt) ;;
  let size := s32 (u32 (sym_etext - sym_text)) in
  t ← map_pages_acc root sym_text (KVA2PA sym_text) (u64 size) (PTE_R .| PTE_X .| PTE_G) 0;
  (if truthy t then panics "failed to map .text" else mret tt) ;;
  let size := s32 (u32 (sym_erodata - sym_rodata)) in
  t ← map_pages_acc root sym_rodata (KVA2PA sym_rodata) (u64 size) (PTE_R .| PTE_G) 0;
  (if truthy t then panics "failed to map .rodata" else mret tt) ;;
  let size := s32 (u32 (sym_edata - sym_data)) in
  t ← map_pages_acc root sym_data (KVA2PA sym_data) (u64 size) RWG 0;
  (if truthy t then panics "failed to map .data" else mret tt) ;;
  t ← map_pages_acc root VAS_CPU_STRUCT (KVA2PA cpu) CPU_SIZE (PTE_R .| PTE_W) 0;
  (if truthy t then panics "failed to map cpu struct" else mret tt) ;;
  let pa := KVA2PA sym_dynamic in
  let size := s32 (DTB_MEMORY_SIZE - (pa - DTB_MEMORY)) in
  t ← map_pages_acc root (KVA2KPA sym_dynamic) pa (u64 size) RWG 0;
  (if truthy t then panics "failed to map RAM" else mret tt) ;;
  mret root).

(** ** core/vm_run.c *)

Fixpoint map_devices_acc (devs : list (option mmio_dev)) (pgtable : Z) : prog unit :=
  match devs with
  | [] => Stop (HFault 0)
  | None :: _ => mret tt
  | Some dev :: devs' =>
      rv ← map_pages_acc pgtable (virt_base dev) (phys_base dev) (dev_size dev)
             (s32 (perm dev .| PTE_U)) 1;
      if rv <? 0 then panics "Failed to map MMIO device" else map_devices_acc devs' pgtable
  end.

Definition init_hs_pgtable_acc (c : vm_config) : prog unit :=
  memset_acc (vm_pgtable c) 0 (PAGE_SIZE * 4) ;;
  let image_size := PGROUNDUP (u64 (image_end c - image_base c)) in
  rv ← map_pages_acc (vm_pgtable c) (memory_base c) (image_base c) image_size PTE_URWX 1;
  if rv <? 0 then panics "failed to map VM kernel image"
  else
    rv ← map_pages_acc (vm_pgtable c) (u64 (memory_base c + image_size)) 0
           (u64 (memory_size c - image_size)) PTE_URWX 1;
    if rv <? 0 then panics "failed to map VM RAM"
    else map_devices_acc (devices c) (vm_pgtable c).

(** ** They run as the functions *)

Lemma memset_loop_runs n p c : runs (memset_acc_loop n p c) (memset_loop (D:=D) n p c).
Proof. revert p. induction n as [|n IH]; intros p; cbn [memset_acc_loop memset_loop]; rn. Qed.
Lemma memset_runs d c n : runs (memset_acc d c n) (memset (D:=D) d c n).
Proof. unfold memset_acc, memset. pose proof memset_loop_runs. rn. Qed.
Hint Resolve memset_runs : runs.
Lemma walk_loop_runs l kpa va al x4 : runs (walk_acc_loop l kpa va al x4) (walk_loop (D:=D) l kpa va al x4).
Proof. revert kpa. induction l as [|l IH]; intros kpa; cbn [walk_acc_loop walk_loop]; rn. Qed.
Lemma walk_runs p va al x4 : runs (walk_acc p va al x4) (walk (D:=D) p va al x4).
Proof. unfold walk_acc, walk. pose proof walk_loop_runs. rn. Qed.
Hint Resolve walk_runs : runs.
Lemma map_page_runs p va pa f x4 : runs (map_page_acc p va pa f x4) (map_page (D:=D) p va pa f x4).
Proof. unfold map_page_acc, map_page. rn. Qed.
Hint Resolve map_page_runs : runs.
Lemma map_pages_loop_runs n i p va pa s f x4 :
  runs (map_pages_acc_loop n i p va pa s f x4) (map_pages_loop (D:=D) n i p va pa s f x4).
Proof. revert i. induction n as [|n IH]; intros i; cbn [map_pages_acc_loop map_pages_loop]; rn. Qed.
Lemma map_pages_runs p va pa s f x4 : runs (map_pages_acc p va pa s f x4) (map_pages (D:=D) p va pa s f x4).
Proof. apply map_pages_loop_runs. Qed.
Hint Resolve map_pages_runs : runs.

Lemma map_devices_runs devs p : runs (map_devices_acc devs p) (map_devices (D:=D) devs p).
Proof. induction devs as [|[dev|] devs IH]; cbn [map_devices_acc map_devices]; rn. Qed.
Hint Resolve map_devices_runs : runs.
Lemma init_hs_pgtable_runs c : runs (init_hs_pgtable_acc c) (init_hs_pgtable (D:=D) c).
Proof. unfold init_hs_pgtable_acc, init_hs_pgtable. rn. Qed.

(** Programs change memory and the allocator only. *)
Definition only {A} (m : M A) : Prop := ∀ w a w', m w = Ok a w' → mem_only w w'.
Lemma only_bind {A B} (m : M A) (k : A → M B) : only m → (∀ a, only (k a)) → only (m ≫= k).
Proof. intros Hm Hk w b w' (a & w1 & H1 & H2)%bind_ok_inv. etransitivity; [by eapply Hm|by eapply Hk]. Qed.
Lemma only_ret {A} (a : A) : only (mret a).
Proof. intros w ? w' [= _ <-]. reflexivity. Qed.
Lemma only_load64 a : only (load64 a).
Proof. intros w x w'. unfold load64. destruct (_ ≫= _); [|done]. intros [= _ <-]. reflexivity. Qed.
Lemma only_mem m w : mem_only (D:=D) w (set_mem m w).
Proof. exists m, (w_kmem w). by destruct w. Qed.
Lemma only_store64 a v : only (store64 a v).
Proof.
  intros w x w'. unfold store64. destruct (kptr_pa a) as [p|]; [|done]. destruct (rd64 _ _); [|done].
  intros [= _ <-]. apply only_mem.
Qed.
Lemma only_store8 a v : only (store8 a v).
Proof.
  intros w x w'. unfold store8. destruct (kptr_pa a) as [p|]; [|done]. destruct (w_mem w !! p); [|done].
  intros [= _ <-]. apply only_mem.
Qed.
Lemma only_memset_loop n p c : only (memset_loop n p c).
Proof.
  revert p. induction n as [|n IH]; intros p; cbn [memset_loop]; [apply only_ret|].
  apply only_bind; [apply only_store8|]. intros _. apply IH.
Qed.
Lemma only_kmem k w : mem_only (D:=D) w (set_kmem k w).
Proof. exists (w_mem w), k. by destruct w. Qed.
Lemma only_modify_kmem (f : world D → kmem_state) : only (modify (λ w, set_kmem (f w) w)).
Proof. intros w x w' [= _ <-]. apply only_kmem. Qed.
Lemma only_kmalloc : only kmalloc.
Proof.
  unfold kmalloc. apply only_bind.
  { intros w x w'. unfold acquire_kmem. destruct (_ =? 0); [|done]. intros [= _ <-]. apply only_kmem. }
  intros _. apply only_bind; [intros w x w' [= _ <-]; reflexivity|]. intros page. apply only_bind.
  { destruct (truthy page); [|apply only_ret]. apply only_bind; [apply only_load64|]. intros v. apply only_modify_kmem. }
  intros _. apply only_bind; [apply only_modify_kmem|]. intros _. apply only_bind; [|intros; apply only_ret].
  apply only_bind; [apply only_memset_loop|]. intros _. apply only_ret.
Qed.
Lemma run_only {A} (p : prog A) : only (run p).
Proof.
  induction p as [a|[]|a k IH|a v k IH|a v k IH|k IH]; cbn [run]; try done;
    [apply only_ret|apply only_bind; auto using only_load64, only_store64, only_store8, only_kmalloc..].
Qed.

(** The same, for a hart whose mycpu() returns [cpu]. *)
Definition runs_at (cpu : Z) {A} (p : prog A) (m : M A) : Prop := ∀ w, mycpu w = Ok cpu w → run p w = m w.
Lemma runs_at_all cpu {A} (p : prog A) (m : M A) : runs p m → runs_at cpu p m.
Proof. intros H w _. apply H. Qed.
Lemma mycpu_only cpu (w w' : world D) : mem_only w w' → mycpu w = Ok cpu w → mycpu w' = Ok cpu w'.
Proof.
  intros (m & k & ->). unfold mycpu. cbn [w_cpu_mapped w_tp set_mem set_kmem].
  destruct (truthy _); by intros [= ->].
Qed.
Lemma runs_at_bind cpu {A B} (p : prog A) m (f : A → prog B) (k : A → M B) :
  runs p m → (∀ a, runs_at cpu (f a) (k a)) → runs_at cpu (p ≫= f) (m ≫= k).
Proof.
  intros Hp Hf w Hc. etransitivity; [apply run_seq|]. unfold mbind, cmd_bind. rewrite <- (Hp w).
  destruct (run p w) as [a w'| | |] eqn:E; [|done..]. apply Hf. eapply mycpu_only; [by eapply run_only|done].
Qed.
Lemma runs_at_malloc cpu {A} (p : Z → prog A) (k : Z → M A) :
  (∀ x, runs_at cpu (p x) (k x)) → runs_at cpu (Malloc p) (x ← kmalloc; k x).
Proof.
  intros Hf w Hc. cbn [run]. unfold mbind, cmd_bind.
  destruct (kmalloc w) as [a w'| | |] eqn:E; [|done..]. apply Hf. eapply mycpu_only; [by eapply only_kmalloc|done].
Qed.
Lemma runs_at_mycpu cpu {A} (p : prog A) (k : Z → M A) : runs_at cpu p (k cpu) → runs_at cpu p (c ← mycpu; k c).
Proof. intros H w Hc. by rewrite (H w Hc), (bind_ok _ _ _ _ _ Hc). Qed.

Lemma init_vmem_runs cpu : runs_at cpu (init_vmem_acc cpu) (init_vmem (D:=D)).
Proof.
  unfold init_vmem_acc, init_vmem. apply runs_at_malloc. intros root.
  repeat lazymatch goal with
  | |- runs_at _ _ (mycpu ≫= _) => apply runs_at_mycpu
  | |- runs_at _ (_ ≫= _) _ => apply runs_at_bind; [solve [rn]|intros ?]
  | |- _ => apply runs_at_all, runs_ret
  end.
Qed.
End vmem.
