(* ===== verification/VmRunSpec.v ===== *)
(** * VmRunSpec: the guest-physical address space init_hs_pgtable builds

    [guest_translation] says, from the configuration alone and the list of RAM
    pages the allocator gave out, where a guest-physical address goes; the run
    lemmas show that the Sv39x4 tables implement it. *)

From S2P Require Import Prelude Layout Bits Memory Machine Kmem Vmem PageTable VmemSpec Sv39 VmRun.

(** ** The segments of a guest's address space *)

(** Number of pages map_pages maps for a size. *)
Definition npages (size : Z) : nat := Z.to_nat (PGROUNDUP size / PAGE_SIZE).

Lemma npages_size size : 0 <= size < 2 ^ 56 → PGROUNDUP size = PAGE_SIZE * Z.of_nat (npages size).
Proof.
  intros Hs. unfold npages. rewrite PGROUNDUP_spec by (unfold PAGE_SIZE; lia).
  unfold PAGE_SIZE. rewrite Z.div_mul by lia. rewrite Z2Nat.id by dlia. lia.
Qed.

Lemma npages_bound size : 0 <= size < 2 ^ 56 → PAGE_SIZE * Z.of_nat (npages size) < size + PAGE_SIZE ∧
  size <= PAGE_SIZE * Z.of_nat (npages size).
Proof.
  intros Hs. rewrite <- npages_size by done. rewrite PGROUNDUP_spec by (unfold PAGE_SIZE; lia).
  unfold PAGE_SIZE. dlia.
Qed.

(** Free pages that mapping [n] pages from [v] on may need for tables. *)
Definition need (v : Z) (n : nat) : nat := 2 * Z.to_nat ((v + Z.of_nat n - 1) / 512 - v / 512 + 1).

Definition dev_vpn (d : mmio_dev) : Z := vpn (virt_base d) true.
Definition dev_pages (d : mmio_dev) : nat := npages (dev_size d).
Definition dev_flags (d : mmio_dev) : Z := perm d .| PTE_U.
Definition in_dev (d : mmio_dev) (v : Z) : Prop := dev_vpn d <= v < dev_vpn d + Z.of_nat (dev_pages d).
#[export] Instance in_dev_dec d v : Decision (in_dev d v).
Proof. unfold in_dev. apply _. Defined.

Record dev_ok (d : mmio_dev) : Prop := {
  dok_size : 0 <= dev_size d < 2 ^ 40;
  dok_phys : 0 < phys_base d < 2 ^ 55;
  dok_virt : 0 <= virt_base d ∧ virt_base d + dev_size d + PAGE_SIZE <= 2 ^ 41;
  dok_perm : 0 <= perm d < 1024
}.

(** The entry of page [v] among devices. *)
Definition dev_entry (d : mmio_dev) (v : Z) : Z :=
  leaf_pte (phys_base d + PAGE_SIZE * (v - dev_vpn d)) (dev_flags d).
Fixpoint devs_entry (ds : list mmio_dev) (v : Z) : option Z :=
  match ds with
  | [] => None
  | d :: ds' => if decide (in_dev d v) then Some (dev_entry d v) else devs_entry ds' v
  end.

Fixpoint devs_disjoint (ds : list mmio_dev) : Prop :=
  match ds with
  | [] => True
  | d :: ds' => Forall (λ d', ∀ v, ¬ (in_dev d v ∧ in_dev d' v)) ds' ∧ devs_disjoint ds'
  end.

Fixpoint devs_need (ds : list mmio_dev) : nat :=
  match ds with
  | [] => 0
  | d :: ds' => need (dev_vpn d) (dev_pages d) + devs_need ds'
  end.

Lemma devs_entry_none ds v : Forall (λ d, ¬ in_dev d v) ds → devs_entry ds v = None.
Proof. induction 1 as [|d ds Hd _ IH]; cbn [devs_entry]; [done|]. by rewrite decide_False. Qed.

Lemma dev_vpn_div d : dev_ok d → dev_vpn d = virt_base d / 4096.
Proof.
  intros Hd. destruct (dok_virt _ Hd) as [H1 H2]. pose proof (dok_size _ Hd).
  unfold dev_vpn, vpn, PAGE_SIZE in *. apply Z.mod_small. dlia.
Qed.

Lemma dev_flags_range d : dev_ok d → 0 <= dev_flags d < 1024.
Proof.
  intros Hd. unfold dev_flags. change 1024 with (2 ^ 10).
  apply lor_range; [lia|apply (dok_perm _ Hd)|by vm_compute].
Qed.

Section devices.
Context {D : Type} {L : Linker} `{!LinkerOk L}.
Implicit Types (w : world D) (tabs : gmap Z tab) (fl data : list Z).

(** One device, as map_devices maps it. *)
Lemma map_device_run w tabs fl data pg r d : mem_inv w tabs fl data → root_ptr tabs pg r 1 → dev_ok d →
  (∀ v, in_dev d v → pt_look (w_mem w) 2 r v = None) →
  (need (dev_vpn d) (dev_pages d) <= length fl)%nat →
  ∃ w' tabs' fl',
    map_pages pg (virt_base d) (phys_base d) (dev_size d) (s32 (perm d .| PTE_U)) 1 w = Ok 0 w' ∧
    (length fl <= length fl' + need (dev_vpn d) (dev_pages d))%nat ∧
    pt_step data w tabs fl w' tabs' fl' []
      (λ r' v, if decide (r' = r ∧ in_dev d v) then Some (dev_entry d v) else None).
Proof.
  intros Hmi Hroot Hd Hun Hlen. pose proof (dev_flags_range d Hd) as Hfl.
  pose proof (dev_vpn_div d Hd) as Hv. destruct Hd as [Hs Hp [Hv0 Hv1] Hperm].
  pose proof (npages_bound (dev_size d) ltac:(lia)) as Hn. fold (dev_pages d) in Hn.
  pose proof (tables_needed_le (w_mem w) r (dev_vpn d) (dev_pages d)) as Ht.
  fold (need (dev_vpn d) (dev_pages d)) in Ht.
  rewrite s32_id by (fold (dev_flags d); lia). fold (dev_flags d).
  destruct (map_pages_fixed w tabs fl data pg r 1 (virt_base d) (phys_base d) (dev_size d)
    (dev_flags d) (dev_pages d) Hmi Hroot) as (w' & tabs' & fl' & Hrun & Hl & S);
    change (truthy 1) with true in *; fold (dev_vpn d) in *.
  - lia.
  - unfold PAGE_SIZE in *. lia.
  - exact Hfl.
  - lia.
  - unfold PAGE_SIZE in *. lia.
  - rewrite Hv. unfold vpn_bound, PAGE_SIZE in *. dlia.
  - apply npages_size. lia.
  - exact Hun.
  - lia.
  - exists w', tabs', fl'. split; [exact Hrun|]. split; [lia|].
    eapply pt_step_ext; [|exact S]. intros r' v. by rewrite upd_fixed.
Qed.

Lemma map_devices_run ds rest w tabs fl data pg r : mem_inv w tabs fl data → root_ptr tabs pg r 1 →
  Forall dev_ok ds → devs_disjoint ds →
  (∀ d v, d ∈ ds → in_dev d v → pt_look (w_mem w) 2 r v = None) →
  (devs_need ds <= length fl)%nat →
  ∃ w' tabs' fl', map_devices ((Some <$> ds) ++ None :: rest) pg w = Ok tt w' ∧
    (length fl <= length fl' + devs_need ds)%nat ∧
    pt_step data w tabs fl w' tabs' fl' [] (λ r' v, if decide (r' = r) then devs_entry ds v else None).
Proof.
  revert w tabs fl. induction ds as [|d ds IH]; intros w tabs fl Hmi Hroot Hok Hdis Hun Hlen.
  - exists w, tabs, fl. split; [done|]. split; [lia|].
    eapply pt_step_ext; [|eapply pt_grow_step; [exact Hmi|by apply pt_grow_refl]].
    intros r' v. simpl. by destruct (decide _).
  - apply Forall_cons in Hok as [Hd Hok]. destruct Hdis as [Hdd Hdis].
    cbn [devs_need] in Hlen |- *.
    destruct (map_device_run w tabs fl data pg r d) as (w1 & tabs1 & fl1 & H1 & Hl1 & S1);
      [done|done|done|intros v; apply Hun; by left|lia|].
    destruct (IH w1 tabs1 fl1) as (w2 & tabs2 & fl2 & H2 & Hl2 & S2); [apply S1| |done|done| |lia|].
    + exact (pt_step_root _ _ _ _ _ _ _ _ _ _ _ _ S1 Hroot).
    + intros d' v Hd' Hv. rewrite (s_look _ _ _ _ _ _ _ _ _ S1 r true); [|apply Hroot|].
      * rewrite decide_False; [apply (Hun d' v); [by right|done]|]. intros [_ Hin].
        rewrite Forall_forall in Hdd. by apply (Hdd d' Hd' v).
      * rewrite Forall_forall in Hok. specialize (Hok d' Hd'). revert Hv. unfold in_dev.
        rewrite dev_vpn_div by done. destruct Hok as [Hs _ [Hv0 Hv1] _].
        pose proof (npages_bound (dev_size d') ltac:(lia)) as Hn. fold (dev_pages d') in Hn.
        unfold vpn_bound, PAGE_SIZE in *. dlia.
    + exists w2, tabs2, fl2. cbn [fmap list_fmap app map_devices].
      split; [erewrite bind_ok by exact H1; exact H2|]. split; [lia|].
      eapply pt_step_ext; [|exact (pt_step_trans _ _ _ _ _ _ _ _ _ _ _ _ _ _ S1 S2)].
      intros r' v. cbn [devs_entry]. destruct (decide (r' = r)) as [->|Hne].
      * destruct (decide (in_dev d v)) as [Hin|Hin].
        -- rewrite devs_entry_none; [by rewrite decide_True|].
           eapply Forall_impl; [exact Hdd|]. intros d' Hnd Hin'. by apply (Hnd v).
        -- rewrite (decide_False (P := r = r ∧ in_dev d v)) by (by intros [_ ?]).
           by destruct (devs_entry ds v).
      * by rewrite decide_False by (by intros [? _]).
Qed.
End devices.

(** ** The whole address space *)

Definition image_size (c : vm_config) : Z := PGROUNDUP (u64 (image_end c - image_base c)).
Definition image_pages (c : vm_config) : nat := npages (u64 (image_end c - image_base c)).
Definition ram_pages (c : vm_config) : nat := npages (u64 (memory_size c - image_size c)).
Definition base_vpn (c : vm_config) : Z := vpn (memory_base c) true.
Definition ram_vpn (c : vm_config) : Z := base_vpn c + Z.of_nat (image_pages c).
Definition root_of (c : vm_config) : Z := KVA2PA (vm_pgtable c).

(** What a configuration must satisfy; [ds] are its devices. *)
Record vm_ok {L : Linker} (c : vm_config) (ds : list mmio_dev) : Prop := {
  vok_image : 0 < image_base c <= image_end c ∧ image_end c < 2 ^ 40;
  vok_mem : 0 <= memory_base c ∧ memory_base c mod 4096 = 0 ∧
            memory_base c + memory_size c + PAGE_SIZE <= 2 ^ 41;
  vok_fit : image_size c <= memory_size c;
  vok_root : ∃ o, vm_pgtable c = VAS_KERNEL + o ∧ 0 <= o ∧ o mod 4096 = 0 ∧
               VAS_KERNEL + o + PAGE_SIZE * 4 <= sym_dynamic;
  vok_devs : ∃ rest, devices c = (Some <$> ds) ++ None :: rest;
  vok_dev : Forall dev_ok ds;
  vok_disj : devs_disjoint ds;
  vok_ram d v : d ∈ ds → in_dev d v →
    ¬ (base_vpn c <= v < base_vpn c + Z.of_nat (image_pages c + ram_pages c))
}.

(** Pages init_hs_pgtable takes at most: guest RAM, and tables. *)
Definition vm_need (c : vm_config) (ds : list mmio_dev) : nat :=
  ram_pages c + need (base_vpn c) (image_pages c) + need (ram_vpn c) (ram_pages c) + devs_need ds.

(** The entry of guest page [v]: a device, a RAM page of [pages] or the image. *)
Definition guest_entry (c : vm_config) (ds : list mmio_dev) (pages : list Z) (v : Z) : option Z :=
  match devs_entry ds v with
  | Some e => Some e
  | None =>
      match upd_list (root_of c) (ram_vpn c) (KPA2PA <$> pages) PTE_URWX (root_of c) v with
      | Some e => Some e
      | None =>
          if decide (base_vpn c <= v < ram_vpn c)
          then Some (leaf_pte (image_base c + PAGE_SIZE * (v - base_vpn c)) PTE_URWX) else None
      end
  end.

Definition guest_translation (c : vm_config) (ds : list mmio_dev) (pages : list Z)
    (a : access) (gpa : Z) : option Z :=
  if (0 <=? gpa) && (gpa <? 2 ^ 41) then e ← guest_entry c ds pages (gpa / 4096); entry_translate true e a gpa else None.

(** The same with the page number as the MMU cuts it out of the address. *)
Lemma guest_translation_vpn c ds pages a gpa :
  guest_translation c ds pages a gpa = e ← guest_entry c ds pages (vpn gpa true); entry_translate true e a gpa.
Proof.
  unfold guest_translation. destruct (_ && _) eqn:E.
  - apply andb_true_iff in E as [H0%Z.leb_le H1%Z.ltb_lt]. unfold vpn. by rewrite (Z.mod_small (gpa / 4096)) by dlia.
  - destruct (guest_entry _ _ _ _) as [e|]; [|done]. cbn [mbind option_bind]. unfold entry_translate, in_space. cbn [negb orb].
    rewrite E. destruct (leaf_result e) as [[e' p]|]; [|done]. cbn [mbind option_bind]. by rewrite andb_false_r.
Qed.

Section vm.
Context {D : Type} {L : Linker} `{!LinkerOk L}.
Implicit Types (w : world D) (tabs : gmap Z tab) (fl data pages : list Z) (c : vm_config).

Lemma vm_sizes c ds : vm_ok c ds →
  image_size c = PAGE_SIZE * Z.of_nat (image_pages c) ∧
  0 <= memory_size c - image_size c < 2 ^ 41 ∧
  base_vpn c = memory_base c / 4096 ∧
  base_vpn c + Z.of_nat (image_pages c + ram_pages c) <= 2 ^ 29 ∧
  PAGE_SIZE * Z.of_nat (image_pages c) <= 2 ^ 41 ∧
  ram_vpn c = vpn (u64 (memory_base c + image_size c)) true ∧
  PAGE_SIZE * Z.of_nat (ram_pages c) <= 2 ^ 41.
Proof.
  intros [[Hi1 Hi2] (Hm1 & Hm2 & Hm3) Hfit _ _ _ _ _].
  assert (Hu : u64 (image_end c - image_base c) = image_end c - image_base c) by (apply u64_id; lia).
  assert (Hs : image_size c = PAGE_SIZE * Z.of_nat (image_pages c)).
  { unfold image_size, image_pages. apply npages_size. lia. }
  pose proof (npages_bound (image_end c - image_base c) ltac:(lia)) as Hn.
  rewrite <- Hu in Hn. fold (image_pages c) in Hn. rewrite Hu in Hn.
  unfold PAGE_SIZE in *.
  assert (Hms : 0 <= memory_size c - image_size c < 2 ^ 41) by lia.
  pose proof (npages_bound (u64 (memory_size c - image_size c))) as Hr. fold (ram_pages c) in Hr.
  rewrite u64_id in Hr by lia. specialize (Hr ltac:(lia)). unfold PAGE_SIZE in Hr.
  assert (Hb : base_vpn c = memory_base c / 4096).
  { unfold base_vpn, vpn. apply Z.mod_small. dlia. }
  split_and!; [done|lia|lia|done|rewrite Hb; dlia|lia| |lia].
  unfold ram_vpn. rewrite Hb. unfold vpn. rewrite u64_id by lia. rewrite Hs.
  rewrite (Z.mul_comm 4096), Z.div_add by lia. rewrite Z.mod_small; [done|]. dlia.
Qed.

Lemma PGROUNDUP_image c ds : vm_ok c ds → PGROUNDUP (image_size c) = PAGE_SIZE * Z.of_nat (image_pages c).
Proof.
  intros Hok. destruct (vm_sizes c ds Hok) as (Hs & _ & _ & _ & Hb & _). rewrite Hs.
  unfold PAGE_SIZE in *. rewrite PGROUNDUP_spec by (unfold PAGE_SIZE; lia). unfold PAGE_SIZE. dlia.
Qed.

Lemma vm_root c ds : vm_ok c ds → 0 <= root_of c ∧ root_of c mod 4096 = 0 ∧
  root_of c + PAGE_SIZE * 4 <= KVA2PA sym_dynamic ∧ kptr_range (vm_pgtable c) (root_of c) (PAGE_SIZE * 4).
Proof.
  intros Hok. destruct (vok_root _ _ Hok) as (o & Ho & H0 & Ha & Hd). pose proof dynamic_range as Hdr.
  unfold root_of. rewrite Ho. unfold DTB_MEMORY_SIZE, PAGE_SIZE in *.
  rewrite (proj1 dynamic_pa), KVA2PA_off by lia. unfold DTB_MEMORY.
  split_and!; [lia|revert Ha; clear; intros; dlia|lia|].
  apply kptr_range_kva; unfold GIGAPAGE; lia.
Qed.

(** The two map_pages calls for guest memory. *)
Lemma map_image_run w tabs fl data c ds : vm_ok c ds → mem_inv w tabs fl data →
  root_ptr tabs (vm_pgtable c) (root_of c) 1 →
  (∀ v, 0 <= v < vpn_bound true → pt_look (w_mem w) 2 (root_of c) v = None) →
  (need (base_vpn c) (image_pages c) <= length fl)%nat →
  ∃ w' tabs' fl',
    map_pages (vm_pgtable c) (memory_base c) (image_base c) (image_size c) PTE_URWX 1 w = Ok 0 w' ∧
    (length fl <= length fl' + need (base_vpn c) (image_pages c))%nat ∧
    pt_step data w tabs fl w' tabs' fl' []
      (λ r' v, if decide (r' = root_of c ∧ base_vpn c <= v < ram_vpn c)
               then Some (leaf_pte (image_base c + PAGE_SIZE * (v - base_vpn c)) PTE_URWX) else None).
Proof.
  intros Hok Hmi Hroot Hun Hlen. destruct (vm_sizes c ds Hok) as (Hs & Hms & Hb & Hbd & Hi & _).
  pose proof (tables_needed_le (w_mem w) (root_of c) (base_vpn c) (image_pages c)) as Ht.
  fold (need (base_vpn c) (image_pages c)) in Ht.
  destruct (vok_image _ _ Hok) as [Hi1 Hi2]. destruct (vok_mem _ _ Hok) as (Hm1 & Hm2 & Hm3).
  destruct (map_pages_fixed w tabs fl data (vm_pgtable c) (root_of c) 1 (memory_base c) (image_base c)
    (image_size c) PTE_URWX (image_pages c) Hmi Hroot) as (w' & tabs' & fl' & Hrun & Hl & S);
    change (truthy 1) with true in *; fold (base_vpn c) in *.
  - lia.
  - unfold PAGE_SIZE in *. lia.
  - by vm_compute.
  - lia.
  - unfold PAGE_SIZE in *. lia.
  - unfold vpn_bound. lia.
  - by eapply PGROUNDUP_image.
  - intros j Hj. apply Hun. unfold vpn_bound. rewrite Hb in *. dlia.
  - lia.
  - exists w', tabs', fl'. split; [exact Hrun|]. split; [lia|].
    eapply pt_step_ext; [|exact S]. intros r' v. rewrite upd_fixed. by fold (ram_vpn c).
Qed.

Lemma map_ram_run w tabs fl data c ds : vm_ok c ds → mem_inv w tabs fl data →
  root_ptr tabs (vm_pgtable c) (root_of c) 1 →
  (∀ v, ram_vpn c <= v < ram_vpn c + Z.of_nat (ram_pages c) → pt_look (w_mem w) 2 (root_of c) v = None) →
  (ram_pages c + need (ram_vpn c) (ram_pages c) <= length fl)%nat →
  ∃ w' tabs' fl' pages,
    map_pages (vm_pgtable c) (u64 (memory_base c + image_size c)) 0
      (u64 (memory_size c - image_size c)) PTE_URWX 1 w = Ok 0 w' ∧
    length pages = ram_pages c ∧
    (length fl <= length fl' + ram_pages c + need (ram_vpn c) (ram_pages c))%nat ∧
    pt_step data w tabs fl w' tabs' fl' (reverse pages)
      (upd_list (root_of c) (ram_vpn c) (KPA2PA <$> pages) PTE_URWX).
Proof.
  intros Hok Hmi Hroot Hun Hlen.
  destruct (vm_sizes c ds Hok) as (Hs & Hms & Hb & Hbd & Hi & Hrv & Hrp).
  pose proof (tables_needed_le (w_mem w) (root_of c) (ram_vpn c) (ram_pages c)) as Ht.
  fold (need (ram_vpn c) (ram_pages c)) in Ht. destruct (vok_mem _ _ Hok) as (Hm1 & Hm2 & Hm3).
  destruct (map_pages_fresh w tabs fl data (vm_pgtable c) (root_of c) 1
    (u64 (memory_base c + image_size c)) (u64 (memory_size c - image_size c)) PTE_URWX (ram_pages c)
    Hmi Hroot) as (w' & tabs' & fl' & pages & Hrun & Hlp & Hl & S);
    change (truthy 1) with true in *; rewrite <- ?Hrv in *.
  - by vm_compute.
  - apply u64_range.
  - rewrite u64_id; unfold PAGE_SIZE in *; lia.
  - unfold vpn_bound. unfold ram_vpn. lia.
  - apply npages_size. rewrite u64_id; lia.
  - exact Hun.
  - lia.
  - exists w', tabs', fl', pages. split_and!; [exact Hrun|exact Hlp|lia|exact S].
Qed.

Lemma upd_list_range r v pas flags r' v' : upd_list r v pas flags r' v' ≠ None →
  r' = r ∧ v <= v' < v + Z.of_nat (length pas).
Proof.
  unfold upd_list. destruct (decide _) as [[-> Hv]|]; [|done]. intros Hne. split; [done|].
  destruct (pas !! _) as [p|] eqn:E; [|done]. apply lookup_lt_Some in E. lia.
Qed.

Lemma in_dev_bound d v : dev_ok d → in_dev d v → 0 <= v < vpn_bound true.
Proof.
  intros Hok. unfold in_dev. rewrite dev_vpn_div by done. destruct Hok as [Hs _ [Hv0 Hv1] _].
  pose proof (npages_bound (dev_size d) ltac:(lia)) as Hn. fold (dev_pages d) in Hn.
  unfold vpn_bound, PAGE_SIZE in *. dlia.
Qed.

(** [w'] is [w] after the address space of [c] was built: [pages] are its RAM. *)
Record vm_built (c : vm_config) (ds : list mmio_dev) data w tabs fl w' tabs' fl' pages : Prop := {
  vb_only : mem_only w w';
  vb_inv : mem_inv w' tabs' fl' (reverse pages ++ data);
  vb_len : length pages = ram_pages c;
  vb_fl : ∃ used, fl = used ++ fl' ∧ pages ⊆ used ∧ (length used <= vm_need c ds)%nat;
  vb_sub : tabs ⊆ tabs';
  vb_new u j : tabs' !! u = Some j →
    tabs !! u = Some j ∨ (u = root_of c ∧ tsize j = PAGE_SIZE * 4) ∨
    ∃ x, valid_address x = true ∧ u = KPA2PA x;
  vb_static a : a < KVA2PA sym_dynamic → ¬ (root_of c <= a < root_of c + PAGE_SIZE * 4) →
    (∀ u j, tabs !! u = Some j → ¬ (u <= a < u + tsize j)) → w_mem w' !! a = w_mem w !! a;
  vb_root : root_ptr tabs' (vm_pgtable c) (root_of c) 1;
  vb_look v : 0 <= v < vpn_bound true →
    pt_look (w_mem w') 2 (root_of c) v = guest_entry c ds pages v;
  vb_other r' b v : is_root tabs r' b → 0 <= v < vpn_bound b →
    pt_look (w_mem w') 2 r' v = pt_look (w_mem w) 2 r' v;
  vb_zero x : x ∈ pages → zeroed (w_mem w') (KPA2PA x) PAGE_SIZE
}.

(** What init_hs_pgtable adds to the trees. *)
Definition vm_upd c ds pages (r' v : Z) : option Z :=
  if decide (r' = root_of c) then guest_entry c ds pages v else None.

Lemma vm_upd_eq c ds pages r' v :
  match (if decide (r' = root_of c) then devs_entry ds v else None) with
  | Some e => Some e
  | None =>
      match upd_list (root_of c) (ram_vpn c) (KPA2PA <$> pages) PTE_URWX r' v with
      | Some e => Some e
      | None => if decide (r' = root_of c ∧ base_vpn c <= v < ram_vpn c)
                then Some (leaf_pte (image_base c + PAGE_SIZE * (v - base_vpn c)) PTE_URWX) else None
      end
  end = vm_upd c ds pages r' v.
Proof.
  unfold vm_upd, guest_entry. destruct (decide (r' = root_of c)) as [->|Hne].
  - destruct (devs_entry ds v); [done|]. destruct (upd_list _ _ _ _ _ v); [done|].
    destruct (decide (base_vpn c <= v < ram_vpn c)).
    + by rewrite decide_True.
    + by rewrite decide_False by tauto.
  - destruct (upd_list _ _ _ _ r' v) as [e|] eqn:E.
    + exfalso. apply Hne. eapply (upd_list_range _ (ram_vpn c)). by rewrite E.
    + by rewrite decide_False by tauto.
Qed.

(** Image and RAM, on an empty root table. *)
Lemma map_memory_run w tabs fl data c ds : vm_ok c ds → mem_inv w tabs fl data →
  root_ptr tabs (vm_pgtable c) (root_of c) 1 →
  (∀ v, 0 <= v < vpn_bound true → pt_look (w_mem w) 2 (root_of c) v = None) →
  (vm_need c ds <= length fl)%nat →
  ∃ w1 w' tabs' fl' pages,
    map_pages (vm_pgtable c) (memory_base c) (image_base c) (image_size c) PTE_URWX 1 w = Ok 0 w1 ∧
    map_pages (vm_pgtable c) (u64 (memory_base c + image_size c)) 0
      (u64 (memory_size c - image_size c)) PTE_URWX 1 w1 = Ok 0 w' ∧
    length pages = ram_pages c ∧ (length fl + devs_need ds <= length fl' + vm_need c ds)%nat ∧
    pt_step data w tabs fl w' tabs' fl' (reverse pages) (λ r' v,
      match upd_list (root_of c) (ram_vpn c) (KPA2PA <$> pages) PTE_URWX r' v with
      | Some e => Some e
      | None => if decide (r' = root_of c ∧ base_vpn c <= v < ram_vpn c)
                then Some (leaf_pte (image_base c + PAGE_SIZE * (v - base_vpn c)) PTE_URWX) else None
      end).
Proof.
  intros Hok Hmi Hroot Hun Hlen. unfold vm_need in *.
  destruct (vm_sizes c ds Hok) as (Hs & _ & Hbv & Hbd & _).
  destruct (map_image_run w tabs fl data c ds Hok Hmi Hroot Hun) as (w1 & tabs1 & fl1 & H1 & Hl1 & S1); [lia|].
  destruct (map_ram_run w1 tabs1 fl1 data c ds Hok) as (w2 & tabs2 & fl2 & pages & H2 & Hlp & Hl2 & S2);
    [apply S1|exact (pt_step_root _ _ _ _ _ _ _ _ _ _ _ _ S1 Hroot)| |lia|].
  { intros v Hv. unfold ram_vpn in Hv. assert (Hvb : 0 <= v < vpn_bound true)
      by (unfold vpn_bound; destruct (vok_mem _ _ Hok); rewrite Hbv in *; dlia).
    rewrite (s_look _ _ _ _ _ _ _ _ _ S1 _ true); [|apply Hroot|exact Hvb].
    rewrite decide_False by (unfold ram_vpn; lia). by apply Hun. }
  pose proof (pt_step_trans _ _ _ _ _ _ _ _ _ _ _ _ _ _ S1 S2) as S12. rewrite app_nil_r in S12.
  exists w1, w2, tabs2, fl2, pages. split_and!; [exact H1|exact H2|exact Hlp|lia|exact S12].
Qed.

(** The three parts of the address space. *)
Lemma map_guest_run w tabs fl data c ds : vm_ok c ds → mem_inv w tabs fl data →
  root_ptr tabs (vm_pgtable c) (root_of c) 1 →
  (∀ v, 0 <= v < vpn_bound true → pt_look (w_mem w) 2 (root_of c) v = None) →
  (vm_need c ds <= length fl)%nat →
  ∃ w' tabs' fl' pages,
    (∀ w0 a, memset (vm_pgtable c) 0 (PAGE_SIZE * 4) w0 = Ok a w → init_hs_pgtable c w0 = Ok tt w') ∧
    length pages = ram_pages c ∧ (length fl <= length fl' + vm_need c ds)%nat ∧
    pt_step data w tabs fl w' tabs' fl' (reverse pages) (vm_upd c ds pages).
Proof.
  intros Hok Hmi Hroot Hun Hlen.
  destruct (map_memory_run w tabs fl data c ds Hok Hmi Hroot Hun Hlen)
    as (w1 & w2 & tabs2 & fl2 & pages & H1 & H2 & Hlp & Hl & S12).
  pose proof (pt_step_root _ _ _ _ _ _ _ _ _ _ _ _ S12 Hroot) as Hroot2.
  destruct (vok_devs _ _ Hok) as [rest Hrest].
  destruct (map_devices_run ds rest w2 tabs2 fl2 (reverse pages ++ data) (vm_pgtable c) (root_of c))
    as (w3 & tabs3 & fl3 & H3 & Hl3 & S3); [apply S12|exact Hroot2|apply Hok|apply Hok| |lia|].
  { intros d v Hd Hv. pose proof (vok_ram _ _ Hok d v Hd Hv) as Hnr.
    assert (Hvb : 0 <= v < vpn_bound true).
    { eapply in_dev_bound; [|exact Hv]. pose proof (vok_dev _ _ Hok) as Hf.
      rewrite Forall_forall in Hf. by apply Hf. }
    rewrite (s_look _ _ _ _ _ _ _ _ _ S12 _ true) by (apply Hroot || exact Hvb).
    destruct (upd_list _ _ _ _ _ v) as [e|] eqn:E.
    { destruct (upd_list_range (root_of c) (ram_vpn c) (KPA2PA <$> pages) PTE_URWX (root_of c) v)
        as [_ Hin]; [by rewrite E|]. rewrite length_fmap, Hlp in Hin. unfold ram_vpn in Hin. lia. }
    rewrite decide_False by (unfold ram_vpn; lia). by apply Hun. }
  pose proof (pt_step_trans _ _ _ _ _ _ _ _ _ _ _ _ _ _ S12 S3) as S. simpl app in S.
  exists w3, tabs3, fl3, pages. split_and!; [|exact Hlp|lia|].
  - intros w0 a H0. unfold init_hs_pgtable. erewrite bind_ok by exact H0. fold (image_size c).
    erewrite bind_ok by exact H1. cbn [Z.ltb Z.compare]. erewrite bind_ok by exact H2.
    cbn [Z.ltb Z.compare]. rewrite Hrest. exact H3.
  - eapply pt_step_ext; [|exact S]. intros r' v. apply vm_upd_eq.
Qed.

(** Clearing the root table and a step that adds the address space: [vm_built]. *)
Lemma vm_built_intro w tabs fl data c ds w0 w' tabs' fl' pages :
  vm_ok c ds → mem_only w w0 → tabs !! root_of c = None →
  let tabs0 := <[root_of c := mk_tab (root_of c) true 2 0]> tabs in
  root_ptr tabs0 (vm_pgtable c) (root_of c) 1 →
  (∀ v, 0 <= v < vpn_bound true → pt_look (w_mem w0) 2 (root_of c) v = None) →
  (∀ r' b v, is_root tabs r' b → 0 <= v < vpn_bound b →
     pt_look (w_mem w0) 2 r' v = pt_look (w_mem w) 2 r' v) →
  (∀ a, ¬ (root_of c <= a < root_of c + PAGE_SIZE * 4) → w_mem w0 !! a = w_mem w !! a) →
  length pages = ram_pages c → (length fl <= length fl' + vm_need c ds)%nat →
  pt_step data w0 tabs0 fl w' tabs' fl' (reverse pages) (vm_upd c ds pages) →
  vm_built c ds data w tabs fl w' tabs' fl' pages.
Proof.
  intros Hok Ho0 Hfr tabs0 Hroot0 Hun0 Hold0 Hfr0 Hlp Hl S.
  assert (Hnew : ∀ u j, tabs' !! u = Some j →
    tabs !! u = Some j ∨ (u = root_of c ∧ tsize j = PAGE_SIZE * 4) ∨
    ∃ x, valid_address x = true ∧ u = KPA2PA x).
  { intros u j Hu. destruct (s_new _ _ _ _ _ _ _ _ _ S u j Hu) as [Hu'|]; [|by auto].
    apply lookup_insert_Some in Hu' as [[<- <-]|[_ Hu']]; [|by left].
    right. left. split; reflexivity. }
  split; [|apply S|exact Hlp| | |exact Hnew| | | | |].
  - etrans; [exact Ho0|apply S].
  - destruct (s_fl _ _ _ _ _ _ _ _ _ S) as (used & Hf & Hsub). exists used. split; [exact Hf|].
    split; [intros x Hx; apply Hsub; by apply elem_of_reverse|].
    apply (f_equal length) in Hf. rewrite length_app in Hf. lia.
  - etrans; [|apply S]. by apply insert_subseteq.
  - intros a Ha Hnr Hnt. rewrite (s_frame _ _ _ _ _ _ _ _ _ S); [by apply Hfr0|..].
    + intros u j Hu Hin. destruct (Hnew u j Hu) as [Hu'|[[-> Ht]|(x & Hx & ->)]].
      * by apply (Hnt u j).
      * rewrite Ht in Hin. lia.
      * destruct (valid_address_pa x Hx) as (_ & ? & _). lia.
    + intros x Hx Hin. destruct (valid_address_pa x) as (_ & ? & _); [|lia].
      eapply mi_valid; [apply S|]. rewrite !elem_of_app. auto.
  - exact (pt_step_root _ _ _ _ _ _ _ _ _ _ _ _ S Hroot0).
  - intros v Hv. rewrite (s_look _ _ _ _ _ _ _ _ _ S _ true) by (apply Hroot0 || exact Hv).
    rewrite Hun0 by done. unfold vm_upd. rewrite decide_True by done. by destruct (guest_entry _ _ _ _).
  - intros r' b v Hr' Hv. rewrite <- (Hold0 r' b v Hr' Hv).
    assert (Hne : r' ≠ root_of c) by (intros ->; unfold is_root in Hr'; congruence).
    rewrite (s_look _ _ _ _ _ _ _ _ _ S r' b); [|by unfold is_root, tabs0; rewrite lookup_insert_ne|exact Hv].
    unfold vm_upd. by rewrite decide_False.
  - intros x Hx. apply (s_zero _ _ _ _ _ _ _ _ _ S). by apply elem_of_reverse.
Qed.

Lemma init_hs_pgtable_run w tabs fl data c ds : vm_ok c ds → mem_inv w tabs fl data →
  has_bytes (w_mem w) (root_of c) (PAGE_SIZE * 4) →
  (∀ u j, tabs !! u = Some j → root_of c + PAGE_SIZE * 4 <= u ∨ u + tsize j <= root_of c) →
  (vm_need c ds <= length fl)%nat →
  ∃ w' tabs' fl' pages, init_hs_pgtable c w = Ok tt w' ∧
    vm_built c ds data w tabs fl w' tabs' fl' pages.
Proof.
  intros Hok Hmi Hb Hsep Hlen. destruct (vm_root c ds Hok) as (Hr0 & Hra & Hrd & Hrk).
  assert (Hfr : tabs !! root_of c = None).
  { destruct (tabs !! root_of c) as [j|] eqn:E; [|done]. pose proof (tsize_pos j).
    destruct (Hsep _ _ E); unfold PAGE_SIZE in *; lia. }
  destruct (memset_root w tabs fl data (vm_pgtable c) (root_of c) Hmi Hrk Hb Hr0 Hra Hrd Hsep)
    as (w0 & H0 & Ho0 & Hmi0 & Hroot0 & Hun0 & Hold0 & Hfr0 & _).
  destruct (map_guest_run w0 _ fl data c ds Hok Hmi0 Hroot0) as (w' & tabs' & fl' & pages & Hrun & Hlp & Hl & S);
    [intros v Hv; by apply Hun0|exact Hlen|].
  exists w', tabs', fl', pages. split; [by eapply Hrun|].
  eapply vm_built_intro; [done|exact Ho0|exact Hfr|exact Hroot0| |exact Hold0|exact Hfr0|done|done|exact S].
  intros v Hv. by apply Hun0.
Qed.

Lemma vm_built_translation c ds data w tabs fl w' tabs' fl' pages a gpa :
  vm_built c ds data w tabs fl w' tabs' fl' pages →
  hw_translate (w_mem w') true (root_of c) a gpa = guest_translation c ds pages a gpa.
Proof.
  intros B. pose proof (vpn_range gpa true) as Hv. rewrite guest_translation_vpn.
  rewrite <- (vb_look _ _ _ _ _ _ _ _ _ _ B) by done.
  eapply hw_translate_look; [apply B|]. apply (proj1 (vb_root _ _ _ _ _ _ _ _ _ _ B)).
Qed.
End vm.
