(* ===== verification/Regions.v ===== *)
(** * Regions: an Sv39 tree as a list of mapped ranges

    Mapping consecutive ranges into one empty tree, one map_page or map_pages
    call after another, gives a tree described by the list of ranges. *)

From S2P Require Import Prelude Layout Memory Machine Kmem Vmem PageTable VmemSpec Sv39 VmRunSpec.

Record region := mk_region { rg_va : Z; rg_pa : Z; rg_size : Z; rg_flags : Z }.

Definition rg_vpn (g : region) : Z := vpn (rg_va g) false.
Definition rg_pages (g : region) : nat := npages (rg_size g).
Definition in_region (g : region) (v : Z) : Prop := rg_vpn g <= v < rg_vpn g + Z.of_nat (rg_pages g).
#[export] Instance in_region_dec g v : Decision (in_region g v).
Proof. unfold in_region. apply _. Defined.

Definition region_entry (g : region) (v : Z) : Z :=
  leaf_pte (rg_pa g + PAGE_SIZE * (v - rg_vpn g)) (rg_flags g).

(** The entry of page [v] when the ranges were mapped in the order of [gs] reversed. *)
Fixpoint regions_entry (gs : list region) (v : Z) : option Z :=
  match gs with
  | [] => None
  | g :: gs' => if decide (in_region g v) then Some (region_entry g v) else regions_entry gs' v
  end.

Record region_ok (g : region) : Prop := {
  gok_size : 0 <= rg_size g < 2 ^ 32;
  gok_pa : 0 < rg_pa g < 2 ^ 55 ∧ rg_pa g mod 4096 = 0;
  gok_va : 0 <= rg_va g ∧ rg_va g + rg_size g + PAGE_SIZE < 2 ^ 64 ∧ rg_va g mod 4096 = 0;
  gok_vpn : rg_vpn g + Z.of_nat (rg_pages g) <= vpn_bound false;
  gok_flags : 0 <= rg_flags g < 1024
}.

Definition apart (g h : region) : Prop :=
  rg_vpn g + Z.of_nat (rg_pages g) <= rg_vpn h ∨ rg_vpn h + Z.of_nat (rg_pages h) <= rg_vpn g.
#[export] Instance apart_dec g h : Decision (apart g h).
Proof. unfold apart. apply _. Defined.

Lemma regions_entry_none gs v : Forall (λ g, ¬ in_region g v) gs → regions_entry gs v = None.
Proof. induction 1 as [|g gs Hg _ IH]; cbn [regions_entry]; [done|]. by rewrite decide_False. Qed.

Lemma regions_entry_some gs v e : regions_entry gs v = Some e →
  ∃ g, g ∈ gs ∧ in_region g v ∧ e = region_entry g v.
Proof.
  induction gs as [|g gs IH]; cbn [regions_entry]; [done|]. destruct (decide _) as [Hin|].
  - intros [= <-]. exists g. split; [by left|done].
  - intros (g' & ? & ?)%IH. exists g'. split; [by right|done].
Qed.

(** With ranges that are pairwise apart the order does not matter. *)
Lemma regions_entry_in gs g v : ForallOrdPairs apart gs → g ∈ gs → in_region g v →
  regions_entry gs v = Some (region_entry g v).
Proof.
  induction 1 as [|g' gs Hap Hgs IH]; [by intros []%not_elem_of_nil|].
  intros [->|Hg]%elem_of_cons Hin; cbn [regions_entry]; [by rewrite decide_True|].
  rewrite decide_False; [by apply IH|]. intros Hin'. rewrite Forall_forall in Hap.
  specialize (Hap g Hg). unfold apart, in_region in *. lia.
Qed.

Section regions.
Context {D : Type} {L : Linker} `{!LinkerOk L}.
Implicit Types (w : world D) (tabs : gmap Z tab) (fl data : list Z) (g : region) (gs : list region).

(** The empty tree at [x] the ranges are mapped into. *)
Context (x r : Z) data w0 tabs0 fl0 (Hroot : root_ptr tabs0 x r 0)
  (Hempty : ∀ v, 0 <= v < vpn_bound false → pt_look (w_mem w0) 2 r v = None).

Definition space gs w tabs fl : Prop :=
  pt_step data w0 tabs0 fl0 w tabs fl [] (λ r' v, if decide (r' = r) then regions_entry gs v else None).

Lemma space_nil : mem_inv w0 tabs0 fl0 data → space [] w0 tabs0 fl0.
Proof.
  intros Hmi. eapply pt_step_ext; [|eapply pt_grow_step; [exact Hmi|by apply pt_grow_refl]].
  intros r' v. cbn [regions_entry]. by destruct (decide _).
Qed.

Lemma region_range g v : region_ok g → in_region g v → 0 <= v < vpn_bound false.
Proof.
  intros Hg Hv. pose proof (gok_vpn _ Hg). pose proof (vpn_range (rg_va g) false).
  unfold in_region, rg_vpn in *. lia.
Qed.

Lemma space_look gs w tabs fl v : space gs w tabs fl → 0 <= v < vpn_bound false →
  pt_look (w_mem w) 2 r v = regions_entry gs v.
Proof.
  intros S Hv. rewrite (s_look _ _ _ _ _ _ _ _ _ S r false) by (apply Hroot || done).
  rewrite decide_True by done. destruct (regions_entry gs v); [done|]. by apply Hempty.
Qed.

Lemma space_unmapped gs g w tabs fl v : space gs w tabs fl → region_ok g → Forall (apart g) gs →
  in_region g v → pt_look (w_mem w) 2 r v = None.
Proof.
  intros S Hg Hap Hv. rewrite (space_look gs w tabs fl) by (done || by apply (region_range g)).
  apply regions_entry_none. eapply Forall_impl; [exact Hap|]. intros h Hh Hin.
  unfold apart, in_region in *. lia.
Qed.

Lemma space_cons gs g w tabs fl w' tabs' fl' : space gs w tabs fl →
  pt_step data w tabs fl w' tabs' fl' []
    (λ r' v, if decide (r' = r ∧ in_region g v) then Some (region_entry g v) else None) →
  space (g :: gs) w' tabs' fl'.
Proof.
  intros S S'. eapply pt_step_ext; [|exact (pt_step_trans _ _ _ _ _ _ _ _ _ _ _ _ _ _ S S')].
  intros r' v. cbn [regions_entry]. destruct (decide (r' = r)) as [->|Hne].
  - destruct (decide (in_region g v)); [by rewrite decide_True|]. by rewrite decide_False by tauto.
  - by rewrite decide_False by tauto.
Qed.

Lemma map_pages_region gs g w tabs fl : space gs w tabs fl → region_ok g → Forall (apart g) gs →
  (need (rg_vpn g) (rg_pages g) <= length fl)%nat →
  ∃ w' tabs' fl', map_pages x (rg_va g) (rg_pa g) (rg_size g) (rg_flags g) 0 w = Ok 0 w' ∧
    (length fl <= length fl' + need (rg_vpn g) (rg_pages g))%nat ∧ space (g :: gs) w' tabs' fl'.
Proof.
  intros S Hg Hap Hlen. pose proof Hg as [Hs [Hp Hpa] (Hv0 & Hv1 & _) Hvb Hfl].
  pose proof (npages_bound (rg_size g) ltac:(lia)) as Hn. fold (rg_pages g) in Hn.
  pose proof (tables_needed_le (w_mem w) r (rg_vpn g) (rg_pages g)) as Ht.
  fold (need (rg_vpn g) (rg_pages g)) in Ht.
  destruct (map_pages_fixed w tabs fl data x r 0 (rg_va g) (rg_pa g) (rg_size g) (rg_flags g) (rg_pages g))
    as (w' & tabs' & fl' & Hrun & Hl & S'); change (truthy 0) with false in *; fold (rg_vpn g) in *.
  - apply S.
  - exact (pt_step_root _ _ _ _ _ _ _ _ _ _ _ _ S Hroot).
  - lia.
  - unfold PAGE_SIZE in *. lia.
  - exact Hfl.
  - exact Hv0.
  - unfold PAGE_SIZE in *. lia.
  - exact Hvb.
  - apply npages_size. lia.
  - intros v Hv. by eapply space_unmapped.
  - lia.
  - exists w', tabs', fl'. split; [exact Hrun|]. split; [lia|]. eapply space_cons; [exact S|].
    eapply pt_step_ext; [|exact S']. intros r' v. by rewrite upd_fixed.
Qed.

Lemma map_page_region gs g w tabs fl : space gs w tabs fl → region_ok g → Forall (apart g) gs →
  rg_size g = PAGE_SIZE → (2 <= length fl)%nat →
  ∃ w' tabs' fl', map_page x (rg_va g) (rg_pa g) (rg_flags g) 0 w = Ok 0 w' ∧
    (length fl <= length fl' + 2)%nat ∧ space (g :: gs) w' tabs' fl'.
Proof.
  intros S Hg Hap Hs Hlen. pose proof Hg as [_ [Hp Hpa] _ _ Hfl].
  assert (Hn : rg_pages g = 1%nat) by (unfold rg_pages; by rewrite Hs).
  assert (Hin : ∀ v, in_region g v ↔ v = rg_vpn g) by (intros v; unfold in_region; rewrite Hn; lia).
  pose proof (missing_le (w_mem w) 2 r (rg_vpn g)) as Hm.
  destruct (map_page_ok w tabs fl data x r 0 (rg_va g) (rg_pa g) (rg_flags g))
    as (w' & tabs' & fl' & Hrun & Hl & S' & _); change (truthy 0) with false in *; fold (rg_vpn g) in *.
  - apply S.
  - exact (pt_step_root _ _ _ _ _ _ _ _ _ _ _ _ S Hroot).
  - lia.
  - exact Hfl.
  - eapply space_unmapped; [exact S|exact Hg|exact Hap|by apply Hin].
  - lia.
  - exists w', tabs', fl'. split; [exact Hrun|]. split; [lia|]. eapply space_cons; [exact S|].
    eapply pt_step_ext; [|exact S']. intros r' v. cbn beta.
    destruct (decide (r' = r ∧ v = rg_vpn g)) as [[-> ->]|Hne].
    + rewrite decide_True by (split; [done|by apply Hin]). unfold region_entry.
      by rewrite Z.sub_diag, Z.mul_0_r, Z.add_0_r.
    + rewrite decide_False; [done|]. by rewrite Hin.
Qed.

(** Where the MMU takes an address in such a tree. *)
Lemma space_translate gs w tabs fl a va : space gs w tabs fl →
  hw_translate (w_mem w) false r a va =
  e ← regions_entry gs (vpn va false); entry_translate false e a va.
Proof.
  intros S. rewrite (hw_translate_look w tabs); [|apply S|].
  - by rewrite (space_look gs w tabs fl) by (done || apply vpn_range).
  - eapply lookup_weaken; [apply Hroot|apply S].
Qed.
End regions.

(** The translation a list of ranges describes. *)
Definition region_pa (g : region) (va : Z) : Z := rg_pa g + PAGE_SIZE * (vpn va false - rg_vpn g) + va mod 4096.

Definition regions_translation (gs : list region) (a : access) (va : Z) : option Z :=
  g ← list_find (λ g, in_region g (vpn va false)) gs;
  if access_ok false (rg_flags g.2) a then Some (region_pa g.2 va) else None.

Lemma regions_entry_find gs v :
  regions_entry gs v = (λ g, region_entry g.2 v) <$> list_find (λ g, in_region g v) gs.
Proof.
  induction gs as [|g gs IH]; [done|]. cbn [regions_entry list_find].
  destruct (decide (in_region g v)); [done|]. rewrite IH. by destruct (list_find _ gs).
Qed.

Lemma regions_translate gs a va : Forall region_ok gs →
  (e ← regions_entry gs (vpn va false); entry_translate false e a va) = regions_translation gs a va.
Proof.
  intros Hok. unfold regions_translation. rewrite regions_entry_find.
  destruct (list_find _ gs) as [[n g]|] eqn:E; [|done]. cbn [fmap option_fmap option_map mbind option_bind snd].
  apply list_find_Some in E as (Hl & Hin & _). rewrite Forall_lookup in Hok. specialize (Hok _ _ Hl).
  pose proof Hok as [Hs [Hp Hpa] _ Hvb Hfl]. cbn [snd].
  pose proof (npages_bound (rg_size g) ltac:(lia)) as Hn. fold (rg_pages g) in Hn.
  unfold region_entry. unfold in_region in Hin. unfold PAGE_SIZE in *.
  rewrite entry_translate_leaf by lia. destruct (access_ok _ _ _); [|done].
  unfold region_pa, PAGE_SIZE. do 2 f_equal. dlia.
Qed.

(** ** Addresses instead of page numbers *)

(** Sv39 addresses are sign-extended from bit 38; the MMU refuses others. *)
Definition canonical (va : Z) : bool :=
  (0 <=? va) && (va <? 2 ^ 38) || (2 ^ 64 - 2 ^ 38 <=? va) && (va <? 2 ^ 64).
Definition mmu (m : ram) (r : Z) (a : access) (va : Z) : option Z :=
  if canonical va then hw_translate m false r a va else None.

(** The end of the last page of a range. *)
Definition rg_end (g : region) : Z := rg_va g + PAGE_SIZE * Z.of_nat (rg_pages g).
Definition holds (g : region) (va : Z) : Prop := rg_va g <= va < rg_end g.
#[export] Instance holds_dec g va : Decision (holds g va).
Proof. unfold holds. apply _. Defined.

(** An address space as ranges of addresses. *)
Definition address_map (gs : list region) (a : access) (va : Z) : option Z :=
  g ← list_find (λ g, holds g va) gs;
  if access_ok false (rg_flags g.2) a then Some (rg_pa g.2 + (va - rg_va g.2)) else None.

(** A range inside one half of the canonical addresses. *)
Definition in_half (g : region) : Prop :=
  rg_va g < 2 ^ 38 ∧ rg_end g <= 2 ^ 38 ∨ 2 ^ 64 - 2 ^ 38 <= rg_va g ∧ rg_end g <= 2 ^ 64.

Lemma vpn_low va : 0 <= va < 2 ^ 38 → vpn va false = va / 4096.
Proof. intros H. unfold vpn. apply Z.mod_small. dlia. Qed.
Lemma vpn_high va : 2 ^ 64 - 2 ^ 38 <= va < 2 ^ 64 → vpn va false = va / 4096 - (2 ^ 52 - 2 ^ 27).
Proof.
  intros H. unfold vpn.
  replace (va / 4096) with ((va / 4096 - (2 ^ 52 - 2 ^ 27)) + 0x1ffffff * 2 ^ 27) at 1 by lia.
  rewrite Z.mod_add by lia. apply Z.mod_small. dlia.
Qed.

Lemma canonical_spec va : canonical va = true ↔ 0 <= va < 2 ^ 38 ∨ 2 ^ 64 - 2 ^ 38 <= va < 2 ^ 64.
Proof. unfold canonical. rewrite orb_true_iff, !andb_true_iff, !Z.leb_le, !Z.ltb_lt. lia. Qed.

Lemma in_region_holds g va : region_ok g → in_half g →
  (canonical va = true ∧ in_region g (vpn va false) ↔ holds g va) ∧
  (holds g va → region_pa g va = rg_pa g + (va - rg_va g)).
Proof.
  intros [Hs _ (Hv0 & Hv1 & Hal) _ _] Hh. rewrite canonical_spec.
  pose proof (npages_bound (rg_size g) ltac:(lia)) as Hn. fold (rg_pages g) in Hn.
  unfold in_half, region_pa, holds, in_region, rg_end, rg_vpn, PAGE_SIZE in *.
  assert (Hg : vpn (rg_va g) false = rg_va g / 4096 ∧ rg_va g < 2 ^ 38 ∨
               vpn (rg_va g) false = rg_va g / 4096 - (2 ^ 52 - 2 ^ 27) ∧ 2 ^ 64 - 2 ^ 38 <= rg_va g).
  { destruct (decide (rg_va g < 2 ^ 38)); [left; rewrite vpn_low by lia|right; rewrite vpn_high by lia]; lia. }
  assert (Hv : 0 <= va < 2 ^ 38 ∧ vpn va false = va / 4096 ∨
    2 ^ 64 - 2 ^ 38 <= va < 2 ^ 64 ∧ vpn va false = va / 4096 - (2 ^ 52 - 2 ^ 27) ∨
    ¬ (0 <= va < 2 ^ 38 ∨ 2 ^ 64 - 2 ^ 38 <= va < 2 ^ 64)).
  { destruct (decide (0 <= va < 2 ^ 38)); [left; rewrite vpn_low by lia; lia|right].
    destruct (decide (2 ^ 64 - 2 ^ 38 <= va < 2 ^ 64)); [left; rewrite vpn_high by lia; lia|right; lia]. }
  generalize dependent (vpn (rg_va g) false). generalize dependent (vpn va false).
  generalize dependent (Z.of_nat (rg_pages g)). clear Hs. generalize dependent (rg_va g). intros.
  clear -Hal Hh Hg Hv Hv0 Hv1. split; [split|]; dlia.
Qed.

Lemma find_ext {A} (P Q : A → Prop) `{!∀ x, Decision (P x), !∀ x, Decision (Q x)} (l : list A) :
  Forall (λ x, P x ↔ Q x) l → list_find P l = list_find Q l.
Proof.
  induction 1 as [|x l Hx _ IH]; [done|]. cbn [list_find].
  destruct (decide (P x)), (decide (Q x)); [done|tauto|tauto|by rewrite IH].
Qed.

Lemma regions_address gs a va : Forall region_ok gs → Forall in_half gs →
  (if canonical va then regions_translation gs a va else None) = address_map gs a va.
Proof.
  intros Hok Hh. unfold address_map, regions_translation.
  assert (H : Forall (λ g, region_ok g ∧ in_half g) gs) by (by apply Forall_and). clear Hok Hh.
  destruct (canonical va) eqn:Hc.
  - rewrite (find_ext (λ g, in_region g (vpn va false)) (λ g, holds g va)).
    + destruct (list_find _ gs) as [[n g]|] eqn:E; [|done]. cbn [mbind option_bind snd].
      apply list_find_Some in E as (Hl & Hin & _). rewrite Forall_lookup in H.
      destruct (H _ _ Hl) as [Hok Hh]. destruct (in_region_holds g va Hok Hh) as [_ E]. by rewrite E.
    + eapply Forall_impl; [exact H|]. intros g [Hok Hh].
      destruct (in_region_holds g va Hok Hh) as [E _]. rewrite <- E. tauto.
  - destruct (list_find _ gs) as [[n g]|] eqn:E; [|done]. exfalso.
    apply list_find_Some in E as (Hl & Hin & _). rewrite Forall_lookup in H.
    destruct (H _ _ Hl) as [Hok Hh]. destruct (in_region_holds g va Hok Hh) as [E _].
    apply E in Hin as [Hc' _]. congruence.
Qed.

(** Ranges of physical memory that do not meet. *)
Definition phys_end (g : region) : Z := rg_pa g + PAGE_SIZE * Z.of_nat (rg_pages g).
Definition phys_apart (g h : region) : Prop := phys_end g <= rg_pa h ∨ phys_end h <= rg_pa g.
#[export] Instance phys_apart_dec g h : Decision (phys_apart g h).
Proof. unfold phys_apart. apply _. Defined.

Lemma address_map_some gs a va p : address_map gs a va = Some p →
  ∃ g, g ∈ gs ∧ holds g va ∧ access_ok false (rg_flags g) a = true ∧ p = rg_pa g + (va - rg_va g).
Proof.
  unfold address_map. destruct (list_find _ gs) as [[n g]|] eqn:E; [|done]. cbn [mbind option_bind snd].
  apply list_find_Some in E as (Hl & Hin & _). destruct (access_ok _ _ _) eqn:Ha; [|done]. intros [= <-].
  exists g. split; [by eapply list_elem_of_lookup_2|]. split; [exact Hin|]. split; [exact Ha|done].
Qed.

(** Without common physical memory there are no aliases: an address the tree maps
    is determined by the physical byte. *)
Lemma address_map_inj gs a a' va va' p : ForallOrdPairs phys_apart gs →
  address_map gs a va = Some p → address_map gs a' va' = Some p →
  va = va' ∧ ∃ g, g ∈ gs ∧ holds g va ∧ access_ok false (rg_flags g) a = true ∧
    access_ok false (rg_flags g) a' = true.
Proof.
  intros Hap (g & Hg & Hin & Ha & E)%address_map_some (g' & Hg' & Hin' & Ha' & E')%address_map_some.
  destruct (ForallOrdPairs_In Hap g g') as [->|[H|H]]; [by apply list_elem_of_In..| | |].
  - split; [lia|]. by exists g'.
  - exfalso. unfold phys_apart, phys_end, holds, rg_end in *. lia.
  - exfalso. unfold phys_apart, phys_end, holds, rg_end in *. lia.
Qed.

(** The range that holds an address decides. *)
Lemma address_map_at gs g a va : ForallOrdPairs apart gs → Forall region_ok gs → Forall in_half gs →
  g ∈ gs → holds g va →
  address_map gs a va = if access_ok false (rg_flags g) a then Some (rg_pa g + (va - rg_va g)) else None.
Proof.
  intros Hap Hok Hh Hg Hin. unfold address_map.
  destruct (list_find _ gs) as [[n g']|] eqn:E.
  - apply list_find_Some in E as (Hl & Hin' & _). apply list_elem_of_lookup_2 in Hl. cbn [mbind option_bind snd].
    assert (g' = g) as ->; [|done]. rewrite Forall_forall in Hok, Hh.
    apply (in_region_holds g va (Hok _ Hg) (Hh _ Hg)) in Hin as [_ Hin].
    apply (in_region_holds g' va (Hok _ Hl) (Hh _ Hl)) in Hin' as [_ Hin'].
    destruct (ForallOrdPairs_In Hap g g') as [->|[H|H]]; [by apply list_elem_of_In..|done| |];
      exfalso; unfold apart, in_region in *; lia.
  - apply list_find_None in E. rewrite Forall_forall in E. by destruct (E g Hg).
Qed.
