(* ===== verification/KernelSpace.v ===== *)
(** * KernelSpace: the hypervisor's own address space, init_vmem of mem/vmem.c

    [kernel_regions] lists what init_vmem maps for the hart whose [struct cpu] is
    at [cpu]; the run lemma shows that the tree it returns is exactly that. *)

From S2P Require Import Prelude Layout Memory Machine Kmem Cpu Linkerscript Vmem PageTable VmemSpec Sv39 VmRunSpec Regions.

Section kspace.
Context {L : Linker}.

Definition PTE_RWG : Z := PTE_R .| PTE_W .| PTE_G.
Definition mmio_regions : list region :=
  [ mk_region DTB_CLINT DTB_CLINT DTB_CLINT_SIZE PTE_RWG;
    mk_region DTB_PLIC DTB_PLIC DTB_PLIC_SIZE PTE_RWG;
    mk_region DTB_VIRTIO0 DTB_VIRTIO0 DTB_VIRTIO_SIZE PTE_RWG;
    mk_region DTB_PCI DTB_PCI DTB_PCI_SIZE PTE_RWG;
    mk_region DTB_SERIAL DTB_SERIAL PAGE_SIZE PTE_RWG;
    mk_region DTB_RTC DTB_RTC PAGE_SIZE PTE_RWG;
    mk_region DTB_PLATFORM_BUS DTB_PLATFORM_BUS PAGE_SIZE PTE_RWG;
    mk_region DTB_FLASH DTB_FLASH PAGE_SIZE PTE_RWG ].
Definition text_region : region :=
  mk_region sym_text (KVA2PA sym_text) (sym_etext - sym_text) (PTE_R .| PTE_X .| PTE_G).
Definition rodata_region : region :=
  mk_region sym_rodata (KVA2PA sym_rodata) (sym_erodata - sym_rodata) (PTE_R .| PTE_G).
Definition data_region : region :=
  mk_region sym_data (KVA2PA sym_data) (sym_edata - sym_data) PTE_RWG.
Definition cpu_region (cpu : Z) : region :=
  mk_region VAS_CPU_STRUCT (KVA2PA cpu) CPU_SIZE (PTE_R .| PTE_W).
Definition ram_region : region :=
  mk_region (KVA2KPA sym_dynamic) (KVA2PA sym_dynamic)
    (DTB_MEMORY_SIZE - (KVA2PA sym_dynamic - DTB_MEMORY)) PTE_RWG.

Definition kernel_regions (cpu : Z) : list region :=
  ram_region :: cpu_region cpu :: data_region :: rodata_region :: text_region :: mmio_regions.

(** Tables the tree needs at most. *)
Definition kernel_need : nat := 13 * 260.

Context `{!ImageOk L}.

(** ** The regions as numbers *)

(** Page [k] of the kernel window. *)
Lemma vpn_kva o : 0 <= o < 2 ^ 37 → vpn (VAS_KERNEL + o) false = 2 ^ 26 + o / 4096.
Proof.
  intros Ho. unfold vpn, VAS_KERNEL. replace (0xffffffc000000000 + o) with (o + 0xffffffc000000 * 4096) by lia.
  rewrite Z.div_add by lia. replace (o / 4096 + 0xffffffc000000) with (2 ^ 26 + o / 4096 + 0x1ffffff * 2 ^ 27) by lia.
  rewrite Z.mod_add by lia. apply Z.mod_small. dlia.
Qed.
Lemma vpn_kpa o : 0 <= o < 2 ^ 37 → vpn (VAS_RAM + o) false = 0x6000000 + o / 4096.
Proof.
  intros Ho. unfold vpn, VAS_RAM. replace (0xffffffe000000000 + o) with (o + 0xffffffe000000 * 4096) by lia.
  rewrite Z.div_add by lia. replace (o / 4096 + 0xffffffe000000) with (0x6000000 + o / 4096 + 0x1ffffff * 2 ^ 27) by lia.
  rewrite Z.mod_add by lia. apply Z.mod_small. dlia.
Qed.

(** The symbols as offsets into the kernel window. *)
Record offsets (t et ro ero d ed cs dy : Z) : Prop := {
  of_eq : sym_text = VAS_KERNEL + t ∧ sym_etext = VAS_KERNEL + et ∧ sym_rodata = VAS_KERNEL + ro ∧
          sym_erodata = VAS_KERNEL + ero ∧ sym_data = VAS_KERNEL + d ∧ sym_edata = VAS_KERNEL + ed ∧
          sym_cpu_structs = VAS_KERNEL + cs ∧ sym_dynamic = VAS_KERNEL + dy;
  of_order : 0x100000 <= t ∧ t <= et ∧ et <= ro ∧ ro <= ero ∧ ero <= d ∧ d <= ed ∧ ed <= cs ∧
             cs + 0x6000 <= dy ∧ dy < 0x10000000;
  of_aligned : t mod 4096 = 0 ∧ ro mod 4096 = 0 ∧ d mod 4096 = 0 ∧ cs mod 4096 = 0 ∧ dy mod 4096 = 0
}.

Lemma image_offsets : ∃ t et ro ero d ed cs dy, offsets t et ro ero d ed cs dy.
Proof.
  pose proof dynamic_range as Hd. pose proof image_order as Ho. pose proof dynamic_aligned as A1.
  pose proof text_aligned as A2. pose proof rodata_aligned as A3. pose proof data_aligned as A4.
  pose proof cpu_structs_aligned as A5.
  unfold FIRMWARE_SIZE, DTB_MEMORY_SIZE, DTB_NR_CPUS, CPU_SIZE, PAGE_SIZE in *.
  exists (sym_text - VAS_KERNEL), (sym_etext - VAS_KERNEL), (sym_rodata - VAS_KERNEL),
    (sym_erodata - VAS_KERNEL), (sym_data - VAS_KERNEL), (sym_edata - VAS_KERNEL),
    (sym_cpu_structs - VAS_KERNEL), (sym_dynamic - VAS_KERNEL).
  split; [lia|lia|]. unfold VAS_KERNEL. clear -A1 A2 A3 A4 A5. dlia.
Qed.

(** A region of the kernel window. *)
Lemma kva_region o s fl : 0 <= o → 0 <= s → o + s <= 2 ^ 31 → o mod 4096 = 0 → 0 <= fl < 1024 →
  let g := mk_region (VAS_KERNEL + o) (KVA2PA (VAS_KERNEL + o)) s fl in
  region_ok g ∧ rg_vpn g = 2 ^ 26 + o / 4096 ∧
  o / 4096 + Z.of_nat (rg_pages g) = (o + s + 4095) / 4096.
Proof.
  intros Ho Hs Hb Hal Hfl g. pose proof (npages_bound s ltac:(lia)) as Hn. fold (rg_pages g) in Hn.
  assert (Hv : rg_vpn g = 2 ^ 26 + o / 4096) by (apply vpn_kva; lia). unfold PAGE_SIZE in *.
  split; [|split; [exact Hv|change (rg_pages g) with (npages s) in *; dlia]].
  split; unfold g; cbn [rg_size rg_pa rg_va rg_flags].
  - lia.
  - rewrite KVA2PA_off by lia. unfold DTB_MEMORY. clear -Ho Hb Hs Hal. dlia.
  - unfold VAS_KERNEL, PAGE_SIZE. clear -Ho Hb Hs Hal. dlia.
  - fold g. rewrite Hv. unfold vpn_bound. change (rg_pages g) with (npages s) in *. dlia.
  - exact Hfl.
Qed.

Lemma mmio_ok : Forall region_ok mmio_regions ∧ ForallOrdPairs apart mmio_regions.
Proof.
  split; [repeat (apply Forall_cons; split; [split; by vm_compute|]); constructor|].
  unfold mmio_regions. repeat first [apply FOP_nil | apply FOP_cons | apply Forall_nil_2 | apply Forall_cons_2];
    apply (bool_decide_unpack _); by vm_compute.
Qed.

Lemma mmio_low : Forall (λ g, rg_vpn g + Z.of_nat (rg_pages g) <= 0x40000) mmio_regions.
Proof. repeat (apply Forall_cons; split; [by vm_compute|]). constructor. Qed.

(** [g] covers the pages [lo .. hi - 1]. *)
Definition seg (g : region) (lo hi : Z) : Prop := rg_vpn g = lo ∧ rg_vpn g + Z.of_nat (rg_pages g) = hi.

Lemma seg_apart g h lo hi lo' hi' : seg g lo hi → seg h lo' hi' → hi <= lo' ∨ hi' <= lo → apart g h.
Proof. unfold seg, apart. lia. Qed.

Lemma seg_mmio g lo hi : seg g lo hi → 0x40000 <= lo → Forall (apart g) mmio_regions.
Proof.
  intros [Hg _] Hlo. eapply Forall_impl; [exact mmio_low|]. cbn beta. unfold apart. lia.
Qed.

Definition cpu_addr (h : Z) : Z := u64 (sym_cpu_structs + h * CPU_SIZE).

Section numbers.
Context t et ro ero d ed cs dy (O : offsets t et ro ero d ed cs dy) (h : Z) (Hh : 0 <= h < DTB_NR_CPUS).

Lemma cpu_addr_off : cpu_addr h = VAS_KERNEL + (cs + h * 0x3000).
Proof.
  destruct (of_eq _ _ _ _ _ _ _ _ O) as (_ & _ & _ & _ & _ & _ & E & _).
  pose proof (of_order _ _ _ _ _ _ _ _ O) as Ho. unfold cpu_addr. rewrite E.
  change CPU_SIZE with 0x3000. unfold DTB_NR_CPUS in Hh. rewrite u64_id; unfold VAS_KERNEL; lia.
Qed.

Lemma dynamic_pa_off : KVA2PA sym_dynamic = DTB_MEMORY + dy ∧ KVA2KPA sym_dynamic = VAS_RAM + dy.
Proof.
  destruct (of_eq _ _ _ _ _ _ _ _ O) as (_ & _ & _ & _ & _ & _ & _ & E).
  pose proof (of_order _ _ _ _ _ _ _ _ O) as Ho. rewrite E. rewrite KVA2PA_off, KVA2KPA_off by lia. done.
Qed.

Lemma image_segs :
  (region_ok text_region ∧ seg text_region (2 ^ 26 + t / 4096) (2 ^ 26 + (et + 4095) / 4096)) ∧
  (region_ok rodata_region ∧ seg rodata_region (2 ^ 26 + ro / 4096) (2 ^ 26 + (ero + 4095) / 4096)) ∧
  (region_ok data_region ∧ seg data_region (2 ^ 26 + d / 4096) (2 ^ 26 + (ed + 4095) / 4096)).
Proof.
  destruct (of_eq _ _ _ _ _ _ _ _ O) as (E1 & E2 & E3 & E4 & E5 & E6 & _).
  pose proof (of_order _ _ _ _ _ _ _ _ O) as Ho. pose proof (of_aligned _ _ _ _ _ _ _ _ O) as Ha.
  assert (H : ∀ o e fl, 0 <= o → o <= e → e <= 2 ^ 31 → o mod 4096 = 0 → 0 <= fl < 1024 →
    let g := mk_region (VAS_KERNEL + o) (KVA2PA (VAS_KERNEL + o)) (VAS_KERNEL + e - (VAS_KERNEL + o)) fl in
    region_ok g ∧ seg g (2 ^ 26 + o / 4096) (2 ^ 26 + (e + 4095) / 4096)).
  { intros o e fl ?????. replace (VAS_KERNEL + e - (VAS_KERNEL + o)) with (e - o) by lia.
    destruct (kva_region o (e - o) fl) as (Hok & Hv & Hn); [lia..|]. split; [exact Hok|].
    split; [exact Hv|]. rewrite Hv. replace (o + (e - o) + 4095) with (e + 4095) in Hn by lia. lia. }
  unfold text_region, rodata_region, data_region. rewrite E1, E2, E3, E4, E5, E6.
  split_and!; apply H; first [lia|by vm_compute|tauto].
Qed.

Lemma cpu_seg : region_ok (cpu_region (cpu_addr h)) ∧
  seg (cpu_region (cpu_addr h)) (2 ^ 26 + 2 ^ 18) (2 ^ 26 + 2 ^ 18 + 3).
Proof.
  pose proof (of_order _ _ _ _ _ _ _ _ O) as Ho. pose proof (of_aligned _ _ _ _ _ _ _ _ O) as Ha.
  split; [|split; by vm_compute]. unfold DTB_NR_CPUS in Hh.
  split; unfold cpu_region; cbn [rg_size rg_pa rg_va rg_flags]; [by vm_compute| |by vm_compute..].
  rewrite cpu_addr_off, KVA2PA_off by lia. unfold DTB_MEMORY. clear -Ha Ho Hh. dlia.
Qed.

Lemma ram_seg : region_ok ram_region ∧ seg ram_region (0x6000000 + dy / 4096) 0x6010000.
Proof.
  pose proof (of_order _ _ _ _ _ _ _ _ O) as Ho. destruct (of_aligned _ _ _ _ _ _ _ _ O) as (_ & _ & _ & _ & Ha).
  destruct dynamic_pa_off as [Ep Ek]. unfold ram_region. rewrite Ep, Ek.
  replace (DTB_MEMORY_SIZE - (DTB_MEMORY + dy - DTB_MEMORY)) with (0x10000000 - dy)
    by (unfold DTB_MEMORY_SIZE; lia).
  pose proof (npages_bound (0x10000000 - dy) ltac:(lia)) as Hn. unfold PAGE_SIZE in Hn.
  assert (Hs : seg (mk_region (VAS_RAM + dy) (DTB_MEMORY + dy) (0x10000000 - dy) PTE_RWG)
    (0x6000000 + dy / 4096) 0x6010000).
  { unfold seg, rg_vpn, rg_pages. cbn [rg_va rg_size]. rewrite vpn_kpa by lia.
    split; [done|]. clear -Hn Ho Ha. dlia. }
  split; [|exact Hs]. destruct Hs as [_ Hs]. split; cbn [rg_size rg_pa rg_va rg_flags]; [lia| | |rewrite Hs; by vm_compute|by vm_compute].
  - unfold DTB_MEMORY. clear -Ho Ha. dlia.
  - unfold VAS_RAM, PAGE_SIZE. clear -Ho Ha. dlia.
Qed.

Lemma kernel_regions_ok : Forall region_ok (kernel_regions (cpu_addr h)) ∧
  ForallOrdPairs apart (kernel_regions (cpu_addr h)).
Proof.
  destruct image_segs as ((T & St) & (R & Sr) & (A & Sd)). destruct cpu_seg as [C Sc].
  destruct ram_seg as [M Sm]. destruct mmio_ok as [Mo Ma].
  pose proof (of_order _ _ _ _ _ _ _ _ O) as Ho. pose proof (of_aligned _ _ _ _ _ _ _ _ O) as Ha.
  unfold kernel_regions. split.
  - apply Forall_cons; split; [exact M|]. apply Forall_cons; split; [exact C|].
    apply Forall_cons; split; [exact A|]. apply Forall_cons; split; [exact R|].
    apply Forall_cons; split; [exact T|exact Mo].
  - apply FOP_cons; [|apply FOP_cons; [|apply FOP_cons; [|apply FOP_cons; [|apply FOP_cons; [|exact Ma]]]]].
    + apply Forall_cons; split; [apply (seg_apart _ _ _ _ _ _ Sm Sc); clear -Ho; dlia|].
      apply Forall_cons; split; [apply (seg_apart _ _ _ _ _ _ Sm Sd); clear -Ho; dlia|].
      apply Forall_cons; split; [apply (seg_apart _ _ _ _ _ _ Sm Sr); clear -Ho; dlia|].
      apply Forall_cons; split; [apply (seg_apart _ _ _ _ _ _ Sm St); clear -Ho; dlia|].
      apply (seg_mmio _ _ _ Sm). clear -Ho; dlia.
    + apply Forall_cons; split; [apply (seg_apart _ _ _ _ _ _ Sc Sd); clear -Ho; dlia|].
      apply Forall_cons; split; [apply (seg_apart _ _ _ _ _ _ Sc Sr); clear -Ho; dlia|].
      apply Forall_cons; split; [apply (seg_apart _ _ _ _ _ _ Sc St); clear -Ho; dlia|].
      apply (seg_mmio _ _ _ Sc). clear -Ho; dlia.
    + apply Forall_cons; split; [apply (seg_apart _ _ _ _ _ _ Sd Sr); clear -Ho Ha; dlia|].
      apply Forall_cons; split; [apply (seg_apart _ _ _ _ _ _ Sd St); clear -Ho Ha; dlia|].
      apply (seg_mmio _ _ _ Sd). clear -Ho; dlia.
    + apply Forall_cons; split; [apply (seg_apart _ _ _ _ _ _ Sr St); clear -Ho Ha; dlia|].
      apply (seg_mmio _ _ _ Sr). clear -Ho; dlia.
    + apply (seg_mmio _ _ _ St). clear -Ho; dlia.
Qed.
End numbers.
End kspace.

(** ** The run of init_vmem *)

Section run.
Context {D : Type} {L : Linker} `{!ImageOk L}.
Implicit Types (w : world D) (tabs : gmap Z tab) (fl data : list Z).

Lemma clear_page_zeroed m p : zeroed m p PAGE_SIZE → clear_page m p = m.
Proof.
  intros Hz. apply map_eq. intros a. rewrite lookup_clear_page. destruct (decide _); [|done]. by rewrite Hz.
Qed.

(** Clearing a page that kmalloc has just cleared changes nothing. *)
Lemma memset_zeroed w x : valid_address x = true → zeroed (w_mem w) (KPA2PA x) PAGE_SIZE →
  memset x 0 PAGE_SIZE w = Ok x w.
Proof.
  intros Hx Hz. destruct (valid_address_pa x Hx) as (_ & _ & _ & _ & Hk & _).
  rewrite (memset_page w x (KPA2PA x)) by (done || by apply zeroed_has_bytes).
  rewrite clear_page_zeroed by done. by destruct w.
Qed.

Lemma mycpu_boot w : w_cpu_mapped w = 0 → mycpu w = Ok (cpu_addr (w_tp w)) w.
Proof. intros H. unfold mycpu. by rewrite H. Qed.

(** [int size = (unsigned int)(end - start)], passed as [uint64]. *)
Lemma c_size n : 0 <= n < 2 ^ 31 → u64 (s32 (u32 n)) = n.
Proof. intros. rewrite u32_id, s32_id, u64_id by lia. done. Qed.

Lemma kernel_needs h : 0 <= h < DTB_NR_CPUS →
  (Forall (λ g, need (rg_vpn g) (rg_pages g) <= 260)%nat (kernel_regions (cpu_addr h))).
Proof.
  intros Hh. destruct image_offsets as (t & et & ro & ero & d & ed & cs & dy & O).
  destruct (image_segs _ _ _ _ _ _ _ _ O) as ((_ & Ht) & (_ & Hr) & (_ & Hd)).
  destruct (ram_seg _ _ _ _ _ _ _ _ O) as [_ Hm]. pose proof (of_order _ _ _ _ _ _ _ _ O) as Ho.
  assert (H : ∀ g lo hi, seg g lo hi → hi - lo <= 65537 → (need (rg_vpn g) (rg_pages g) <= 260)%nat).
  { intros g lo hi [E1 E2] Hb. unfold need. rewrite E2, E1. dlia. }
  unfold kernel_regions.
  apply Forall_cons; split; [eapply H; [exact Hm|clear -Ho; dlia]|].
  apply Forall_cons; split; [eapply H; [eapply cpu_seg; [exact O|exact Hh]|lia]|].
  apply Forall_cons; split; [eapply H; [exact Hd|clear -Ho; dlia]|].
  apply Forall_cons; split; [eapply H; [exact Hr|clear -Ho; dlia]|].
  apply Forall_cons; split; [eapply H; [exact Ht|clear -Ho; dlia]|].
  unfold mmio_regions. repeat (apply Forall_cons; split; [apply (bool_decide_unpack _); by vm_compute|]). constructor.
Qed.

(** [w'] is [w] after init_vmem returned the root [x]. *)
Record kernel_built (x h : Z) data w tabs fl w' tabs' fl' : Prop := {
  kb_only : mem_only w w';
  kb_inv : mem_inv w' tabs' fl' data;
  kb_fl : ∃ used, fl = x :: used ++ fl' ∧ (length used <= kernel_need)%nat;
  kb_sub : tabs ⊆ tabs';
  kb_new u j : tabs' !! u = Some j → tabs !! u = Some j ∨ ∃ y, valid_address y = true ∧ u = KPA2PA y;
  kb_static a : a < KVA2PA sym_dynamic → (∀ u j, tabs !! u = Some j → ¬ (u <= a < u + tsize j)) →
    w_mem w' !! a = w_mem w !! a;
  kb_root : root_ptr tabs' x (KPA2PA x) 0;
  kb_look v : 0 <= v < vpn_bound false →
    pt_look (w_mem w') 2 (KPA2PA x) v = regions_entry (kernel_regions (cpu_addr h)) v;
  kb_other r b v : is_root tabs r b → 0 <= v < vpn_bound b →
    pt_look (w_mem w') 2 r v = pt_look (w_mem w) 2 r v
}.

(** One call of init_vmem that maps a range: run it and go on in the new state. *)
Ltac map_one lem :=
  let w' := fresh "w" in let tabs' := fresh "tabs" in let fl' := fresh "fl" in
  let H := fresh "Hmap" in let Hl := fresh "Hlen" in let S := fresh "Sp" in
  destruct lem as (w' & tabs' & fl' & H & Hl & S);
  cbn [rg_va rg_pa rg_size rg_flags] in H; erewrite bind_ok by exact H; clear H.

Section calls.
Context (x r h : Z) data w0 tabs0 fl0 (Hroot : root_ptr tabs0 x r 0)
  (Hempty : ∀ v, 0 <= v < vpn_bound false → pt_look (w_mem w0) 2 r v = None)
  (Hh : 0 <= h < DTB_NR_CPUS).
#[local] Abbreviation sp := (space r data w0 tabs0 fl0).

Lemma regions_ok : Forall region_ok (kernel_regions (cpu_addr h)) ∧
  ForallOrdPairs apart (kernel_regions (cpu_addr h)).
Proof. destruct image_offsets as (t & et & ro & ero & d & ed & cs & dy & O). by eapply kernel_regions_ok. Qed.

(** The region at position [k] of the list, mapped after the ones behind it. *)
Lemma region_facts k g gs : drop k (kernel_regions (cpu_addr h)) = g :: gs →
  region_ok g ∧ Forall (apart g) gs ∧ (need (rg_vpn g) (rg_pages g) <= 260)%nat.
Proof.
  intros Hk. destruct regions_ok as [Hok Hap]. pose proof (kernel_needs h Hh) as Hn.
  rewrite <- (take_drop k (kernel_regions _)), Hk in Hok, Hap, Hn.
  apply Forall_app in Hok as [_ [? _]%Forall_cons]. apply Forall_app in Hn as [_ [? _]%Forall_cons].
  split; [done|split; [|done]]. induction (take k _) as [|y l IH]; [by inversion Hap|].
  apply IH. by inversion Hap.
Qed.

Lemma call_pages k gs g w tabs fl : drop k (kernel_regions (cpu_addr h)) = g :: gs →
  sp gs w tabs fl → (260 <= length fl)%nat →
  ∃ w' tabs' fl', map_pages x (rg_va g) (rg_pa g) (rg_size g) (rg_flags g) 0 w = Ok 0 w' ∧
    (length fl <= length fl' + 260)%nat ∧ sp (g :: gs) w' tabs' fl'.
Proof.
  intros (Hok & Hap & Hn)%region_facts S Hl.
  destruct (map_pages_region x r data w0 tabs0 fl0 Hroot Hempty gs g w tabs fl S Hok Hap ltac:(lia))
    as (w' & tabs' & fl' & Hrun & Hl' & S'). exists w', tabs', fl'. split_and!; [done|lia|done].
Qed.

Lemma call_page k gs g w tabs fl : drop k (kernel_regions (cpu_addr h)) = g :: gs →
  rg_size g = PAGE_SIZE → sp gs w tabs fl → (260 <= length fl)%nat →
  ∃ w' tabs' fl', map_page x (rg_va g) (rg_pa g) (rg_flags g) 0 w = Ok 0 w' ∧
    (length fl <= length fl' + 260)%nat ∧ sp (g :: gs) w' tabs' fl'.
Proof.
  intros (Hok & Hap & Hn)%region_facts Hs S Hl.
  destruct (map_page_region x r data w0 tabs0 fl0 Hroot Hempty gs g w tabs fl S Hok Hap Hs ltac:(lia))
    as (w' & tabs' & fl' & Hrun & Hl' & S'). exists w', tabs', fl'. split_and!; [done|lia|done].
Qed.
End calls.

(** The thirteen calls, on the empty tree at [x]. *)
Lemma map_kernel_run x r data w0 tabs0 fl0 : root_ptr tabs0 x r 0 →
  (∀ v, 0 <= v < vpn_bound false → pt_look (w_mem w0) 2 r v = None) →
  mem_inv w0 tabs0 fl0 data → w_cpu_mapped w0 = 0 → 0 <= w_tp w0 < DTB_NR_CPUS →
  (kernel_need <= length fl0)%nat →
  ∃ w' tabs' fl',
    (∀ w wk, kmalloc w = Ok x wk → memset x 0 PAGE_SIZE wk = Ok x w0 → (x =? 0) = false →
       init_vmem w = Ok x w') ∧
    (length fl0 <= length fl' + kernel_need)%nat ∧
    space r data w0 tabs0 fl0 (kernel_regions (cpu_addr (w_tp w0))) w' tabs' fl'.
Proof.
  intros Hroot Hempty Hmi Hm Hh Hlen. set (h := w_tp w0) in *.
  pose proof (space_nil r data w0 tabs0 fl0 Hmi) as Sp. unfold kernel_need in Hlen.
  pose proof (call_page x r h data w0 tabs0 fl0 Hroot Hempty Hh) as P1.
  pose proof (call_pages x r h data w0 tabs0 fl0 Hroot Hempty Hh) as Pn.
  destruct (P1 12%nat _ _ _ _ _ eq_refl eq_refl Sp ltac:(lia)) as (w1 & t1 & f1 & R1 & L1 & S1).
  destruct (P1 11%nat _ _ _ _ _ eq_refl eq_refl S1 ltac:(lia)) as (w2 & t2 & f2 & R2 & L2 & S2).
  destruct (P1 10%nat _ _ _ _ _ eq_refl eq_refl S2 ltac:(lia)) as (w3 & t3 & f3 & R3 & L3 & S3).
  destruct (P1 9%nat _ _ _ _ _ eq_refl eq_refl S3 ltac:(lia)) as (w4 & t4 & f4 & R4 & L4 & S4).
  destruct (Pn 8%nat _ _ _ _ _ eq_refl S4 ltac:(lia)) as (w5 & t5 & f5 & R5 & L5 & S5).
  destruct (Pn 7%nat _ _ _ _ _ eq_refl S5 ltac:(lia)) as (w6 & t6 & f6 & R6 & L6 & S6).
  destruct (Pn 6%nat _ _ _ _ _ eq_refl S6 ltac:(lia)) as (w7 & t7 & f7 & R7 & L7 & S7).
  destruct (Pn 5%nat _ _ _ _ _ eq_refl S7 ltac:(lia)) as (w8 & t8 & f8 & R8 & L8 & S8).
  destruct (Pn 4%nat _ _ _ _ _ eq_refl S8 ltac:(lia)) as (w9 & t9 & f9 & R9 & L9 & S9).
  destruct (Pn 3%nat _ _ _ _ _ eq_refl S9 ltac:(lia)) as (w10 & t10 & f10 & R10 & L10 & S10).
  destruct (Pn 2%nat _ _ _ _ _ eq_refl S10 ltac:(lia)) as (w11 & t11 & f11 & R11 & L11 & S11).
  destruct (Pn 1%nat _ _ _ _ _ eq_refl S11 ltac:(lia)) as (w12 & t12 & f12 & R12 & L12 & S12).
  destruct (Pn 0%nat _ _ _ _ _ eq_refl S12 ltac:(lia)) as (w13 & t13 & f13 & R13 & L13 & S13).
  clear P1 Pn. exists w13, t13, f13. split; [|split; [unfold kernel_need; lia|exact S13]].
  intros w wk Hk Hz Hx. unfold init_vmem. erewrite bind_ok by exact Hk. rewrite Hx.
  destruct image_offsets as (t & et & ro & ero & d & ed & cs & dy & O).
  pose proof (of_order _ _ _ _ _ _ _ _ O) as Ho. destruct (of_eq _ _ _ _ _ _ _ _ O) as (E1 & E2 & E3 & E4 & E5 & E6 & _).
  destruct (dynamic_pa_off _ _ _ _ _ _ _ _ O) as [Ep _].
  rewrite (bind_ok _ _ wk tt wk) by reflexivity. erewrite bind_ok by exact Hz. cbn zeta.
  erewrite bind_ok by exact R1. erewrite bind_ok by exact R2. erewrite bind_ok by exact R3.
  erewrite bind_ok by exact R4. erewrite bind_ok by exact R5. erewrite bind_ok by exact R6.
  erewrite bind_ok by exact R7. erewrite bind_ok by exact R8. cbn [Z.add Z.ltb Z.compare].
  rewrite (bind_ok _ _ w8 tt w8) by reflexivity.
  rewrite !c_size by lia.
  erewrite bind_ok by exact R9. rewrite (bind_ok _ _ w9 tt w9) by reflexivity.
  erewrite bind_ok by exact R10. rewrite (bind_ok _ _ w10 tt w10) by reflexivity.
  erewrite bind_ok by exact R11. rewrite (bind_ok _ _ w11 tt w11) by reflexivity.
  assert (Hw : w_cpu_mapped w11 = 0 ∧ w_tp w11 = h).
  { destruct (s_only _ _ _ _ _ _ _ _ _ S11) as (m & k & ->). done. }
  erewrite bind_ok by (apply mycpu_boot, Hw). rewrite (proj2 Hw).
  erewrite bind_ok by exact R12. rewrite (bind_ok _ _ w12 tt w12) by reflexivity.
  rewrite s32_id, u64_id by (rewrite Ep; unfold DTB_MEMORY_SIZE; lia).
  erewrite bind_ok by exact R13. by rewrite (bind_ok _ _ w13 tt w13) by reflexivity.
Qed.

Lemma init_vmem_run w tabs fl data : mem_inv w tabs fl data → w_cpu_mapped w = 0 →
  0 <= w_tp w < DTB_NR_CPUS → (kernel_need < length fl)%nat →
  ∃ x w' tabs' fl', init_vmem w = Ok x w' ∧ kernel_built x (w_tp w) data w tabs fl w' tabs' fl'.
Proof.
  intros Hmi Hm Hh Hlen. destruct fl as [|x fl]; [simpl in Hlen; lia|].
  assert (Hx : valid_address x = true) by (eapply mi_valid; [exact Hmi|by left]).
  destruct (valid_address_pa x Hx) as (_ & Hlo & _).
  destruct (kmalloc_root w tabs x fl data Hmi) as (w0 & Hk & Ho & Hmi0 & Hroot & Hz & Hun).
  assert (Htp : w_tp w0 = w_tp w ∧ w_cpu_mapped w0 = w_cpu_mapped w) by (destruct Ho as (m & k & ->); done).
  destruct Htp as [Htp Hcm].
  destruct (map_kernel_run x (KPA2PA x) data w0 _ fl Hroot) as (w' & tabs' & fl' & Hrun & Hl & S);
    [intros v Hv; by apply Hun|exact Hmi0|congruence|rewrite Htp; exact Hh|simpl in Hlen; lia|].
  rewrite Htp in S.
  destruct (kmalloc_step w tabs x fl data Hmi) as (w1 & Hk1 & S1 & _).
  rewrite Hk in Hk1. injection Hk1 as <-.
  assert (Hfr : tabs !! KPA2PA x = None).
  { destruct (tabs !! KPA2PA x) as [j|] eqn:E; [|done]. pose proof (tsize_pos j).
    destruct (mi_free _ _ _ _ Hmi x _ _ ltac:(by left) E); unfold PAGE_SIZE in *; lia. }
  assert (Hnz : (x =? 0) = false).
  { pose proof (root_ptr_nz _ _ _ _ Hroot). done. }
  assert (Hnew : ∀ u j, tabs' !! u = Some j →
    tabs !! u = Some j ∨ ∃ y, valid_address y = true ∧ u = KPA2PA y).
  { intros u j Hu. destruct (s_new _ _ _ _ _ _ _ _ _ S u j Hu) as [Hu'|]; [|by auto].
    apply lookup_insert_Some in Hu' as [[<- <-]|[_ Hu']]; [right; by exists x|by left]. }
  exists x, w', tabs', fl'. split; [by eapply Hrun; [exact Hk|apply memset_zeroed|]|].
  split; [|apply S| | |exact Hnew| | | |].
  - etrans; [exact Ho|apply S].
  - destruct (s_fl _ _ _ _ _ _ _ _ _ S) as (used & Hf & _). exists used. split; [by f_equal|].
    apply (f_equal length) in Hf. rewrite length_app in Hf. lia.
  - etrans; [|apply S]. by apply insert_subseteq.
  - intros a Ha Hnt. rewrite (s_frame _ _ _ _ _ _ _ _ _ S); [apply (s_frame _ _ _ _ _ _ _ _ _ S1)|..].
    + exact Hnt.
    + intros y Hy. apply list_elem_of_singleton in Hy as ->. lia.
    + intros u j Hu Hin. destruct (Hnew u j Hu) as [Hu'|(y & Hy & ->)]; [by apply (Hnt u j)|].
      destruct (valid_address_pa y Hy) as (_ & ? & _). lia.
    + by intros y []%not_elem_of_nil.
  - exact (pt_step_root _ _ _ _ _ _ _ _ _ _ _ _ S Hroot).
  - intros v Hv. apply (space_look x (KPA2PA x) data w0 _ fl Hroot) with (tabs := tabs') (fl := fl'); [|exact S|exact Hv].
    intros v' Hv'. by apply Hun.
  - intros r b v Hr Hv. assert (Hne : r ≠ KPA2PA x) by (intros ->; unfold is_root in Hr; congruence).
    rewrite (s_look _ _ _ _ _ _ _ _ _ S r b); [|by unfold is_root; rewrite lookup_insert_ne|exact Hv].
    rewrite decide_False by done. by rewrite (s_look _ _ _ _ _ _ _ _ _ S1 r b).
Qed.

(** ** What the MMU makes of it *)

Lemma kernel_half : ∀ h, Forall in_half (kernel_regions (cpu_addr h)).
Proof.
  intros h. destruct image_offsets as (t & et & ro & ero & d & ed & cs & dy & O).
  destruct (of_eq _ _ _ _ _ _ _ _ O) as (E1 & E2 & E3 & E4 & E5 & E6 & _).
  pose proof (of_order _ _ _ _ _ _ _ _ O) as Ho. destruct (dynamic_pa_off _ _ _ _ _ _ _ _ O) as [Ep Ek].
  assert (H : ∀ g, 2 ^ 64 - 2 ^ 38 <= rg_va g <= 2 ^ 64 - 2 ^ 33 → 0 <= rg_size g <= 2 ^ 32 → in_half g).
  { intros g Hv Hs. right. split; [lia|]. unfold rg_end.
    pose proof (npages_bound (rg_size g) ltac:(lia)) as Hn. fold (rg_pages g) in Hn. unfold PAGE_SIZE in *. lia. }
  unfold kernel_regions.
  apply Forall_cons; split; [apply H; cbn [rg_va rg_size ram_region]; rewrite ?Ep, ?Ek;
    unfold VAS_RAM, DTB_MEMORY_SIZE, DTB_MEMORY; lia|].
  apply Forall_cons; split; [apply H; by vm_compute|].
  apply Forall_cons; split; [apply H; cbn [rg_va rg_size data_region]; rewrite ?E5, ?E6; unfold VAS_KERNEL; lia|].
  apply Forall_cons; split; [apply H; cbn [rg_va rg_size rodata_region]; rewrite ?E3, ?E4; unfold VAS_KERNEL; lia|].
  apply Forall_cons; split; [apply H; cbn [rg_va rg_size text_region]; rewrite ?E1, ?E2; unfold VAS_KERNEL; lia|].
  unfold mmio_regions. repeat (apply Forall_cons; split; [left; by vm_compute|]). constructor.
Qed.

(** The tree of hart [h] translates exactly the listed ranges. *)
Lemma kernel_look_translation r h w tabs a va : 0 <= h < DTB_NR_CPUS → pt_inv (w_mem w) tabs → is_root tabs r false →
  (∀ v, 0 <= v < vpn_bound false → pt_look (w_mem w) 2 r v = regions_entry (kernel_regions (cpu_addr h)) v) →
  mmu (w_mem w) r a va = address_map (kernel_regions (cpu_addr h)) a va.
Proof.
  intros Hh Hpt Hr Hl. unfold mmu. rewrite (hw_translate_look w tabs) by done. rewrite Hl by apply vpn_range.
  rewrite regions_translate by by apply regions_ok.
  apply regions_address; [by apply regions_ok|apply kernel_half].
Qed.

Lemma kernel_translation x h data w tabs fl w' tabs' fl' a va : 0 <= h < DTB_NR_CPUS →
  kernel_built x h data w tabs fl w' tabs' fl' →
  mmu (w_mem w') (KPA2PA x) a va = address_map (kernel_regions (cpu_addr h)) a va.
Proof.
  intros Hh B. apply (kernel_look_translation _ _ w' tabs'); [done|apply B|apply B|].
  intros v Hv. by apply (kb_look _ _ _ _ _ _ _ _ _ B).
Qed.

(** The physical ranges. *)
Lemma mmio_phys : ForallOrdPairs phys_apart mmio_regions ∧ Forall (λ g, phys_end g <= DTB_MEMORY) mmio_regions.
Proof.
  unfold mmio_regions. split;
    repeat first [apply FOP_nil | apply FOP_cons | apply Forall_nil_2 | apply Forall_cons_2];
    apply (bool_decide_unpack _); by vm_compute.
Qed.

Definition pseg (g : region) (lo hi : Z) : Prop := rg_pa g = DTB_MEMORY + lo ∧ phys_end g = DTB_MEMORY + hi.

Lemma pseg_apart g g' lo hi lo' hi' : pseg g lo hi → pseg g' lo' hi' → hi <= lo' ∨ hi' <= lo → phys_apart g g'.
Proof. unfold pseg, phys_apart. lia. Qed.
Lemma pseg_mmio g lo hi : pseg g lo hi → 0 <= lo → Forall (phys_apart g) mmio_regions.
Proof.
  intros [Hg _] Hlo. eapply Forall_impl; [apply mmio_phys|]. cbn beta. unfold phys_apart. lia.
Qed.

Section phys.
Context t et ro ero d ed cs dy (O : offsets t et ro ero d ed cs dy) (h : Z) (Hh : 0 <= h < DTB_NR_CPUS).

Lemma image_psegs :
  pseg text_region t ((et + 4095) / 4096 * 4096) ∧ pseg rodata_region ro ((ero + 4095) / 4096 * 4096) ∧
  pseg data_region d ((ed + 4095) / 4096 * 4096) ∧
  pseg (cpu_region (cpu_addr h)) (cs + h * 0x3000) (cs + h * 0x3000 + 0x3000) ∧
  pseg ram_region dy DTB_MEMORY_SIZE.
Proof.
  destruct (of_eq _ _ _ _ _ _ _ _ O) as (E1 & _ & E3 & _ & E5 & _).
  pose proof (of_order _ _ _ _ _ _ _ _ O) as Ho. pose proof (of_aligned _ _ _ _ _ _ _ _ O) as Ha.
  destruct (dynamic_pa_off _ _ _ _ _ _ _ _ O) as [Ep Ek].
  destruct (image_segs _ _ _ _ _ _ _ _ O) as ((_ & S1) & (_ & S2) & (_ & S3)).
  destruct (cpu_seg _ _ _ _ _ _ _ _ O h Hh) as [_ S4]. destruct (ram_seg _ _ _ _ _ _ _ _ O) as [_ S5].
  assert (P : rg_pa text_region = DTB_MEMORY + t ∧ rg_pa rodata_region = DTB_MEMORY + ro ∧
    rg_pa data_region = DTB_MEMORY + d ∧ rg_pa (cpu_region (cpu_addr h)) = DTB_MEMORY + (cs + h * 0x3000) ∧
    rg_pa ram_region = DTB_MEMORY + dy).
  { cbn [rg_pa text_region rodata_region data_region cpu_region ram_region].
    rewrite (cpu_addr_off _ _ _ _ _ _ _ _ O h Hh), Ep, E1, E3, E5. unfold DTB_NR_CPUS in Hh.
    rewrite !KVA2PA_off by lia. done. }
  destruct P as (P1 & P2 & P3 & P4 & P5). unfold pseg, phys_end, seg, PAGE_SIZE, DTB_MEMORY_SIZE in *.
  rewrite P1, P2, P3, P4, P5.
  split_and!; try done; revert S1 S2 S3 S4 S5; generalize (rg_vpn text_region) (rg_vpn rodata_region)
    (rg_vpn data_region) (rg_vpn (cpu_region (cpu_addr h))) (rg_vpn ram_region); clear -Ha; intros; dlia.
Qed.

Lemma kernel_phys : ForallOrdPairs phys_apart (kernel_regions (cpu_addr h)).
Proof.
  destruct image_psegs as (St & Sr & Sd & Sc & Sm). destruct mmio_phys as [Ma _].
  pose proof (of_order _ _ _ _ _ _ _ _ O) as Ho. pose proof (of_aligned _ _ _ _ _ _ _ _ O) as Ha.
  unfold DTB_MEMORY_SIZE, DTB_NR_CPUS in *. unfold kernel_regions.
  apply FOP_cons; [|apply FOP_cons; [|apply FOP_cons; [|apply FOP_cons; [|apply FOP_cons; [|exact Ma]]]]].
  - apply Forall_cons; split; [apply (pseg_apart _ _ _ _ _ _ Sm Sc); clear -Ho Hh; dlia|].
    apply Forall_cons; split; [apply (pseg_apart _ _ _ _ _ _ Sm Sd); clear -Ho Ha; dlia|].
    apply Forall_cons; split; [apply (pseg_apart _ _ _ _ _ _ Sm Sr); clear -Ho Ha; dlia|].
    apply Forall_cons; split; [apply (pseg_apart _ _ _ _ _ _ Sm St); clear -Ho Ha; dlia|].
    apply (pseg_mmio _ _ _ Sm). lia.
  - apply Forall_cons; split; [apply (pseg_apart _ _ _ _ _ _ Sc Sd); clear -Ho Ha Hh; dlia|].
    apply Forall_cons; split; [apply (pseg_apart _ _ _ _ _ _ Sc Sr); clear -Ho Ha Hh; dlia|].
    apply Forall_cons; split; [apply (pseg_apart _ _ _ _ _ _ Sc St); clear -Ho Ha Hh; dlia|].
    apply (pseg_mmio _ _ _ Sc). lia.
  - apply Forall_cons; split; [apply (pseg_apart _ _ _ _ _ _ Sd Sr); clear -Ho Ha; dlia|].
    apply Forall_cons; split; [apply (pseg_apart _ _ _ _ _ _ Sd St); clear -Ho Ha; dlia|].
    apply (pseg_mmio _ _ _ Sd). lia.
  - apply Forall_cons; split; [apply (pseg_apart _ _ _ _ _ _ Sr St); clear -Ho Ha; dlia|].
    apply (pseg_mmio _ _ _ Sr). lia.
  - apply (pseg_mmio _ _ _ St). lia.
Qed.
End phys.
End run.
