(* ===== verification/VplicSpec.v ===== *)
(** * VplicSpec: what the emulated PLIC shows a guest and does to the hardware

    [vplic_read] and [vplic_write_ops] are the specification: the value a guest
    reads from a register of its virtual PLIC, as a function of the physical
    device, and the list of device accesses its write amounts to.  The lemmas
    show that the handlers of Vplic.v implement them. *)

From S2P Require Import Prelude Layout Bits Memory Machine Cpu Plic Vcpu Vplic.

#[local] Abbreviation devlist := (list (option mmio_dev)).

(** ** The devices of a VM and their interrupts *)

(** The entries the lookup loops see: up to the first NULL, [n] at most. *)
Fixpoint dev_prefix (n : nat) (devs : devlist) : list mmio_dev :=
  match n, devs with
  | S n', Some d :: devs' => d :: dev_prefix n' devs'
  | _, _ => []
  end.
Definition vm_devices (devs : devlist) : list mmio_dev := dev_prefix (Z.to_nat MAX_DEVS) devs.

(** [irq] is the physical interrupt of a device of the VM. *)
Definition owned_irq (devs : devlist) (irq : Z) : Prop :=
  ∃ d, d ∈ vm_devices devs ∧ phys_irq d = irq.

Lemma irq_loop_find n devs key val irq :
  irq_loop n devs key val irq =
  from_option val 0 (snd <$> list_find (λ d, irq = key d) (dev_prefix n devs)).
Proof.
  revert devs. induction n as [|n IH]; intros devs; [done|]. cbn [irq_loop dev_prefix].
  destruct devs as [|[d|] devs]; [done| |done]. cbn [list_find].
  destruct (Z.eqb_spec irq (key d)) as [->|Hne]; [by rewrite decide_True|].
  rewrite decide_False by done. rewrite IH.
  by destruct (list_find _ (dev_prefix n devs)) as [[j d']|].
Qed.

(** A lookup that finds something finds a device of the VM. *)
Lemma irq_loop_owned n devs key val irq : irq_loop n devs key val irq ≠ 0 →
  ∃ d, d ∈ dev_prefix n devs ∧ key d = irq ∧ val d = irq_loop n devs key val irq.
Proof.
  rewrite irq_loop_find. destruct (list_find _ _) as [[j d]|] eqn:E; [|done]. intros _.
  apply list_find_Some in E as (Hj & Hd & _). exists d. simpl. split; [|done].
  by eapply list_elem_of_lookup_2.
Qed.

Lemma virt_to_phys_owned devs v : virt_to_phys_irq devs v ≠ 0 → owned_irq devs (virt_to_phys_irq devs v).
Proof. intros H. apply irq_loop_owned in H as (d & Hd & _ & Hp). by exists d. Qed.

(** When no two devices share a key, the lookup is the inverse relation. *)
Lemma irq_loop_unique n devs key val d : d ∈ dev_prefix n devs →
  (∀ d', d' ∈ dev_prefix n devs → key d' = key d → val d' = val d) →
  irq_loop n devs key val (key d) = val d.
Proof.
  intros Hd Hu. rewrite irq_loop_find.
  destruct (list_find_elem_of (λ d', key d = key d') _ d Hd eq_refl) as [[j d'] E].
  rewrite E. simpl. apply list_find_Some in E as (Hj & Hk & _). apply Hu; [|done].
  by eapply list_elem_of_lookup_2.
Qed.

(** ** The register map *)

Inductive vreg :=
| RPriority (virq : Z)
| RPending (group : Z)
| REnable (ctx group : Z)
| RThreshold (ctx : Z)
| RClaim (ctx : Z)
| RNone.

Definition decode (off : Z) : vreg :=
  if off <? 0x1000 then RPriority (off / 4)
  else if off <? 0x1080 then RPending ((off - 0x1000) / 4)
  else if off <? 0x2000 then RNone
  else if off <? 0x200000 then REnable ((off - 0x2000) / 0x80) ((off - 0x2000) mod 0x80 / 4)
  else
    let ctx := (off - 0x200000) / 0x1000 in
    if 15872 <=? ctx then RNone
    else if (off - 0x200000) mod 0x1000 =? 0 then RThreshold ctx
    else if (off - 0x200000) mod 0x1000 =? 4 then RClaim ctx
    else RNone.

Lemma decode_inv off :
  match decode off with
  | RPriority i => off < 0x1000 ∧ i = off / 4
  | RPending g => 0x1000 <= off < 0x1080 ∧ g = (off - 0x1000) / 4
  | REnable ctx g => 0x2000 <= off < 0x200000 ∧ ctx = (off - 0x2000) / 0x80 ∧
                     g = (off - 0x2000) mod 0x80 / 4
  | RThreshold ctx => off = threshold_off ctx ∧ 0 <= ctx < 15872
  | RClaim ctx => off = claim_off ctx ∧ 0 <= ctx < 15872
  | RNone => True
  end.
Proof.
  unfold decode, threshold_off, claim_off.
  destruct (Z.ltb_spec off 0x1000); [lia|]. destruct (Z.ltb_spec off 0x1080); [lia|].
  destruct (Z.ltb_spec off 0x2000); [done|]. destruct (Z.ltb_spec off 0x200000); [lia|].
  destruct (Z.leb_spec 15872 ((off - 0x200000) / 0x1000)); [done|].
  destruct (Z.eqb_spec ((off - 0x200000) mod 0x1000) 0); [dlia|].
  destruct (Z.eqb_spec ((off - 0x200000) mod 0x1000) 4); [dlia|done].
Qed.

Lemma ctx_loop_spec n ctx base off : 0 <= ctx → 0 <= base < 0x201000 →
  ctx + Z.of_nat n <= 15872 →
  ctx_loop n ctx base off = true ↔
  ∃ k, ctx <= k < ctx + Z.of_nat n ∧ off = base + 0x1000 * k.
Proof.
  revert ctx. induction n as [|n IH]; intros ctx Hc Hb Hn; cbn [ctx_loop].
  - split; [done|]. intros (k & ? & _). lia.
  - rewrite !u32_id by (rewrite ?u32_id by lia; lia).
    destruct (Z.eqb_spec (base + ctx * 0x1000) off) as [E|E].
    + split; [|done]. intros _. exists ctx. lia.
    + rewrite IH by lia. split; intros (k & Hk & ->); exists k; [lia|].
      destruct (decide (k = ctx)) as [->|]; lia.
Qed.

Lemma ctx_reg base off : 0 <= base < 0x201000 →
  ctx_loop (Z.to_nat 15872) 0 base off = true ↔ ∃ k, 0 <= k < 15872 ∧ off = base + 0x1000 * k.
Proof. intros Hb. rewrite ctx_loop_spec by lia. rewrite Z2Nat.id by lia. done. Qed.

Lemma is_access_to_threshold_reg_spec off :
  is_access_to_threshold_reg off =
  (0x200000 <=? off) && ((off - 0x200000) / 0x1000 <? 15872) && ((off - 0x200000) mod 0x1000 =? 0).
Proof.
  apply eq_true_iff_eq. unfold is_access_to_threshold_reg. rewrite ctx_reg by lia.
  rewrite !andb_true_iff, Z.leb_le, Z.ltb_lt, Z.eqb_eq. split.
  - intros (k & Hk & ->). replace (0x200000 + 0x1000 * k - 0x200000) with (k * 0x1000) by lia.
    rewrite Z.div_mul, Z.mod_mul by lia. lia.
  - intros ((? & ?) & ?). exists ((off - 0x200000) / 0x1000). dlia.
Qed.

Lemma is_access_to_claim_complete_reg_spec off :
  is_access_to_claim_complete_reg off =
  (0x200000 <=? off) && ((off - 0x200000) / 0x1000 <? 15872) && ((off - 0x200000) mod 0x1000 =? 4).
Proof.
  apply eq_true_iff_eq. unfold is_access_to_claim_complete_reg. rewrite ctx_reg by lia.
  rewrite !andb_true_iff, Z.leb_le, Z.ltb_lt, Z.eqb_eq. split.
  - intros (k & Hk & ->). replace (0x200004 + 0x1000 * k - 0x200000) with (4 + k * 0x1000) by lia.
    rewrite Z.div_add, Z.mod_add, (Z.div_small 4), (Z.mod_small 4) by lia. lia.
  - intros ((? & ?) & ?). exists ((off - 0x200000) / 0x1000). dlia.
Qed.

(** The dispatch of both handlers is a case analysis on the decoded register. *)
Lemma dispatch_decode {A} off (a b c d e f : A) :
  (if is_access_to_priority_reg off then a
   else if is_access_to_pending_regs off then b
   else if is_access_to_enable_regs off then c
   else if is_access_to_threshold_reg off then d
   else if is_access_to_claim_complete_reg off then e
   else f) =
  match decode off with
  | RPriority _ => a | RPending _ => b | REnable _ _ => c
  | RThreshold _ => d | RClaim _ => e | RNone => f
  end.
Proof.
  rewrite is_access_to_threshold_reg_spec, is_access_to_claim_complete_reg_spec.
  unfold decode, is_access_to_priority_reg, is_access_to_pending_regs, is_access_to_enable_regs.
  destruct (Z.ltb_spec off 0x1000); [done|]. rewrite (proj2 (Z.leb_le _ _)) by lia. cbn [andb].
  destruct (Z.ltb_spec off 0x1080); [done|].
  destruct (Z.ltb_spec off 0x2000).
  { rewrite (proj2 (Z.leb_gt _ _)) by lia. cbn [andb].
    by rewrite (proj2 (Z.leb_gt 0x200000 off)) by lia. }
  rewrite (proj2 (Z.leb_le 0x2000 off)) by lia. cbn [andb].
  destruct (Z.ltb_spec off 0x200000); [done|].
  rewrite (proj2 (Z.leb_le 0x200000 off)) by lia. cbn [andb].
  destruct (Z.ltb_spec ((off - 0x200000) / 0x1000) 15872), (Z.leb_spec 15872 ((off - 0x200000) / 0x1000));
    try lia; cbn [andb]; [|done].
  destruct (Z.eqb_spec ((off - 0x200000) mod 0x1000) 0), (Z.eqb_spec ((off - 0x200000) mod 0x1000) 4);
    (done || lia).
Qed.

(** ** The specification of a guest's reads and writes *)

(** The word whose bit [i] is [f i]. *)
Fixpoint word_of (n : nat) (f : Z → bool) : Z :=
  match n with O => 0 | S n' => word_of n' f + (if f (Z.of_nat n') then 2 ^ Z.of_nat n' else 0) end.

Lemma word_of_range n f : 0 <= word_of n f < 2 ^ Z.of_nat n.
Proof.
  induction n as [|n IH]; cbn [word_of]; [lia|].
  rewrite Nat2Z.inj_succ, Z.pow_succ_r by lia. destruct (f _); lia.
Qed.

Lemma testbit_word_of n f k : 0 <= k →
  Z.testbit (word_of n f) k = if k <? Z.of_nat n then f k else false.
Proof.
  intros Hk. induction n as [|n IH]; cbn [word_of].
  - rewrite Z.bits_0. by rewrite (proj2 (Z.ltb_ge _ _)) by lia.
  - pose proof (word_of_range n f) as Hr.
    assert (E : word_of n f + (if f (Z.of_nat n) then 2 ^ Z.of_nat n else 0) =
      (Z.b2z (f (Z.of_nat n)) * 2 ^ Z.of_nat n) .| word_of n f).
    { rewrite lor_mul_add by lia. destruct (f (Z.of_nat n)); unfold Z.b2z; lia. }
    rewrite E, Z.lor_spec, IH, Z.mul_pow2_bits by lia.
    destruct (Z.ltb_spec k (Z.of_nat n)), (Z.ltb_spec k (Z.of_nat (S n))); try lia.
    + by rewrite Z.testbit_neg_r by lia.
    + replace k with (Z.of_nat n) by lia. rewrite Z.sub_diag. by destruct (f _).
    + assert (H1 : 1 <= k - Z.of_nat n) by lia. rewrite orb_false_r.
      destruct (f (Z.of_nat n)); [|apply Z.bits_0]. cbn [Z.b2z].
      change 1 with (2 ^ 0). by rewrite Z.pow2_bits_false by lia.
Qed.

Section pure.
Context {D : Type} {P : PlicDevice D}.
Implicit Type d : D.

Definition phys_priority d (irq : Z) : Z :=
  if bad_source irq then 0 else (dev_load (priority_off irq) d).1.
Definition phys_pending d (irq : Z) : bool :=
  if bad_source irq then false else Z.testbit (dev_load (pending_off irq) d).1 (irq mod 32).
Definition phys_enabled d (ctx irq : Z) : bool :=
  if bad_source irq then false else Z.testbit (dev_load (enable_off ctx irq) d).1 (irq mod 32).

(** The value a guest reads at offset [off] of its virtual PLIC; [vctx] and
    [pctx] are its virtual and physical contexts and [last] the interrupt the
    hypervisor claimed for it. *)
Definition vplic_read (devs : devlist) (vctx pctx last : Z) d (off : Z) : option Z :=
  match decode off with
  | RPriority virq => Some (phys_priority d (virt_to_phys_irq devs virq))
  | RPending g => Some (word_of 32 (λ i, phys_pending d (virt_to_phys_irq devs (g * 32 + i))))
  | REnable ctx g =>
      Some (if ctx =? vctx
            then word_of 32 (λ i, phys_enabled d pctx (virt_to_phys_irq devs (g * 32 + i)))
            else 0)
  | RThreshold ctx => Some (if ctx =? vctx then (dev_load (threshold_off pctx) d).1 else 0)
  | RClaim ctx => Some (if ctx =? vctx then u32 (phys_to_virt_irq devs (s32 last)) else 0)
  | RNone => None
  end.

(** One bit of an enable word, set or cleared atomically for the one physical
    interrupt behind it. *)
Definition enable_op (ctx irq : Z) (on : bool) : list plic_op :=
  if bad_source irq then []
  else [if on then PAmoOr (enable_off ctx irq) (irq_bit irq)
        else PAmoAnd (enable_off ctx irq) (~32 (irq_bit irq))].

(** The device accesses of a guest's write of [val]. *)
Definition vplic_write_ops (devs : devlist) (vctx pctx last off val : Z) : option (list plic_op) :=
  match decode off with
  | RPriority virq =>
      let irq := virt_to_phys_irq devs virq in
      Some (if bad_source irq then [] else [PStore (priority_off irq) val])
  | RPending _ => Some []
  | REnable ctx g =>
      Some (if ctx =? vctx
            then i ← seqZ 0 32; enable_op pctx (virt_to_phys_irq devs (g * 32 + i)) (Z.testbit val i)
            else [])
  | RThreshold ctx => Some (if ctx =? vctx then [PStore (threshold_off pctx) val] else [])
  | RClaim ctx =>
      Some (if (ctx =? vctx) && (u32 (virt_to_phys_irq devs (s32 val)) =? last)
            then [PStore (claim_off pctx) last] else [])
  | RNone => None
  end.

(** ** Driver calls on a device that follows the laws *)

Context `{!PlicLaws D}.
Implicit Type w : world D.

Lemma get_priority_run irq w : plic_get_priority irq w = Ok (phys_priority (w_plic w) irq) w.
Proof.
  unfold plic_get_priority, phys_priority. destruct (bad_source irq) eqn:E; [done|].
  apply bad_source_false in E. apply plic_rd_pure. apply not_claim. lia.
Qed.

Lemma get_bit_run i irq off w : 4 * i = off → 0 <= off < 0x200000 →
  ∃ x, (v ← plic_rd i; mret (v .& u32 (1 .<< (irq mod (4 * 8))))) w = Ok x w ∧
       truthy x = Z.testbit (dev_load off (w_plic w)).1 (irq mod 32).
Proof.
  intros <- Ho. eexists. split.
  - erewrite bind_ok by (apply plic_rd_pure; by apply not_claim). reflexivity.
  - rewrite source_mask_bit. unfold irq_bit. apply truthy_land_pow2. apply Z.mod_pos_bound. lia.
Qed.

Lemma get_pending_run irq w : ∃ x, plic_get_pending irq w = Ok x w ∧
  truthy x = phys_pending (w_plic w) irq.
Proof.
  unfold plic_get_pending, phys_pending. destruct (bad_source irq) eqn:E; [by exists 0|].
  apply bad_source_false in E. apply get_bit_run; unfold pending_off; [|dlia].
  change (4 * 8) with 32. change (0x1000 / 4) with 0x400. lia.
Qed.

Lemma get_enabled_run ctx irq w : 0 <= ctx <= 15871 → ∃ x, plic_get_enabled ctx irq w = Ok x w ∧
  truthy x = phys_enabled (w_plic w) ctx irq.
Proof.
  intros Hc. unfold plic_get_enabled, phys_enabled. destruct (bad_source irq) eqn:E; [by exists 0|].
  rewrite (proj2 (bad_context_false ctx) Hc). cbn iota.
  apply bad_source_false in E. apply get_bit_run; unfold enable_off; [|dlia].
  change (4 * 8) with 32. change (0x2000 / 4) with 0x800. change (1024 / 32) with 32. lia.
Qed.

Lemma get_threshold_run ctx w : 0 <= ctx <= 15871 →
  plic_get_threshold ctx w = Ok (dev_load (threshold_off ctx) (w_plic w)).1 w.
Proof.
  intros Hc. unfold plic_get_threshold. rewrite (proj2 (bad_context_false ctx) Hc).
  change (0x200000 / 4) with 0x80000. change (0x1000 / 4) with 0x400.
  replace (threshold_off ctx) with (4 * (0x80000 + 0x400 * ctx)) by (unfold threshold_off; lia).
  apply plic_rd_pure. unfold claim_off. lia.
Qed.

(** The loop over a group reads off one bit per interrupt. *)
Lemma bits_loop_run n devs g get f w masked : (n <= 32)%nat → 0 <= g < 2 ^ 20 →
  0 <= masked < 2 ^ 32 →
  (∀ irq, ∃ x, get irq w = Ok x w ∧ truthy x = f irq) →
  ∃ r, bits_loop n devs g get masked w = Ok r w ∧ 0 <= r < 2 ^ 32 ∧
    ∀ k, 0 <= k → Z.testbit r k = Z.testbit masked k ||
      ((32 - Z.of_nat n <=? k) && (k <? 32) && f (virt_to_phys_irq devs (g * 32 + k))).
Proof.
  intros Hn Hg. revert masked. induction n as [|n IH]; intros masked Hm Hget; cbn [bits_loop].
  - exists masked. split_and!; [done|lia|lia|]. intros k Hk.
    destruct (Z.leb_spec (32 - Z.of_nat 0) k), (Z.ltb_spec k 32); try lia; by rewrite orb_false_r.
  - set (i := 32 - Z.of_nat (S n)).
    rewrite (s32_id (g * 32 + i)) by (unfold i; lia).
    destruct (Hget (virt_to_phys_irq devs (g * 32 + i))) as (x & Hx & Ht).
    erewrite bind_ok by exact Hx. rewrite Ht.
    assert (Hi : u32 (1 .<< i) = 2 ^ i).
    { rewrite Z.shiftl_mul_pow2, Z.mul_1_l by lia. apply u32_id.
      split; [apply Z.pow_nonneg; lia|apply Z.pow_lt_mono_r; lia]. }
    rewrite Hi.
    destruct (IH ltac:(lia) (if f (virt_to_phys_irq devs (g * 32 + i)) then masked .| 2 ^ i else masked))
      as (r & Hr & Hrr & Hb); [|done|].
    { destruct (f _); [|lia]. apply lor_range; [lia..|].
      split; [apply Z.pow_nonneg; lia|apply Z.pow_lt_mono_r; lia]. }
    exists r. split_and!; [exact Hr|lia|lia|]. intros k Hk. rewrite Hb by done.
    destruct (decide (k = i)) as [->|Hne].
    + rewrite (proj2 (Z.leb_gt (32 - Z.of_nat n) i)), (proj2 (Z.leb_le i i)),
        (proj2 (Z.ltb_lt i 32)) by lia. cbn [andb]. rewrite orb_false_r.
      destruct (f _); [|by rewrite orb_false_r]. by rewrite Z.lor_spec, Z.pow2_bits_true by lia.
    + replace (32 - Z.of_nat n <=? k) with (i <=? k)
        by (destruct (Z.leb_spec i k), (Z.leb_spec (32 - Z.of_nat n) k); lia).
      f_equal. destruct (f _); [|done].
      rewrite Z.lor_spec, Z.pow2_bits_false by lia. apply orb_false_r.
Qed.

Lemma bits_loop_word devs g get f w : 0 <= g < 2 ^ 20 →
  (∀ irq, ∃ x, get irq w = Ok x w ∧ truthy x = f irq) →
  bits_loop 32 devs g get 0 w =
    Ok (word_of 32 (λ i, f (virt_to_phys_irq devs (g * 32 + i)))) w.
Proof.
  intros Hg Hget. destruct (bits_loop_run 32 devs g get f w 0) as (r & -> & _ & Hb); [lia..|done|].
  f_equal. apply Z.bits_inj'. intros k Hk. rewrite Hb, testbit_word_of, Z.bits_0 by done.
  change (32 - Z.of_nat 32) with 0. change (Z.of_nat 32) with 32.
  rewrite (proj2 (Z.leb_le 0 k)) by lia. by destruct (k <? 32).
Qed.
End pure.

(** The tests of the handlers recover the context from the offset. *)
Lemma threshold_test ctx : 0 <= ctx < 15872 → u64 (threshold_off ctx - 0x200000) / 0x1000 = ctx.
Proof. intros. unfold threshold_off. rewrite u64_id by lia. dlia. Qed.
Lemma claim_test ctx : 0 <= ctx < 15872 → u64 (claim_off ctx - 0x200004) / 0x1000 = ctx.
Proof. intros. unfold claim_off. rewrite u64_id by lia. dlia. Qed.
Lemma enable_group off vctx : 0x2000 <= off < 0x200000 → (off - 0x2000) / 0x80 = vctx →
  s32 (u64 (off - 0x2000 - vctx * 0x80) / 4) = (off - 0x2000) mod 0x80 / 4.
Proof.
  intros Ho <-. replace (off - 0x2000 - (off - 0x2000) / 0x80 * 0x80) with ((off - 0x2000) mod 0x80) by dlia.
  rewrite u64_id by dlia. apply s32_id. dlia.
Qed.

(** ** The running virtual CPU *)

(** The hart executes virtual CPU [v] of the VM configured by [c]. *)
Record running {D} (w : world D) (v : vcpu) (c : vm_config) : Prop := {
  run_cpu : cpu_ready w;
  run_vcpu : w_vcpus w !! Z.to_nat (w_hart w) = Some v;
  run_conf : conf v ≫= (λ k, w_config w !! k) = Some c;
  run_vhartid : 0 <= vhartid v < DTB_NR_CPUS;
  run_regs : length (regs v) = 32%nat;
  run_last : 0 <= last_claimed_irq_id v < 2 ^ 32
}.

(** The contexts: S-mode of the virtual and of the physical hart. *)
Definition vctx_of (v : vcpu) : Z := 2 * vhartid v + 1.
Definition pctx_of {D} (w : world D) : Z := 2 * w_hart w + 1.

Section running.
Context {D : Type} {P : PlicDevice D} {L : Linker}.
Implicit Type w : world D.

Lemma running_hart w v c : running w v c →
  get_hartid w = Ok (w_hart w) w ∧ get_vcpu w = Ok (w_hart w) w ∧
  vcpu_get (w_hart w) w = Ok v w ∧ config_get (conf v) w = Ok c w ∧ 0 <= w_hart w < 2.
Proof.
  intros [Hc Hv Hk _ _]. pose proof Hc as (_ & Hh & _). unfold DTB_NR_CPUS in Hh.
  split_and!; [by apply get_hartid_ready|by apply get_hartid_ready|apply vcpu_get_ok; [lia|done]| |lia|lia].
  unfold config_get. by rewrite Hk.
Qed.

Lemma pctx_range w v c : running w v c → 0 <= pctx_of w <= 3 ∧ s32 (u64 (2 * w_hart w + 1)) = pctx_of w ∧
  u64 (2 * vhartid v + 1) = vctx_of v ∧ 0 <= vctx_of v <= 3.
Proof.
  intros Hr. destruct (running_hart _ _ _ Hr) as (_ & _ & _ & _ & ?).
  pose proof (run_vhartid _ _ _ Hr). unfold DTB_NR_CPUS, pctx_of, vctx_of in *.
  rewrite !u64_id by lia. rewrite s32_id by lia. lia.
Qed.

(** ** Loads *)

Context `{!PlicLaws D}.

Lemma load_dispatch_run w v c off : running w v c → 0 <= off < 2 ^ 64 →
  load_dispatch (devices c) off (vctx_of v) (pctx_of w) w =
  match vplic_read (devices c) (vctx_of v) (pctx_of w) (last_claimed_irq_id v) (w_plic w) off with
  | Some x => Ok x w
  | None => Panic "Bad PLIC access" w
  end.
Proof.
  intros Hr Ho. pose proof (pctx_range _ _ _ Hr) as (Hp & _ & _ & Hv).
  destruct (running_hart _ _ _ Hr) as (_ & Hgv & Hvg & _).
  unfold load_dispatch. rewrite dispatch_decode. unfold vplic_read.
  pose proof (decode_inv off) as Hd.
  destruct (decode off) as [virq|g|ctx g|ctx|ctx|].
  - destruct Hd as [Hd ->]. unfold handle_priority_reg_load. rewrite s32_id by dlia.
    apply get_priority_run.
  - destruct Hd as [Hd ->]. unfold handle_pending_regs_load. rewrite u64_id by lia.
    rewrite s32_id by dlia. apply bits_loop_word; [dlia|]. intros irq. apply get_pending_run.
  - destruct Hd as (Hd & -> & ->). unfold handle_enable_regs_load.
    rewrite u64_id, (Z.eqb_sym (vctx_of v)) by lia.
    destruct (Z.eqb_spec ((off - 0x2000) / 0x80) (vctx_of v)) as [E|]; [|done]. cbn [negb].
    rewrite (enable_group off) by lia. rewrite s32_id by lia. apply bits_loop_word; [dlia|].
    intros irq. apply get_enabled_run. lia.
  - destruct Hd as [-> Hc]. unfold handle_threshold_reg_load.
    rewrite threshold_test, (Z.eqb_sym (vctx_of v)) by lia.
    destruct (Z.eqb_spec ctx (vctx_of v)); [|done]. cbn [negb].
    rewrite s32_id by lia. apply get_threshold_run. lia.
  - destruct Hd as [-> Hc]. unfold handle_claim_reg_load.
    rewrite claim_test, (Z.eqb_sym (vctx_of v)) by lia.
    destruct (Z.eqb_spec ctx (vctx_of v)); [|done]. cbn [negb].
    erewrite bind_ok by exact Hgv. by erewrite bind_ok by exact Hvg.
  - done.
Qed.

Lemma vplic_read_range devs vctx pctx last (d : D) off x :
  vplic_read devs vctx pctx last d off = Some x → 0 <= x < 2 ^ 32.
Proof.
  unfold vplic_read, phys_priority. intros H.
  destruct (decode off) as [virq|g|ctx g|ctx|ctx|]; simplify_eq;
    repeat case_match; try lia; try apply dev_load_u32; try apply u32_range;
    apply (word_of_range 32).
Qed.

(** The trapped hart's world after the emulation: register [r] of virtual CPU
    [v] is [x] and [sepc] has moved by [k]. *)
Definition resume (k : Z) w : world D :=
  set_csr (<[(w_hart w, sepc) := u64 (csr_of (w_hart w) sepc w + k)]> (w_csr w)) w.
Definition after_load (v : vcpu) (r x k : Z) w : world D :=
  resume k (set_vcpus (<[Z.to_nat (w_hart w) := set_reg r x v]> (w_vcpus w)) w).

Lemma advance_sepc_run (op k : Z) w : k = (if Z.testbit op 1 then 4 else 2) →
  advance_sepc op w = Ok tt (resume k w).
Proof.
  intros ->. unfold advance_sepc. erewrite bind_ok by reflexivity.
  change 2 with (2 ^ 1) at 1. rewrite truthy_land_pow2 by lia. by destruct (Z.testbit op 1).
Qed.

(** lw sign-extends, lwu does not. *)
Definition extend (f3 x : Z) : Z := if f3 =? 2 then u64 (s32 x) else x.

Lemma sign_extend x : 0 <= x < 2 ^ 32 →
  (if truthy (x .& 0x80000000) then x .| 0xffffffff00000000 else x) = u64 (s32 x).
Proof.
  intros Hx. change 0x80000000 with (2 ^ 31). rewrite truthy_land_pow2 by lia.
  change 0xffffffff00000000 with (0xffffffff * 2 ^ 32). rewrite Z.lor_comm, lor_mul_add by lia.
  unfold u64, s32, sgn. change (2 ^ (32 - 1)) with 0x80000000. change (2 ^ 32) with 0x100000000 in *.
  change (2 ^ 64) with 0x10000000000000000. destruct (Z.testbit x 31) eqn:E.
  - apply Z.testbit_true in E; [|lia]. change (2 ^ 31) with 0x80000000 in E. dlia.
  - apply Z.testbit_false in E; [|lia]. change (2 ^ 31) with 0x80000000 in E. dlia.
Qed.

Lemma emulate_load_run w v c ins : running w v c → 0 <= rd ins < 32 →
  emulate_load ins w =
  match vplic_read (devices c) (vctx_of v) (pctx_of w) (last_claimed_irq_id v) (w_plic w)
          (u64 (addr ins - DTB_PLIC)) with
  | Some x => Ok tt (after_load v (rd ins) (extend (funct3 ins) x)
                       (if Z.testbit (opcode ins) 1 then 4 else 2) w)
  | None => Panic "Bad PLIC access" w
  end.
Proof.
  intros Hr Hrd. destruct (running_hart _ _ _ Hr) as (Hgh & Hgv & Hvg & Hcg & Hh).
  destruct (pctx_range _ _ _ Hr) as (Hp & _ & Ev & _).
  unfold emulate_load. erewrite bind_ok by exact Hgv. erewrite bind_ok by exact Hvg.
  erewrite bind_ok by exact Hcg. erewrite bind_ok by exact Hgh.
  rewrite Ev. replace (u64 (2 * w_hart w + 1)) with (pctx_of w) by (unfold pctx_of; rewrite u64_id; lia).
  pose proof (load_dispatch_run w v c (u64 (addr ins - DTB_PLIC)) Hr (u64_range _)) as Hld.
  destruct (vplic_read _ _ _ _ _ _) as [x|] eqn:Ex; [|by erewrite bind_panic by exact Hld].
  erewrite bind_ok by exact Hld. apply vplic_read_range in Ex.
  erewrite vcpu_upd_seq by (lia || apply Hr).
  pose proof (lookup_upd_vcpu _ _ (set_reg (rd ins) x v) _ (run_vcpu _ _ _ Hr)) as Hv1.
  rewrite (bind_ok _ _ _ tt (set_vcpus (<[Z.to_nat (w_hart w) :=
      set_reg (rd ins) (extend (funct3 ins) x) v]> (w_vcpus w)) w)).
  - by apply advance_sepc_run.
  - unfold extend. rewrite <- sign_extend by done. destruct (funct3 ins =? 2); [|done]. cbn [andb].
    destruct (truthy (x .& 0x80000000)); [|done]. cbn [whenM].
    erewrite vcpu_upd_ok by (lia || exact Hv1). rewrite set_vcpus_twice. do 3 f_equal.
    unfold get_reg, set_reg, set_regs. cbn [regs].
    rewrite list_lookup_insert_eq by (rewrite (run_regs _ _ _ Hr); lia). cbn [default from_option id].
    destruct v. simpl. by rewrite list_insert_insert_eq.
Qed.

(** ** The trapped instruction

    htinst holds the transformed instruction (include/emulate.h); bit 1 is clear
    when the instruction was a compressed one. *)
Definition enc_load (r f3 : Z) (wide : bool) : Z := f3 * 2 ^ 12 + r * 2 ^ 7 + (if wide then 3 else 1).
Definition enc_store (r f3 : Z) (wide : bool) : Z :=
  r * 2 ^ 20 + f3 * 2 ^ 12 + (if wide then 0x23 else 0x21).

Definition fields_ok (h : Z) : Prop := h / 2 ^ 15 mod 2 ^ 5 = 0 ∧ h / 2 ^ 25 mod 2 ^ 7 = 0.

Lemma parse_htinst_run w : let h := csr_of (w_hart w) htinst w in fields_ok h →
  parse_htinst w = Ok (mk_instr (h mod 2 ^ 7) (h / 2 ^ 7 mod 2 ^ 5) (h / 2 ^ 12 mod 2 ^ 3) 0
                         (h / 2 ^ 20 mod 2 ^ 5) 0) w.
Proof.
  intros h [H1 H2]. unfold parse_htinst. erewrite bind_ok by reflexivity. fold h.
  rewrite !get_value_spec by lia. rewrite H1, H2. change (u8 0) with 0. cbn.
  rewrite Z.div_1_r. repeat match goal with |- context [u8 ?x] => rewrite (u8_id x) by dlia end. done.
Qed.

Lemma parse_htinst_bad h : ¬ fields_ok h →
  ∃ msg, ∀ w, csr_of (w_hart w) htinst w = h → parse_htinst w = Panic msg w.
Proof.
  intros Hn. unfold parse_htinst.
  assert (Hu : u8 (h / 2 ^ 15 mod 2 ^ 5) = h / 2 ^ 15 mod 2 ^ 5) by (apply u8_id; dlia).
  destruct (decide (h / 2 ^ 15 mod 2 ^ 5 = 0)) as [E|E]; eexists; intros w Hw;
    erewrite bind_ok by reflexivity; rewrite Hw, !get_value_spec by lia; cbn [addr_offset];
    rewrite Hu; [|by rewrite (proj2 (Z.eqb_neq _ 0) E)].
  rewrite E. cbn [negb Z.eqb]. rewrite (proj2 (Z.eqb_neq _ 0)); [done|].
  intros E'. by apply Hn.
Qed.

Lemma load_fault_run w v c a r f3 wide : running w v c →
  csr_of (w_hart w) htinst w = enc_load r f3 wide → 0 <= r < 32 → f3 = 2 ∨ f3 = 6 →
  vplic_handle_load_page_fault a w =
  match vplic_read (devices c) (vctx_of v) (pctx_of w) (last_claimed_irq_id v) (w_plic w)
          (u64 (a - DTB_PLIC)) with
  | Some x => Ok tt (after_load v r (extend f3 x) (if wide then 4 else 2) w)
  | None => Panic "Bad PLIC access" w
  end.
Proof.
  intros Hr Hh Hrd Hf. unfold vplic_handle_load_page_fault.
  assert (Hlow : 0 <= (if wide then 3 else 1) < 128) by (destruct wide; lia).
  erewrite bind_ok.
  2:{ apply parse_htinst_run. rewrite Hh. unfold fields_ok, enc_load. split; dlia. }
  rewrite Hh. replace (enc_load r f3 wide mod 2 ^ 7) with (if wide then 3 else 1) by (unfold enc_load; dlia).
  replace (enc_load r f3 wide / 2 ^ 7 mod 2 ^ 5) with r by (unfold enc_load; dlia).
  replace (enc_load r f3 wide / 2 ^ 12 mod 2 ^ 3) with f3 by (unfold enc_load; dlia).
  cbn [opcode funct3]. rewrite (proj2 (Z.eqb_eq _ 3)) by (by destruct wide). cbn [negb].
  assert (Et : negb (f3 =? 2) && negb (f3 =? 6) = false) by (by destruct Hf as [-> | ->]).
  rewrite Et, (emulate_load_run w v c) by done. unfold set_addr. cbn [addr rd funct3 opcode].
  by replace (Z.testbit (if wide then 3 else 1) 1) with wide by (by destruct wide).
Qed.
End running.

(** ** Stores *)

Section stores.
Context {D : Type} {P : PlicDevice D} {L : Linker}.
Implicit Type w : world D.

(** The device accesses [ops] and nothing else. *)
Definition do_ops (ops : list plic_op) w : world D := set_plic (run_ops ops (w_plic w)) w.

Lemma do_ops_nil w : do_ops [] w = w.
Proof. unfold do_ops, run_ops. cbn [foldl]. apply set_plic_id. Qed.

Lemma do_ops_app o1 o2 w : do_ops (o1 ++ o2) w = do_ops o2 (do_ops o1 w).
Proof. unfold do_ops. by rewrite run_ops_app. Qed.

Lemma set_priority_run irq val w : plic_set_priority irq val w =
  Ok tt (do_ops (if bad_source irq then [] else [PStore (priority_off irq) val]) w).
Proof.
  unfold plic_set_priority. destruct (bad_source irq); [by rewrite do_ops_nil|done].
Qed.

Lemma set_enabled_run ctx irq en w : 0 <= ctx <= 15871 →
  plic_set_enabled ctx irq en w = Ok tt (do_ops (enable_op ctx irq (truthy en)) w).
Proof.
  intros Hc. unfold plic_set_enabled, enable_op.
  destruct (bad_source irq); [by rewrite do_ops_nil|].
  rewrite (proj2 (bad_context_false ctx) Hc), source_mask_bit.
  assert (E : 4 * (0x2000 / 4 + 1024 / (4 * 8) * ctx + irq / (4 * 8)) = enable_off ctx irq).
  { unfold enable_off. change (4 * 8) with 32. change (0x2000 / 4) with 0x800.
    change (1024 / 32) with 32. lia. }
  unfold truthy. destruct (en =? 0); unfold plic_amoand, plic_amoor; rewrite modify_run, E; done.
Qed.

Lemma set_threshold_run ctx val w : 0 <= ctx <= 15871 →
  plic_set_threshold ctx val w = Ok tt (do_ops [PStore (threshold_off ctx) val] w).
Proof.
  intros Hc. unfold plic_set_threshold. rewrite (proj2 (bad_context_false ctx) Hc).
  unfold plic_wr. rewrite modify_run. unfold threshold_off, do_ops, run_ops. cbn [foldl flip run_op].
  change (0x200000 / 4) with 0x80000. change (0x1000 / 4) with 0x400.
  by replace (4 * (0x80000 + 0x400 * ctx)) with (0x200000 + 0x1000 * ctx) by lia.
Qed.

Lemma complete_run ctx val w : 0 <= ctx <= 15871 →
  plic_complete ctx val w = Ok tt (do_ops [PStore (claim_off ctx) val] w).
Proof.
  intros Hc. unfold plic_complete. rewrite (proj2 (bad_context_false ctx) Hc).
  unfold plic_wr. rewrite modify_run. unfold claim_off, do_ops, run_ops. cbn [foldl flip run_op].
  change (0x200004 / 4) with 0x80001. change (0x1000 / 4) with 0x400.
  by replace (4 * (0x80001 + 0x400 * ctx)) with (0x200004 + 0x1000 * ctx) by lia.
Qed.

Lemma claim_run ctx w : 0 <= ctx <= 15871 →
  plic_claim ctx w = Ok (u32 (dev_load (claim_off ctx) (w_plic w)).1) (do_ops [PLoad (claim_off ctx)] w).
Proof.
  intros Hc. unfold plic_claim. rewrite (proj2 (bad_context_false ctx) Hc), plic_rd_run.
  unfold claim_off, do_ops, run_ops. cbn [foldl flip run_op].
  change (0x200004 / 4) with 0x80001. change (0x1000 / 4) with 0x400.
  by replace (4 * (0x80001 + 0x400 * ctx)) with (0x200004 + 0x1000 * ctx) by lia.
Qed.

Lemma enable_bit i val : 0 <= i < 32 → 0 <= val < 2 ^ 32 →
  truthy (s32 (u32 (1 .<< i) .& val)) = Z.testbit val i.
Proof.
  intros Hi Hv. rewrite Z.shiftl_mul_pow2, Z.mul_1_l by lia.
  assert (0 < 2 ^ i) by (apply Z.pow_pos_nonneg; lia).
  assert (2 ^ i <= 2 ^ 31) by (apply Z.pow_le_mono_r; lia).
  rewrite (u32_id (2 ^ i)) by lia. rewrite Z.land_comm.
  assert (E : val .& 2 ^ i = if Z.testbit val i then 2 ^ i else 0).
  { apply Z.bits_inj'. intros n Hn. rewrite Z.land_spec, Z.pow2_bits_eqb by lia.
    destruct (Z.eqb_spec i n) as [<-|]; [|destruct (Z.testbit val i)];
      rewrite ?Z.pow2_bits_eqb, ?Z.bits_0, ?andb_false_r by lia; [|by rewrite (proj2 (Z.eqb_neq i n))|done].
    destruct (Z.testbit val i); [by rewrite Z.pow2_bits_true by lia|by rewrite Z.bits_0]. }
  rewrite E. destruct (Z.testbit val i); [|done]. apply truthy_true.
  unfold s32, sgn. change (2 ^ (32 - 1)) with 0x80000000.
  change (2 ^ 31) with 0x80000000 in *. change (2 ^ 32) with 0x100000000. dlia.
Qed.

Lemma enable_store_loop_run n devs g val pctx w : (n <= 32)%nat → 0 <= g < 2 ^ 20 →
  0 <= val < 2 ^ 32 → 0 <= pctx <= 15871 →
  enable_store_loop n devs g val pctx w =
  Ok tt (do_ops (i ← seqZ (32 - Z.of_nat n) (Z.of_nat n);
                 enable_op pctx (virt_to_phys_irq devs (g * 32 + i)) (Z.testbit val i)) w).
Proof.
  intros Hn Hg Hv Hp. revert w. induction n as [|n IH]; intros w; cbn [enable_store_loop].
  - change (seqZ (32 - Z.of_nat 0) (Z.of_nat 0)) with (@nil Z). cbn [mbind list_bind].
    by rewrite do_ops_nil.
  - rewrite (s32_id pctx), (s32_id (g * 32 + (32 - Z.of_nat (S n)))) by lia.
    erewrite bind_ok by (apply set_enabled_run; lia). rewrite enable_bit by lia.
    rewrite IH, (seqZ_cons _ (Z.of_nat (S n))) by lia. rewrite bind_cons, do_ops_app.
    replace (Z.succ (32 - Z.of_nat (S n))) with (32 - Z.of_nat n) by lia.
    by replace (Z.pred (Z.of_nat (S n))) with (Z.of_nat n) by lia.
Qed.

(** Whether a write completes the interrupt the hypervisor claimed. *)
Definition completes (devs : devlist) (vctx last off val : Z) : bool :=
  match decode off with
  | RClaim ctx => (ctx =? vctx) && (u32 (virt_to_phys_irq devs (s32 val)) =? last)
  | _ => false
  end.

(** Completion also forgets the interrupt and withdraws the virtual one. *)
Definition after_complete (v : vcpu) w : world D :=
  set_csr (<[(w_hart w, hvip) := Z.ldiff (csr_of (w_hart w) hvip w) HVIP_VSEIP]> (w_csr w))
    (set_vcpus (<[Z.to_nat (w_hart w) := set_last_claimed 0 v]> (w_vcpus w)) w).
Definition after_write (v : vcpu) (ops : list plic_op) (comp : bool) w : world D :=
  do_ops ops (if comp then after_complete v w else w).

Lemma store_dispatch_run w v c off val : running w v c → 0 <= off < 2 ^ 64 → 0 <= val < 2 ^ 32 →
  store_dispatch (devices c) (w_hart w) off (vctx_of v) (pctx_of w) val w =
  match vplic_write_ops (devices c) (vctx_of v) (pctx_of w) (last_claimed_irq_id v) off val with
  | Some ops => Ok tt (after_write v ops
                  (completes (devices c) (vctx_of v) (last_claimed_irq_id v) off val) w)
  | None => Panic "Bad PLIC access" w
  end.
Proof.
  intros Hr Ho Hval. pose proof (pctx_range _ _ _ Hr) as (Hp & _ & _ & Hv).
  destruct (running_hart _ _ _ Hr) as (_ & Hgv & Hvg & Hcg & Hh).
  unfold store_dispatch. rewrite dispatch_decode. unfold vplic_write_ops, completes, after_write.
  pose proof (decode_inv off) as Hd.
  destruct (decode off) as [virq|g|ctx g|ctx|ctx|].
  - destruct Hd as [Hd ->]. unfold handle_priority_reg_store. rewrite s32_id by dlia.
    apply set_priority_run.
  - by rewrite do_ops_nil.
  - destruct Hd as (Hd & -> & ->). unfold handle_enable_regs_store.
    rewrite u64_id, (Z.eqb_sym (vctx_of v)) by lia.
    destruct (Z.eqb_spec ((off - 0x2000) / 0x80) (vctx_of v)) as [E|]; [|by rewrite do_ops_nil].
    cbn [negb]. rewrite (enable_group off) by lia.
    rewrite enable_store_loop_run; [done|lia|dlia|lia|lia].
  - destruct Hd as [-> Hc]. unfold handle_threshold_reg_store.
    rewrite threshold_test, (Z.eqb_sym (vctx_of v)) by lia.
    destruct (Z.eqb_spec ctx (vctx_of v)); [|by rewrite do_ops_nil]. cbn [negb].
    rewrite s32_id, u32_id by lia. apply set_threshold_run. lia.
  - destruct Hd as [-> Hc]. unfold handle_complete_reg_store.
    rewrite claim_test, (Z.eqb_sym (vctx_of v)) by lia.
    destruct (Z.eqb_spec ctx (vctx_of v)); [|by rewrite do_ops_nil]. cbn [negb andb].
    erewrite bind_ok by exact Hvg. erewrite bind_ok by exact Hcg.
    destruct (Z.eqb_spec (u32 (virt_to_phys_irq (devices c) (s32 val))) (last_claimed_irq_id v)) as [->|];
      [|by rewrite do_ops_nil].
    erewrite vcpu_upd_seq by (lia || apply Hr). rewrite s32_id by lia.
    erewrite bind_ok by (apply complete_run; lia).
    unfold CSRC. erewrite bind_ok by reflexivity. unfold CSRW. by rewrite modify_run.
  - done.
Qed.

Lemma emulate_store_run w v c ins : running w v c → 0 <= rs2 ins < 32 →
  let val := u32 (get_reg (rs2 ins) v) in
  let off := u64 (addr ins - DTB_PLIC) in
  emulate_store ins w =
  match vplic_write_ops (devices c) (vctx_of v) (pctx_of w) (last_claimed_irq_id v) off val with
  | Some ops => Ok tt (resume (if Z.testbit (opcode ins) 1 then 4 else 2)
                  (after_write v ops
                    (completes (devices c) (vctx_of v) (last_claimed_irq_id v) off val) w))
  | None => Panic "Bad PLIC access" w
  end.
Proof.
  intros Hr Hrd val off. destruct (running_hart _ _ _ Hr) as (Hgh & Hgv & Hvg & Hcg & Hh).
  destruct (pctx_range _ _ _ Hr) as (Hp & _ & Ev & _).
  unfold emulate_store. erewrite bind_ok by exact Hgv. erewrite bind_ok by exact Hvg.
  erewrite bind_ok by exact Hcg. erewrite bind_ok by exact Hgh.
  rewrite Ev. replace (u64 (2 * w_hart w + 1)) with (pctx_of w) by (unfold pctx_of; rewrite u64_id; lia).
  pose proof (store_dispatch_run w v c off val Hr (u64_range _) (u32_range _)) as Hst.
  fold off val. destruct (vplic_write_ops _ _ _ _ _ _) as [ops|]; [|by erewrite bind_panic by exact Hst].
  erewrite bind_ok by exact Hst. by apply advance_sepc_run.
Qed.

Lemma store_fault_run w v c a r wide : running w v c →
  csr_of (w_hart w) htinst w = enc_store r 2 wide → 0 <= r < 32 →
  let val := u32 (get_reg r v) in
  let off := u64 (a - DTB_PLIC) in
  vplic_handle_store_or_amo_page_fault a w =
  match vplic_write_ops (devices c) (vctx_of v) (pctx_of w) (last_claimed_irq_id v) off val with
  | Some ops => Ok tt (resume (if wide then 4 else 2)
                  (after_write v ops
                    (completes (devices c) (vctx_of v) (last_claimed_irq_id v) off val) w))
  | None => Panic "Bad PLIC access" w
  end.
Proof.
  intros Hr Hh Hrd val off. unfold vplic_handle_store_or_amo_page_fault.
  assert (Hlow : 0 <= (if wide then 0x23 else 0x21) < 128) by (destruct wide; lia).
  erewrite bind_ok.
  2:{ apply parse_htinst_run. rewrite Hh. unfold fields_ok, enc_store. split; dlia. }
  rewrite Hh. replace (enc_store r 2 wide mod 2 ^ 7) with (if wide then 0x23 else 0x21)
    by (unfold enc_store; dlia).
  replace (enc_store r 2 wide / 2 ^ 20 mod 2 ^ 5) with r by (unfold enc_store; dlia).
  replace (enc_store r 2 wide / 2 ^ 12 mod 2 ^ 3) with 2 by (unfold enc_store; dlia).
  cbn [opcode funct3]. rewrite (proj2 (Z.eqb_eq _ 0x23)) by (by destruct wide). cbn [negb Z.eqb Pos.eqb].
  rewrite (emulate_store_run w v c) by done. unfold set_addr. cbn [addr rs2 opcode].
  by replace (Z.testbit (if wide then 0x23 else 0x21) 1) with wide by (by destruct wide).
Qed.
End stores.
