(* ===== verification/VmConfig.v ===== *)
(** * VmConfig: the static configuration of guest/vm_config.c

    Two VMs, one hart each.  The addresses of the embedded guest images and of
    the root tables are chosen by the linker and are parameters. *)

From S2P Require Import Prelude Layout Memory Machine.

Definition emulated_plic := mk_mmio_dev DTB_PLIC DTB_PLIC DTB_PLIC_SIZE 0 0 0.
Definition serial := mk_mmio_dev DTB_SERIAL DTB_SERIAL PAGE_SIZE (PTE_R .| PTE_W) 10 10.
Definition virtio_disk_1 := mk_mmio_dev 0x10001000 0x10001000 0x1000 (PTE_R .| PTE_W) 1 1.
Definition pci_serial := mk_mmio_dev DTB_PCI_IO DTB_SERIAL PAGE_SIZE (PTE_R .| PTE_W) 33 10.
Definition virtio_disk_2 := mk_mmio_dev 0x10002000 0x10001000 0x1000 (PTE_R .| PTE_W) 2 1.

(** Pad an initialiser to the array's length: the rest is NULL. *)
Definition dev_array (ds : list mmio_dev) : list (option mmio_dev) :=
  (Some <$> ds) ++ replicate (Z.to_nat MAX_DEVS - length ds) None.

Section config.
(** ADDRESS and END_ADDRESS of the images, and &config[i].vm_pgtable. *)
Context (vm_xv6 vm_xv6_end vm_another_xv6 vm_another_xv6_end pgtable0 pgtable1 : Z).

Definition config_0 : vm_config :=
  mk_vm_config 0x1 (KVA2PA vm_xv6) (KVA2PA vm_xv6_end) 0x80100000 (16 .<< 20) 0x80100000
    (dev_array [serial; emulated_plic; virtio_disk_1]) (mk_barrier 0 0 0 0) pgtable0.
Definition config_1 : vm_config :=
  mk_vm_config 0x2 (KVA2PA vm_another_xv6) (KVA2PA vm_another_xv6_end) 0x80100000 (16 .<< 20)
    0x80100000 (dev_array [pci_serial; emulated_plic; virtio_disk_2]) (mk_barrier 0 0 0 0) pgtable1.
Definition config : list vm_config := [config_0; config_1].

Definition nr_vms : Z := Z.of_nat (length config).
End config.
