(* ===== verification/Concrete.v ===== *)
(** * Concrete: a machine on which the theorems are exercised

    A linker layout, a PLIC that is a plain register file, RAM filled with
    zeros, and the repository's own configuration. *)

From S2P Require Import Prelude Layout Memory Machine Kmem Cpu Vmem PageTable VmemSpec Sv39 Plic Vcpu VmRun VmRunSpec VplicSpec VmConfig.

(** A 2 MiB image at the start of RAM, the dynamic region above it. *)
#[export] Instance demo_linker : Linker := {|
  sym_text := VAS_KERNEL + 0x100000; sym_etext := VAS_KERNEL + 0x108000;
  sym_rodata := VAS_KERNEL + 0x108000; sym_erodata := VAS_KERNEL + 0x180000;
  sym_data := VAS_KERNEL + 0x180000; sym_edata := VAS_KERNEL + 0x1f0000;
  sym_cpu_structs := VAS_KERNEL + 0x1f0000;
  sym_dynamic := VAS_KERNEL + 0x200000;
  sym_vcpus := VAS_KERNEL + 0x1e0000;
  sym_hstrapvec := VAS_KERNEL + 0x100800
|}.

#[export] Instance demo_linker_ok : LinkerOk demo_linker.
Proof. split; [done|]. by vm_compute. Qed.

(** A register file: writes are stored, reads have no side effect. *)
Definition plic_regs : Type := gmap Z Z.
Definition reg (off : Z) (d : plic_regs) : Z := u32 (default 0 (d !! off)).
#[export] Instance regfile : PlicDevice plic_regs := {|
  dev_load off d := (reg off d, d);
  dev_store off v d := <[off := u32 v]> d;
  dev_amoand off m d := <[off := reg off d .& m]> d;
  dev_amoor off m d := <[off := reg off d .| m]> d
|}.
#[export] Instance regfile_laws : PlicLaws plic_regs.
Proof. split; [done|]. intros off d. apply u32_range. Qed.

(** The embedded images lie in read-only data, the root tables in data. *)
Definition demo_vm0 : vm_config :=
  config_0 (VAS_KERNEL + 0x110000) (VAS_KERNEL + 0x118000) (VAS_KERNEL + 0x180000).
Definition demo_vm1 : vm_config :=
  config_1 (VAS_KERNEL + 0x120000) (VAS_KERNEL + 0x128000) (VAS_KERNEL + 0x184000).
Definition demo_config : list vm_config :=
  config (VAS_KERNEL + 0x110000) (VAS_KERNEL + 0x118000)
         (VAS_KERNEL + 0x120000) (VAS_KERNEL + 0x128000)
         (VAS_KERNEL + 0x180000) (VAS_KERNEL + 0x184000).

Lemma zero_ram : ∃ m : ram, zeroed m DTB_MEMORY DTB_MEMORY_SIZE.
Proof.
  exists (wr_bytes ∅ DTB_MEMORY (replicate (Z.to_nat DTB_MEMORY_SIZE) Byte.x00)).
  intros a Ha. apply (zeroed_wr_replicate ∅ DTB_MEMORY).
  rewrite Z2Nat.id; [exact Ha|by unfold DTB_MEMORY_SIZE].
Qed.

(** Hart [h], booted, with memory [m], device state [d], virtual CPUs [vs] and
    CSRs [cs]. *)
Definition demo_world {D} (m : ram) (d : D) (vs : list vcpu) (cs : gmap (Z * csr) Z) (h : Z)
  : world D :=
  mk_world m (mk_kmem 0 0) [0; 1] 1 demo_config vs cs d h h.

(** The virtual CPU of hart 1: VM 1, virtual hart 0. *)
Definition demo_vcpu (last : Z) (rs : list Z) : vcpu := mk_vcpu 0 last (Some 1%nat) rs.
Definition demo_vcpus (last : Z) (rs : list Z) : list vcpu :=
  [mk_vcpu 0 0 (Some 0%nat) (replicate 32 0); demo_vcpu last rs].

Lemma demo_cpu_ready {D} m (d : D) vs cs h : h = 0 ∨ h = 1 → cpu_ready (demo_world m d vs cs h).
Proof. by intros [-> | ->]; (split; [|split]). Qed.

Lemma demo_running {D} m (d : D) cs last rs : 0 <= last < 2 ^ 32 → length rs = 32%nat →
  running (demo_world m d (demo_vcpus last rs) cs 1) (demo_vcpu last rs) demo_vm1.
Proof.
  intros Hl Hrs. split; [apply demo_cpu_ready; by right|done|done|done|exact Hrs|exact Hl].
Qed.

(** ** Memory after init_kmem: 65024 free pages *)

Lemma demo_boot (d : plic_regs) vs cs h : ∃ m k,
  let w := set_mem m (set_kmem k (demo_world ∅ d vs cs h)) in
  kmem_inv w all_pages ∧ has_bytes m DTB_MEMORY DTB_MEMORY_SIZE.
Proof.
  destruct zero_ram as [m Hm]. pose proof (zeroed_has_bytes _ _ _ Hm) as Hb.
  destruct (init_kmem_ok (demo_world m d vs cs h)) as (w' & _ & Hinv & (m' & k & ->) & Hbk);
    [done|done| |].
  - eapply has_bytes_sub; [exact Hb|by vm_compute|by vm_compute].
  - exists m', k. split; [exact Hinv|]. by apply Hbk.
Qed.

Lemma demo_enough n : Z.of_nat n <= 65024 → (n <= length all_pages)%nat.
Proof.
  intros Hn. unfold all_pages. rewrite length_pages_down.
  replace ((VAS_KERNEL + DTB_MEMORY_SIZE - sym_dynamic) / PAGE_SIZE) with 65024 by done. lia.
Qed.

Lemma demo_pages n : Z.of_nat n <= 65024 → ∃ l fl, all_pages = l ++ fl ∧ length l = n.
Proof.
  intros Hn. exists (take n all_pages), (drop n all_pages). rewrite take_drop.
  split; [done|]. apply length_take_le, demo_enough, Hn.
Qed.

(** An empty Sv39 root from the allocator. *)
Lemma demo_root : ∃ (w : world plic_regs) x fl,
  let r := KPA2PA x in let tabs := {[ r := mk_tab r false 2 0 ]} in
  mem_inv w tabs fl [] ∧ root_ptr tabs x r 0 ∧ 65000 <= Z.of_nat (length fl) ∧
  ∀ v, 0 <= v < vpn_bound false → pt_look (w_mem w) 2 r v = None.
Proof.
  destruct (demo_boot ∅ [] ∅ 0) as (m & k & Hinv & _).
  destruct (demo_pages 1 ltac:(done)) as (l & fl & Hp & Hl).
  destruct l as [|x [|? ?]]; [done| |done]. rewrite Hp in Hinv.
  destruct (kmalloc_root _ ∅ x fl [] (mem_inv_boot _ _ Hinv)) as (w & _ & _ & Hmi & Hr & _ & Hlook).
  exists w, x, fl. split_and!; [exact Hmi|exact Hr| |by intros v Hv; apply Hlook].
  pose proof (demo_enough (Z.to_nat 65001) ltac:(lia)) as Hlen. rewrite Hp in Hlen.
  rewrite length_app in Hlen. cbn [length] in Hlen. lia.
Qed.

(** The two VMs' root tables in static memory, empty. *)
Lemma demo_guest_root : ∃ (w : world plic_regs) fl,
  let r := KVA2PA (vm_pgtable demo_vm0) in let tabs := {[ r := mk_tab r true 2 0 ]} in
  mem_inv w tabs fl [] ∧ root_ptr tabs (vm_pgtable demo_vm0) r 1 ∧ 65000 <= Z.of_nat (length fl) ∧
  ∀ v, 0 <= v < vpn_bound true → pt_look (w_mem w) 2 r v = None.
Proof.
  destruct (demo_boot ∅ [] ∅ 0) as (m & k & Hinv & Hb).
  destruct (memset_root _ ∅ all_pages [] (vm_pgtable demo_vm0) (KVA2PA (vm_pgtable demo_vm0))
    (mem_inv_boot _ _ Hinv)) as (w & _ & _ & Hmi & Hr & Hlook & _).
  - apply (kptr_range_kva 0x180000); by vm_compute.
  - eapply has_bytes_sub; [exact Hb|by vm_compute|by vm_compute].
  - by vm_compute.
  - by vm_compute.
  - by vm_compute.
  - intros u j Hu. by rewrite lookup_empty in Hu.
  - exists w, all_pages. split_and!; [exact Hmi|exact Hr| |by intros v Hv; apply Hlook].
    pose proof (demo_enough (Z.to_nat 65000) ltac:(lia)). lia.
Qed.

(** ** The configuration of guest/vm_config.c *)

Definition devs0 : list mmio_dev := [serial; emulated_plic; virtio_disk_1].
Definition devs1 : list mmio_dev := [pci_serial; emulated_plic; virtio_disk_2].

Lemma dev_ok_all : Forall dev_ok (devs0 ++ devs1).
Proof. repeat (apply Forall_cons; split; [split; by vm_compute|]). constructor. Qed.

(** The page ranges, as numbers. *)
Lemma in_serial v : in_dev serial v ↔ 0x10000 <= v < 0x10001.
Proof. done. Qed.
Lemma in_plic v : in_dev emulated_plic v ↔ 0xc000 <= v < 0xc600.
Proof.
  unfold in_dev. replace (dev_vpn emulated_plic) with 0xc000 by done.
  replace (Z.of_nat (dev_pages emulated_plic)) with 0x600 by by vm_compute. lia.
Qed.
Lemma in_disk_1 v : in_dev virtio_disk_1 v ↔ 0x10001 <= v < 0x10002.
Proof. done. Qed.
Lemma in_pci_serial v : in_dev pci_serial v ↔ 0x10000 <= v < 0x10001.
Proof. done. Qed.
Lemma in_disk_2 v : in_dev virtio_disk_2 v ↔ 0x10001 <= v < 0x10002.
Proof. done. Qed.

Lemma demo_segments c : c = demo_vm0 ∨ c = demo_vm1 →
  base_vpn c = 0x80100 ∧ Z.of_nat (image_pages c) = 8 ∧ Z.of_nat (ram_pages c) = 4088.
Proof. by intros [-> | ->]; vm_compute. Qed.

Lemma demo_ok c ds o rest : c = demo_vm0 ∨ c = demo_vm1 → ds = devs0 ∨ ds = devs1 →
  vm_pgtable c = VAS_KERNEL + o → o = 0x180000 ∨ o = 0x184000 →
  devices c = (Some <$> ds) ++ None :: rest → vm_ok c ds.
Proof.
  intros Hc Hds Ho Hoo Hd. destruct (demo_segments c Hc) as (Hb & Hi & Hr).
  split.
  - by destruct Hc as [-> | ->]; vm_compute.
  - by destruct Hc as [-> | ->]; vm_compute.
  - by destruct Hc as [-> | ->]; vm_compute.
  - exists o. split; [exact Ho|]. destruct Hoo as [-> | ->]; by vm_compute.
  - by exists rest.
  - pose proof dev_ok_all as [H0 H1]%Forall_app. by destruct Hds as [-> | ->].
  - destruct Hds as [-> | ->]; cbn [devs_disjoint devs0 devs1]; repeat split; repeat constructor;
      intros v; rewrite ?in_serial, ?in_plic, ?in_disk_1, ?in_pci_serial, ?in_disk_2; lia.
  - intros d v Hd' Hv. rewrite Nat2Z.inj_add, Hb, Hi, Hr.
    destruct Hds as [-> | ->]; unfold devs0, devs1 in Hd'; rewrite !elem_of_cons in Hd';
      destruct Hd' as [->|[->|[->|Hn]]]; try (by apply not_elem_of_nil in Hn);
      revert Hv; rewrite ?in_serial, ?in_plic, ?in_disk_1, ?in_pci_serial, ?in_disk_2; lia.
Qed.

Lemma demo_ok0 : vm_ok demo_vm0 devs0.
Proof. eapply (demo_ok _ _ 0x180000); auto; done. Qed.
Lemma demo_ok1 : vm_ok demo_vm1 devs1.
Proof. eapply (demo_ok _ _ 0x184000); auto; done. Qed.

Lemma demo_need : Z.of_nat (vm_need demo_vm0 devs0) <= 4200 ∧ Z.of_nat (vm_need demo_vm1 devs1) <= 4200.
Proof. split; by vm_compute. Qed.
