(* ===== verification/KmemConc.v ===== *)
(** * KmemConc: the allocator under interleaving (mem/kmem.c)

    Kmem.v takes kmalloc and kfree as whole calls of one hart.  Here any number of
    harts call them at the same time, one access to shared memory per step: the
    lock, the head of the list, the link in a page, the bytes that memset clears.
    Between calls a hart writes what it likes into the pages it has. *)

From S2P Require Import Prelude Layout Bits Memory Machine Lock Kmem Plic Vcpu VplicSpec VmConfig Concrete.

(** Where a hart is: between calls, in kmalloc (M) or in kfree (F). *)
Inductive km_pc :=
| Idle
| MAcquire | MHead | MNext (page : Z) | MSet (page next : Z) | MRelease (page : Z) | MClear (page : Z) (k : nat)
| FCheck (page : Z) | FAcquire (page : Z) | FHead (page : Z) | FLink (page next : Z) | FSet (page : Z) | FRelease.

(** [own] are the pages kmalloc returned to the hart. *)
Record thread := mk_thread { pc : km_pc; own : list Z }.

Section conc.
Context {D : Type} {L : Linker}.
#[local] Abbreviation M := (cmd (world D)).
Implicit Types (w : world D) (t : thread) (ts : list thread) (fl : list Z) (m : ram).

Definition go (p : km_pc) t : M thread := mret (mk_thread p (own t)).

(** The next access of a hart inside a call; a hart that meets the lock spins. *)
Definition km_access t : M thread :=
  match pc t with
  | Idle => hang
  | MAcquire => acquire_kmem ;; go MHead t
  | MHead => page ← gets (λ w, freelist (w_kmem w)); go (MNext page) t
  | MNext page => if truthy page then next ← load64 page; go (MSet page next) t else go (MRelease page) t
  | MSet page next => set_freelist next ;; go (MRelease page) t
  | MRelease page => release_kmem ;; go (MClear page (Z.to_nat PAGE_SIZE)) t
  | MClear page O => mret (mk_thread Idle (page :: own t))
  | MClear page (S k) => store8 (page + (PAGE_SIZE - Z.of_nat (S k))) 0 ;; go (MClear page k) t
  | FCheck page => if negb (valid_address page) then panic "kfree" else go (FAcquire page) t
  | FAcquire page => acquire_kmem ;; go (FHead page) t
  | FHead page => next ← gets (λ w, freelist (w_kmem w)); go (FLink page next) t
  | FLink page next => store64 page next ;; go (FSet page) t
  | FSet page => set_freelist page ;; go FRelease t
  | FRelease => release_kmem ;; go Idle t
  end.

(** [m'] differs from [m] inside page [x] only. *)
Definition inside (x : Z) m m' : Prop :=
  (∀ a, ¬ (KPA2PA x <= a < KPA2PA x + PAGE_SIZE) → m' !! a = m !! a) ∧ ∀ a, is_Some (m !! a) → is_Some (m' !! a).

Inductive km_step : world D * list thread → world D * list thread → Prop :=
| K_kmalloc w ts i t : ts !! i = Some t → pc t = Idle →
    km_step (w, ts) (w, <[i := mk_thread MAcquire (own t)]> ts)
| K_kfree w ts i t x l1 l2 : ts !! i = Some t → pc t = Idle → own t = l1 ++ x :: l2 →
    km_step (w, ts) (w, <[i := mk_thread (FCheck x) (l1 ++ l2)]> ts)
| K_write w ts i t x m : ts !! i = Some t → pc t = Idle → x ∈ own t → inside x (w_mem w) m →
    km_step (w, ts) (set_mem m w, ts)
| K_access w ts i t t' w' : ts !! i = Some t → km_access t w = Ok t' w' →
    km_step (w, ts) (w', <[i := t']> ts).

(** A hart alone: the accesses of one call until it is over. *)
Fixpoint alone (fuel : nat) t : M thread :=
  match fuel with
  | O => hang
  | S fuel' => match pc t with Idle => mret t | _ => t' ← km_access t; alone fuel' t' end
  end.

(** ** A hart alone does what Kmem.v says *)

Lemma alone_step fuel t w : pc t ≠ Idle → alone (S fuel) t w = (t' ← km_access t; alone fuel t') w.
Proof. cbn [alone]. by destruct (pc t). Qed.

Lemma alone_idle fuel o w : alone (S fuel) (mk_thread Idle o) w = Ok (mk_thread Idle o) w.
Proof. done. Qed.

Ltac alone_run := rewrite alone_step by done; unfold km_access, go, mbind, cmd_bind, mret, cmd_ret; cbn [pc own].

Lemma alone_clear fuel page n o w : (n + 2 <= fuel)%nat →
  alone fuel (mk_thread (MClear page n) o) w =
  (memset_loop n (page + (PAGE_SIZE - Z.of_nat n)) 0 ;; mret (mk_thread Idle (page :: o))) w.
Proof.
  revert fuel w. induction n as [|n IH]; intros fuel w Hf; (destruct fuel as [|fuel]; [lia|]); alone_run.
  - destruct fuel as [|fuel]; [lia|]. done.
  - cbn [memset_loop]. unfold mbind, cmd_bind. destruct (store8 _ 0 w) as [[] w'| | |]; [|done..].
    rewrite IH by lia. by replace (page + (PAGE_SIZE - Z.of_nat (S n)) + 1) with (page + (PAGE_SIZE - Z.of_nat n)) by lia.
Qed.

Lemma alone_release fuel p o w : (Z.to_nat PAGE_SIZE + 3 <= fuel)%nat →
  alone fuel (mk_thread (MRelease p) o) w =
  (release_kmem ;; memset p 0 PAGE_SIZE ;; mret (mk_thread Idle (p :: o))) w.
Proof.
  intros Hf. destruct fuel as [|fuel]; [lia|]. alone_run. destruct (release_kmem w) as [[] w2| | |]; [|done..].
  rewrite alone_clear by lia. unfold memset, mbind, cmd_bind, mret, cmd_ret.
  rewrite Z2Nat.id by done. rewrite Z.sub_diag, Z.add_0_r. by destruct (memset_loop _ _ _ _).
Qed.

(** With nobody else, the accesses of a call are the call. *)
Lemma alone_kmalloc fuel o w : (Z.to_nat PAGE_SIZE + 9 <= fuel)%nat →
  alone fuel (mk_thread MAcquire o) w = (page ← kmalloc; mret (mk_thread Idle (page :: o))) w.
Proof.
  intros Hf. do 4 (destruct fuel as [|fuel]; [lia|]). unfold kmalloc, mbind, cmd_bind, mret, cmd_ret.
  alone_run. destruct (acquire_kmem w) as [[] w1| | |]; [|done..].
  alone_run. unfold gets. alone_run. unfold whenM. set (p := freelist (w_kmem w1)). destruct (truthy p); unfold mbind, cmd_bind.
  - destruct (load64 p w1) as [next w2| | |]; [|done..]. alone_run.
    destruct (set_freelist next w2) as [[] w3| | |]; [|done..]. rewrite alone_release by lia.
    unfold mbind, cmd_bind. destruct (release_kmem w3) as [[] w4| | |]; [|done..]. by destruct (memset _ _ _ _).
  - rewrite alone_release by lia. unfold mret, cmd_ret, mbind, cmd_bind.
    destruct (release_kmem w1) as [[] w4| | |]; [|done..]. by destruct (memset _ _ _ _).
Qed.

Lemma alone_kfree fuel o x w : (8 <= fuel)%nat →
  alone fuel (mk_thread (FCheck x) o) w = (kfree x ;; mret (mk_thread Idle o)) w.
Proof.
  intros Hf. do 7 (destruct fuel as [|fuel]; [lia|]). unfold kfree, mbind, cmd_bind, mret, cmd_ret.
  alone_run. destruct (negb (valid_address x)); [done|].
  alone_run. destruct (acquire_kmem w) as [[] w1| | |]; [|done..].
  alone_run. unfold gets. alone_run. destruct (store64 x _ w1) as [[] w2| | |]; [|done..].
  alone_run. destruct (set_freelist x w2) as [[] w3| | |]; [|done..].
  alone_run. destruct (release_kmem w3) as [[] w4| | |]; [|done..]. done.
Qed.
End conc.

(** ** The invariant *)

(** The page a call has in its hands. *)
Definition flight (p : km_pc) : list Z :=
  match p with
  | MRelease x | MClear x _ => if x =? 0 then [] else [x]
  | FCheck x | FAcquire x | FHead x | FLink x _ | FSet x => [x]
  | _ => []
  end.
Definition has (t : thread) : list Z := flight (pc t) ++ own t.

Definition inside_lock (t : thread) : bool :=
  match pc t with
  | MHead | MNext _ | MSet _ _ | MRelease _ | FHead _ | FLink _ _ | FSet _ | FRelease => true
  | _ => false
  end.

Section inv.
Context {D : Type} {L : Linker} `{!LinkerOk L}.
Implicit Types (w : world D) (t u : thread) (ts : list thread) (fl : list Z) (m : ram).

(** What a hart inside a call knows: [f] is the head of the list, [fl] the list. *)
Definition knows m (f : Z) fl (p : km_pc) : Prop :=
  match p with
  | MNext page => page = f
  | MSet page next => ∃ fl', fl = page :: fl' ∧ rd64 m (KPA2PA page) = Some next
  | MClear page k => (page = 0 → k = Z.to_nat PAGE_SIZE) ∧
      (page ≠ 0 → (k <= Z.to_nat PAGE_SIZE)%nat ∧ zeroed m (KPA2PA page) (PAGE_SIZE - Z.of_nat k))
  | FLink _ next => next = f
  | FSet x => rd64 m (KPA2PA x) = Some f
  | _ => True
  end.

Record kinv (all : list Z) w ts fl : Prop := {
  ki_lock : cnt inside_lock ts = kmem_lk (w_kmem w) ∧ 0 <= kmem_lk (w_kmem w) <= 1;
  ki_list : is_freelist (w_mem w) (freelist (w_kmem w)) fl;
  ki_ram : pages_ok (w_mem w) all;
  ki_pages : fl ++ (ts ≫= has) ≡ₚ all;
  ki_knows i t : ts !! i = Some t → knows (w_mem w) (freelist (w_kmem w)) fl (pc t)
}.

Context (all : list Z) (Hnd : NoDup all) (Hva : Forall (λ x, valid_address x = true) all).

Lemma has_split ts i t : ts !! i = Some t → ts ≫= has ≡ₚ has t ++ (delete i ts ≫= has).
Proof. intros Hi. rewrite (delete_Permutation _ _ _ Hi) at 1. done. Qed.
Lemma delete_insert_same {A} (l : list A) i x : delete i (<[i := x]> l) = delete i l.
Proof.
  revert i. induction l as [|y l IH]; intros [|i]; try done.
  change (y :: delete i (<[i := x]> l) = y :: delete i l). by rewrite IH.
Qed.
Lemma has_insert ts i t t' : ts !! i = Some t → <[i := t']> ts ≫= has ≡ₚ has t' ++ (delete i ts ≫= has).
Proof.
  intros Hi. rewrite (has_split (<[i := t']> ts) i t') by (apply list_lookup_insert_eq; by eapply lookup_lt_Some).
  by rewrite delete_insert_same.
Qed.

(** A step of hart [i]: what has to be shown. *)
Lemma kinv_update w ts fl i t w' t' fl' : kinv all w ts fl → ts !! i = Some t →
  kmem_lk (w_kmem w') = kmem_lk (w_kmem w) - Z.b2z (inside_lock t) + Z.b2z (inside_lock t') →
  0 <= kmem_lk (w_kmem w') <= 1 →
  is_freelist (w_mem w') (freelist (w_kmem w')) fl' → pages_ok (w_mem w') all → fl' ++ has t' ≡ₚ fl ++ has t →
  knows (w_mem w') (freelist (w_kmem w')) fl' (pc t') →
  (∀ j u, j ≠ i → ts !! j = Some u → knows (w_mem w) (freelist (w_kmem w)) fl (pc u) →
     knows (w_mem w') (freelist (w_kmem w')) fl' (pc u)) →
  kinv all w' (<[i := t']> ts) fl'.
Proof.
  intros [[Hl Hb] Hfl Hram Hp Hk] Hi Hlk Hlk' Hfl' Hram' Hp' Hk' Hoth. split; [|done|done| |].
  - rewrite (cnt_insert inside_lock _ _ _ t' Hi). lia.
  - rewrite (has_insert ts i t t' Hi), <- Hp, (has_split ts i t Hi). rewrite !(assoc_L (++)). by rewrite Hp'.
  - intros j u Hj. destruct (decide (j = i)) as [->|Hne].
    + rewrite list_lookup_insert_eq in Hj by (by eapply lookup_lt_Some). by injection Hj as <-.
    + rewrite list_lookup_insert_ne in Hj by done. eapply Hoth; [done|done|by eapply Hk].
Qed.

(** ** Steps *)

Lemma kinv_valid w ts fl x : kinv all w ts fl → x ∈ fl ++ (ts ≫= has) → valid_address x = true.
Proof. intros Hk Hx. rewrite (ki_pages _ _ _ _ Hk) in Hx. rewrite Forall_forall in Hva. by apply Hva. Qed.

Lemma kinv_nodup w ts fl i t : kinv all w ts fl → ts !! i = Some t → NoDup (fl ++ has t ++ (delete i ts ≫= has)).
Proof. intros Hk Hi. rewrite <- (has_split ts i t Hi), (ki_pages _ _ _ _ Hk). exact Hnd. Qed.

(** The pages of the others are not those of hart [i]. *)
Lemma kinv_apart w ts fl i t j u x y : kinv all w ts fl → ts !! i = Some t → ts !! j = Some u → j ≠ i →
  x ∈ has t → y ∈ has u → x ≠ y.
Proof.
  intros Hk Hi Hj Hne Hx Hy ->. pose proof (kinv_nodup _ _ _ _ _ Hk Hi) as (_ & _ & (_ & Hn & _)%NoDup_app)%NoDup_app.
  apply (Hn y Hx), list_elem_of_bind. exists u. split; [done|].
  assert (Hu : u ∈ delete i ts); [|done]. 
  destruct (decide (j < i)%nat).
  - apply (list_elem_of_lookup_2 _ j). by rewrite list_lookup_delete_lt.
  - apply (list_elem_of_lookup_2 _ (pred j)). rewrite list_lookup_delete_ge by lia. by replace (S (pred j)) with j by lia.
Qed.
Lemma kinv_not_free w ts fl i t x : kinv all w ts fl → ts !! i = Some t → x ∈ has t → x ∉ fl.
Proof.
  intros Hk Hi Hx Hf. pose proof (kinv_nodup _ _ _ _ _ Hk Hi) as (_ & Hn & _)%NoDup_app.
  apply (Hn x Hf), elem_of_app. by left.
Qed.

(** What a hart knows is about the free pages and those it has. *)
Lemma knows_agree m m' f fl u :
  (∀ y a, y ∈ fl ++ has u → KPA2PA y <= a < KPA2PA y + PAGE_SIZE → m' !! a = m !! a) →
  knows m f fl (pc u) → knows m' f fl (pc u).
Proof.
  intros Hsame. unfold has in Hsame. destruct (pc u) as [| | |p|p n|p|p k| | | |p n|p|]; cbn [knows]; try done.
  - intros (fl' & -> & Hr). exists fl'. split; [done|]. rewrite <- Hr. apply rd64_ext. intros a Ha.
    apply (Hsame p); [by left|unfold PAGE_SIZE; lia].
  - intros [H0 Hz]. split; [done|]. intros Hp0. destruct (Hz Hp0) as [Hle Hzz]. split; [done|]. intros a Ha.
    rewrite (Hsame p); [by apply Hzz| |lia]. cbn [flight]. rewrite (proj2 (Z.eqb_neq p 0)) by done.
    apply elem_of_app. right. by left.
  - intros Hr. rewrite <- Hr. apply rd64_ext. intros a Ha. apply (Hsame p); [|unfold PAGE_SIZE; lia].
    apply elem_of_app. right. by left.
Qed.

(** A hart that writes into a page it has disturbs nobody. *)
Lemma knows_frame w ts fl i t x m' j u : kinv all w ts fl → ts !! i = Some t → x ∈ has t → inside x (w_mem w) m' →
  j ≠ i → ts !! j = Some u → knows (w_mem w) (freelist (w_kmem w)) fl (pc u) →
  knows m' (freelist (w_kmem w)) fl (pc u).
Proof.
  intros Hk Hi Hx [Hin _] Hne Hj. apply knows_agree. intros y a Hy Ha. apply Hin.
  destruct (pages_disjoint y x); [| | |lia|lia].
  - eapply kinv_valid; [exact Hk|]. rewrite (has_split ts j u Hj), !elem_of_app. apply elem_of_app in Hy. tauto.
  - eapply kinv_valid; [exact Hk|]. rewrite (has_split ts i t Hi), !elem_of_app. auto.
  - intros ->. apply elem_of_app in Hy as [Hy|Hy]; [exact (kinv_not_free w ts fl i t x Hk Hi Hx Hy)|].
    exact (kinv_apart w ts fl i t j u x x Hk Hi Hj Hne Hx Hy eq_refl).
Qed.

(** What a hart outside the lock knows does not depend on the list. *)
Lemma knows_outside m f fl f' fl' u : inside_lock u = false → knows m f fl (pc u) → knows m f' fl' (pc u).
Proof. unfold inside_lock. by destruct (pc u). Qed.

Lemma lock_excludes w ts fl i t j u : kinv all w ts fl → ts !! i = Some t → inside_lock t = true →
  j ≠ i → ts !! j = Some u → inside_lock u = false.
Proof.
  intros Hk Hi Hti Hne Hj. destruct (inside_lock u) eqn:Eu; [|done].
  pose proof (cnt_two inside_lock ts _ _ _ _ Hne Hj Hi Eu Hti). destruct (ki_lock _ _ _ _ Hk). lia.
Qed.

(** Steps that change the lock and the hart's position only. *)
Lemma kinv_move w ts fl i t lk t' : kinv all w ts fl → ts !! i = Some t →
  lk = kmem_lk (w_kmem w) - Z.b2z (inside_lock t) + Z.b2z (inside_lock t') → 0 <= lk <= 1 → has t' ≡ₚ has t →
  knows (w_mem w) (freelist (w_kmem w)) fl (pc t') →
  kinv all (set_kmem (mk_kmem lk (freelist (w_kmem w))) w) (<[i := t']> ts) fl.
Proof.
  intros Hk Hi Hlk Hb Hp Hk'. apply (kinv_update w ts fl i t); try done; [apply Hk|apply Hk|by rewrite Hp].
Qed.

(** Steps that write into a page the hart has. *)
Lemma kinv_store w ts fl i t x m t' : kinv all w ts fl → ts !! i = Some t → x ∈ has t → inside x (w_mem w) m →
  inside_lock t' = inside_lock t → has t' ≡ₚ has t → knows m (freelist (w_kmem w)) fl (pc t') →
  kinv all (set_mem m w) (<[i := t']> ts) fl.
Proof.
  intros Hk Hi Hx Hin Hl Hp Hk'. apply (kinv_update w ts fl i t); try done; cbn [w_kmem w_mem set_mem].
  - rewrite Hl. lia.
  - apply Hk.
  - assert (Hvx : valid_address x = true).
    { eapply kinv_valid; [exact Hk|]. rewrite (has_split ts i t Hi), !elem_of_app. auto. }
    eapply is_freelist_page; [apply Hk|exact Hvx|exact (kinv_not_free w ts fl i t x Hk Hi Hx)|]. intros a Ha. symmetry. by apply Hin.
  - intros y Hy a Ha. apply Hin. by apply (ki_ram _ _ _ _ Hk y).
  - by rewrite Hp.
  - intros j u Hne Hj. exact (knows_frame w ts fl i t x m j u Hk Hi Hx Hin Hne Hj).
Qed.

(** Steps inside the lock that change the head of the list. *)
Lemma kinv_head w ts fl i t f fl' t' : kinv all w ts fl → ts !! i = Some t → inside_lock t = true →
  inside_lock t' = true → is_freelist (w_mem w) f fl' → fl' ++ has t' ≡ₚ fl ++ has t → knows (w_mem w) f fl' (pc t') →
  kinv all (set_kmem (mk_kmem (kmem_lk (w_kmem w)) f) w) (<[i := t']> ts) fl'.
Proof.
  intros Hk Hi Hl Hl' Hfl Hp Hk'. apply (kinv_update w ts fl i t); try done; cbn [w_kmem w_mem set_kmem kmem_lk freelist].
  - rewrite Hl, Hl'. lia.
  - apply Hk.
  - apply Hk.
  - intros j u Hne Hj. apply knows_outside. exact (lock_excludes w ts fl i t j u Hk Hi Hl Hne Hj).
Qed.

Lemma held_lock w ts fl i t : kinv all w ts fl → ts !! i = Some t → inside_lock t = true → kmem_lk (w_kmem w) = 1.
Proof. intros Hk Hi Hl. pose proof (cnt_one inside_lock _ _ _ Hi Hl). destruct (ki_lock _ _ _ _ Hk). lia. Qed.

Lemma set_kmem_id w : set_kmem (mk_kmem (kmem_lk (w_kmem w)) (freelist (w_kmem w))) w = w.
Proof. by destruct w as [? [? ?]]. Qed.

Lemma has_page w ts fl i t x : kinv all w ts fl → ts !! i = Some t → x ∈ has t →
  has_bytes (w_mem w) (KPA2PA x) PAGE_SIZE.
Proof.
  intros Hk Hi Hx. apply (ki_ram _ _ _ _ Hk). rewrite <- (ki_pages _ _ _ _ Hk), (has_split ts i t Hi), !elem_of_app. auto.
Qed.
Lemma has_valid w ts fl i t x : kinv all w ts fl → ts !! i = Some t → x ∈ has t → valid_address x = true.
Proof. intros Hk Hi Hx. eapply kinv_valid; [exact Hk|]. rewrite (has_split ts i t Hi), !elem_of_app. auto. Qed.

(** ** The accesses *)

Definition fine w ts i t : Prop :=
  match km_access t w with
  | Ok t' w' => ∃ fl, kinv all w' (<[i := t']> ts) fl
  | Fault _ _ => pc t = MClear 0 (Z.to_nat PAGE_SIZE)
  | Panic _ _ => False
  | Hang _ => True
  end.

Lemma fine_acquire w ts fl i t p : kinv all w ts fl → ts !! i = Some t → inside_lock t = false →
  inside_lock (mk_thread p (own t)) = true → flight p = flight (pc t) →
  (∀ m f fl, knows m f fl p) →
  match (acquire_kmem ;; go p t) w with Ok t' w' => ∃ fl, kinv all w' (<[i := t']> ts) fl | Hang _ => True | _ => False end.
Proof.
  intros Hk Hi Hl Hl' Hf Hkn. unfold mbind, cmd_bind, acquire_kmem. destruct (Z.eqb_spec (kmem_lk (w_kmem w)) 0) as [E|]; [|done].
  unfold go, mret, cmd_ret. exists fl. eapply kinv_move; [done|done|rewrite Hl, Hl'; cbn; lia|lia|unfold has; cbn [pc own]; by rewrite Hf|apply Hkn].
Qed.

Lemma fine_release w ts fl i t p : kinv all w ts fl → ts !! i = Some t → inside_lock t = true →
  inside_lock (mk_thread p (own t)) = false → flight p = flight (pc t) →
  knows (w_mem w) (freelist (w_kmem w)) fl p →
  match (release_kmem ;; go p t) w with Ok t' w' => ∃ fl, kinv all w' (<[i := t']> ts) fl | _ => False end.
Proof.
  intros Hk Hi Hl Hl' Hf Hkn. unfold mbind, cmd_bind, release_kmem, modify, go, mret, cmd_ret. exists fl.
  pose proof (held_lock _ _ _ _ _ Hk Hi Hl) as E.
  eapply kinv_move; [done|done|rewrite Hl, Hl', E; done|lia|unfold has; cbn [pc own]; by rewrite Hf|done].
Qed.

Lemma fine_stay w ts fl i t p : kinv all w ts fl → ts !! i = Some t →
  inside_lock (mk_thread p (own t)) = inside_lock t → flight p = flight (pc t) →
  knows (w_mem w) (freelist (w_kmem w)) fl p → ∃ fl, kinv all w (<[i := mk_thread p (own t)]> ts) fl.
Proof.
  intros Hk Hi Hl Hf Hkn. exists fl. rewrite <- (set_kmem_id w). pose proof (ki_lock _ _ _ _ Hk) as [_ ?].
  eapply kinv_move; [done|done|rewrite Hl; lia|done|unfold has; cbn [pc own]; by rewrite Hf|done].
Qed.

(** Inside the lock the next page is read and unlinked. *)
Lemma fine_next w ts fl i t page : kinv all w ts fl → ts !! i = Some t → pc t = MNext page → fine w ts i t.
Proof.
  intros Hk Hi Ep. unfold fine, km_access. rewrite Ep.
  pose proof (ki_knows _ _ _ _ Hk i t Hi) as Hkn. rewrite Ep in Hkn. cbn in Hkn. subst page.
  assert (Hl : inside_lock t = true) by (unfold inside_lock; by rewrite Ep).
  pose proof (ki_list _ _ _ _ Hk) as Hfl. destruct fl as [|x fl]; cbn [is_freelist] in Hfl.
  - rewrite Hfl. cbn [truthy negb Z.eqb]. unfold go, mret, cmd_ret.
    eapply fine_stay; [done|done|by rewrite Hl|by rewrite Ep|done].
  - destruct Hfl as (Ef & Hx & next & Hr & Hfl). rewrite Ef.
    destruct (valid_address_pa x Hx) as (_ & _ & _ & _ & Hrg & Hx0). rewrite (proj2 (truthy_true x)) by done.
    rewrite (bind_ok _ _ _ next w).
    + unfold go, mret, cmd_ret. eapply fine_stay; [done|done|by rewrite Hl|by rewrite Ep|]. cbn. by exists fl.
    + apply (load64_ok _ x (KPA2PA x)); [|done]. specialize (Hrg 0). rewrite !Z.add_0_r in Hrg. apply Hrg. by vm_compute.
Qed.

Lemma fine_pop w ts fl i t page next : kinv all w ts fl → ts !! i = Some t → pc t = MSet page next → fine w ts i t.
Proof.
  intros Hk Hi Ep. unfold fine, km_access. rewrite Ep.
  pose proof (ki_knows _ _ _ _ Hk i t Hi) as Hkn. rewrite Ep in Hkn. destruct Hkn as (fl' & -> & Hr).
  destruct (ki_list _ _ _ _ Hk) as (_ & Hx & next' & Hr' & Hfl). rewrite Hr in Hr'. injection Hr' as <-.
  destruct (valid_address_pa page Hx) as (_ & _ & _ & _ & _ & Hx0).
  unfold mbind, cmd_bind, set_freelist, modify, go, mret, cmd_ret. exists fl'.
  eapply kinv_head; [done|done|by unfold inside_lock; rewrite Ep|done|exact Hfl| |done].
  unfold has. cbn [pc own flight]. rewrite Ep, (proj2 (Z.eqb_neq page 0)) by done. cbn [flight app].
  by rewrite <- Permutation_middle.
Qed.

(** memset clears one byte. *)
Lemma fine_clear w ts fl i t page k : kinv all w ts fl → ts !! i = Some t → pc t = MClear page (S k) → fine w ts i t.
Proof.
  intros Hk Hi Ep. unfold fine, km_access. rewrite Ep.
  pose proof (ki_knows _ _ _ _ Hk i t Hi) as Hkn. rewrite Ep in Hkn. cbn [knows] in Hkn.
  destruct (Z.eqb_spec page 0) as [->|Hp0].
  { unfold mbind, cmd_bind, store8. assert (kptr_pa (0 + (PAGE_SIZE - Z.of_nat (S k))) = None) as ->; [|by rewrite <- (proj1 Hkn eq_refl)].
    unfold kptr_pa. by rewrite !(proj2 (Z.leb_gt _ _)) by (unfold VAS_KERNEL, VAS_RAM, PAGE_SIZE; lia). }
  destruct Hkn as [_ Hkn]. destruct (Hkn Hp0) as [Hle Hz]. assert (Hx : page ∈ has t).
  { unfold has. rewrite Ep. cbn [flight]. rewrite (proj2 (Z.eqb_neq page 0)) by done. by left. }
  pose proof (has_valid _ _ _ _ _ _ Hk Hi Hx) as Hv. destruct (valid_address_pa page Hv) as (_ & _ & _ & _ & Hrg & _).
  set (o := PAGE_SIZE - Z.of_nat (S k)). assert (Ho : 0 <= o < PAGE_SIZE) by (unfold o, PAGE_SIZE in *; lia).
  destruct (has_page _ _ _ _ _ _ Hk Hi Hx (KPA2PA page + o)) as [b Hb]; [lia|].
  rewrite (bind_ok _ _ _ tt (set_mem (<[KPA2PA page + o := byte.of_Z 0]> (w_mem w)) w))
    by (unfold store8; rewrite (Hrg o Ho), Hb; done).
  unfold go, mret, cmd_ret. exists fl. eapply kinv_store; [done|done|exact Hx| | | |].
  - split.
    + intros a Ha. apply lookup_insert_ne. lia.
    + intros a Ha. destruct (decide (a = KPA2PA page + o)) as [->|]; [by rewrite lookup_insert_eq|by rewrite lookup_insert_ne].
  - unfold inside_lock. by rewrite Ep.
  - unfold has. by rewrite Ep.
  - cbn [knows pc]. split; [done|]. intros _. split; [lia|]. intros a Ha. destruct (decide (a = KPA2PA page + o)) as [->|Hne].
    + by rewrite lookup_insert_eq.
    + rewrite lookup_insert_ne by done. apply Hz. unfold o, PAGE_SIZE in *. lia.
Qed.

(** kfree links the page to the list, then puts it at the head. *)
Lemma fine_link w ts fl i t x next : kinv all w ts fl → ts !! i = Some t → pc t = FLink x next → fine w ts i t.
Proof.
  intros Hk Hi Ep. unfold fine, km_access. rewrite Ep.
  pose proof (ki_knows _ _ _ _ Hk i t Hi) as Hkn. rewrite Ep in Hkn. cbn in Hkn. subst next.
  assert (Hx : x ∈ has t) by (unfold has; rewrite Ep; by left). pose proof (has_valid _ _ _ _ _ _ Hk Hi Hx) as Hv.
  rewrite (bind_ok _ _ _ tt _ (store_link w x _ (has_page _ _ _ _ _ _ Hk Hi Hx) Hv)). unfold go, mret, cmd_ret. exists fl.
  eapply kinv_store; [done|done|exact Hx| | | |].
  - split.
    + intros a Ha. rewrite lookup_wr64, decide_False; [done|]. unfold PAGE_SIZE in Ha. lia.
    + intros a Ha. assert (Hb : has_bytes (w_mem w) a 1) by (intros b Hb; by replace b with a by lia).
      apply (has_bytes_wr64 _ (KPA2PA x) (freelist (w_kmem w))) in Hb. apply Hb. lia.
  - unfold inside_lock. by rewrite Ep.
  - unfold has. by rewrite Ep.
  - cbn [knows pc]. rewrite rd64_wr64_same. f_equal. apply u64_id.
    pose proof (ki_list _ _ _ _ Hk) as Hfl. destruct fl as [|y fl]; cbn [is_freelist] in Hfl; [lia|].
    destruct Hfl as (-> & Hy & _). apply valid_address_off in Hy as (o & -> & _ & ?). pose proof dynamic_range.
    unfold VAS_RAM, FIRMWARE_SIZE, DTB_MEMORY_SIZE in *. lia.
Qed.

Lemma fine_push w ts fl i t x : kinv all w ts fl → ts !! i = Some t → pc t = FSet x → fine w ts i t.
Proof.
  intros Hk Hi Ep. unfold fine, km_access. rewrite Ep.
  pose proof (ki_knows _ _ _ _ Hk i t Hi) as Hkn. rewrite Ep in Hkn. cbn in Hkn.
  assert (Hx : x ∈ has t) by (unfold has; rewrite Ep; by left). pose proof (has_valid _ _ _ _ _ _ Hk Hi Hx) as Hv.
  unfold mbind, cmd_bind, set_freelist, modify, go, mret, cmd_ret. exists (x :: fl).
  eapply kinv_head; [done|done|by unfold inside_lock; rewrite Ep|done| | |done].
  - split; [done|]. split; [done|]. exists (freelist (w_kmem w)). split; [done|apply Hk].
  - unfold has. rewrite Ep. cbn [flight app pc own]. by rewrite <- Permutation_middle.
Qed.

Lemma fine_access w ts fl i t : kinv all w ts fl → ts !! i = Some t → fine w ts i t.
Proof.
  intros Hk Hi. destruct (pc t) as [| | |p|p n|p|p [|k]|x|x|x|x n|x|] eqn:Ep;
    try (by eapply fine_next); try (by eapply fine_pop); try (by eapply fine_clear); try (by eapply fine_link);
    try (by eapply fine_push); unfold fine, km_access; rewrite Ep.
  - done.
  - pose proof (fine_acquire w ts fl i t MHead Hk Hi) as H. unfold inside_lock in H. rewrite Ep in H.
    specialize (H eq_refl eq_refl eq_refl ltac:(done)). by destruct ((acquire_kmem ;; go MHead t) w).
  - unfold mbind, cmd_bind, gets, go, mret, cmd_ret. eapply fine_stay; [done|done|by unfold inside_lock; rewrite Ep|by rewrite Ep|done].
  - pose proof (fine_release w ts fl i t (MClear p (Z.to_nat PAGE_SIZE)) Hk Hi) as H. unfold inside_lock in H. rewrite Ep in H.
    specialize (H eq_refl eq_refl eq_refl). assert (Hz : knows (w_mem w) (freelist (w_kmem w)) fl (MClear p (Z.to_nat PAGE_SIZE))).
    { cbn [knows]. split; [done|]. intros _. split; [done|]. rewrite Z2Nat.id by done. intros a Ha. lia. }
    specialize (H Hz). by destruct ((release_kmem ;; go _ t) w).
  - pose proof (ki_knows _ _ _ _ Hk i t Hi) as Hkn. rewrite Ep in Hkn. destruct Hkn as [H0 _].
    assert (Hp0 : p ≠ 0) by (by intros ->; specialize (H0 eq_refl)).
    exists fl. unfold mret, cmd_ret. rewrite <- (set_kmem_id w). pose proof (ki_lock _ _ _ _ Hk) as [_ ?].
    eapply kinv_move; [done|done|unfold inside_lock; rewrite Ep; cbn; lia|done| |done].
    unfold has. rewrite Ep. cbn [flight pc own]. by rewrite (proj2 (Z.eqb_neq p 0)).
  - assert (Hx : x ∈ has t) by (unfold has; rewrite Ep; by left). rewrite (has_valid _ _ _ _ _ _ Hk Hi Hx). cbn [negb].
    unfold go, mret, cmd_ret. eapply fine_stay; [done|done|by unfold inside_lock; rewrite Ep|by rewrite Ep|done].
  - pose proof (fine_acquire w ts fl i t (FHead x) Hk Hi) as H. unfold inside_lock in H. rewrite Ep in H.
    specialize (H eq_refl eq_refl eq_refl ltac:(done)). by destruct ((acquire_kmem ;; go (FHead x) t) w).
  - unfold mbind, cmd_bind, gets, go, mret, cmd_ret. eapply fine_stay; [done|done|by unfold inside_lock; rewrite Ep|by rewrite Ep|done].
  - pose proof (fine_release w ts fl i t Idle Hk Hi) as H. unfold inside_lock in H. rewrite Ep in H.
    specialize (H eq_refl eq_refl eq_refl ltac:(done)). by destruct ((release_kmem ;; go _ t) w).
Qed.

Lemma kinv_step w ts fl w' ts' : kinv all w ts fl → km_step (w, ts) (w', ts') → ∃ fl', kinv all w' ts' fl'.
Proof.
  intros Hk Hst. inversion Hst as [? ? i t Hi Hp|? ? i t x l1 l2 Hi Hp Ho|? ? i t x m Hi Hp Hx Hin|? ? i t t' ? Hi Ha]; subst.
  - eapply fine_stay; [done|done|by unfold inside_lock; rewrite Hp|by rewrite Hp|done].
  - exists fl. rewrite <- (set_kmem_id w'). pose proof (ki_lock _ _ _ _ Hk) as [_ ?].
    eapply kinv_move; [done|done|unfold inside_lock; rewrite Hp; cbn; lia|done| |done].
    unfold has. rewrite Hp, Ho. cbn [flight pc own app]. by rewrite <- Permutation_middle.
  - exists fl. rewrite <- (list_insert_id ts' i t Hi). eapply kinv_store; [done|done| |exact Hin|done|done|].
    + unfold has. apply elem_of_app. by right.
    + by rewrite Hp.
  - pose proof (fine_access w ts fl i t Hk Hi) as H. unfold fine in H. by rewrite Ha in H.
Qed.
End inv.

Section theorems.
Context {D : Type} {L : Linker} `{!LinkerOk L}.
Implicit Types (w : world D) (ts : list thread).

(** [n] harts that have no pages and are not in the allocator. *)
Definition idle (n : nat) : list thread := replicate n (mk_thread Idle []).

Lemma idle_has n : idle n ≫= has = [].
Proof. induction n as [|n IH]; [done|]. exact IH. Qed.
Lemma idle_lock n : cnt inside_lock (idle n) = 0.
Proof. induction n as [|n IH]; [done|]. exact IH. Qed.

Lemma kinv_rtc all (c c' : world D * list thread) : NoDup all → Forall (λ x, valid_address x = true) all →
  rtc km_step c c' → (∃ fl, kinv all c.1 c.2 fl) → ∃ fl, kinv all c'.1 c'.2 fl.
Proof.
  intros Hnd Hva. induction 1 as [|[w1 ts1] [w2 ts2] c3 Hst _ IH]; [done|]. intros (fl & Hk). apply IH.
  by eapply kinv_step.
Qed.

Lemma kinv_run w0 n all w ts : kmem_inv w0 all → rtc km_step (w0, idle n) (w, ts) →
  NoDup all ∧ Forall (λ x, valid_address x = true) all ∧ ∃ fl, kinv all w ts fl.
Proof.
  intros (Hlk & Hfl & Hnd & Hram) Hr. pose proof (is_freelist_valid _ _ _ Hfl) as Hva. split; [done|]. split; [done|].
  apply (kinv_rtc all _ (w, ts) Hnd Hva Hr). exists all. cbn [fst snd].
  split; [rewrite idle_lock, Hlk; lia|done|done|by rewrite idle_has, app_nil_r|].
  by intros i t [-> _]%lookup_replicate.
Qed.

(** C28: the allocator under any interleaving of any number of harts, each of which
    allocates, frees pages it has and writes into pages it has: no page is lost
    or handed out twice (the free pages and the pages the harts have are
    the pages of the start, each once), the list in memory stays intact, a free
    lock means that the invariant of the sequential allocator holds, a page that
    kmalloc is about to return is all zero, and no access panics or faults, except
    that of a hart that found the list empty and clears page 0. *)
Theorem kmem_concurrent w0 n all w ts : kmem_inv w0 all → rtc km_step (w0, idle n) (w, ts) →
  ∃ fl, fl ++ (ts ≫= has) ≡ₚ all ∧ NoDup (fl ++ (ts ≫= has)) ∧
    is_freelist (w_mem w) (freelist (w_kmem w)) fl ∧ (kmem_lk (w_kmem w) = 0 → kmem_inv w fl) ∧
    ∀ i t, ts !! i = Some t →
      (∀ page, pc t = MClear page 0 → page ∈ has t ∧ zeroed (w_mem w) (KPA2PA page) PAGE_SIZE) ∧
      match km_access t w with
      | Fault _ _ => pc t = MClear 0 (Z.to_nat PAGE_SIZE)
      | Panic _ _ => False
      | _ => True
      end.
Proof.
  intros Hk0 Hr. destruct (kinv_run w0 n all w ts Hk0 Hr) as (Hnd & Hva & fl & Hk). exists fl.
  assert (Hn : NoDup (fl ++ (ts ≫= has))) by by rewrite (ki_pages _ _ _ _ Hk).
  split; [apply Hk|]. split; [done|]. split; [apply Hk|]. split.
  { intros Hl. split; [done|]. split; [apply Hk|]. split; [by apply NoDup_app in Hn as (? & _)|].
    intros x Hx. apply (ki_ram _ _ _ _ Hk). rewrite <- (ki_pages _ _ _ _ Hk). apply elem_of_app. by left. }
  intros i t Hi. split.
  - intros page Ep. pose proof (ki_knows _ _ _ _ Hk i t Hi) as H. rewrite Ep in H. destruct H as [H0 Hz].
    assert (Hp0 : page ≠ 0) by (by intros ->; specialize (H0 eq_refl)). split.
    + unfold has. rewrite Ep. cbn [flight]. rewrite (proj2 (Z.eqb_neq page 0)) by done. by left.
    + destruct (Hz Hp0) as [_ Hzz]. by rewrite Z.sub_0_r in Hzz.
  - pose proof (fine_access all Hnd Hva w ts fl i t Hk Hi) as H. unfold fine in H. by destruct (km_access t w).
Qed.
End theorems.

(** Two harts enter kmalloc; hart 0 has the lock, hart 1 spins. *)
Lemma kmem_concurrent_witness : ∃ (w : world plic_regs) fl,
  kmem_lk (w_kmem w) = 1 ∧ fl ≡ₚ all_pages ∧ is_freelist (w_mem w) (freelist (w_kmem w)) fl.
Proof.
  destruct (demo_boot ∅ [] ∅ 0) as (m & k & Hinv & _). set (w0 := set_mem m (set_kmem k (demo_world ∅ ∅ [] ∅ 0))) in Hinv.
  set (w1 := set_kmem (mk_kmem 1 (freelist (w_kmem w0))) w0).
  destruct (kmem_concurrent w0 2 all_pages w1 [mk_thread MHead []; mk_thread MAcquire []] Hinv) as (fl & Hp & _ & Hfl & _).
  - eapply rtc_l; [by apply (K_kmalloc w0 (idle 2) 0 (mk_thread Idle []))|].
    eapply rtc_l; [by apply (K_kmalloc w0 _ 1 (mk_thread Idle []))|].
    apply rtc_once, (K_access w0 [mk_thread MAcquire []; mk_thread MAcquire []] 0 (mk_thread MAcquire []) (mk_thread MHead []) w1); [reflexivity|].
    unfold km_access. cbn [pc]. unfold mbind, cmd_bind, acquire_kmem. rewrite (proj1 Hinv). reflexivity.
  - exists w1, fl. split; [reflexivity|]. split; [|exact Hfl]. cbn [mbind list_bind has flight pc own app] in Hp.
    by rewrite app_nil_r in Hp.
Defined.
