(* ===== verification/VmemConc.v ===== *)
(** * VmemConc: page tables built by several harts at the same time

    Each hart runs a program of VmemProg, one access at a time, and the harts take
    turns in any way; the allocator they share is that of KmemConc, lock included.
    A hart touches only memory that is its own (its pages and perhaps a static
    table), so it does what it does alone on a machine that has just that memory
    ([solo]): the theorems of the sequential functions carry over.  Why a hart stays
    inside its own memory is a consequence of those theorems too: alone, on a
    machine without any other memory, it would fault. *)

From S2P Require Import Prelude Layout Bits Memory Machine Kmem Cpu Lock Vmem Vcpu VmRun VmemProg KmemConc.

(** A hart: its place in the allocator, its pages, and what it has still to do. *)
Record client := mk_client { cl_thread : thread; cl_prog : prog Z }.

Section machine.
Context {D : Type} {L : Linker}.
#[local] Abbreviation M := (cmd (world D)).

(** What follows a call of kmalloc that has returned. *)
Definition resume_prog (t : thread) (q : prog Z) : prog Z :=
  match pc t, own t, q with
  | Idle, x :: _, Malloc k => k x
  | _, _, _ => q
  end.

(** The next access of a hart; one that has finished makes none. *)
Definition client_access (c : client) : M client :=
  let t := cl_thread c in
  match pc t with
  | Idle =>
      match cl_prog c with
      | Ret _ => hang
      | Stop o => stop o
      | Load a k => v ← load64 a; mret (mk_client t (k v))
      | Store a v k => store64 a v ;; mret (mk_client t k)
      | Store8 a v k => store8 a v ;; mret (mk_client t k)
      | Malloc k => mret (mk_client (mk_thread MAcquire (own t)) (Malloc k))
      end
  | _ => t' ← km_access t; mret (mk_client t' (resume_prog t' (cl_prog c)))
  end.

Inductive vstep : world D * list client → world D * list client → Prop :=
| V_access w cs i c c' w' : cs !! i = Some c → client_access c w = Ok c' w' → vstep (w, cs) (w', <[i := c']> cs).
End machine.

(** ** A hart alone *)

(** Its memory, the pages kmalloc will return, and the rest of the program. *)
Inductive solo : ram * list Z * prog Z → ram * list Z * prog Z → Prop :=
| S_load m ys a p v k : kptr_pa a = Some p → rd64 m p = Some v → solo (m, ys, Load a k) (m, ys, k v)
| S_store m ys a p v k : kptr_pa a = Some p → is_Some (rd64 m p) → solo (m, ys, Store a v k) (wr64 m p v, ys, k)
| S_store8 m ys a p v k : kptr_pa a = Some p → is_Some (m !! p) →
    solo (m, ys, Store8 a v k) (<[p := byte.of_Z v]> m, ys, k)
| S_malloc m x ys k : solo (m, x :: ys, Malloc k) (clear_page m (KPA2PA x), ys, k x).

(** From [q0] and memory [m0] the pages [xs] take the hart to [q] and [m]. *)
Definition solo_run (m0 : ram) (q0 : prog Z) (xs : list Z) (m : ram) (q : prog Z) : Prop :=
  ∀ ys, rtc solo (m0, xs ++ ys, q0) (m, ys, q).

Lemma solo_run_step m0 q0 xs m q m' q' : solo_run m0 q0 xs m q → (∀ ys, solo (m, ys, q) (m', ys, q')) →
  solo_run m0 q0 xs m' q'.
Proof. intros H Hs ys. eapply rtc_r; [apply H|apply Hs]. Qed.
Lemma solo_run_malloc m0 q0 xs m k x : solo_run m0 q0 xs m (Malloc k) →
  solo_run m0 q0 (xs ++ [x]) (clear_page m (KPA2PA x)) (k x).
Proof. intros H ys. rewrite <- (assoc_L (++)). eapply rtc_r; [apply H|constructor]. Qed.

(** ** The machine on which it is alone *)

Definition in_page (x a : Z) : Prop := KPA2PA x <= a < KPA2PA x + PAGE_SIZE.
Definition in_pages (ys : list Z) (a : Z) : Prop := ∃ y, y ∈ ys ∧ in_page y a.

Section solo.
Context {D : Type} {L : Linker} `{!LinkerOk L}.
Implicit Types (w : world D) (m : ram) (ys xs : list Z).

(** Its memory is [m] and, apart from that, the free pages [ys]. *)
Record models w m ys : Prop := {
  mo_kmem : kmem_inv w ys;
  mo_eq a : ¬ in_pages ys a → w_mem w !! a = m !! a;
  mo_none a : in_pages ys a → m !! a = None
}.

Lemma mo_sub w m ys a b : models w m ys → m !! a = Some b → w_mem w !! a = Some b ∧ ¬ in_pages ys a.
Proof.
  intros Hm Ha. assert (Hn : ¬ in_pages ys a) by (intros H; by rewrite (mo_none _ _ _ Hm) in Ha).
  by rewrite (mo_eq _ _ _ Hm).
Qed.

Lemma mo_rd64 w m ys p v : models w m ys → rd64 m p = Some v →
  rd64 (w_mem w) p = Some v ∧ ∀ a, p <= a < p + 8 → ¬ in_pages ys a.
Proof.
  intros Hm Hr. assert (Hb : has_bytes m p 8) by (apply rd64_has; by exists v). split.
  - rewrite <- Hr. apply rd64_ext. intros a Ha. destruct (Hb a Ha) as [b Eb].
    by destruct (mo_sub _ _ _ _ _ Hm Eb) as [-> _].
  - intros a Ha. destruct (Hb a Ha) as [b Eb]. by destruct (mo_sub _ _ _ _ _ Hm Eb).
Qed.

(** A change of its own memory. *)
Lemma models_write w m ys m1 m2 : models w m ys →
  (∀ a, in_pages ys a → m1 !! a = w_mem w !! a ∧ m2 !! a = None) → (∀ a, ¬ in_pages ys a → m1 !! a = m2 !! a) →
  backed (w_mem w) m1 → models (set_mem m1 w) m2 ys.
Proof.
  intros [(Hlk & Hfl & Hnd & Hpg) _ _] Hin Hout Hb. split.
  - split_and!; [exact Hlk| |exact Hnd|by eapply pages_ok_backed].
    eapply is_freelist_frame; [exact Hfl|]. intros x Hx a Ha. symmetry. apply Hin. exists x. split; [done|].
    unfold in_page, PAGE_SIZE. lia.
  - exact Hout.
  - intros a Ha. by apply Hin.
Qed.

Lemma solo_step_run w m ys q m' ys' q' : models w m ys → solo (m, ys, q) (m', ys', q') →
  ∃ w', models w' m' ys' ∧ run q w = run q' w' ∧ mem_only w w'.
Proof.
  intros Hm Hs. remember (m, ys, q) as s eqn:E. remember (m', ys', q') as s' eqn:E'.
  destruct Hs as [m1 ys1 a p v k Hp Hr|m1 ys1 a p v k Hp [v0 Hr]|m1 ys1 a p v k Hp [b Hb]|m1 x ys1 k];
    injection E as E1 E2 E3; injection E' as E4 E5 E6; subst m1 q q'; subst.
  - destruct (mo_rd64 _ _ _ _ _ Hm Hr) as [Hr' _]. exists w. split; [done|]. split; [|reflexivity].
    cbn [run]. by rewrite (bind_ok _ _ _ _ _ (load64_ok _ _ _ _ Hp Hr')).
  - destruct (mo_rd64 _ _ _ _ _ Hm Hr) as [Hr' Hn]. exists (set_mem (wr64 (w_mem w) p v) w). split_and!.
    + apply (models_write w m); [done| | |intros ? ?; apply has_bytes_wr64].
      * intros a' Ha'. rewrite !lookup_wr64, !decide_False by (intros H; by apply (Hn a')). by split; [|apply Hm].
      * intros a' Ha'. rewrite !lookup_wr64. destruct (decide _); [done|]. by apply Hm.
    + cbn [run]. rewrite (bind_ok _ _ _ tt (set_mem (wr64 (w_mem w) p v) w)); [done|].
      apply store64_ok; [done|]. apply rd64_has. by exists v0.
    + apply only_mem.
  - destruct (mo_sub _ _ _ _ _ Hm Hb) as [Hb' Hn]. exists (set_mem (<[p := byte.of_Z v]> (w_mem w)) w). split_and!.
    + apply (models_write w m); [done| | |].
      * intros a' Ha'. rewrite !lookup_insert_ne by (by intros ->). by split; [|apply Hm].
      * intros a' Ha'. destruct (decide (a' = p)) as [->|]; [by rewrite !lookup_insert_eq|].
        rewrite !lookup_insert_ne by done. by apply Hm.
      * intros q n Hq a' Ha'. destruct (decide (a' = p)) as [->|]; [by rewrite lookup_insert_eq|].
        rewrite lookup_insert_ne by done. by apply Hq.
    + cbn [run]. rewrite (bind_ok _ _ _ tt (set_mem (<[p := byte.of_Z v]> (w_mem w)) w)); [done|].
      unfold store8. by rewrite Hp, Hb'.
    + apply only_mem.
  - destruct (kmalloc_ok w x ys' (mo_kmem _ _ _ Hm)) as (w' & Hk & Hk' & Ho & Hz & Hf). exists w'.
    split; [|split; [cbn [run]; by rewrite (bind_ok _ _ _ _ _ Hk)|exact Ho]].
    pose proof (mo_kmem _ _ _ Hm) as (_ & Hfl & Hnd & _).
    assert (Hv : ∀ y, y ∈ x :: ys' → valid_address y = true) by (intros y; by eapply freelist_elem_valid, Hm).
    split; [exact Hk'| |].
    + intros a Ha. rewrite lookup_clear_page. destruct (decide _) as [Hp|Hp]; [by apply Hz|].
      rewrite Hf by done. apply Hm. intros (y & [->|Hy]%elem_of_cons & Hya); [done|]. apply Ha. by exists y.
    + intros a (y & Hy & Hya). rewrite lookup_clear_page, decide_False.
      * apply Hm. exists y. split; [by right|done].
      * unfold in_page in *. destruct (pages_disjoint x y); [apply Hv; by left|apply Hv; by right| |lia|lia].
        intros ->. by apply NoDup_cons in Hnd as [? _].
Qed.

Lemma solo_rtc_run w m ys q m' ys' q' : models w m ys → rtc solo (m, ys, q) (m', ys', q') →
  ∃ w', models w' m' ys' ∧ run q w = run q' w' ∧ mem_only w w'.
Proof.
  intros Hm Hs. remember (m, ys, q) as s eqn:E. remember (m', ys', q') as s' eqn:E'.
  revert w m ys q Hm E. induction Hs as [|s1 [[m1 ys1] q1] s3 H1 _ IH]; intros w m ys q Hm ->.
  - injection E' as -> -> ->. exists w. split; [done|]. split; [done|reflexivity].
  - destruct (solo_step_run _ _ _ _ _ _ _ Hm H1) as (w1 & Hm1 & R1 & O1).
    destruct (IH E' w1 m1 ys1 q1 Hm1 eq_refl) as (w2 & Hm2 & R2 & O2).
    exists w2. split; [done|]. split; [by rewrite R1|by etransitivity].
Qed.

(** Such machines exist. *)
Lemma models_exist w m xs : NoDup xs → Forall (λ x, valid_address x = true) xs → (∀ a, in_pages xs a → m !! a = None) →
  ∃ w', models w' m xs ∧ mem_only w w'.
Proof.
  intros Hnd. revert w. induction Hnd as [|x xs Hx Hnd IH]; intros w Hv Hn.
  - exists (set_mem m (set_kmem (mk_kmem 0 0) w)). split; [|by exists m, (mk_kmem 0 0)]. split; [|done|].
    + split_and!; [done|done|constructor|by intros y ?%not_elem_of_nil].
    + by intros a (y & ?%not_elem_of_nil & _).
  - apply Forall_cons in Hv as [Hvx Hv].
    assert (Hd : ∀ y a, y ∈ xs → in_page x a → in_page y a → False).
    { intros y a Hy Ha Hya. rewrite Forall_forall in Hv. unfold in_page in *.
      destruct (pages_disjoint x y); [done|by apply Hv|by intros ->|lia|lia]. }
    destruct (IH w Hv) as (w1 & Hm & Ho).
    { intros a (y & Hy & Ha). apply Hn. exists y. split; [by right|done]. }
    set (w2 := set_mem (clear_page (w_mem w1) (KPA2PA x)) w1).
    assert (Hk2 : kmem_inv w2 xs).
    { apply (models_write w1 m xs _ (clear_page m (KPA2PA x)) Hm).
      - intros a (y & Hy & Ha). rewrite !lookup_clear_page, !decide_False by (intros ?; by apply (Hd y a)).
        split; [done|]. apply Hm. by exists y.
      - intros a Ha. rewrite !lookup_clear_page. destruct (decide _); [done|by apply Hm].
      - intros p n. apply has_bytes_clear_page. }
    assert (Hpg : has_bytes (w_mem w2) (KPA2PA x) PAGE_SIZE).
    { intros a Ha. cbn. rewrite lookup_clear_page, decide_True by done. eauto. }
    pose proof (push_page w2 x xs Hk2 Hvx Hx Hpg (w_kmem w2)) as Hk3.
    eexists. split; [split; [exact Hk3| |exact Hn]|].
    + intros a Ha. cbn [w_mem set_kmem set_mem]. assert (Hxa : ¬ in_page x a) by (intros ?; apply Ha; exists x; split; [by left|done]).
      rewrite lookup_wr64, decide_False by (unfold in_page, PAGE_SIZE in *; lia).
      cbn. rewrite lookup_clear_page, decide_False by done. apply Hm. intros (y & Hy & Hya). apply Ha. exists y. split; [by right|done].
    + etransitivity; [exact Ho|]. exists (wr64 (w_mem w2) (KPA2PA x) (freelist (w_kmem w2))), (mk_kmem 0 x). reflexivity.
Qed.

(** ** A hart stays inside its memory *)

(** [n] pages that are neither in [xs] nor in [zs]. *)
Lemma fresh_pages xs zs n : (length xs + length zs + n <= length all_pages)%nat →
  ∃ ys, NoDup ys ∧ Forall (λ x, valid_address x = true) ys ∧ length ys = n ∧ Forall (λ y, y ∉ xs ++ zs) ys.
Proof.
  intros Hn. set (l := filter (λ y, y ∉ xs ++ zs) all_pages).
  assert (Hl : (n <= length l)%nat).
  { assert (Hs : all_pages ⊆+ (xs ++ zs) ++ l).
    { apply NoDup_submseteq; [apply NoDup_pages_down|]. intros y Hy.
      destruct (decide (y ∈ xs ++ zs)) as [H|H]; apply elem_of_app; [by left|right]. by apply list_elem_of_filter. }
    apply submseteq_length in Hs. rewrite !length_app in Hs. lia. }
  exists (take n l). split_and!.
  - eapply sublist_NoDup; [|apply sublist_take]. apply NoDup_filter, NoDup_pages_down.
  - apply Forall_take, Forall_forall. intros y (_ & Hy)%list_elem_of_filter. by apply elem_of_all_pages.
  - rewrite length_take. lia.
  - apply Forall_take, Forall_forall. intros y Hy. by apply list_elem_of_filter in Hy as [Hy _].
Qed.
End solo.

(** The page a byte lies in. *)
Definition page_of (a : Z) : Z := PA2KPA (a / PAGE_SIZE * PAGE_SIZE).

Section footprint.
Context {D : Type} {L : Linker} `{!LinkerOk L}.
Implicit Types (w : world D) (m : ram) (ys xs : list Z).

Lemma in_page_of x a : valid_address x = true → in_page x a → x = page_of a.
Proof.
  intros Hx Ha. destruct (valid_address_pa x Hx) as (Hal & _ & _ & E & _). rewrite E. unfold page_of. f_equal.
  unfold in_page, PAGE_SIZE in *. dlia.
Qed.

(** A program that, alone, never fails on [n] pages and the memory [m0]; apart from
    memory and the allocator the machine is [wb]. *)
Definition succeeds (wb : world D) (m0 : ram) (q0 : prog Z) (n : nat) : Prop :=
  ∀ w xs, mem_only wb w → models w m0 xs → (n <= length xs)%nat → ∃ a w', run q0 w = Ok a w'.

Context (w0 : world D) (m0 : ram) (q0 : prog Z) (n : nat).
Context (Hok : succeeds w0 m0 q0 n) (Hn : (n + 2 <= length all_pages)%nat).
Context (Hm0 : ∀ x a, valid_address x = true → in_page x a → m0 !! a = None).

(** Wherever it is, it can be continued on a machine with few other pages, none of
    them in [zs]. *)
Lemma continued xs m q zs : solo_run m0 q0 xs m q → NoDup xs → Forall (λ x, valid_address x = true) xs →
  (length xs <= n)%nat → (length zs <= 2)%nat →
  ∃ w ys a w', models w m ys ∧ run q w = Ok a w' ∧ (∀ a, in_pages ys a → page_of a ∉ zs) ∧ length ys = (n - length xs)%nat.
Proof.
  intros Hs Hnd Hv Hl Hz. destruct (fresh_pages xs zs (n - length xs)) as (ys & Hnd' & Hv' & Hl' & Hf); [lia|].
  rewrite Forall_forall in Hf.
  destruct (models_exist w0 m0 (xs ++ ys)) as (w & Hm & Ho).
  - apply NoDup_app. split; [done|]. split; [|done]. intros x Hx Hy. apply (Hf x Hy), elem_of_app. by left.
  - by apply Forall_app.
  - intros a (x & Hx & Ha). apply (Hm0 x); [|done]. assert (Hvv : Forall (λ x, valid_address x = true) (xs ++ ys)) by by apply Forall_app.
    rewrite Forall_forall in Hvv. by apply Hvv.
  - destruct (Hok w (xs ++ ys) Ho Hm) as (a & w' & Hr); [rewrite length_app; lia|].
    destruct (solo_rtc_run _ _ _ _ _ _ _ Hm (Hs ys)) as (w1 & Hm1 & R & _).
    exists w1, ys, a, w'. split; [done|]. split; [by rewrite <- R|]. split; [|done].
    intros b (y & Hy & Hb). rewrite <- (in_page_of y b); [|rewrite Forall_forall in Hv'; by apply Hv'|done].
    intros Hyz. apply (Hf y Hy), elem_of_app. by right.
Qed.

Context (xs : list Z) (m : ram) (Hnd : NoDup xs) (Hv : Forall (λ x, valid_address x = true) xs) (Hl : (length xs <= n)%nat).

(** Bytes that are there on such a machine are the hart's. *)
Lemma own_bytes w ys p : models w m ys → (∀ a, in_pages ys a → page_of a ∉ [page_of p; page_of (p + 7)]) →
  has_bytes (w_mem w) p 8 → has_bytes m p 8.
Proof.
  intros Hm Hz Hb a Ha. destruct (Hb a Ha) as [b Eb]. rewrite (mo_eq _ _ _ Hm) in Eb; [by exists b|].
  intros Hin. apply (Hz a Hin). unfold page_of. rewrite !elem_of_cons.
  assert (a / PAGE_SIZE = p / PAGE_SIZE ∨ a / PAGE_SIZE = (p + 7) / PAGE_SIZE) as [->| ->];
    [unfold PAGE_SIZE; revert Ha; clear; intros; dlia|auto..].
Qed.

Lemma own_load a k : solo_run m0 q0 xs m (Load a k) → ∃ p v, kptr_pa a = Some p ∧ rd64 m p = Some v.
Proof.
  intros Hs. set (p := default 0 (kptr_pa a)).
  destruct (continued _ _ _ [page_of p; page_of (p + 7)] Hs Hnd Hv Hl) as (w & ys & b & w' & Hm & Hr & Hz & _); [done|].
  cbn [run] in Hr. apply bind_ok_inv in Hr as (v & w1 & H1 & _). unfold load64 in H1.
  unfold p in Hz. destruct (kptr_pa a) as [p'|]; [|done]. change (Some p' ≫= rd64 (w_mem w)) with (rd64 (w_mem w) p') in H1. cbn [default] in Hz. exists p'.
  destruct (rd64 (w_mem w) p') as [v'|] eqn:E; [|done].
  destruct (proj1 (rd64_has m p')) as [v2 E2]; [|by exists v2].
  eapply own_bytes; [exact Hm|exact Hz|]. apply rd64_has. by exists v'.
Qed.
Lemma own_store a v k : solo_run m0 q0 xs m (Store a v k) → ∃ p, kptr_pa a = Some p ∧ is_Some (rd64 m p).
Proof.
  intros Hs. set (p := default 0 (kptr_pa a)).
  destruct (continued _ _ _ [page_of p; page_of (p + 7)] Hs Hnd Hv Hl) as (w & ys & b & w' & Hm & Hr & Hz & _); [done|].
  cbn [run] in Hr. apply bind_ok_inv in Hr as (u & w1 & H1 & _). unfold store64 in H1.
  unfold p in Hz. destruct (kptr_pa a) as [p'|]; [|done]. cbn [default] in Hz. exists p'. split; [done|].
  destruct (rd64 (w_mem w) p') as [v'|] eqn:E; [|done].
  apply rd64_has. eapply own_bytes; [exact Hm|exact Hz|]. apply rd64_has. by exists v'.
Qed.
Lemma own_store8 a v k : solo_run m0 q0 xs m (Store8 a v k) → ∃ p, kptr_pa a = Some p ∧ is_Some (m !! p).
Proof.
  intros Hs. set (p := default 0 (kptr_pa a)).
  destruct (continued _ _ _ [page_of p] Hs Hnd Hv Hl) as (w & ys & b & w' & Hm & Hr & Hz & _); [cbn; lia|].
  cbn [run] in Hr. apply bind_ok_inv in Hr as (u & w1 & H1 & _). unfold store8 in H1.
  unfold p in Hz. destruct (kptr_pa a) as [p'|]; [|done]. cbn [default] in Hz. exists p'. split; [done|].
  destruct (w_mem w !! p') as [v'|] eqn:E; [|done]. rewrite (mo_eq _ _ _ Hm) in E; [by exists v'|].
  intros Hin. apply (Hz p' Hin). by left.
Qed.
Lemma own_malloc k : solo_run m0 q0 xs m (Malloc k) → (length xs < n)%nat.
Proof.
  intros Hs. destruct (decide (length xs < n)%nat) as [|Hge]; [done|].
  destruct (continued _ _ _ [] Hs Hnd Hv Hl) as (w & ys & b & w' & Hm & Hr & _ & El); [cbn; lia|].
  destruct ys; [|cbn in El; lia]. cbn [run] in Hr. by rewrite (bind_fault _ _ _ _ _ (kmalloc_empty w (mo_kmem _ _ _ Hm))) in Hr.
Qed.
Lemma own_stop o : ¬ solo_run m0 q0 xs m (Stop o).
Proof.
  intros Hs. destruct (continued _ _ _ [] Hs Hnd Hv Hl) as (w & ys & b & w' & _ & Hr & _); [cbn; lia|].
  by destruct o.
Qed.
End footprint.

(** ** Sums *)

Lemma sum_list_lt (l1 l2 : list nat) i x y : length l1 = length l2 →
  (∀ i a b, l1 !! i = Some a → l2 !! i = Some b → (a <= b)%nat) →
  l1 !! i = Some x → l2 !! i = Some y → (x < y)%nat → (sum_list l1 < sum_list l2)%nat.
Proof.
  assert (Hle : ∀ l1 l2 : list nat, length l1 = length l2 →
    (∀ i a b, l1 !! i = Some a → l2 !! i = Some b → (a <= b)%nat) → (sum_list l1 <= sum_list l2)%nat).
  { clear. intros l1. induction l1 as [|a l1 IH]; intros [|b l2] Hl Hp; try done. cbn.
    pose proof (Hp 0%nat a b eq_refl eq_refl). specialize (IH l2 ltac:(by injection Hl) (λ i, Hp (S i))). lia. }
  revert l2 i. induction l1 as [|a l1 IH]; intros [|b l2] [|i] Hl Hp H1 H2 Hlt; try done; cbn in *.
  - injection H1 as ->. injection H2 as ->. specialize (Hle l1 l2 ltac:(lia) (λ i, Hp (S i))). lia.
  - pose proof (Hp 0%nat a b eq_refl eq_refl). specialize (IH l2 i ltac:(lia) (λ i, Hp (S i)) H1 H2 Hlt). lia.
Qed.
Lemma length_has ts : length (ts ≫= has) = sum_list ((length ∘ has) <$> ts).
Proof. induction ts as [|t ts IH]; [done|]. cbn. rewrite length_app. f_equal. exact IH. Qed.

(** ** Harts that work at the same time *)

(** What a hart has to do, the static memory it does it in, and how many pages it
    may need. *)
Record job := mk_job { jb_prog : prog Z; jb_base : Z; jb_size : Z; jb_need : nat }.
Definition static (j : job) (a : Z) : Prop := jb_base j <= a < jb_base j + jb_size j.
(** The memory of a hart that has the pages [xs]. *)
Definition mine (j : job) (xs : list Z) (a : Z) : Prop := static j a ∨ in_pages xs a.

#[export] Instance in_pages_dec xs a : Decision (in_pages xs a).
Proof. refine (cast_if (decide (Exists (λ x, in_page x a) xs))); by rewrite Exists_exists in *. Defined.
#[export] Instance mine_dec j xs a : Decision (mine j xs a).
Proof. unfold mine, static. apply _. Defined.

Definition part (j : job) (xs : list Z) (m : ram) : ram := filter (λ ab, mine j xs ab.1) m.
Lemma lookup_part j xs m a : part j xs m !! a = if decide (mine j xs a) then m !! a else None.
Proof.
  unfold part. destruct (decide (mine j xs a)) as [H|H].
  - destruct (m !! a) as [b|] eqn:E.
    + by apply map_lookup_filter_Some.
    + apply map_lookup_filter_None. by left.
  - apply map_lookup_filter_None. right. by intros b _.
Qed.
Lemma part_ext j xs m m' : (∀ a, mine j xs a → m' !! a = m !! a) → part j xs m' = part j xs m.
Proof. intros H. apply map_eq. intros a. rewrite !lookup_part. destruct (decide _); [by apply H|done]. Qed.
Lemma part_sub j xs m a b : part j xs m !! a = Some b → m !! a = Some b ∧ mine j xs a.
Proof. rewrite lookup_part. by destruct (decide _). Qed.
Lemma part_rd64 j xs m p v : rd64 (part j xs m) p = Some v → rd64 m p = Some v ∧ ∀ a, p <= a < p + 8 → mine j xs a.
Proof.
  intros Hr. assert (Hb : has_bytes (part j xs m) p 8) by (apply rd64_has; by exists v). split.
  - rewrite <- Hr. apply rd64_ext. intros a Ha. destruct (Hb a Ha) as [b Eb]. by destruct (part_sub _ _ _ _ _ Eb) as [-> _].
  - intros a Ha. destruct (Hb a Ha) as [b Eb]. by destruct (part_sub _ _ _ _ _ Eb).
Qed.
Lemma part_wr64 j xs m p v : (∀ a, p <= a < p + 8 → mine j xs a) → part j xs (wr64 m p v) = wr64 (part j xs m) p v.
Proof.
  intros H. apply map_eq. intros a. rewrite lookup_part, !lookup_wr64, lookup_part.
  destruct (decide (p <= a < p + 8)) as [Ha|]; [|done]. by rewrite decide_True by by apply H.
Qed.
Lemma part_insert j xs m p b : mine j xs p → part j xs (<[p := b]> m) = <[p := b]> (part j xs m).
Proof.
  intros H. apply map_eq. intros a. rewrite lookup_part. destruct (decide (a = p)) as [->|].
  - by rewrite !lookup_insert_eq, decide_True.
  - by rewrite !lookup_insert_ne, lookup_part by done.
Qed.
Lemma part_page j x xs m : zeroed m (KPA2PA x) PAGE_SIZE → part j (x :: xs) m = clear_page (part j xs m) (KPA2PA x).
Proof.
  intros Hz. apply map_eq. intros a. rewrite lookup_part, lookup_clear_page, lookup_part.
  destruct (decide (KPA2PA x <= a < KPA2PA x + PAGE_SIZE)) as [Ha|Ha].
  - rewrite decide_True; [by apply Hz|]. right. exists x. split; [by left|done].
  - apply decide_ext. unfold mine, in_pages. split; (intros [?|(y & Hy & Hya)]; [by left|right; exists y]).
    + apply elem_of_cons in Hy as [->|Hy]; [done|by split].
    + split; [by right|done].
Qed.

Section harts.
Context {D : Type} {L : Linker} `{!LinkerOk L}.
Implicit Types (w : world D) (t : thread) (c : client) (cs : list client) (m : ram) (j : job).

Context (w0 : world D) (all : list Z) (jobs : list job).

(** The jobs succeed alone, in memory that is theirs, and there are pages for all. *)
Record jobs_ok : Prop := {
  jo_kmem : kmem_inv w0 all;
  jo_succeeds i j : jobs !! i = Some j → ∃ wb : world D, succeeds wb (part j [] (w_mem w0)) (jb_prog j) (jb_need j);
  jo_pages i j : jobs !! i = Some j → (jb_need j + 2 <= length all_pages)%nat;
  jo_static i j a x : jobs !! i = Some j → static j a → valid_address x = true → ¬ in_page x a;
  jo_apart i i' j j' a : i ≠ i' → jobs !! i = Some j → jobs !! i' = Some j' → static j a → ¬ static j' a;
  jo_enough : (sum_list (jb_need <$> jobs) <= length all)%nat
}.

(** A hart in kmalloc that will get a page. *)
Definition calling (p : km_pc) : Prop :=
  match p with
  | MAcquire | MHead => True
  | MNext x | MSet x _ | MRelease x | MClear x _ => x ≠ 0
  | _ => False
  end.

Record client_ok w c j : Prop := {
  cj_run : solo_run (part j [] (w_mem w0)) (jb_prog j) (reverse (own (cl_thread c)))
    (part j (own (cl_thread c)) (w_mem w)) (cl_prog c);
  cj_len : (length (own (cl_thread c)) <= jb_need j)%nat;
  cj_pc : pc (cl_thread c) = Idle ∨ calling (pc (cl_thread c)) ∧ ∃ k, cl_prog c = Malloc k
}.
Record jinv w cs fl : Prop := {
  ji_kinv : kinv all w (cl_thread <$> cs) fl;
  ji_len : length cs = length jobs;
  ji_client i c j : cs !! i = Some c → jobs !! i = Some j → client_ok w c j;
  ji_frame a : ¬ in_pages all a → (∀ j, j ∈ jobs → ¬ static j a) → w_mem w !! a = w_mem w0 !! a
}.

Definition start_clients : list client := (λ j, mk_client (mk_thread Idle []) (jb_prog j)) <$> jobs.

Context (Hj : jobs_ok).

Lemma all_nodup : NoDup all.
Proof. apply Hj. Qed.
Lemma all_valid : Forall (λ x, valid_address x = true) all.
Proof. apply Forall_forall. intros x. eapply freelist_elem_valid, Hj. Qed.

Lemma jinv_start : jinv w0 start_clients all.
Proof.
  split.
  - replace (cl_thread <$> start_clients) with (idle (length jobs)).
    + destruct (jo_kmem Hj) as (Hlk & Hfl & _ & Hp).
      split; [rewrite idle_lock, Hlk; lia|done|done|by rewrite idle_has, app_nil_r|]. by intros i t [-> _]%lookup_replicate.
    + unfold start_clients, idle. rewrite <- list_fmap_compose. clear Hj. induction jobs as [|j js IH]; [done|]. cbn. by f_equal.
  - unfold start_clients. apply length_fmap.
  - intros i c j Hi Hij. unfold start_clients in Hi. rewrite list_lookup_fmap, Hij in Hi. injection Hi as <-.
    split; [|cbn; lia|by left]. intros ys. apply rtc_refl.
  - done.
Qed.

Lemma client_job w cs fl i c : jinv w cs fl → cs !! i = Some c → ∃ j, jobs !! i = Some j ∧ client_ok w c j.
Proof.
  intros J Hi. destruct (lookup_lt_is_Some_2 jobs i) as [j Hij].
  { rewrite <- (ji_len _ _ _ J). by eapply lookup_lt_Some. }
  exists j. split; [done|by eapply J].
Qed.
Lemma thread_of cs i c : cs !! i = Some c → (cl_thread <$> cs) !! i = Some (cl_thread c).
Proof. intros Hi. by rewrite list_lookup_fmap, Hi. Qed.

(** The pages of a hart are valid and distinct. *)
Lemma own_valid w cs fl i c : jinv w cs fl → cs !! i = Some c → let xs := reverse (own (cl_thread c)) in
  NoDup xs ∧ Forall (λ x, valid_address x = true) xs.
Proof.
  intros J Hi xs. pose proof (thread_of _ _ _ Hi) as Ht.
  pose proof (kinv_nodup all all_nodup _ _ _ _ _ (ji_kinv _ _ _ J) Ht) as (_ & _ & (Hn & _)%NoDup_app)%NoDup_app.
  unfold has in Hn. apply NoDup_app in Hn as (_ & _ & Hn). unfold xs. split; [by rewrite reverse_Permutation|].
  apply Forall_reverse, Forall_forall. intros x Hx.
  eapply has_valid; [apply all_valid|apply J|exact Ht|]. unfold has. apply elem_of_app. by right.
Qed.

(** ** Nobody is disturbed *)

(** A hart writes only into what it has. *)
Definition within j xs m m' : Prop := (∀ a, ¬ mine j xs a → m' !! a = m !! a) ∧ backed m m'.

Lemma within_refl j xs m : within j xs m m.
Proof. by split; [|intros p n]. Qed.

Lemma page_not_mine w cs fl i c j x a : jinv w cs fl → cs !! i = Some c → jobs !! i = Some j →
  valid_address x = true → x ∉ has (cl_thread c) → in_page x a → ¬ mine j (has (cl_thread c)) a.
Proof.
  intros J Hi Hij Hx Hne Ha [Hs|(y & Hy & Hya)]; [by eapply (jo_static Hj)|].
  destruct (pages_disjoint x y Hx); [|by intros ->|unfold in_page in *; lia..].
  eapply has_valid; [apply all_valid|apply J|by apply thread_of|exact Hy].
Qed.

Lemma others_part w cs fl i c j i' c' j' m' : jinv w cs fl → cs !! i = Some c → jobs !! i = Some j → i' ≠ i →
  cs !! i' = Some c' → jobs !! i' = Some j' → within j (has (cl_thread c)) (w_mem w) m' →
  part j' (own (cl_thread c')) m' = part j' (own (cl_thread c')) (w_mem w).
Proof.
  intros J Hi Hij Hne Hi' Hij' [Hw _]. apply part_ext. intros a [Hs|(x & Hx & Ha)]; apply Hw.
  - intros [Hs'|(y & Hy & Hya)]; [by eapply (jo_apart Hj i' i)|].
    eapply (jo_static Hj); [exact Hij'|exact Hs| |exact Hya].
    eapply has_valid; [apply all_valid|apply J|exact (thread_of _ _ _ Hi)|exact Hy].
  - assert (Hx' : x ∈ has (cl_thread c')) by (unfold has; apply elem_of_app; by right).
    eapply page_not_mine; [exact J|exact Hi|exact Hij| | |exact Ha].
    + eapply has_valid; [apply all_valid|apply J|exact (thread_of _ _ _ Hi')|exact Hx'].
    + intros Hxc. eapply (kinv_apart all all_nodup); [apply J|apply (thread_of _ _ _ Hi)|apply (thread_of _ _ _ Hi')|done|exact Hxc|exact Hx'|done].
Qed.

Lemma frame_within w cs fl i c j m' a : jinv w cs fl → cs !! i = Some c → jobs !! i = Some j →
  within j (has (cl_thread c)) (w_mem w) m' → ¬ in_pages all a → (∀ j, j ∈ jobs → ¬ static j a) → m' !! a = w_mem w0 !! a.
Proof.
  intros J Hi Hij [Hw _] Ha Hs. rewrite Hw; [by apply J|]. intros [H|(x & Hx & Hxa)].
  - by apply (Hs j); [eapply list_elem_of_lookup_2|].
  - apply Ha. exists x. split; [|done].
    rewrite <- (ki_pages _ _ _ _ (ji_kinv _ _ _ J)), (has_split _ i _ (thread_of _ _ _ Hi)), !elem_of_app. auto.
Qed.

Lemma insert_job (cs : list client) i c' i' c j : <[i := c']> cs !! i' = Some c → jobs !! i' = Some j →
  (i' = i ∧ c = c') ∨ (i' ≠ i ∧ cs !! i' = Some c).
Proof.
  intros Hi' _. destruct (decide (i' = i)) as [->|Hne]; [left|right].
  - apply list_lookup_insert_Some in Hi' as [(_ & -> & _)|[? _]]; done.
  - by rewrite list_lookup_insert_ne in Hi'.
Qed.

(** An access between calls of the allocator. *)
Lemma jinv_own w cs fl i c j m' q' : jinv w cs fl → cs !! i = Some c → jobs !! i = Some j → pc (cl_thread c) = Idle →
  within j (own (cl_thread c)) (w_mem w) m' →
  solo_run (part j [] (w_mem w0)) (jb_prog j) (reverse (own (cl_thread c))) (part j (own (cl_thread c)) m') q' →
  jinv (set_mem m' w) (<[i := mk_client (cl_thread c) q']> cs) fl.
Proof.
  intros J Hi Hij Hp Hw Hs. assert (Eh : has (cl_thread c) = own (cl_thread c)) by (unfold has; by rewrite Hp).
  pose proof (thread_of _ _ _ Hi) as Ht. pose proof (ji_kinv _ _ _ J) as K.
  assert (Hfree : ∀ x, x ∈ fl → ∀ a, in_page x a → m' !! a = w_mem w !! a).
  { intros x Hx a Ha. apply Hw. rewrite <- Eh. eapply page_not_mine; [exact J|exact Hi|exact Hij| | |exact Ha].
    - eapply (kinv_valid all all_valid); [exact K|]. apply elem_of_app. by left.
    - intros Hxc. by eapply (kinv_not_free all all_nodup). }
  split.
  - rewrite list_fmap_insert. cbn [cl_thread]. apply (kinv_update all w _ fl i (cl_thread c)); try done; cbn [w_mem w_kmem set_mem].
    + lia.
    + apply K.
    + eapply is_freelist_frame; [apply K|]. intros x Hx a Ha. symmetry. apply (Hfree x Hx). unfold in_page, PAGE_SIZE. lia.
    + eapply pages_ok_backed; [apply Hw|apply K].
    + by rewrite Hp.
    + intros i' u Hne Hu. apply knows_agree. intros y a [Hy|Hy]%elem_of_app Ha; [by apply (Hfree y)|].
      apply Hw. rewrite <- Eh. eapply page_not_mine; [exact J|exact Hi|exact Hij| | |exact Ha].
      * eapply has_valid; [apply all_valid|exact K|exact Hu|exact Hy].
      * intros Hyc. eapply (kinv_apart all all_nodup); [exact K|exact Ht|exact Hu|done|exact Hyc|exact Hy|done].
  - rewrite length_insert. apply J.
  - intros i' c1 j' Hi' Hij'. destruct (insert_job _ _ _ _ _ _ Hi' Hij') as [[-> ->]|[Hne Hi1]].
    + rewrite Hij in Hij'. injection Hij' as <-. pose proof (ji_client _ _ _ J i c j Hi Hij) as C.
      split; [exact Hs|apply C|by left].
    + pose proof (ji_client _ _ _ J i' c1 j' Hi1 Hij') as C. split; [|apply C..]. cbn [w_mem set_mem].
      rewrite (others_part w cs fl i c j i' c1 j' m'); [apply C|done..|by rewrite Eh].
  - intros a. eapply frame_within; [done|done|done|by rewrite Eh].
Qed.

(** ** Calls of kmalloc *)

Lemma call_access w ts fl i t t' w' : kinv all w ts fl → ts !! i = Some t → calling (pc t) →
  (pc t = MHead → freelist (w_kmem w) ≠ 0) → km_access t w = Ok t' w' →
  (∀ a, ¬ in_pages (flight (pc t)) a → w_mem w' !! a = w_mem w !! a) ∧ backed (w_mem w) (w_mem w') ∧
  (calling (pc t') ∧ own t' = own t ∨ ∃ x, pc t = MClear x 0 ∧ t' = mk_thread Idle (x :: own t) ∧ w' = w).
Proof.
  intros K Hi Hc Hf. unfold km_access. pose proof (ki_knows _ _ _ _ K i t Hi) as Hkn.
  assert (Hhas : flight (pc t) ⊆ has t) by (intros y Hy; unfold has; apply elem_of_app; by left).
  assert (Hrefl : backed (w_mem w) (w_mem w)) by by intros p n.
  destruct (pc t) as [| | |p|p n|p|p [|k]| | | | | |]; cbn [calling knows] in Hc, Hkn; try done; unfold go.
  - unfold acquire_kmem, mbind, cmd_bind. destruct (_ =? 0); [|done]. intros [= <- <-]. split_and!; [done|done|by left].
  - rewrite bind_gets. intros [= <- <-]. split_and!; [done|done|left]. split; [by apply Hf|done].
  - rewrite (proj2 (truthy_true p)) by done. intros (v & w1 & H1 & H2)%bind_ok_inv. injection H2 as <- <-.
    unfold load64 in H1. destruct (_ ≫= _); [|done]. injection H1 as <- <-. split_and!; [done|done|by left].
  - intros [= <- <-]. split_and!; [done|done|by left].
  - intros [= <- <-]. split_and!; [done|done|by left].
  - intros [= <- <-]. split_and!; [done|done|right]. by exists p.
  - intros (u & w1 & H1 & H2)%bind_ok_inv. injection H2 as <- <-.
    destruct Hkn as [_ Hkn]. destruct (Hkn Hc) as [Hle _].
    cbn [flight] in Hhas |- *. rewrite (proj2 (Z.eqb_neq p 0)) in Hhas |- * by done.
    assert (Hv : valid_address p = true) by (eapply has_valid; [apply all_valid|exact K|exact Hi|apply Hhas; by left]).
    destruct (valid_address_pa p Hv) as (_ & _ & _ & _ & Hrg & _).
    assert (Ho : 0 <= PAGE_SIZE - Z.of_nat (S k) < PAGE_SIZE) by (unfold PAGE_SIZE in *; lia).
    unfold store8 in H1. rewrite (Hrg _ Ho) in H1. destruct (w_mem w !! _) as [b|] eqn:E; [|done].
    injection H1 as _ <-. cbn [w_mem set_mem]. split_and!; [| |by left].
    + intros a Ha. apply lookup_insert_ne. intros <-. apply Ha. exists p. split; [by left|]. unfold in_page. lia.
    + intros q n Hq a Ha. destruct (decide (a = KPA2PA p + (PAGE_SIZE - Z.of_nat (S k)))) as [->|]; [by rewrite lookup_insert_eq|].
      rewrite lookup_insert_ne by done. by apply Hq.
Qed.

Lemma calling_room w cs fl i c j : jinv w cs fl → cs !! i = Some c → jobs !! i = Some j → calling (pc (cl_thread c)) →
  (length (own (cl_thread c)) < jb_need j)%nat.
Proof.
  intros J Hi Hij Hc. destruct (ji_client _ _ _ J i c j Hi Hij) as [Hs Hl [Ep|(_ & k & Ek)]]; [by rewrite Ep in Hc|].
  destruct (own_valid _ _ _ _ _ J Hi) as [Hnd Hv]. rewrite Ek in Hs. rewrite <- length_reverse in Hl |- *.
  destruct (jo_succeeds Hj i j Hij) as [wb Hok].
  eapply (own_malloc wb); [exact Hok|by eapply (jo_pages Hj)| |exact Hnd|exact Hv|exact Hl|exact Hs].
  intros x a Hx Ha. rewrite lookup_part, decide_False; [done|].
  intros [H|(y & ?%not_elem_of_nil & _)]; [by eapply (jo_static Hj)|done].
Qed.

(** There is a page for everybody who asks. *)
Lemma page_left w cs fl i c : jinv w cs fl → cs !! i = Some c → calling (pc (cl_thread c)) →
  flight (pc (cl_thread c)) = [] → fl ≠ [].
Proof.
  intros J Hi Hc Hf ->. destruct (client_job _ _ _ _ _ J Hi) as (j & Hij & _).
  pose proof (Permutation_length (ki_pages _ _ _ _ (ji_kinv _ _ _ J))) as Hp. cbn in Hp. rewrite length_has in Hp.
  pose proof (jo_enough Hj) as Hen.
  assert (Hlt : (sum_list ((length ∘ has) <$> (cl_thread <$> cs)) < sum_list (jb_need <$> jobs))%nat); [|lia].
  apply (sum_list_lt _ _ i (length (has (cl_thread c))) (jb_need j)).
  - rewrite !length_fmap. apply J.
  - intros i' a b Ha Hb. rewrite !list_lookup_fmap in Ha. rewrite list_lookup_fmap in Hb.
    destruct (cs !! i') as [c'|] eqn:Ec; [|done]. destruct (jobs !! i') as [j'|] eqn:Ej; [|done].
    injection Ha as <-. injection Hb as <-. unfold compose, has.
    pose proof (ji_client _ _ _ J i' c' j' Ec Ej) as [_ Hl [Ep|[Hc' _]]].
    + rewrite Ep. exact Hl.
    + pose proof (calling_room _ _ _ _ _ _ J Ec Ej Hc'). rewrite length_app.
      assert (Hfl : (length (flight (pc (cl_thread c'))) <= 1)%nat); [|lia].
      destruct (pc (cl_thread c')); cbn; try lia; destruct (_ =? 0); cbn; lia.
  - by rewrite !list_lookup_fmap, Hi.
  - by rewrite list_lookup_fmap, Hij.
  - unfold has. rewrite Hf. by eapply calling_room.
Qed.

(** An access inside a call. *)
Lemma jinv_call w cs fl i c j k t' w' fl' : jinv w cs fl → cs !! i = Some c → jobs !! i = Some j →
  calling (pc (cl_thread c)) → cl_prog c = Malloc k → km_access (cl_thread c) w = Ok t' w' →
  kinv all w' (<[i := t']> (cl_thread <$> cs)) fl' →
  jinv w' (<[i := mk_client t' (resume_prog t' (Malloc k))]> cs) fl'.
Proof.
  intros J Hi Hij Hc Ek Ha K'. pose proof (thread_of _ _ _ Hi) as Ht. pose proof (ji_kinv _ _ _ J) as K.
  assert (Hf : pc (cl_thread c) = MHead → freelist (w_kmem w) ≠ 0).
  { intros Ep. pose proof (page_left _ _ _ _ _ J Hi Hc ltac:(by rewrite Ep)) as Hne.
    pose proof (ki_list _ _ _ _ K) as Hfl. destruct fl as [|x fl]; [done|]. destruct Hfl as (-> & Hx & _).
    by apply valid_address_pa. }
  destruct (call_access _ _ _ _ _ _ _ K Ht Hc Hf Ha) as (Hm & Hb & Hcase).
  pose proof (ji_client _ _ _ J i c j Hi Hij) as [Hs Hl _]. rewrite Ek in Hs.
  assert (Hw : within j (has (cl_thread c)) (w_mem w) (w_mem w')).
  { split; [|exact Hb]. intros a Hna. apply Hm. intros (x & Hx & Hxa). apply Hna. right. exists x. split; [|done].
    unfold has. apply elem_of_app. by left. }
  split; [by rewrite list_fmap_insert|rewrite length_insert; apply J| |by intros a; eapply frame_within].
  intros i' c1 j' Hi' Hij'. destruct (insert_job _ _ _ _ _ _ Hi' Hij') as [[-> ->]|[Hne Hi1]].
  2:{ pose proof (ji_client _ _ _ J i' c1 j' Hi1 Hij') as C. split; [|apply C..].
      rewrite (others_part w cs fl i c j i' c1 j' (w_mem w')); [apply C|done..]. }
  rewrite Hij in Hij'. injection Hij' as <-. destruct Hcase as [[Hc' Eo]|(x & Ep & -> & ->)].
  - assert (Er : resume_prog t' (Malloc k) = Malloc k) by (unfold resume_prog; by destruct (pc t')).
    rewrite Er. split; cbn [cl_thread cl_prog]; [|by rewrite Eo|right; by eauto]. rewrite Eo.
    rewrite (part_ext j (own (cl_thread c)) (w_mem w) (w_mem w')); [exact Hs|]. intros a [Hst|(x & Hx & Hxa)]; apply Hm; intros (y & Hy & Hya).
    + eapply (jo_static Hj); [exact Hij|exact Hst| |exact Hya].
      eapply has_valid; [apply all_valid|exact K|exact Ht|]. unfold has. apply elem_of_app. by left.
    + assert (Hvx : ∀ z, z ∈ has (cl_thread c) → valid_address z = true) by (intros z; by eapply has_valid; [apply all_valid|..]).
      unfold has in Hvx. destruct (pages_disjoint x y); [apply Hvx, elem_of_app; by right|apply Hvx, elem_of_app; by left| |unfold in_page in *; lia..].
      intros ->. pose proof (kinv_nodup all all_nodup _ _ _ _ _ K Ht) as (_ & _ & (Hn & _)%NoDup_app)%NoDup_app.
      unfold has in Hn. apply NoDup_app in Hn as (_ & Hn & _). by apply (Hn y).
  - pose proof (calling_room _ _ _ _ _ _ J Hi Hij Hc) as Hroom.
    unfold resume_prog. cbn [pc own]. split; cbn [cl_thread cl_prog own]; [|cbn; lia|by left].
    rewrite reverse_cons. pose proof (ki_knows _ _ _ _ K i _ Ht) as Hkn. rewrite Ep in Hc, Hkn. cbn [knows calling] in Hkn, Hc.
    destruct Hkn as [_ Hkn]. destruct (Hkn Hc) as [_ Hz]. rewrite Z.sub_0_r in Hz.
    rewrite (part_page _ _ _ _ Hz). by apply solo_run_malloc.
Qed.

(** ** Every access *)

Lemma set_mem_id w : set_mem (w_mem w) w = w.
Proof. by destruct w. Qed.

(** A hart that makes no access has finished, or waits for the lock. *)
Definition waits w c : Prop :=
  (pc (cl_thread c) = Idle ∧ ∃ a, cl_prog c = Ret a) ∨ (pc (cl_thread c) = MAcquire ∧ kmem_lk (w_kmem w) = 1).

(** [client_access] keeps the invariant and neither panics nor faults. *)
Definition good w cs i c : Prop :=
  match client_access c w with
  | Ok c' w' => ∃ fl, jinv w' (<[i := c']> cs) fl
  | Hang _ => waits w c
  | _ => False
  end.

Lemma good_idle w cs fl i c j : jinv w cs fl → cs !! i = Some c → jobs !! i = Some j → pc (cl_thread c) = Idle →
  good w cs i c.
Proof.
  intros J Hi Hij Ep. pose proof (ji_client _ _ _ J i c j Hi Hij) as [Hs Hl _].
  destruct (own_valid _ _ _ _ _ J Hi) as [Hnd Hv]. rewrite <- length_reverse in Hl.
  assert (Hm0 : ∀ x a, valid_address x = true → in_page x a → part j [] (w_mem w0) !! a = None).
  { intros x a Hx Ha. rewrite lookup_part, decide_False; [done|].
    intros [H|(y & ?%not_elem_of_nil & _)]; [by eapply (jo_static Hj)|done]. }
  destruct (jo_succeeds Hj i j Hij) as [wb Hok]. pose proof (jo_pages Hj i j Hij) as Hn.
  unfold good, client_access. rewrite Ep. destruct (cl_prog c) as [a|o|a k|a v k|a v k|k] eqn:Eq.
  - left. eauto.
  - by destruct (own_stop wb _ _ _ Hok Hn Hm0 _ _ Hnd Hv Hl _ Hs).
  - destruct (own_load wb _ _ _ Hok Hn Hm0 _ _ Hnd Hv Hl _ _ Hs) as (p & v & Hp & Hr).
    destruct (part_rd64 _ _ _ _ _ Hr) as [Hr' _]. rewrite (bind_ok _ _ _ _ _ (load64_ok _ _ _ _ Hp Hr')).
    exists fl. rewrite <- (set_mem_id w). eapply jinv_own; [done|done|done|done|apply within_refl|].
    eapply solo_run_step; [exact Hs|]. intros ys. by eapply S_load.
  - destruct (own_store wb _ _ _ Hok Hn Hm0 _ _ Hnd Hv Hl _ _ _ Hs) as (p & Hp & [v0 Hr]).
    destruct (part_rd64 _ _ _ _ _ Hr) as [Hr' Hin].
    rewrite (bind_ok _ _ _ tt (set_mem (wr64 (w_mem w) p v) w)) by (apply store64_ok; [done|]; apply rd64_has; by exists v0).
    exists fl. eapply jinv_own; [done|done|done|done| |].
    + split; [|intros q n; apply has_bytes_wr64]. intros b Hb. rewrite lookup_wr64, decide_False; [done|]. intros H. by apply Hb, Hin.
    + rewrite part_wr64 by done. eapply solo_run_step; [exact Hs|]. intros ys. by eapply S_store; [|exists v0].
  - destruct (own_store8 wb _ _ _ Hok Hn Hm0 _ _ Hnd Hv Hl _ _ _ Hs) as (p & Hp & [b Hb]).
    destruct (part_sub _ _ _ _ _ Hb) as [Hb' Hin].
    rewrite (bind_ok _ _ _ tt (set_mem (<[p := byte.of_Z v]> (w_mem w)) w)) by (unfold store8; by rewrite Hp, Hb').
    exists fl. eapply jinv_own; [done|done|done|done| |].
    + split; [intros a' Ha'; apply lookup_insert_ne; by intros ->|]. intros q n Hq a' Ha'.
      destruct (decide (a' = p)) as [->|]; [by rewrite lookup_insert_eq|]. rewrite lookup_insert_ne by done. by apply Hq.
    + rewrite part_insert by done. eapply solo_run_step; [exact Hs|]. intros ys. by eapply S_store8; [|exists b].
  - destruct (kinv_step all all_nodup all_valid w (cl_thread <$> cs) fl w
      (<[i := mk_thread MAcquire (own (cl_thread c))]> (cl_thread <$> cs)) (ji_kinv _ _ _ J)) as (fl' & K').
    { constructor; [by apply thread_of|done]. }
    exists fl'. split; [by rewrite list_fmap_insert|rewrite length_insert; apply J| |apply J].
    intros i' c1 j' Hi' Hij'. destruct (insert_job _ _ _ _ _ _ Hi' Hij') as [[-> ->]|[Hne Hi1]]; [|by eapply J].
    rewrite Hij in Hij'. injection Hij' as <-. split; cbn [cl_thread cl_prog own pc]; [exact Hs|by rewrite <- length_reverse|].
    right. split; [done|by eauto].
Qed.

Lemma good_access w cs fl i c : jinv w cs fl → cs !! i = Some c → good w cs i c.
Proof.
  intros J Hi. destruct (client_job _ _ _ _ _ J Hi) as (j & Hij & C). pose proof (thread_of _ _ _ Hi) as Ht.
  destruct (cj_pc _ _ _ C) as [Ep|(Hc & k & Ek)]; [by eapply good_idle|].
  pose proof (fine_access all all_nodup all_valid w _ fl i _ (ji_kinv _ _ _ J) Ht) as F. unfold fine in F.
  assert (Ea : client_access c w = (t' ← km_access (cl_thread c); mret (mk_client t' (resume_prog t' (cl_prog c)))) w)
    by (unfold client_access; by destruct (pc (cl_thread c))).
  unfold good. rewrite Ea, Ek. unfold mbind, cmd_bind.
  destruct (km_access (cl_thread c) w) as [t' w'|e w'|a w'|w'] eqn:E; [|done|by rewrite F in Hc|].
  - destruct F as (fl' & K'). exists fl'. by eapply jinv_call.
  - right. pose proof (ki_lock _ _ _ _ (ji_kinv _ _ _ J)) as [_ Hb]. unfold km_access in E.
    destruct (pc (cl_thread c)) as [| | |p|p n|p|p [|n]| | | | | |]; try done; cbn [calling] in Hc; unfold go in E.
    + split; [done|]. unfold acquire_kmem, mbind, cmd_bind in E. destruct (Z.eqb_spec (kmem_lk (w_kmem w)) 0); [done|lia].
    + rewrite (proj2 (truthy_true p)) in E by done. unfold mbind, cmd_bind in E. unfold load64 in E. by destruct (_ ≫= _).
    + unfold store8, mbind, cmd_bind in E. destruct (kptr_pa _) as [q|]; [|done]. by destruct (w_mem w !! q).
Qed.

Lemma jinv_step w cs fl w' cs' : jinv w cs fl → vstep (w, cs) (w', cs') → ∃ fl', jinv w' cs' fl'.
Proof.
  intros J Hst. inversion Hst as [? ? i c c' ? Hi Ha]; subst. pose proof (good_access _ _ _ _ _ J Hi) as G.
  unfold good in G. by rewrite Ha in G.
Qed.
Lemma jinv_rtc s s' : rtc vstep s s' → (∃ fl, jinv s.1 s.2 fl) → ∃ fl, jinv s'.1 s'.2 fl.
Proof. induction 1 as [|[w cs] [w1 cs1] s3 Hst _ IH]; [done|]. intros (fl & J). apply IH. by eapply jinv_step. Qed.
Lemma jinv_reachable w cs : rtc vstep (w0, start_clients) (w, cs) → ∃ fl, jinv w cs fl.
Proof. intros Hr. apply (jinv_rtc _ _ Hr). exists all. exact jinv_start. Qed.

(** ** No deadlock *)

Definition finished c : Prop := pc (cl_thread c) = Idle ∧ ∃ a, cl_prog c = Ret a.

Lemma moves w cs fl i c : jinv w cs fl → cs !! i = Some c → ¬ finished c →
  (kmem_lk (w_kmem w) = 1 → pc (cl_thread c) ≠ MAcquire) → ∃ s, vstep (w, cs) s.
Proof.
  intros J Hi Hn Hl. pose proof (good_access _ _ _ _ _ J Hi) as G. unfold good in G.
  destruct (client_access c w) as [c' w'| | |] eqn:E; [|done|done|].
  - exists (w', <[i := c']> cs). by eapply V_access.
  - destruct G as [G|[Ep El]]; [by destruct Hn|by destruct (Hl El)].
Qed.

Lemma not_stuck w cs fl i c : jinv w cs fl → cs !! i = Some c → ¬ finished c → ∃ s, vstep (w, cs) s.
Proof.
  intros J Hi Hn. pose proof (ki_lock _ _ _ _ (ji_kinv _ _ _ J)) as [Hc Hb].
  destruct (decide (kmem_lk (w_kmem w) = 0)) as [E0|E0]; [eapply moves; [done|done|done|lia]|].
  destruct (cnt_pos inside_lock (cl_thread <$> cs)) as (i1 & t1 & Ht1 & Hl1); [lia|].
  rewrite list_lookup_fmap in Ht1. destruct (cs !! i1) as [c1|] eqn:Ec1; [|done]. injection Ht1 as <-.
  eapply moves; [done|exact Ec1| |].
  - intros [Ep _]. unfold inside_lock in Hl1. by rewrite Ep in Hl1.
  - intros _ Ep. unfold inside_lock in Hl1. by rewrite Ep in Hl1.
Qed.

(** ** The result of a hart *)

(** It is the result the program has alone, on some machine with enough pages whose
    memory is the hart's. *)
Lemma finished_alone wb w cs fl i c j a : jinv w cs fl → cs !! i = Some c → jobs !! i = Some j →
  pc (cl_thread c) = Idle → cl_prog c = Ret a →
  ∃ ws xs w' ys, models ws (part j [] (w_mem w0)) xs ∧ mem_only wb ws ∧ (jb_need j <= length xs)%nat ∧
    run (jb_prog j) ws = Ok a w' ∧ models w' (part j (own (cl_thread c)) (w_mem w)) ys ∧
    xs = reverse (own (cl_thread c)) ++ ys.
Proof.
  intros J Hi Hij Ep Eq. pose proof (ji_client _ _ _ J i c j Hi Hij) as [Hs Hl _]. rewrite Eq in Hs.
  destruct (own_valid _ _ _ _ _ J Hi) as [Hnd Hv]. rewrite <- length_reverse in Hl.
  set (xs := reverse (own (cl_thread c))) in *. pose proof (jo_pages Hj i j Hij) as Hn.
  destruct (fresh_pages xs [] (jb_need j - length xs)) as (ys & Hnd' & Hv' & Hl' & Hf); [cbn; lia|].
  rewrite Forall_forall in Hf, Hv, Hv'.
  destruct (models_exist wb (part j [] (w_mem w0)) (xs ++ ys)) as (ws & Hm & Ho).
  - apply NoDup_app. split; [done|]. split; [|done]. intros x Hx Hy. apply (Hf x Hy), elem_of_app. by left.
  - apply Forall_forall. intros x [Hx|Hx]%elem_of_app; auto.
  - intros b (x & Hx & Hb). rewrite lookup_part, decide_False; [done|].
    intros [H|(y & ?%not_elem_of_nil & _)]; [|done]. eapply (jo_static Hj); [exact Hij|exact H| |exact Hb].
    apply elem_of_app in Hx as [Hx|Hx]; auto.
  - destruct (solo_rtc_run _ _ _ _ _ _ _ Hm (Hs ys)) as (w' & Hm' & R & _).
    exists ws, (xs ++ ys), w', ys. split_and!; [done|done|rewrite length_app; lia|by rewrite R|done|done].
Qed.
End harts.

(** ** Every run ends *)

Section ends.
Context {D : Type} {L : Linker}.
Implicit Types (w : world D) (c : client) (cs : list client).

Definition goes c' c : Prop := ∃ w w', client_access (D:=D) c w = Ok c' w'.

(** The accesses a call of kmalloc has still to make. *)
Definition call_left (p : km_pc) : nat :=
  let n := Z.to_nat PAGE_SIZE in
  match p with
  | MAcquire => n + 6 | MHead => n + 5 | MNext _ => n + 4 | MSet _ _ => n + 3 | MRelease _ => n + 2
  | MClear _ k => S k
  | _ => 0
  end.
Definition in_kmalloc (p : km_pc) : bool :=
  match p with MAcquire | MHead | MNext _ | MSet _ _ | MRelease _ | MClear _ _ => true | _ => false end.

Lemma call_shrinks t t' w w' : in_kmalloc (pc t) = true → km_access (D:=D) t w = Ok t' w' →
  (in_kmalloc (pc t') = true ∧ (call_left (pc t') < call_left (pc t))%nat) ∨ (pc t' = Idle ∧ ∃ x o, own t' = x :: o).
Proof.
  unfold km_access. destruct (pc t) as [| | |p|p n|p|p [|k]| | | | | |]; try done; intros _; unfold go.
  - intros (u & w1 & _ & H)%bind_ok_inv. injection H as <- <-. left. split; [done|]. cbn. lia.
  - intros (u & w1 & _ & H)%bind_ok_inv. injection H as <- <-. left. split; [done|]. cbn. lia.
  - destruct (truthy p).
    + intros (u & w1 & _ & H)%bind_ok_inv. injection H as <- <-. left. split; [done|]. cbn. lia.
    + intros [= <- <-]. left. split; [done|]. cbn. lia.
  - intros (u & w1 & _ & H)%bind_ok_inv. injection H as <- <-. left. split; [done|]. cbn. lia.
  - intros (u & w1 & _ & H)%bind_ok_inv. injection H as <- <-. left. split; [done|]. cbn [pc call_left]. lia.
  - intros [= <- <-]. right. split; [done|]. by eexists _, _.
  - intros (u & w1 & _ & H)%bind_ok_inv. injection H as <- <-. left. split; [done|]. cbn. lia.
Qed.

Lemma goes_call k c : (∀ x t, pc t = Idle → Acc goes (mk_client t (k x))) → cl_prog c = Malloc k →
  in_kmalloc (pc (cl_thread c)) = true → Acc goes c.
Proof.
  intros IH. remember (call_left (pc (cl_thread c))) as n eqn:En. revert c En.
  induction n as [n IHn] using lt_wf_ind. intros c -> Eq Hc. constructor. intros c' (w & w' & Ha).
  assert (Ea : client_access c w = (t' ← km_access (cl_thread c); mret (mk_client t' (resume_prog t' (cl_prog c)))) w)
    by (unfold client_access; by destruct (pc (cl_thread c))).
  rewrite Ea, Eq in Ha. apply bind_ok_inv in Ha as (t' & w1 & H1 & H2). injection H2 as <- <-.
  destruct (call_shrinks _ _ _ _ Hc H1) as [[Hc' Hlt]|(Ep & x & o & Eo)].
  - assert (Er : resume_prog t' (Malloc k) = Malloc k) by (unfold resume_prog; by destruct (pc t')).
    rewrite Er. by eapply IHn.
  - unfold resume_prog. rewrite Ep, Eo. by apply IH.
Qed.

Lemma goes_ends (q : prog Z) t : pc t = Idle → Acc goes (mk_client t q).
Proof.
  revert t. induction q as [a|o|a k IH|a v k IH|a v k IH|k IH]; intros t Ep; constructor; intros c' (w & w' & Ha);
    unfold client_access in Ha; cbn [cl_thread cl_prog] in Ha; rewrite Ep in Ha.
  - done.
  - by destruct o.
  - apply bind_ok_inv in Ha as (v & w1 & _ & H). injection H as <- <-. by apply IH.
  - apply bind_ok_inv in Ha as (u & w1 & _ & H). injection H as <- <-. by apply IH.
  - apply bind_ok_inv in Ha as (u & w1 & _ & H). injection H as <- <-. by apply IH.
  - injection Ha as <- <-. by apply (goes_call k); [intros; by apply IH|..].
Qed.

(** One of many. *)
Definition one_goes cs' cs : Prop := ∃ i c c', cs !! i = Some c ∧ goes c' c ∧ cs' = <[i := c']> cs.

Lemma one_goes_ends cs : Forall (Acc goes) cs → Acc one_goes cs.
Proof.
  induction 1 as [|c cs Hc _ IH]; [constructor; by intros cs' (i & c & c' & Hi & _)|].
  revert cs IH. induction Hc as [c _ IHc]. intros cs Hcs. induction Hcs as [cs Hcs IHcs].
  constructor. intros cs' ([|i] & c1 & c' & Hi & Hg & ->).
  - injection Hi as <-. apply IHc; [exact Hg|by constructor].
  - apply IHcs. by exists i, c1, c'.
Qed.

(** Every sequence of accesses of harts that start outside the allocator ends. *)
Lemma runs_end w cs : Forall (λ c, pc (cl_thread c) = Idle) cs → sn vstep (w, cs).
Proof.
  intros H. assert (Hcs : Acc one_goes cs).
  { apply one_goes_ends. eapply Forall_impl; [exact H|]. intros [t q] Ep. by apply goes_ends. }
  clear H. revert w. induction Hcs as [cs _ IH]. intros w. constructor. intros [w' cs'] Hst.
  inversion Hst as [? ? i c c' ? Hi Ha]; subst. apply IH. exists i, c, c'. split; [done|]. split; [by exists w, w'|done].
Qed.
End ends.

(** ** The machine *)

Section machine_theorem.
Context {D : Type} {L : Linker} `{!LinkerOk L}.
Implicit Types (w : world D) (c : client) (cs : list client).

(** What holds of harts at work in the state [w]. *)
Record harts_fine w cs : Prop := {
  (** every access succeeds; a hart makes none when it has finished or waits for the lock *)
  hf_access i c : cs !! i = Some c →
    match client_access c w with Ok _ _ => True | Hang _ => waits w c | _ => False end;
  (** no two harts have the same page *)
  hf_apart i i' c c' x : i ≠ i' → cs !! i = Some c → cs !! i' = Some c' →
    x ∈ own (cl_thread c) → x ∉ own (cl_thread c');
  (** whatever the order, there are finitely many accesses to come *)
  hf_ends : sn vstep (w, cs);
  (** and they end only when all have finished *)
  hf_done : (∀ s, ¬ vstep (w, cs) s) → Forall finished cs
}.

Lemma finished_dec c : finished c ∨ ¬ finished c.
Proof.
  unfold finished. destruct (cl_prog c) as [a| | | | |]; try (right; by intros [_ [? ?]]).
  destruct (pc (cl_thread c)); (left; by eauto) || (right; by intros [? _]).
Qed.
Lemma sn_rtc (s s' : world D * list client) : rtc vstep s s' → sn vstep s → sn vstep s'.
Proof. induction 1 as [|s1 s2 s3 H _ IH]; [done|]. intros [Hs]. by apply IH, Hs. Qed.

Lemma jobs_run (w0 : world D) all jobs w cs : jobs_ok w0 all jobs → rtc vstep (w0, start_clients jobs) (w, cs) →
  harts_fine w cs ∧ ∃ fl, jinv w0 all jobs w cs fl.
Proof.
  intros Hj Hr. destruct (jinv_reachable w0 all jobs Hj w cs Hr) as (fl & J). split; [|by exists fl]. split.
  - intros i c Hi. pose proof (good_access w0 all jobs Hj w cs fl i c J Hi) as G. unfold good in G. by destruct (client_access c w).
  - intros i i' c c' x Hne Hi Hi' Hx Hx'.
    eapply (kinv_apart all (all_nodup _ _ _ Hj)); [apply J|apply (thread_of _ _ _ Hi)|apply (thread_of _ _ _ Hi')|done| | |done];
      unfold has; apply elem_of_app; by right.
  - eapply sn_rtc; [exact Hr|]. apply runs_end. unfold start_clients. apply Forall_fmap, Forall_true. done.
  - intros Hs. apply Forall_lookup. intros i c Hi. destruct (finished_dec c) as [|Hn]; [done|].
    destruct (not_stuck w0 all jobs Hj w cs fl i c J Hi Hn) as [s Hst]. by destruct (Hs s).
Qed.

Lemma all_or_one {A} (P : A → Prop) (l : list A) : (∀ x, P x ∨ ¬ P x) → Forall P l ∨ ∃ i x, l !! i = Some x ∧ ¬ P x.
Proof.
  intros HP. induction l as [|x l [IH|(i & y & Hi & Hy)]]; [by left| |right; by exists (S i), y].
  destruct (HP x) as [Hx|Hx]; [left; by constructor|right; by exists 0%nat, x].
Qed.

(** So there is a run in which all finish. *)
Lemma jobs_complete (w0 : world D) all jobs : jobs_ok w0 all jobs →
  ∃ w cs, rtc vstep (w0, start_clients jobs) (w, cs) ∧ Forall finished cs.
Proof.
  intros Hj. assert (Hs : sn (vstep (D:=D)) (w0, start_clients jobs)).
  { apply runs_end. unfold start_clients. apply Forall_fmap, Forall_true. done. }
  assert (H : ∀ s, sn (vstep (D:=D)) s → (∃ fl, jinv w0 all jobs s.1 s.2 fl) → ∃ w cs, rtc vstep s (w, cs) ∧ Forall finished cs).
  { induction 1 as [[w cs] _ IH]. intros (fl & J). cbn [fst snd] in J.
    destruct (all_or_one finished cs finished_dec) as [Hf|(i & c & Hi & Hn)]; [by exists w, cs|].
    destruct (not_stuck w0 all jobs Hj w cs fl i c J Hi Hn) as [[w1 cs1] Hst].
    destruct (IH (w1, cs1) Hst) as (w2 & cs2 & Hr & Hf); [by eapply jinv_step|].
    exists w2, cs2. split; [by eapply rtc_l|done]. }
  apply H; [exact Hs|]. exists all. by apply jinv_start.
Qed.
End machine_theorem.
