(* ===== verification/VmemMerge.v ===== *)
(** * VmemMerge: jobs that come and go

    The jobs of VmemConc, when one begins while others are at work, when one ends and
    what it has built becomes part of the machine, and when memory that belongs to
    none of them changes.  The result of a job is the one it has when it runs without
    interruption on the machine it began on, if the free list is in the right order. *)

From S2P Require Import Prelude Layout Bits Memory Machine Kmem Cpu Lock Vmem Vcpu VmRun VmemProg KmemConc VmemConc.

(** ** Alone with more memory around *)

Lemma rd64_union_l m F p v : rd64 m p = Some v → rd64 (m ∪ F) p = Some v.
Proof.
  intros Hr. assert (Hb : has_bytes m p 8) by (apply rd64_has; by exists v). rewrite <- Hr. apply rd64_ext.
  intros a Ha. destruct (Hb a Ha) as [b Eb]. by rewrite Eb, (lookup_union_Some_l _ _ _ _ Eb).
Qed.
Lemma wr64_union_l (m F : ram) p v : wr64 (m ∪ F) p v = wr64 m p v ∪ F.
Proof.
  apply map_eq. intros a. rewrite lookup_union, !lookup_wr64, lookup_union. destruct (decide _); [|done].
  destruct (lookup_lt_is_Some_2 (le_split 8 v) (Z.to_nat (a - p))) as [b ->]; [rewrite length_le_split; lia|].
  by destruct (F !! a).
Qed.
Lemma clear_page_union_l (m F : ram) p : clear_page (m ∪ F) p = clear_page m p ∪ F.
Proof.
  apply map_eq. intros a. rewrite lookup_union, !lookup_clear_page, lookup_union. destruct (decide _); [|done].
  by destruct (F !! a).
Qed.

Lemma solo_frame F s s' : solo s s' → solo (s.1.1 ∪ F, s.1.2, s.2) (s'.1.1 ∪ F, s'.1.2, s'.2).
Proof.
  intros [m ys a p v k Hp Hr|m ys a p v k Hp [v0 Hr]|m ys a p v k Hp [b Hb]|m x ys k]; cbn [fst snd].
  - eapply S_load; [exact Hp|by apply rd64_union_l].
  - rewrite <- wr64_union_l. eapply S_store; [exact Hp|]. exists v0. by apply rd64_union_l.
  - rewrite <- insert_union_l. eapply S_store8; [exact Hp|]. exists b. by apply lookup_union_Some_l.
  - rewrite <- clear_page_union_l. apply S_malloc.
Qed.
Lemma solo_frame_rtc F s s' : rtc solo s s' → rtc solo (s.1.1 ∪ F, s.1.2, s.2) (s'.1.1 ∪ F, s'.1.2, s'.2).
Proof. induction 1 as [|s1 s2 s3 Hs _ IH]; [done|]. eapply rtc_l; [by apply solo_frame|exact IH]. Qed.

Section merge.
Context {D : Type} {L : Linker} `{!LinkerOk L}.
Implicit Types (w : world D) (c : client) (cs : list client) (m : ram) (j : job).

(** ** The free list in another order *)

(** Memory without the pages [xs]. *)
Definition but_pages (xs : list Z) (m : ram) : ram := filter (λ ab, ¬ in_pages xs ab.1) m.
Lemma lookup_but_pages xs m a : but_pages xs m !! a = if decide (in_pages xs a) then None else m !! a.
Proof.
  unfold but_pages. destruct (decide (in_pages xs a)) as [H|H].
  - apply map_lookup_filter_None. right. intros b _ Hn. by apply Hn.
  - destruct (m !! a) as [b|] eqn:E.
    + by apply map_lookup_filter_Some.
    + apply map_lookup_filter_None. by left.
Qed.
Lemma in_pages_perm xs ys a : xs ≡ₚ ys → in_pages xs a ↔ in_pages ys a.
Proof. intros E. unfold in_pages. by setoid_rewrite E. Qed.

Lemma reorder w all xs : kmem_inv w all → xs ≡ₚ all → ∃ w', models w' (but_pages all (w_mem w)) xs ∧ mem_only w w'.
Proof.
  intros Hk E. assert (Hv : Forall (λ x, valid_address x = true) xs).
  { apply Forall_forall. intros x Hx. rewrite E in Hx. by eapply freelist_elem_valid, Hx. }
  apply models_exist; [rewrite E; apply Hk|exact Hv|].
  intros a Ha. by rewrite lookup_but_pages, decide_True by by rewrite <- (in_pages_perm _ _ _ E).
Qed.

(** ** The invariant and the rest of the machine *)

(** The invariant speaks of memory and the allocator only. *)
Lemma jinv_ext w0 w0' all jobs w w' cs fl : w_mem w0' = w_mem w0 → w_mem w' = w_mem w → w_kmem w' = w_kmem w →
  jinv w0 all jobs w cs fl → jinv w0' all jobs w' cs fl.
Proof.
  intros E0 Em Ek [[K1 K2 K3 K4 K5] Hl Hc Hf]. split; [|done| |by rewrite E0, Em].
  - split; rewrite ?Em, ?Ek; done.
  - intros i c j Hi Hj. destruct (Hc i c j Hi Hj) as [H1 H2 H3]. split; rewrite ?E0, ?Em; done.
Qed.

(** A change of memory that belongs to no job. *)
Lemma jinv_elsewhere w0 w0' all jobs w cs fl m' : jinv w0 all jobs w cs fl →
  (∀ a, in_pages all a ∨ (∃ j, j ∈ jobs ∧ static j a) → m' !! a = w_mem w !! a ∧ w_mem w0' !! a = w_mem w0 !! a) →
  (∀ a, ¬ in_pages all a → (∀ j, j ∈ jobs → ¬ static j a) → m' !! a = w_mem w0' !! a) →
  jinv w0' all jobs (set_mem m' w) cs fl.
Proof.
  intros J Hin Hout. pose proof (ji_kinv _ _ _ _ _ _ J) as K.
  assert (Hpg : ∀ y a, y ∈ all → in_page y a → m' !! a = w_mem w !! a) by (intros y a Hy Ha; apply Hin; left; by exists y).
  assert (Hfl : ∀ y, y ∈ fl ++ ((cl_thread <$> cs) ≫= has) → y ∈ all) by (intros y; by rewrite (ki_pages _ _ _ _ K)).
  split; [|apply J| |exact Hout].
  - split; [apply K| | |apply K|].
    + eapply is_freelist_frame; [apply K|]. intros x Hx a Ha. symmetry. apply (Hpg x); [apply Hfl, elem_of_app; by left|].
      unfold in_page, PAGE_SIZE. lia.
    + intros x Hx a Ha. cbn [w_mem set_mem]. rewrite (Hpg x) by done. by apply (ki_ram _ _ _ _ K x Hx).
    + intros i t Hi. apply (knows_agree (w_mem w)); [|by apply (ki_knows _ _ _ _ K i)].
      intros y a Hy Ha. apply (Hpg y); [|done]. apply Hfl. rewrite elem_of_app in Hy |- *.
      destruct Hy as [Hy|Hy]; [by left|right]. apply list_elem_of_bind. exists t. split; [done|]. by eapply list_elem_of_lookup_2.
  - intros i c j Hi Hj. destruct (ji_client _ _ _ _ _ _ J i c j Hi Hj) as [H1 H2 H3]. split; [|done|done].
    assert (Hjj : j ∈ jobs) by by eapply list_elem_of_lookup_2.
    cbn [w_mem set_mem]. rewrite (part_ext j (own (cl_thread c)) (w_mem w) m'), (part_ext j [] (w_mem w0) (w_mem w0')); [exact H1| |].
    + intros a [Hs|(y & ?%not_elem_of_nil & _)]; [|done]. apply Hin. right. by exists j.
    + intros a [Hs|(y & Hy & Ha)]; [apply Hin; right; by exists j|]. apply (Hpg y); [|done]. apply Hfl, elem_of_app. right.
      apply list_elem_of_bind. exists (cl_thread c). split; [unfold has; apply elem_of_app; by right|].
      eapply list_elem_of_lookup_2. rewrite list_lookup_fmap, Hi. done.
Qed.

(** ** Begin and end *)

(** No job. *)
Definition idle_job : job := mk_job (Ret 0) 0 0 0.
Definition idle_client : client := mk_client (mk_thread Idle []) (Ret 0).
Definition start_client j : client := mk_client (mk_thread Idle []) (jb_prog j).

Lemma idle_static a : ¬ static idle_job a.
Proof. unfold static. cbn. lia. Qed.

Lemma jinv_begin w0 all jobs w cs fl i j : jinv w0 all jobs w cs fl → jobs !! i = Some idle_job →
  cs !! i = Some idle_client → jobs_ok w0 all (<[i := j]> jobs) →
  jinv w0 all (<[i := j]> jobs) w (<[i := start_client j]> cs) fl.
Proof.
  intros J Hi Hc Hj. assert (Hii : <[i := j]> jobs !! i = Some j) by (apply list_lookup_insert_eq; by eapply lookup_lt_Some).
  assert (Hlook : ∀ i' j', i' ≠ i → <[i := j]> jobs !! i' = Some j' → jobs !! i' = Some j') by (intros i' j' Hne; by rewrite list_lookup_insert_ne).
  assert (Hst : ∀ a, static j a → w_mem w !! a = w_mem w0 !! a).
  { intros a Ha. apply (ji_frame _ _ _ _ _ _ J).
    - intros (y & Hy & Hya). eapply (jo_static _ _ _ Hj i j); [exact Hii|exact Ha| |exact Hya].
      eapply freelist_elem_valid, Hy. apply Hj.
    - intros j' (i' & Hi')%list_elem_of_lookup Hs. destruct (decide (i' = i)) as [->|Hne].
      + rewrite Hi in Hi'. injection Hi' as <-. by apply (idle_static a).
      + eapply (jo_apart _ _ _ Hj i i'); [done|exact Hii|by rewrite list_lookup_insert_ne|exact Ha|exact Hs]. }
  split.
  - rewrite list_fmap_insert. rewrite list_insert_id; [apply J|]. by rewrite list_lookup_fmap, Hc.
  - rewrite !length_insert. apply J.
  - intros i' c j' Hi' Hj'. destruct (decide (i' = i)) as [->|Hne].
    + rewrite Hii in Hj'. injection Hj' as <-. rewrite list_lookup_insert_eq in Hi' by by eapply lookup_lt_Some. injection Hi' as <-.
      split; [|cbn; lia|by left]. cbn [start_client cl_thread own cl_prog]. intros ys.
      rewrite (part_ext j [] (w_mem w0) (w_mem w)); [apply rtc_refl|].
      intros a [Ha|(y & ?%not_elem_of_nil & _)]; [by apply Hst|done].
    + rewrite list_lookup_insert_ne in Hi' by done. eapply J; [exact Hi'|by apply Hlook].
  - intros a Ha Hs. apply (ji_frame _ _ _ _ _ _ J a Ha). intros j' (i' & Hi')%list_elem_of_lookup.
    destruct (decide (i' = i)) as [->|Hne].
    + rewrite Hi in Hi'. injection Hi' as <-. apply idle_static.
    + apply Hs. apply (list_elem_of_lookup_2 _ i'). by rewrite list_lookup_insert_ne.
Qed.

(** What a hart has built becomes part of the machine the others began on. *)
Lemma jinv_end w0 w0' all all' jobs w cs fl i c : jinv w0 all jobs w cs fl → cs !! i = Some c →
  pc (cl_thread c) = Idle → own (cl_thread c) ++ all' ≡ₚ all →
  (∀ a i' j', i' ≠ i → jobs !! i' = Some j' → static j' a → w_mem w0' !! a = w_mem w0 !! a) →
  (∀ a, ¬ in_pages all' a → (∀ i' j', i' ≠ i → jobs !! i' = Some j' → ¬ static j' a) → w_mem w !! a = w_mem w0' !! a) →
  jinv w0' all' (<[i := idle_job]> jobs) w (<[i := idle_client]> cs) fl.
Proof.
  intros J Hc Ep Ea Hs Hf. pose proof (ji_kinv _ _ _ _ _ _ J) as K.
  assert (Ht : (cl_thread <$> cs) !! i = Some (cl_thread c)) by by rewrite list_lookup_fmap, Hc.
  assert (Hlen : (i < length (cl_thread <$> cs))%nat) by by eapply lookup_lt_Some.
  assert (Hh : has (cl_thread c) = own (cl_thread c)) by (unfold has; by rewrite Ep).
  assert (Hi : (i < length jobs)%nat) by (rewrite <- (ji_len _ _ _ _ _ _ J); by eapply lookup_lt_Some).
  split.
  - rewrite list_fmap_insert. destruct K as [[Kc Kb] K2 K3 K4 K5]. split; [|done| | |].
    + split; [|done]. rewrite (cnt_insert _ _ _ _ _ Ht), Kc. unfold inside_lock. rewrite Ep. cbn. lia.
    + intros x Hx. apply K3. rewrite <- Ea. apply elem_of_app. by right.
    + apply (Permutation_app_inv_l (own (cl_thread c))). rewrite Ea, <- K4, (has_split _ i _ Ht), Hh.
      rewrite (has_split (<[i := _]> _) i (mk_thread Idle [])) by by apply list_lookup_insert_eq.
      rewrite delete_insert_same. cbn [has flight pc own app]. by rewrite Permutation_app_swap_app.
    + intros i' t Hi'. destruct (decide (i' = i)) as [->|Hne].
      * rewrite list_lookup_insert_eq in Hi' by done. injection Hi' as <-. done.
      * rewrite list_lookup_insert_ne in Hi' by done. by apply (K5 i').
  - rewrite !length_insert. apply J.
  - intros i' c' j' Hi' Hj'. destruct (decide (i' = i)) as [->|Hne].
    + rewrite list_lookup_insert_eq in Hi' by by eapply lookup_lt_Some. injection Hi' as <-.
      rewrite list_lookup_insert_eq in Hj' by done. injection Hj' as <-. split; [|cbn; lia|by left]. intros ys. cbn [idle_client cl_thread own cl_prog].
      rewrite (part_ext idle_job [] (w_mem w0') (w_mem w)); [apply rtc_refl|].
      intros a [Ha|(y & ?%not_elem_of_nil & _)]; [by apply idle_static in Ha|done].
    + rewrite list_lookup_insert_ne in Hi' by done. rewrite list_lookup_insert_ne in Hj' by done.
      destruct (ji_client _ _ _ _ _ _ J i' c' j' Hi' Hj') as [H1 H2 H3]. split; [|done|done].
      rewrite (part_ext j' [] (w_mem w0) (w_mem w0')); [exact H1|].
      intros a [Ha|(y & ?%not_elem_of_nil & _)]; [by eapply Hs|done].
  - intros a Ha Hst. apply Hf; [done|]. intros i' j' Hne Hj'. apply Hst. apply (list_elem_of_lookup_2 _ i').
    by rewrite list_lookup_insert_ne.
Qed.

(** ** The result of a job *)

Lemma solo_grows s s' a : rtc solo s s' → is_Some (s.1.1 !! a) → is_Some (s'.1.1 !! a).
Proof.
  induction 1 as [|s1 s2 s3 Hs _ IH]; [done|]. intros Ha. apply IH. clear IH.
  destruct Hs as [|m ys b p v k Hp Hr|m ys b p v k Hp Hb|m x ys k]; cbn [fst snd] in *; [done|..].
  - rewrite lookup_wr64. destruct (decide _); [|done]. apply lookup_lt_is_Some_2. rewrite length_le_split. lia.
  - destruct (decide (a = p)) as [->|]; [by rewrite lookup_insert_eq|by rewrite lookup_insert_ne].
  - rewrite lookup_clear_page. by destruct (decide _).
Qed.

(** A job that has ended has built what it builds without interruption on the
    machine [w0], with the free list in the order in which it got its pages. *)
Lemma finished_run w0 all jobs w cs fl i c j a wg rest : jobs_ok w0 all jobs → jinv w0 all jobs w cs fl →
  cs !! i = Some c → jobs !! i = Some j → pc (cl_thread c) = Idle → cl_prog c = Ret a →
  own (cl_thread c) ++ rest ≡ₚ all → models wg (but_pages all (w_mem w0)) (reverse (own (cl_thread c)) ++ rest) →
  ∃ w', run (jb_prog j) wg = Ok a w' ∧ mem_only wg w' ∧ kmem_inv w' rest ∧
    (∀ b i' j', i' ≠ i → jobs !! i' = Some j' → static j' b → w_mem w' !! b = w_mem w0 !! b) ∧
    (∀ b, ¬ in_pages rest b → (∀ i' j', i' ≠ i → jobs !! i' = Some j' → ¬ static j' b) → w_mem w !! b = w_mem w' !! b).
Proof.
  intros Hj J Hc Hij Ep Eq Ea Hm. pose proof (ji_client _ _ _ _ _ _ J i c j Hc Hij) as [Hs Hl _]. rewrite Eq in Hs.
  set (o := own (cl_thread c)) in *. specialize (Hs rest). pose proof (ji_kinv _ _ _ _ _ _ J) as K.
  assert (Hst : ∀ i' j' b, jobs !! i' = Some j' → static j' b → ¬ in_pages all b).
  { intros i' j' b Hi' Hb (y & Hy & Hyb). eapply (jo_static _ _ _ Hj); [exact Hi'|exact Hb| |exact Hyb].
    eapply freelist_elem_valid, Hy. apply Hj. }
  assert (E0 : part j [] (w_mem w0) ∪ but_pages all (w_mem w0) = but_pages all (w_mem w0)).
  { apply map_eq. intros b. rewrite lookup_union, lookup_part, lookup_but_pages. destruct (decide (mine j [] b)) as [Hb|Hb].
    - destruct Hb as [Hb|(y & ?%not_elem_of_nil & _)]; [|done]. rewrite decide_False by by eapply Hst. by destruct (w_mem w0 !! b).
    - by destruct (decide _), (w_mem w0 !! b). }
  pose proof (solo_frame_rtc (but_pages all (w_mem w0)) _ _ Hs) as Hf. cbn [fst snd] in Hf. rewrite E0 in Hf.
  destruct (solo_rtc_run _ _ _ _ _ _ _ Hm Hf) as (w' & Hm' & R & Ho).
  assert (Hall : ∀ b, in_pages all b ↔ in_pages o b ∨ in_pages rest b).
  { intros b. rewrite <- (in_pages_perm _ _ b Ea). unfold in_pages. setoid_rewrite elem_of_app. naive_solver. }
  exists w'. split; [by rewrite R|]. split; [exact Ho|]. split; [apply Hm'|].
  assert (Hlook : ∀ b, ¬ in_pages rest b → w_mem w' !! b = (part j o (w_mem w) ∪ but_pages all (w_mem w0)) !! b) by apply Hm'.
  split.
  - intros b i' j' Hne Hi' Hb. pose proof (Hst i' j' b Hi' Hb) as Hn. rewrite Hlook by (intros ?; apply Hn, Hall; by right).
    rewrite lookup_union, lookup_part, lookup_but_pages, (decide_False (P := in_pages all b)) by done. rewrite decide_False; [by destruct (w_mem w0 !! b)|].
    intros [H|H]; [by eapply (jo_apart _ _ _ Hj i' i)|]. apply Hn, Hall. by left.
  - intros b Hn Hs'. rewrite (Hlook b Hn), lookup_union, lookup_part, lookup_but_pages. destruct (decide (mine j o b)) as [Hb|Hb].
    + destruct (w_mem w !! b) as [x|] eqn:Ew; [by destruct (decide _), (w_mem w0 !! b)|].
      destruct (decide (in_pages all b)) as [H|H]; [done|]. destruct (w_mem w0 !! b) as [x|] eqn:E; [|done]. exfalso.
      destruct Hb as [Hb|Hb]; [|apply H, Hall; by left].
      destruct (solo_grows _ _ b Hs) as [y Hy]; cbn [fst snd] in *.
      * rewrite lookup_part, decide_True by by left. by exists x.
      * rewrite lookup_part, decide_True in Hy by by left. congruence.
    + rewrite decide_False by (intros [?|?]%Hall; [apply Hb; by right|done]).
      rewrite (ji_frame _ _ _ _ _ _ J b); [by destruct (w_mem w0 !! b)| |].
      * intros [?|?]%Hall; [apply Hb; by right|done].
      * intros j' (i' & Hi')%list_elem_of_lookup Hb'. destruct (decide (i' = i)) as [->|Hne]; [|by eapply Hs'].
        rewrite Hij in Hi'. injection Hi' as <-. apply Hb. by left.
Qed.

(** ** Accesses change memory and the allocator only *)

Lemma only_km_access (t : thread) : only (km_access (D:=D) t).
Proof.
  assert (Hgo : ∀ p, only (go (D:=D) p t)) by (intros p; apply only_ret).
  assert (Hacq : only (D:=D) acquire_kmem).
  { intros w x w'. unfold acquire_kmem. destruct (_ =? 0); [|done]. intros [= _ <-]. apply only_kmem. }
  assert (Hget : only (D:=D) (gets (λ w, freelist (w_kmem w)))) by (intros w x w' [= _ <-]; reflexivity).
  unfold km_access. destruct (pc t) as [| | |p|p n|p|p [|n]|p|p|p|p n|p|]; try done;
    try (by apply only_bind; [first [exact Hacq|exact Hget|apply only_modify_kmem|apply only_store8|apply only_store64]|intros ?; apply Hgo]).
  - destruct (truthy p); [|apply Hgo]. apply only_bind; [apply only_load64|]. intros ?. apply Hgo.
  - apply only_ret.
  - destruct (negb _); [done|apply Hgo].
Qed.
Lemma only_client_access c : only (client_access (D:=D) c).
Proof.
  unfold client_access. destruct (pc (cl_thread c));
    try (by apply only_bind; [apply only_km_access|intros ?; apply only_ret]).
  destruct (cl_prog c) as [a|[]|a q|a v q|a v q|q]; try done; try apply only_ret;
    (apply only_bind; [first [apply only_load64|apply only_store64|apply only_store8]|intros ?; apply only_ret]).
Qed.
End merge.
