(* ===== verification/KernelTheorems.v ===== *)
(** * KernelTheorems: correctness of the hypervisor's own address space

    init_vmem builds a tree whose translation is a short list of address ranges;
    it has no aliases, nothing is writable and executable, and the pointers the
    rest of the model follows are the ones the MMU translates. *)

From S2P Require Import Prelude Layout Memory Machine Kmem Cpu Linkerscript Vmem PageTable VmemSpec Sv39 VmRunSpec Regions KernelSpace Concrete.

Section kernel.
Context {D : Type} {L : Linker} `{!ImageOk L}.
Implicit Types (w : world D) (tabs : gmap Z tab) (fl data : list Z).

(** The state in which main calls init_vmem on a hart. *)
Record before_vmem w tabs fl data : Prop := {
  bv_inv : mem_inv w tabs fl data;
  bv_cpu : w_cpu_mapped w = 0;
  bv_hart : 0 <= w_tp w < DTB_NR_CPUS;
  bv_len : (kernel_need < length fl)%nat
}.

Lemma init_vmem_built w tabs fl data x w' : before_vmem w tabs fl data → init_vmem w = Ok x w' →
  ∃ tabs' fl', kernel_built x (w_tp w) data w tabs fl w' tabs' fl'.
Proof.
  intros [Hmi Hm Hh Hl] Hrun.
  destruct (init_vmem_run w tabs fl data Hmi Hm Hh Hl) as (x1 & w1 & tabs' & fl' & Hrun' & B).
  rewrite Hrun in Hrun'. injection Hrun' as <- <-. by exists tabs', fl'.
Qed.

Lemma init_vmem_mmu w tabs fl data x w' a va : before_vmem w tabs fl data → init_vmem w = Ok x w' →
  mmu (w_mem w') (KPA2PA x) a va = address_map (kernel_regions (cpu_addr (w_tp w))) a va.
Proof.
  intros Hb Hrun. destruct (init_vmem_built _ _ _ _ _ _ Hb Hrun) as (tabs' & fl' & B).
  eapply kernel_translation; [apply Hb|exact B].
Qed.

(** C12: during boot init_vmem always succeeds: it takes fewer than [kernel_need]
    pages off the free list and returns a root table under which the MMU
    translates exactly the address ranges of [kernel_regions] (devices, .text,
    .rodata, .data, the hart's own structure at VAS_CPU_STRUCT and the RAM above
    the image), each with its permissions, and faults everywhere else.  The trees
    of other harts and VMs still translate as before. *)
Theorem init_vmem_maps w tabs fl data : before_vmem w tabs fl data →
  ∃ x w' tabs' fl', init_vmem w = Ok x w' ∧ mem_only w w' ∧ mem_inv w' tabs' fl' data ∧
    root_ptr tabs' x (KPA2PA x) 0 ∧ (∃ used, fl = x :: used ++ fl' ∧ (length used <= kernel_need)%nat) ∧
    (∀ a va, mmu (w_mem w') (KPA2PA x) a va = address_map (kernel_regions (cpu_addr (w_tp w))) a va) ∧
    (∀ r b a va, is_root tabs r b → hw_translate (w_mem w') b r a va = hw_translate (w_mem w) b r a va).
Proof.
  intros Hb. pose proof Hb as [Hmi Hm Hh Hl].
  destruct (init_vmem_run w tabs fl data Hmi Hm Hh Hl) as (x & w' & tabs' & fl' & Hrun & B).
  exists x, w', tabs', fl'. split_and!; [exact Hrun|apply B..| |].
  - intros a va. by eapply init_vmem_mmu.
  - intros r b a va Hr. rewrite (hw_translate_look w' tabs'), (hw_translate_look w tabs);
      [|apply Hmi|exact Hr|apply B|eapply lookup_weaken; [exact Hr|apply B]].
    by rewrite (kb_other _ _ _ _ _ _ _ _ _ B r b) by (done || apply vpn_range).
Qed.

(** C15: the hypervisor's address space has no aliases, so it is W^X even through
    different addresses: a physical byte that can be executed cannot be written,
    and every byte is reachable through at most one virtual address. *)
Theorem kernel_w_xor_x w tabs fl data x w' va va' p a : before_vmem w tabs fl data →
  init_vmem w = Ok x w' → mmu (w_mem w') (KPA2PA x) a va = Some p →
  (∀ a', mmu (w_mem w') (KPA2PA x) a' va' = Some p → va' = va) ∧
  (a = AExec → mmu (w_mem w') (KPA2PA x) AWrite va' ≠ Some p ∧ sym_text <= va < PGROUNDUP sym_etext).
Proof.
  intros Hb Hrun. rewrite !(init_vmem_mmu w tabs fl data x w' _ _ Hb Hrun). intros Ha.
  destruct image_offsets as (t & et & ro & ero & d & ed & cs & dy & O).
  pose proof (kernel_phys _ _ _ _ _ _ _ _ O (w_tp w) (bv_hart _ _ _ _ Hb)) as Hap.
  split; [|intros ->; split].
  - intros a'. rewrite (init_vmem_mmu w tabs fl data x w' _ _ Hb Hrun). intros Ha'.
    symmetry. by eapply address_map_inj.
  - intros Hw. destruct (address_map_inj _ _ _ _ _ _ Hap Ha Hw) as (_ & g & Hg & _ & Hx & Hw').
    revert Hx Hw' Hg. clear. unfold kernel_regions, mmio_regions. rewrite !elem_of_cons.
    intros Hx Hw. intros Hin. repeat destruct Hin as [->|Hin]; try (vm_compute in Hx, Hw; congruence).
    by apply not_elem_of_nil in Hin.
  - apply address_map_some in Ha as (g & Hg & Hin & Hx & _).
    assert (g = text_region) as ->.
    { revert Hx Hg. clear. unfold kernel_regions, mmio_regions. rewrite !elem_of_cons. intros Hx Hin.
      repeat destruct Hin as [->|Hin]; try done; try (vm_compute in Hx; congruence).
      by apply not_elem_of_nil in Hin. }
    destruct (of_eq _ _ _ _ _ _ _ _ O) as (E1 & E2 & _). pose proof (of_order _ _ _ _ _ _ _ _ O) as Ho.
    destruct (of_aligned _ _ _ _ _ _ _ _ O) as [Hal _].
    pose proof (npages_size (et - t) ltac:(lia)) as Hn. rewrite PGROUNDUP_spec in Hn by (unfold PAGE_SIZE; lia).
    rewrite PGROUNDUP_spec by (rewrite E2; unfold VAS_KERNEL, PAGE_SIZE; lia).
    unfold holds, rg_end, rg_pages in Hin. cbn [text_region rg_va rg_size] in Hin.
    rewrite E1, E2 in *. replace (VAS_KERNEL + et - (VAS_KERNEL + t)) with (et - t) in Hin by lia.
    rewrite <- Hn in Hin. unfold PAGE_SIZE, VAS_KERNEL in *. clear -Hin Hal. dlia.
Qed.

Lemma kernel_at w tabs fl data x w' g a va : before_vmem w tabs fl data → init_vmem w = Ok x w' →
  g ∈ kernel_regions (cpu_addr (w_tp w)) → holds g va →
  mmu (w_mem w') (KPA2PA x) a va =
  if access_ok false (rg_flags g) a then Some (rg_pa g + (va - rg_va g)) else None.
Proof.
  intros Hb Hrun Hg Hin. rewrite (init_vmem_mmu w tabs fl data x w' _ _ Hb Hrun).
  destruct (regions_ok (w_tp w) (bv_hart _ _ _ _ Hb)) as [Hok Hap].
  apply address_map_at; [exact Hap|exact Hok|apply kernel_half|exact Hg|exact Hin].
Qed.

(** The range [o .. e) of the kernel window as a region. *)
Lemma holds_kva o e flags va : 0 <= o <= e → e <= 2 ^ 31 → VAS_KERNEL + o <= va < VAS_KERNEL + e →
  holds (mk_region (VAS_KERNEL + o) (KVA2PA (VAS_KERNEL + o)) (VAS_KERNEL + e - (VAS_KERNEL + o)) flags) va.
Proof.
  intros Ho He Hva. unfold holds, rg_end, rg_pages. cbn [rg_va rg_size].
  replace (VAS_KERNEL + e - (VAS_KERNEL + o)) with (e - o) by lia.
  pose proof (npages_bound (e - o) ltac:(lia)). unfold PAGE_SIZE in *. lia.
Qed.

(** VAS_CPU_STRUCT on the tree of a hart. *)
Lemma kernel_own_cpu w tabs fl data x w' a i : before_vmem w tabs fl data → init_vmem w = Ok x w' →
  a = ARead ∨ a = AWrite → 0 <= i < CPU_SIZE →
  mmu (w_mem w') (KPA2PA x) a (VAS_CPU_STRUCT + i) = Some (KVA2PA (cpu_addr (w_tp w)) + i).
Proof.
  intros Hb Hrun Ha Hi. destruct image_offsets as (t & et & ro & ero & d & ed & cs & dy & O).
  pose proof (bv_hart _ _ _ _ Hb) as Hh.
  rewrite (kernel_at w tabs fl data x w' (cpu_region (cpu_addr (w_tp w))) a _ Hb Hrun);
    [|unfold kernel_regions; by right; left|].
  - replace (access_ok _ _ a) with true by (by destruct Ha as [-> | ->]).
    cbn [cpu_region rg_pa rg_va]. f_equal. lia.
  - unfold holds, rg_end. destruct (cpu_seg _ _ _ _ _ _ _ _ O _ Hh) as [_ [Sv Sn]].
    cbn [cpu_region rg_va]. rewrite Sv in Sn. change CPU_SIZE with 0x3000 in Hi. unfold PAGE_SIZE.
    revert Sn Hi. clear. generalize (Z.of_nat (rg_pages (cpu_region (cpu_addr (w_tp w))))). lia.
Qed.

(** The structure of another hart is in no region. *)
Lemma kernel_misses_cpu t et ro ero d ed cs dy h h' g :
  offsets t et ro ero d ed cs dy → 0 <= h < DTB_NR_CPUS → 0 <= h' < DTB_NR_CPUS → h ≠ h' →
  g ∈ kernel_regions (cpu_addr h') →
  ¬ ∃ i, 0 <= i < 0x3000 ∧ rg_pa g <= DTB_MEMORY + (cs + h * 0x3000) + i < phys_end g.
Proof.
  intros O Hh Hh' Hne Hg (i & Hi & Hin). pose proof (of_order _ _ _ _ _ _ _ _ O) as Ho.
  pose proof (of_aligned _ _ _ _ _ _ _ _ O) as Ha. unfold DTB_NR_CPUS in *.
  destruct (image_psegs _ _ _ _ _ _ _ _ O h' Hh') as (St & Sr & Sd & Sc & Sm).
  destruct mmio_phys as [_ Hm]. unfold pseg, DTB_MEMORY_SIZE in *.
  unfold kernel_regions in Hg. rewrite !elem_of_cons in Hg.
  destruct Hg as [->|[->|[->|[->|[->|Hg]]]]].
  - lia.
  - lia.
  - destruct Sd as [Q1 Q2]. rewrite Q1, Q2 in Hin. clear -Hin Ho Ha Hi Hh. dlia.
  - destruct Sr as [Q1 Q2]. rewrite Q1, Q2 in Hin. clear -Hin Ho Ha Hi Hh. dlia.
  - destruct St as [Q1 Q2]. rewrite Q1, Q2 in Hin. clear -Hin Ho Ha Hi Hh. dlia.
  - rewrite Forall_forall in Hm. specialize (Hm g Hg). cbn beta in Hm. lia.
Qed.

(** C16: the pointers the kernel follows are translated as the rest of the model
    assumes: on the tree init_vmem built, every pointer into .data and into the
    dynamic region (all pages the allocator hands out) reads and writes the byte
    [kptr_pa] says, and VAS_CPU_STRUCT is the hart's own structure, while no
    address at all reaches the structure and stack of another hart. *)
Theorem kernel_pointers_agree w tabs fl data x w' a : before_vmem w tabs fl data →
  init_vmem w = Ok x w' → a = ARead ∨ a = AWrite →
  (∀ va, sym_data <= va < sym_edata → mmu (w_mem w') (KPA2PA x) a va = kptr_pa va) ∧
  (∀ k i, valid_address k = true → 0 <= i < PAGE_SIZE →
     mmu (w_mem w') (KPA2PA x) a (k + i) = kptr_pa (k + i)) ∧
  (∀ i, 0 <= i < CPU_SIZE →
     mmu (w_mem w') (KPA2PA x) a (VAS_CPU_STRUCT + i) = Some (KVA2PA (cpu_addr (w_tp w)) + i)) ∧
  (∀ h i va a', 0 <= h < DTB_NR_CPUS → h ≠ w_tp w → 0 <= i < CPU_SIZE →
     mmu (w_mem w') (KPA2PA x) a' va ≠ Some (KVA2PA (cpu_addr h) + i)).
Proof.
  intros Hb Hrun Ha. destruct image_offsets as (t & et & ro & ero & d & ed & cs & dy & O).
  destruct (of_eq _ _ _ _ _ _ _ _ O) as (E1 & E2 & E3 & E4 & E5 & E6 & E7 & E8).
  pose proof (of_order _ _ _ _ _ _ _ _ O) as Ho. pose proof (bv_hart _ _ _ _ Hb) as Hh.
  destruct (dynamic_pa_off _ _ _ _ _ _ _ _ O) as [Ep Ek].
  split_and!.
  - intros va Hva. rewrite (kernel_at w tabs fl data x w' data_region a va Hb Hrun);
      [|unfold kernel_regions; by do 2 right; left|].
    + replace (access_ok _ _ a) with true by (by destruct Ha as [-> | ->]).
      cbn [data_region rg_pa rg_va]. replace va with (VAS_KERNEL + (va - VAS_KERNEL)) at 2 by lia.
      rewrite kptr_pa_kva, E5, KVA2PA_off by (unfold GIGAPAGE; lia). f_equal. lia.
    + unfold data_region. rewrite E5, E6 in *. apply holds_kva; lia.
  - intros k i Hk Hi. apply valid_address_off in Hk as (o & -> & Hal & Hr).
    rewrite (kernel_at w tabs fl data x w' ram_region a (VAS_RAM + o + i) Hb Hrun);
      [|unfold kernel_regions; by left|].
    + replace (access_ok _ _ a) with true by (by destruct Ha as [-> | ->]).
      cbn [ram_region rg_pa rg_va]. rewrite <- Z.add_assoc.
      rewrite kptr_pa_kpa, Ep, Ek by (unfold GIGAPAGE, DTB_MEMORY_SIZE, PAGE_SIZE in *; lia). f_equal. lia.
    + unfold holds, rg_end. destruct (ram_seg _ _ _ _ _ _ _ _ O) as [_ [Sv Sn]].
      cbn [ram_region rg_va]. rewrite Ek. unfold PAGE_SIZE, DTB_MEMORY_SIZE in *. rewrite Sv in Sn.
      destruct (of_aligned _ _ _ _ _ _ _ _ O) as (_ & _ & _ & _ & Hd). rewrite E8 in Hr.
      revert Sn Hd Hal Hr Hi Ho. clear. generalize (Z.of_nat (rg_pages ram_region)). intros. dlia.
  - intros i Hi. by eapply kernel_own_cpu.
  - intros h i va a' Hh' Hne Hi. rewrite (init_vmem_mmu w tabs fl data x w' _ _ Hb Hrun).
    intros (g & Hg & Hin & _ & E)%address_map_some.
    eapply kernel_misses_cpu; [exact O|exact Hh'|exact Hh|exact Hne|exact Hg|]. exists i. split; [exact Hi|].
    unfold holds, rg_end in Hin. unfold phys_end. rewrite (cpu_addr_off _ _ _ _ _ _ _ _ O h Hh') in E.
    unfold DTB_NR_CPUS in Hh'. change CPU_SIZE with 0x3000 in Hi. rewrite KVA2PA_off in E by lia.
    unfold PAGE_SIZE in *. generalize dependent (Z.of_nat (rg_pages g)). lia.
Qed.
End kernel.

(** ** Witnesses: hart 1 of the demonstration machine *)

#[export] Instance demo_image_ok : ImageOk demo_linker.
Proof. split; [apply _|by vm_compute..]. Qed.

(** The machine after init_kmem, before init_vmem on hart 1. *)
Lemma demo_before_vmem : ∃ w : world plic_regs, before_vmem w ∅ all_pages [] ∧ w_tp w = 1 ∧
  has_bytes (w_mem w) DTB_MEMORY DTB_MEMORY_SIZE.
Proof.
  destruct zero_ram as [m Hm]. pose proof (zeroed_has_bytes _ _ _ Hm) as Hb.
  destruct (init_kmem_ok (mk_world m (mk_kmem 0 0) [0; 0] 0 demo_config [] ∅ (∅ : plic_regs) 1 1))
    as (w' & _ & Hinv & (m' & k & ->) & Hbk); [done|done| |].
  - eapply has_bytes_sub; [exact Hb|by vm_compute|by vm_compute].
  - match type of Hinv with kmem_inv ?w _ => exists w end. split; [|split; [reflexivity|by apply Hbk]].
    split; [by apply mem_inv_boot|done|done|].
    pose proof (demo_enough (S kernel_need) ltac:(by vm_compute)). lia.
Qed.

Lemma init_vmem_maps_witness : ∃ (w w' : world plic_regs) x, init_vmem w = Ok x w' ∧
  mmu (w_mem w') (KPA2PA x) AWrite (DTB_SERIAL + 5) = Some (DTB_SERIAL + 5) ∧
  mmu (w_mem w') (KPA2PA x) AWrite sym_text = None.
Proof.
  destruct demo_before_vmem as (w & Hb & Ht & _).
  destruct (init_vmem_maps w ∅ all_pages [] Hb) as (x & w' & tabs' & fl' & Hrun & _ & _ & _ & _ & Htr & _).
  exists w, w', x. split; [exact Hrun|]. rewrite !Htr, Ht. split; by vm_compute.
Defined.

Lemma kernel_w_xor_x_witness : ∃ (w w' : world plic_regs) x, init_vmem w = Ok x w' ∧
  mmu (w_mem w') (KPA2PA x) AExec (sym_text + 4) = Some (KVA2PA sym_text + 4) ∧
  ∀ va, mmu (w_mem w') (KPA2PA x) AWrite va ≠ Some (KVA2PA sym_text + 4).
Proof.
  destruct demo_before_vmem as (w & Hb & Ht & _). pose proof Hb as [Hmi Hm Hh Hl].
  destruct (init_vmem_run w ∅ all_pages [] Hmi Hm Hh Hl) as (x & w' & tabs' & fl' & Hrun & _).
  exists w, w', x. split; [exact Hrun|].
  assert (Hx : mmu (w_mem w') (KPA2PA x) AExec (sym_text + 4) = Some (KVA2PA sym_text + 4)).
  { rewrite (init_vmem_mmu w ∅ all_pages [] x w' _ _ Hb Hrun), Ht. by vm_compute. }
  split; [exact Hx|]. intros va.
  by apply (kernel_w_xor_x w ∅ all_pages [] x w' (sym_text + 4) va _ AExec Hb Hrun Hx).
Defined.

Lemma kernel_pointers_agree_witness : ∃ (w w' : world plic_regs) x, init_vmem w = Ok x w' ∧
  mmu (w_mem w') (KPA2PA x) AWrite (VAS_CPU_STRUCT + 8) = Some (KVA2PA (sym_cpu_structs + CPU_SIZE) + 8) ∧
  ∀ va, mmu (w_mem w') (KPA2PA x) AWrite va ≠ Some (KVA2PA (cpu_addr 0) + 8).
Proof.
  destruct demo_before_vmem as (w & Hb & Ht & _). pose proof Hb as [Hmi Hm Hh Hl].
  destruct (init_vmem_run w ∅ all_pages [] Hmi Hm Hh Hl) as (x & w' & tabs' & fl' & Hrun & _).
  destruct (kernel_pointers_agree w ∅ all_pages [] x w' AWrite Hb Hrun) as (_ & _ & Hc & Ho); [by right|].
  exists w, w', x. split; [exact Hrun|]. split.
  - rewrite Hc, Ht by (by vm_compute). by vm_compute.
  - intros va. apply Ho; rewrite ?Ht; by vm_compute.
Defined.
