(* ===== verification/Sboot.v ===== *)
(** * Sboot: from the firmware to main, core/sboot.S

    The bootstrap page table of gigapages, waking the other harts, the switch to
    virtual addresses, the first stack, and its relocation. *)

From S2P Require Import Prelude Layout Memory Machine Asm Sbi Kmem Cpu Linkerscript Vmem PageTable Sv39 Regions.

Section boot.
Context {D : Type}.
Implicit Types (w : world D).
#[local] Abbreviation A := (cmd (hart (world D))).

(** Before satp is set every address is physical. *)
Definition phys_ld (p : Z) : cmd (world D) Z := λ w,
  match rd64 (w_mem w) p with Some v => Ok v w | None => Fault p w end.
Definition phys_sd (p v : Z) : cmd (world D) unit := λ w,
  match rd64 (w_mem w) p with Some _ => Ok tt (set_mem (wr64 (w_mem w) p v) w) | None => Fault p w end.
Definition phys_bus : asm_bus (world D) := mk_bus _ phys_ld phys_sd CSRR CSRW.

(** With satp set, the MMU translates through the tree it names. *)
Definition satp_root w : Z := (csr_of (w_hart w) satp w mod 2 ^ 44) * 4096.
Definition virt_ld (a : Z) : cmd (world D) Z := λ w,
  match mmu (w_mem w) (satp_root w) ARead a ≫= rd64 (w_mem w) with Some v => Ok v w | None => Fault a w end.
Definition virt_sd (a v : Z) : cmd (world D) unit := λ w,
  match mmu (w_mem w) (satp_root w) AWrite a with Some p => phys_sd p v w | None => Fault a w end.
Definition virt_bus : asm_bus (world D) := mk_bus _ virt_ld virt_sd CSRR CSRW.

(** ** The macros *)

Definition PTEGEN (pa : nat) (flags : Z) : A unit :=
  srli pa pa 12 ;;
  slli pa pa 10 ;;
  ori pa pa (flags .| PTE_V .| PTE_G .| PTE_A .| PTE_D) ;;
  slli pa pa 10 ;;
  srli pa pa 10.

Definition IDX2PTR (root i : nat) : A unit :=
  slli i i 3 ;;
  add i root i.

Definition MAP_GIGAPAGE (pgtable addr pa : Z) : A unit :=
  li t0 pa ;;
  PTEGEN t0 (PTE_R .| PTE_W .| PTE_X) ;;
  li t1 ((((addr .>> 12) .>> 9) .>> 9) .& 0x1ff) ;;
  la t2 pgtable ;;
  IDX2PTR t2 t1 ;;
  sd phys_bus t0 0 t1.

Definition init_bootstrap_pages (bsp_root : Z) : A unit :=
  MAP_GIGAPAGE bsp_root 0 0 ;;
  MAP_GIGAPAGE bsp_root DTB_MEMORY DTB_MEMORY ;;
  MAP_GIGAPAGE bsp_root VAS_KERNEL DTB_MEMORY ;;
  MAP_GIGAPAGE bsp_root VAS_RAM DTB_MEMORY.

(** ** Waking the other harts *)

Context (firmware : sbi_regs → cmd (world D) (Z * Z)).

(** [ecall] in S mode: the firmware changes a0 and a1 and no other register. *)
Definition ecall : A unit :=
  r ← gets (λ s, mk_sbi_regs (rx a0 s) (rx a1 s) (rx a2 s) (rx a3 s) (rx a4 s) (rx a5 s) (rx a6 s) (rx a7 s));
  '(x, y) ← behind (firmware r);
  modify (wx a0 x) ;;
  modify (wx a1 y).

(** [1: beq t2, t1, 2f; addi t1, t1, -1; beq tp, t1, 1b; ...; ecall; j 1b] *)
Fixpoint wake_loop (fuel : nat) (enter_vas : Z) : A unit :=
  match fuel with
  | O => hang
  | S fuel' =>
      x ← gets (rx t1);
      y ← gets (rx t2);
      if y =? x then mret tt
      else
        addi t1 t1 (-1) ;;
        h ← gets (rx tp);
        x ← gets (rx t1);
        if h =? x then wake_loop fuel' enter_vas
        else
          mv a0 t1 ;;
          la a1 enter_vas ;;
          mv a2 t0 ;;
          ecall ;;
          wake_loop fuel' enter_vas
  end.

(** setup, from the entry to the fall-through into enter_vas. *)
Definition setup (bsp_root enter_vas sboot_fail : Z) : A unit :=
  la t0 sboot_fail ;;
  csrw phys_bus stvec t0 ;;
  init_bootstrap_pages bsp_root ;;
  mv tp a0 ;;
  mv t0 a1 ;;
  li a6 0 ;;
  li a7 0x48534d ;;
  li t2 0 ;;
  li t1 DTB_NR_CPUS ;;
  wake_loop (S (Z.to_nat DTB_NR_CPUS)) enter_vas ;;
  mv a0 tp ;;
  mv a1 t0.

(** ** Entering the kernel *)

(** The result is the address [jr t0] jumps to. *)
Definition enter_vas (eboot bsp_root : Z) : A Z :=
  mv tp a0 ;;
  la t0 eboot ;;
  li t2 DTB_MEMORY ;;
  li t3 VAS_KERNEL ;;
  sub t0 t0 t2 ;;
  add t0 t0 t3 ;;
  li t1 1 ;;
  slli t1 t1 63 ;;
  la t2 bsp_root ;;
  srli t2 t2 12 ;;
  or_ t1 t1 t2 ;;
  csrw phys_bus satp t1 ;;
  gets (rx t0).

Definition init_for_c (cpus : Z) : A unit :=
  la t0 cpus ;;
  li t1 CPU_SIZE ;;
  addi t2 a0 1 ;;
  mul t2 t1 t2 ;;
  add sp t0 t2.

Definition relocate_stack : A unit :=
  add sp sp a0 ;;
  add fp fp a0 ;;
  ld virt_bus a1 (-16) fp ;;
  add a1 a1 a0 ;;
  sd virt_bus a1 (-16) fp.
End boot.

(** The argument init_hart passes to relocate_stack (driver/cpu.c). *)
Definition stack_delta {L : Linker} (tp : Z) : Z :=
  u64 (u64 (VAS_CPU_STRUCT - u64 (tp * CPU_SIZE)) - sym_cpu_structs).
