(* ===== verification/SbootTheorems.v ===== *)
(** * SbootTheorems: correctness of core/sboot.S *)

From S2P Require Import Prelude Layout Memory Machine Asm Sbi Kmem Cpu Linkerscript Vmem PageTable VmemSpec Sv39 VmRunSpec Regions KernelSpace Concrete KernelTheorems Sboot.

(** ** The bootstrap tables *)

Section bootstrap.
Context {D : Type}.
Implicit Types (w : world D) (s : hart (world D)).

(** The entry MAP_GIGAPAGE stores. *)
Definition giga_pte (pa : Z) : Z := leaf_pte pa 0xee.
Definition giga_idx (va : Z) : Z := (va .>> 30) .& 0x1ff.

Lemma giga_idx_range va : 0 <= giga_idx va < 512.
Proof. unfold giga_idx. change 0x1ff with (Z.ones 9). rewrite Z.land_ones by lia. dlia. Qed.

Lemma MAP_GIGAPAGE_run bsp addr pa s : pa = 0 ∨ pa = DTB_MEMORY →
  0 <= bsp → bsp + PAGE_SIZE <= 2 ^ 56 → has_bytes (w_mem (hw s)) bsp PAGE_SIZE →
  ∃ s', MAP_GIGAPAGE bsp addr pa s = Ok tt s' ∧
    hw s' = set_mem (wr64 (w_mem (hw s)) (bsp + PTE_SIZE * giga_idx addr) (giga_pte pa)) (hw s) ∧
    (∀ n, n ∉ [t0; t1; t2] → rx n s' = rx n s).
Proof.
  intros Hpa Hb0 Hb1 Hb. pose proof (giga_idx_range addr) as Hi. unfold PAGE_SIZE in *.
  unfold MAP_GIGAPAGE, PTEGEN, IDX2PTR. asm_ops. asm_run.
  match goal with |- context [sd _ _ _ _ ?S] => set (s1 := S) end.
  assert (H0 : rx t0 s1 = giga_pte pa).
  { unfold s1. rewrite !rx_wx. cbn [Nat.eqb andb negb t0 t1 t2]. destruct Hpa as [-> | ->]; by vm_compute. }
  assert (H1 : rx t1 s1 = bsp + PTE_SIZE * giga_idx addr).
  { unfold s1. rewrite !rx_wx. cbn [Nat.eqb andb negb t0 t1 t2].
    assert (E : (((addr .>> 12) .>> 9) .>> 9) .& 511 = giga_idx addr)
      by (unfold giga_idx; by rewrite !Z.shiftr_shiftr by lia).
    rewrite E, (u64_id (giga_idx addr)), Z.shiftl_mul_pow2 by lia.
    rewrite (u64_id (_ * _)), (u64_id bsp), u64_id by lia. unfold PTE_SIZE. lia. }
  assert (H2 : hw s1 = hw s) by (unfold s1; by rewrite !wx_hw).
  assert (H3 : ∀ n, n ∉ [t0; t1; t2] → rx n s1 = rx n s).
  { intros n Hn. unfold s1. rewrite !rx_wx.
    rewrite !elem_of_cons in Hn. destruct (Nat.eqb_spec n t0), (Nat.eqb_spec n t1), (Nat.eqb_spec n t2);
      subst; tauto || done. }
  clearbody s1.
  assert (Hp : bus_sd phys_bus (u64 (rx t1 s1 + 0)) (rx t0 s1) (hw s1) =
    Ok tt (set_mem (wr64 (w_mem (hw s)) (bsp + PTE_SIZE * giga_idx addr) (giga_pte pa)) (hw s))).
  { rewrite H0, H1, H2, Z.add_0_r. unfold PTE_SIZE in *. rewrite u64_id by lia.
    cbn [bus_sd phys_bus]. unfold phys_sd.
    destruct (proj1 (rd64_has (w_mem (hw s)) (bsp + 8 * giga_idx addr))) as [v ->]; [|done].
    eapply has_bytes_sub; [exact Hb|lia|lia]. }
  eexists. split; [exact (sd_ok phys_bus t0 0 t1 _ s1 Hp)|]. split; [done|exact H3].
Qed.

(** The table that results: four entries, the rest as before. *)
Definition bootstrap_table (m : ram) (bsp : Z) : ram :=
  wr64 (wr64 (wr64 (wr64 m (bsp + PTE_SIZE * giga_idx 0) (giga_pte 0))
    (bsp + PTE_SIZE * giga_idx DTB_MEMORY) (giga_pte DTB_MEMORY))
    (bsp + PTE_SIZE * giga_idx VAS_KERNEL) (giga_pte DTB_MEMORY))
    (bsp + PTE_SIZE * giga_idx VAS_RAM) (giga_pte DTB_MEMORY).

Lemma init_bootstrap_pages_run bsp s : 0 <= bsp → bsp + PAGE_SIZE <= 2 ^ 56 →
  has_bytes (w_mem (hw s)) bsp PAGE_SIZE →
  ∃ s', init_bootstrap_pages bsp s = Ok tt s' ∧
    hw s' = set_mem (bootstrap_table (w_mem (hw s)) bsp) (hw s) ∧
    (∀ n, n ∉ [t0; t1; t2] → rx n s' = rx n s).
Proof.
  intros H0 H1 Hb. unfold init_bootstrap_pages.
  destruct (MAP_GIGAPAGE_run bsp 0 0 s) as (s1 & R1 & W1 & X1); [by left|done..|].
  destruct (MAP_GIGAPAGE_run bsp DTB_MEMORY DTB_MEMORY s1) as (s2 & R2 & W2 & X2);
    [by right|done|done|rewrite W1; by apply has_bytes_wr64|].
  destruct (MAP_GIGAPAGE_run bsp VAS_KERNEL DTB_MEMORY s2) as (s3 & R3 & W3 & X3);
    [by right|done|done|rewrite W2, W1; by do 2 apply has_bytes_wr64|].
  destruct (MAP_GIGAPAGE_run bsp VAS_RAM DTB_MEMORY s3) as (s4 & R4 & W4 & X4);
    [by right|done|done|rewrite W3, W2, W1; by do 3 apply has_bytes_wr64|].
  exists s4. split; [|split].
  - erewrite bind_ok by exact R1. erewrite bind_ok by exact R2. by erewrite bind_ok by exact R3.
  - rewrite W4, W3, W2, W1. done.
  - intros n Hn. rewrite X4, X3, X2, X1 by done. done.
Qed.

Lemma bootstrap_entry m bsp i : zeroed m bsp PAGE_SIZE → 0 <= i < 512 →
  rd64 (bootstrap_table m bsp) (bsp + PTE_SIZE * i) =
  Some (if i =? 0 then giga_pte 0 else if (i =? 2) || (i =? 256) || (i =? 384) then giga_pte DTB_MEMORY else 0).
Proof.
  intros Hz Hi. unfold bootstrap_table.
  change (giga_idx 0) with 0. change (giga_idx DTB_MEMORY) with 2.
  change (giga_idx VAS_KERNEL) with 256. change (giga_idx VAS_RAM) with 384.
  assert (Hu : ∀ p, p = 0 ∨ p = DTB_MEMORY → u64 (giga_pte p) = giga_pte p) by (by intros p [-> | ->]).
  unfold PTE_SIZE, PAGE_SIZE in *.
  destruct (Z.eqb_spec i 384) as [->|]; [rewrite rd64_wr64_same, Hu by tauto; done|].
  rewrite rd64_wr64_other by lia.
  destruct (Z.eqb_spec i 256) as [->|]; [rewrite rd64_wr64_same, Hu by tauto; done|].
  rewrite rd64_wr64_other by lia.
  destruct (Z.eqb_spec i 2) as [->|]; [rewrite rd64_wr64_same, Hu by tauto; done|].
  rewrite rd64_wr64_other by lia.
  destruct (Z.eqb_spec i 0) as [->|]; [rewrite rd64_wr64_same, Hu by tauto; done|].
  rewrite rd64_wr64_other by lia. cbn [orb]. eapply zeroed_rd64; [exact Hz|lia|lia].
Qed.

(** The MMU on a gigapage. *)
Lemma giga_walk m t v pa : pa = 0 ∨ pa = DTB_MEMORY →
  rd64 m (t + PTE_SIZE * idx 2 v) = Some (giga_pte pa) →
  hw_walk m 2 t v = Some (giga_pte pa, pa + v mod 2 ^ 18 * 4096).
Proof.
  intros Hpa He. cbn [hw_walk]. rewrite He. cbn [mbind option_bind].
  destruct Hpa as [-> | ->].
  - change (Some (giga_pte 0, (0 + v mod 2 ^ 18) * 4096) = Some (giga_pte 0, 0 + v mod 2 ^ 18 * 4096)).
    do 2 f_equal; lia.
  - change (Some (giga_pte DTB_MEMORY, (524288 + v mod 2 ^ 18) * 4096) =
            Some (giga_pte DTB_MEMORY, DTB_MEMORY + v mod 2 ^ 18 * 4096)).
    do 2 f_equal; unfold DTB_MEMORY; lia.
Qed.

(** What the bootstrap tables map: two identity gigapages, and the two windows of
    kernel pointers. *)
Definition bootstrap_map (va : Z) : option Z :=
  if (0 <=? va) && (va <? GIGAPAGE) then Some va
  else if (DTB_MEMORY <=? va) && (va <? DTB_MEMORY + GIGAPAGE) then Some va
  else kptr_pa va.

(** The gigapage of an address. *)
Lemma giga_of va : canonical va = true → let g := vpn va false / 2 ^ 18 in
  0 <= g < 512 ∧ va mod 2 ^ 30 = vpn va false mod 2 ^ 18 * 4096 + va mod 4096 ∧
  (0 <= va ∧ va = g * 2 ^ 30 + va mod 2 ^ 30 ∧ g < 256 ∨
   va = VAS_KERNEL + (g - 256) * 2 ^ 30 + va mod 2 ^ 30 ∧ 256 <= g).
Proof.
  intros Hc%canonical_spec. unfold VAS_KERNEL. destruct (decide (va < 2 ^ 38)).
  - rewrite vpn_low by lia. dlia.
  - rewrite vpn_high by lia. dlia.
Qed.

Lemma bootstrap_map_spec va g o : 0 <= o < 2 ^ 30 → 0 <= g < 512 →
  va = g * 2 ^ 30 + o ∧ g < 256 ∨ va = VAS_KERNEL + (g - 256) * 2 ^ 30 + o ∧ 256 <= g →
  bootstrap_map va = if g =? 0 then Some o
    else if (g =? 2) || (g =? 256) || (g =? 384) then Some (DTB_MEMORY + o) else None.
Proof.
  intros Ho Hg Hva. unfold bootstrap_map, GIGAPAGE.
  destruct (Z.eqb_spec g 0) as [->|H0].
  { rewrite (proj2 (Z.leb_le 0 va)), (proj2 (Z.ltb_lt va _)) by lia. cbn [andb]. f_equal. lia. }
  replace ((0 <=? va) && (va <? 2 ^ 30)) with false
    by (symmetry; apply andb_false_iff; rewrite Z.leb_gt, Z.ltb_ge; unfold VAS_KERNEL in *; lia).
  destruct (Z.eqb_spec g 2) as [->|H2].
  { rewrite (proj2 (Z.leb_le DTB_MEMORY va)), (proj2 (Z.ltb_lt va _)) by (unfold DTB_MEMORY; lia).
    cbn [andb orb]. f_equal. unfold DTB_MEMORY. lia. }
  replace ((DTB_MEMORY <=? va) && (va <? DTB_MEMORY + 2 ^ 30)) with false
    by (symmetry; apply andb_false_iff; rewrite Z.leb_gt, Z.ltb_ge; unfold VAS_KERNEL, DTB_MEMORY in *; lia).
  cbn [orb]. destruct (Z.eqb_spec g 256) as [->|H256].
  { replace va with (VAS_KERNEL + o) by lia. rewrite kptr_pa_kva by (unfold GIGAPAGE; lia). done. }
  destruct (Z.eqb_spec g 384) as [->|H384].
  { replace va with (VAS_RAM + o) by (unfold VAS_RAM, VAS_KERNEL in *; lia).
    rewrite kptr_pa_kpa by (unfold GIGAPAGE; lia). done. }
  cbn [orb]. unfold kptr_pa, GIGAPAGE.
  replace ((VAS_KERNEL <=? va) && (va <? VAS_KERNEL + 2 ^ 30)) with false
    by (symmetry; apply andb_false_iff; rewrite Z.leb_gt, Z.ltb_ge; unfold VAS_KERNEL in *; lia).
  replace ((VAS_RAM <=? va) && (va <? VAS_RAM + 2 ^ 30)) with false; [done|].
  symmetry; apply andb_false_iff; rewrite Z.leb_gt, Z.ltb_ge; unfold VAS_KERNEL, VAS_RAM in *; lia.
Qed.

Lemma bootstrap_mmu m bsp a va : zeroed m bsp PAGE_SIZE →
  mmu (bootstrap_table m bsp) bsp a va = bootstrap_map va.
Proof.
  intros Hz. unfold mmu. destruct (canonical va) eqn:Hc.
  - destruct (giga_of va Hc) as (Hg & Ho & Hva). unfold hw_translate. set (v := vpn va false) in *.
    assert (Hidx : idx 2 v = v / 2 ^ 18) by done.
    pose proof (bootstrap_entry m bsp (idx 2 v) Hz ltac:(rewrite Hidx; lia)) as He. rewrite Hidx in He.
    rewrite (bootstrap_map_spec va (v / 2 ^ 18) (va mod 2 ^ 30)); [|dlia|lia|lia].
    destruct (v / 2 ^ 18 =? 0).
    { rewrite (giga_walk _ _ _ 0) by (tauto || by rewrite Hidx). cbn [mbind option_bind].
      replace (permits a (giga_pte 0)) with true by by destruct a. cbn [andb negb orb]. f_equal. lia. }
    destruct ((v / 2 ^ 18 =? 2) || (v / 2 ^ 18 =? 256) || (v / 2 ^ 18 =? 384)).
    { rewrite (giga_walk _ _ _ DTB_MEMORY) by (tauto || by rewrite Hidx). cbn [mbind option_bind].
      replace (permits a (giga_pte DTB_MEMORY)) with true by by destruct a. cbn [andb negb orb]. f_equal. lia. }
    cbn [hw_walk]. rewrite Hidx, He. done.
  - destruct (bootstrap_map va) as [p|] eqn:E; [|done]. exfalso.
    assert (canonical va = true); [|congruence]. apply canonical_spec. revert E.
    unfold bootstrap_map, kptr_pa, GIGAPAGE, DTB_MEMORY, VAS_KERNEL, VAS_RAM.
    clear Hc. repeat (case_match; [b2p; lia|]). done.
Qed.

(** ** Waking the other harts *)

(** A register that is not in a list of others. *)
Ltac reg_ne := apply (bool_decide_unpack _); vm_compute; exact I.

Section wake.
Context (firmware : sbi_regs → cmd (world D) (Z * Z)).

(** What the SBI specification says of hart_start, the one call the boot code makes:
    the argument registers it does not use are ignored, and it returns to the caller,
    whose memory it leaves alone.  Nothing is assumed of any other call. *)
Class FirmwareLaws : Prop := {
  fw_ignores r r' h start opaque : sbi_decode r = Some (HartStart h start opaque) →
    sbi_decode r' = Some (HartStart h start opaque) → firmware r = firmware r';
  fw_returns r h start opaque w : sbi_decode r = Some (HartStart h start opaque) →
    ∃ x y w', firmware r w = Ok (x, y) w' ∧ w_mem w' = w_mem w
}.
Context `{!FirmwareLaws}.

(** Starting harts one after another through lib/sbi.c. *)
Fixpoint start_harts (hs : list Z) (start opaque : Z) : cmd (world D) unit :=
  match hs with
  | [] => mret tt
  | h :: hs' => sbi_hart_start firmware h start opaque ;; start_harts hs' start opaque
  end.

(** The harts below [n] other than [h], highest first. *)
Fixpoint others (h : Z) (n : nat) : list Z :=
  match n with
  | O => []
  | S n' => if h =? Z.of_nat n' then others h n' else Z.of_nat n' :: others h n'
  end.

(** [s'] is [s] with other contents of the named registers and another state. *)
Definition only_regs (ns : list nat) s s' : Prop := ∀ n, n ∉ ns → rx n s' = rx n s.

Lemma ecall_run s h start opaque : rx a0 s = h → rx a1 s = start → rx a2 s = opaque → rx a6 s = 0 →
  rx a7 s = 0x48534d → 0 <= h < 2 ^ 64 → 0 <= start < 2 ^ 64 → 0 <= opaque < 2 ^ 64 →
  ∃ s', ecall firmware s = Ok tt s' ∧ (sbi_hart_start firmware h start opaque ;; mret tt) (hw s) = Ok tt (hw s') ∧
    only_regs [a0; a1] s s' ∧ w_mem (hw s') = w_mem (hw s).
Proof.
  intros E0 E1 E2 E6 E7 Hh Hs Ho. unfold ecall, sbi_hart_start, sbi_ecall. rewrite bind_gets.
  rewrite E0, E1, E2, E6, E7. rewrite bind_bind.
  set (r := mk_sbi_regs _ _ _ _ _ _ _ _).
  assert (E : firmware r = firmware (mk_sbi_regs (u64 h) (u64 start) (u64 opaque) (u64 0) (u64 0) (u64 0) (u64 0) (u64 0x48534d))).
  { apply (fw_ignores _ _ h start opaque); [done|]. by rewrite !(u64_id h), !(u64_id start), !(u64_id opaque) by lia. }
  rewrite <- E. destruct (fw_returns r h start opaque (hw s) eq_refl) as (x & y & w' & Hf & Hm).
  erewrite bind_ok by (by apply behind_ok). cbn beta iota. rewrite bind_modify, modify_run.
  eexists. split; [reflexivity|]. rewrite !wx_hw. cbn [hw]. split_and!; [by erewrite bind_ok by exact Hf| |done].
  intros n Hn. rewrite !elem_of_cons in Hn. rewrite !rx_wx.
  destruct (Nat.eqb_spec n a1), (Nat.eqb_spec n a0); subst; tauto || done.
Qed.

Lemma start_harts_cons h hs start opaque w w1 : (sbi_hart_start firmware h start opaque ;; mret tt) w = Ok tt w1 →
  start_harts (h :: hs) start opaque w = start_harts hs start opaque w1.
Proof.
  cbn [start_harts]. unfold mbind, cmd_bind. destruct (sbi_hart_start _ _ _ _ w); [|done..].
  intros [= ->]. done.
Qed.

Lemma wake_loop_run n fuel s h start : (n < fuel)%nat → Z.of_nat n < 2 ^ 64 → rx t1 s = Z.of_nat n → rx t2 s = 0 →
  rx tp s = h → rx a6 s = 0 → rx a7 s = 0x48534d → 0 <= rx t0 s < 2 ^ 64 → 0 <= start < 2 ^ 64 →
  ∃ s', wake_loop firmware fuel start s = Ok tt s' ∧
    start_harts (others h n) start (rx t0 s) (hw s) = Ok tt (hw s') ∧
    only_regs [a0; a1; a2; t1] s s' ∧ w_mem (hw s') = w_mem (hw s).
Proof.
  revert fuel s. induction n as [|n IH]; intros fuel s Hf Hn E1 E2 Etp E6 E7 H0 Hs;
    destruct fuel as [|fuel]; try lia; cbn [wake_loop]; rewrite !bind_gets, E1, E2.
  - exists s. split_and!; done.
  - destruct (Z.eqb_spec 0 (Z.of_nat (S n))); [lia|]. asm_ops. asm_run. rewrite !bind_gets.
    set (s1 := wx t1 _ s).
    assert (X1 : ∀ m, m ≠ t1 → rx m s1 = rx m s).
    { intros m Hm. unfold s1. rewrite rx_wx. by destruct (Nat.eqb_spec m t1). }
    assert (E1' : rx t1 s1 = Z.of_nat n) by (unfold s1; rewrite rx_wx, E1; cbn; rewrite u64_id; lia).
    assert (Hw1 : hw s1 = hw s) by apply wx_hw. clearbody s1.
    rewrite (X1 tp), E1', Etp by done. cbn [others]. destruct (h =? Z.of_nat n).
    + destruct (IH fuel s1) as (s' & R & Hst & O & M); [lia|lia|exact E1'|by rewrite X1..|exact Hs|].
      exists s'. rewrite (X1 t0), Hw1 in * by done. split_and!; [done|done| |done].
      intros m Hm. rewrite O by done. apply X1. rewrite !elem_of_cons in Hm. tauto.
    + asm_run. set (s2 := wx a2 _ _).
      assert (X2 : ∀ m, m ∉ [a0; a1; a2] → rx m s2 = rx m s1).
      { intros m Hm. rewrite !elem_of_cons in Hm. unfold s2. rewrite !rx_wx.
        destruct (Nat.eqb_spec m a0), (Nat.eqb_spec m a1), (Nat.eqb_spec m a2); subst; tauto || done. }
      assert (Hw2 : hw s2 = hw s1) by (unfold s2; by rewrite !wx_hw).
      assert (V : rx a0 s2 = Z.of_nat n ∧ rx a1 s2 = start ∧ rx a2 s2 = rx t0 s).
      { unfold s2. rewrite !rx_wx. cbn [Nat.eqb andb negb a0 a1 a2 t0 t1].
        rewrite E1', (X1 t0), !u64_id by (done || lia). done. }
      clearbody s2. destruct V as (V0 & V1 & V2).
      destruct (ecall_run s2 (Z.of_nat n) start (rx t0 s)) as (s3 & R3 & H3 & O3 & M3);
        [exact V0|exact V1|exact V2|by rewrite X2, X1 by (done || reg_ne)|by rewrite X2, X1 by (done || reg_ne)|lia|lia|lia|].
      erewrite bind_ok by exact R3.
      assert (Y : ∀ m, m ∉ [a0; a1; a2; t1] → rx m s3 = rx m s).
      { intros m Hm. rewrite !elem_of_cons in Hm. rewrite O3, X2, X1; [done|..]; rewrite ?elem_of_cons; tauto. }
      assert (E3 : rx t1 s3 = Z.of_nat n).
      { rewrite O3, X2 by reg_ne. done. }
      destruct (IH fuel s3) as (s' & R & Hst & O & M);
        [lia|lia|exact E3|by rewrite Y by reg_ne..|exact Hs|].
      rewrite (Y t0) in Hst by reg_ne.
      exists s'. split_and!; [exact R| | |congruence].
      * rewrite <- Hw1, <- Hw2. erewrite start_harts_cons by exact H3. exact Hst.
      * intros m Hm. rewrite O by done. by apply Y.
Qed.

(** C21: setup on the boot hart [h] installs the failure handler, fills the
    bootstrap table so that the MMU would translate exactly [bootstrap_map], and
    then starts every other hart once through the SBI hart_start call, at
    enter_vas and with the device tree as argument; a0 and a1 are what the
    firmware passed. *)
Theorem setup_starts_harts bsp start fail s : let h := rx a0 s in
  0 <= bsp → bsp + PAGE_SIZE <= 2 ^ 56 → zeroed (w_mem (hw s)) bsp PAGE_SIZE →
  0 <= h < DTB_NR_CPUS → 0 <= rx a1 s < 2 ^ 64 → 0 <= start < 2 ^ 64 →
  let w1 := set_mem (bootstrap_table (w_mem (hw s)) bsp)
              (set_csr (<[(w_hart (hw s), stvec) := u64 fail]> (w_csr (hw s))) (hw s)) in
  ∃ s', setup firmware bsp start fail s = Ok tt s' ∧
    start_harts (others h (Z.to_nat DTB_NR_CPUS)) start (rx a1 s) w1 = Ok tt (hw s') ∧
    rx a0 s' = h ∧ rx tp s' = h ∧ rx a1 s' = rx a1 s ∧
    ∀ a va, mmu (w_mem (hw s')) bsp a va = bootstrap_map va.
Proof.
  intros h Hb0 Hb1 Hz Hh Hd Hs w1. unfold setup. asm_ops. rewrite op_seq.
  set (sA := wx t0 fail s).
  assert (EA : hw sA = hw s ∧ (∀ n, n ≠ t0 → rx n sA = rx n s) ∧ rx t0 sA = u64 fail).
  { unfold sA. split; [apply wx_hw|]. split; [|by rewrite rx_wx].
    intros n Hn. rewrite rx_wx. by destruct (Nat.eqb_spec n t0). }
  clearbody sA. destruct EA as (HwA & XA & FA).
  erewrite bind_ok; [|apply csrw_ok; cbn [bus_csrw phys_bus]; rewrite FA, HwA; reflexivity].
  set (sB := mk_hart _ _).
  destruct (init_bootstrap_pages_run bsp sB Hb0 Hb1) as (sC & RC & HwC & XC);
    [by apply zeroed_has_bytes|]. erewrite bind_ok by exact RC. asm_run.
  assert (XB : ∀ n, n ∉ [t0; t1; t2] → rx n sC = rx n s).
  { intros n Hn. rewrite XC by done. transitivity (rx n sA); [done|]. apply XA.
    intros ->. apply Hn. by left. }
  assert (Hw1 : hw sC = w1) by (rewrite HwC; done).
  assert (Hm1 : w_mem w1 = bootstrap_table (w_mem (hw s)) bsp) by done.
  clear HwC XC XA FA. clearbody sB w1.
  set (sD := wx t1 _ _).
  assert (VD : rx t1 sD = Z.of_nat 2 ∧ rx t2 sD = 0 ∧ rx tp sD = h ∧ rx a6 sD = 0 ∧ rx a7 sD = 0x48534d ∧
    rx t0 sD = rx a1 s ∧ hw sD = w1).
  { unfold sD. rewrite !rx_wx, !wx_hw. cbn [Nat.eqb andb negb tp t0 t1 t2 a0 a1 a6 a7].
    rewrite (XB a0), (XB a1) by reg_ne. unfold DTB_NR_CPUS in *. fold h. rewrite !u64_id by lia. done. }
  clearbody sD. destruct VD as (V1 & V2 & V3 & V4 & V5 & V6 & V7).
  destruct (wake_loop_run 2 (S (Z.to_nat DTB_NR_CPUS)) sD h start) as (sE & RE & HE & OE & ME);
    [by vm_compute; lia|lia|done|done|done|done|done|by rewrite V6|done|].
  erewrite bind_ok by exact RE. asm_run. rewrite op_run.
  eexists. split; [reflexivity|]. rewrite !wx_hw, !rx_wx.
  cbn [Nat.eqb andb negb tp t0 t1 t2 a0 a1]. rewrite (OE tp), (OE t0), V3, V6 by reg_ne.
  unfold DTB_NR_CPUS in Hh. rewrite !u64_id by lia. rewrite V6, V7 in HE. split; [exact HE|]. split_and!; try done.
  intros a va. rewrite ME, V7, Hm1. by apply bootstrap_mmu.
Qed.
End wake.

(** ** Entering the kernel *)

Lemma enter_vas_run eboot bsp s : DTB_MEMORY <= eboot < DTB_MEMORY + GIGAPAGE → 0 <= bsp < 2 ^ 56 →
  bsp mod 4096 = 0 → 0 <= rx a0 s < 2 ^ 64 →
  ∃ s', enter_vas eboot bsp s = Ok (PA2KVA eboot) s' ∧ rx a0 s' = rx a0 s ∧ rx tp s' = rx a0 s ∧
    w_mem (hw s') = w_mem (hw s) ∧ satp_root (hw s') = bsp ∧ csr_of (w_hart (hw s)) satp (hw s') / 2 ^ 60 = 8.
Proof.
  intros He Hb Hal Ha. unfold enter_vas. asm_ops. asm_run.
  match goal with |- context [gets _] => idtac end.
  match goal with |- context [(csrw _ _ _ ≫= _) ?S] => set (s1 := S) end.
  assert (V : rx t1 s1 = 2 ^ 63 + bsp / 4096 ∧ rx t0 s1 = PA2KVA eboot ∧ rx a0 s1 = rx a0 s ∧
    rx tp s1 = rx a0 s ∧ hw s1 = hw s).
  { unfold s1. rewrite !rx_wx, !wx_hw. cbn [Nat.eqb andb negb tp t0 t1 t2 t3 a0].
    unfold DTB_MEMORY, GIGAPAGE in *. split_and!; [|unfold PA2KVA, DTB_MEMORY..|done|by rewrite u64_id|done].
    - change (u64 (u64 1 .<< 63)) with (1 .<< 63). rewrite Z.shiftr_div_pow2, (u64_id bsp) by lia.
      change (2 ^ 12) with 4096. rewrite (u64_id (bsp / _)) by dlia. rewrite lor_shiftl_add by dlia. rewrite u64_id by dlia. lia.
    - rewrite (u64_id eboot), (u64_id 2147483648), (u64_id VAS_KERNEL) by (unfold VAS_KERNEL; lia).
      by rewrite (u64_id (eboot - _)) by lia. }
  clearbody s1. destruct V as (V1 & V0 & Va & Vt & Vw).
  rewrite (csrw_seq phys_bus satp t1 (set_csr (<[(w_hart (hw s), satp) := 2 ^ 63 + bsp / 4096]> (w_csr (hw s))) (hw s)))
    by (cbn [bus_csrw phys_bus]; by rewrite V1, Vw).
  rewrite gets_run. eexists. split; [by rewrite <- V0|].
  assert (E : csr_of (w_hart (hw s)) satp (set_csr (<[(w_hart (hw s), satp) := 2 ^ 63 + bsp / 4096]> (w_csr (hw s))) (hw s))
    = 2 ^ 63 + bsp / 4096) by (rewrite csr_of_set, lookup_insert_eq; done).
  split; [exact Va|]. split; [exact Vt|]. split; [done|]. unfold satp_root. cbn [hw].
  change (w_hart (set_csr _ (hw s))) with (w_hart (hw s)). rewrite E. split.
  - replace (2 ^ 63 + bsp / 4096) with (bsp / 4096 + 2 ^ 19 * 2 ^ 44) by lia.
    rewrite Z.mod_add, Z.mod_small by dlia. dlia.
  - dlia.
Qed.
End bootstrap.

Section kernel_entry.
Context {D : Type}.
Implicit Types (s : hart (world D)).

(** The way into the kernel, with the addresses as numbers. *)
Lemma enter_kernel eboot bsp t cs s : let h := rx a0 s in
  0x80100000 <= eboot < DTB_MEMORY_END → PA2KVA eboot = VAS_KERNEL + t → 0 <= t < 0x10000000 →
  0 <= bsp < 2 ^ 56 → bsp mod 4096 = 0 → 0 <= cs → cs + 0x6000 <= 0x10000000 →
  0 <= h < DTB_NR_CPUS → (∀ a va, mmu (w_mem (hw s)) bsp a va = bootstrap_map va) →
  ∃ s1 s2, enter_vas eboot bsp s = Ok (VAS_KERNEL + t) s1 ∧ init_for_c (VAS_KERNEL + cs) s1 = Ok tt s2 ∧
    rx sp s2 = VAS_KERNEL + (cs + (h + 1) * 0x3000) ∧ rx a0 s2 = h ∧ rx tp s2 = h ∧
    (∀ a va, mmu (w_mem (hw s2)) (satp_root (hw s2)) a va = bootstrap_map va).
Proof.
  intros h Heb He Ht Hb Hba Hcs Hcs' Hh Hm. change DTB_MEMORY_END with 0x90000000 in *. unfold DTB_NR_CPUS in Hh.
  destruct (enter_vas_run eboot bsp s) as (s1 & R1 & A1 & T1 & M1 & S1 & _);
    [unfold DTB_MEMORY, GIGAPAGE; lia|lia|exact Hba|fold h; lia|].
  rewrite He in R1. fold h in A1, T1. exists s1.
  unfold init_for_c. asm_ops. asm_run. rewrite op_run. eexists. split; [exact R1|]. split; [reflexivity|].
  rewrite !wx_hw, !rx_wx. cbn [Nat.eqb andb negb sp tp t0 t1 t2 a0]. rewrite A1, T1.
  split_and!; [|done|done|intros a va; by rewrite S1, M1, Hm].
  change CPU_SIZE with 0x3000. rewrite (u64_id 0x3000), (u64_id (h + 1)), (u64_id (_ * _)) by lia.
  unfold VAS_KERNEL in *. rewrite (u64_id (_ + cs)) by lia. rewrite u64_id by lia. lia.
Qed.

Context (sz : section_sizes) (Hsz : sizes_ok sz) (vcpus_off trap_off : Z).
#[local] Instance boot_linker : Linker := link sz vcpus_off trap_off.
#[local] Instance boot_image_ok : ImageOk boot_linker := link_image_ok sz Hsz vcpus_off trap_off.

(** The symbols as offsets into the kernel window. *)
Lemma boot_symbols : ∃ t cs, vma (im_text (link_script sz)) = VAS_KERNEL + t ∧ 0 <= t < 0x10000000 ∧
  vma (im_cpu_structs (link_script sz)) = VAS_KERNEL + cs ∧ 0 <= cs ∧ cs + 0x6000 <= 0x10000000 ∧
  ∀ h, 0 <= h < DTB_NR_CPUS → cpu_addr h = VAS_KERNEL + (cs + h * 0x3000).
Proof.
  destruct image_offsets as (t & et & ro & ero & d & ed & cs & dy & O).
  pose proof (of_eq _ _ _ _ _ _ _ _ O) as (E1 & _ & _ & _ & _ & _ & E7 & _).
  unfold boot_linker in E1, E7. rewrite link_text in E1. rewrite link_cpu_structs in E7.
  pose proof (of_order _ _ _ _ _ _ _ _ O) as Ho. exists t, cs.
  split; [exact E1|]. split; [lia|]. split; [exact E7|]. split; [lia|]. split; [lia|].
  intros h Hh. exact (cpu_addr_off _ _ _ _ _ _ _ _ O h Hh).
Qed.

(** C22: enter_vas, run by every hart, turns translation on and jumps to the first
    byte of .text at its virtual address; on the bootstrap tables the boot code
    that is still executing stays mapped where it is, the jump target is the
    loaded .text, and init_for_c leaves sp at the end of the hart's own stack,
    which is mapped writable at the structure's load address. *)
Theorem enter_vas_reaches_kernel s : let h := rx a0 s in let i := link_script sz in
  let bsp := vma (im_bsp i) in
  0 <= h < DTB_NR_CPUS → (∀ a va, mmu (w_mem (hw s)) bsp a va = bootstrap_map va) →
  ∃ s1 s2,
    enter_vas (im_eboot i) bsp s = Ok (vma (im_text i)) s1 ∧
    init_for_c (vma (im_cpu_structs i)) s1 = Ok tt s2 ∧
    rx sp s2 = cpu_addr h + CPU_SIZE ∧ rx a0 s2 = h ∧ rx tp s2 = h ∧
    let mm := mmu (w_mem (hw s2)) (satp_root (hw s2)) in
    mm AExec (vma (im_text i)) = Some (lma (im_text i)) ∧
    (∀ p, lma (im_boottext i) <= p < DTB_MEMORY_END → mm AExec p = Some p) ∧
    (∀ k, 0 < k <= CPU_STACK_SIZE →
       mm AWrite (rx sp s2 - k) = Some (lma (im_cpu_structs i) + CPU_SIZE * (h + 1) - k)).
Proof.
  intros h i bsp Hh Hm. pose proof (kernel_sections_placed sz Hsz) as Hf. pose proof (eboot_is_text sz Hsz) as He. cbn zeta in Hf.
  rewrite !Forall_cons in Hf. destruct Hf as ((_ & Lt & _) & _ & _ & (_ & Lc & _) & _).
  destruct (bsp_place sz Hsz) as (Hb & Hba & Heb & Hlb). destruct boot_symbols as (t & cs & Et & Ht & Ec & Hc0 & Hc1 & Hcpu).
  fold i in Lt, Lc, He, Hb, Hba, Heb, Hlb, Et, Ec. fold bsp in Hb, Hba. clearbody i. subst bsp.
  rewrite Et in He. destruct (enter_kernel (im_eboot i) (vma (im_bsp i)) t cs s) as (s1 & s2 & R1 & R2 & P2 & A2 & T2 & Hmm);
    [exact Heb|exact He|exact Ht|change DTB_MEMORY_END with 0x90000000 in Hb; change phys_base_sym with 0x80100000 in Hb; lia|exact Hba|lia|lia|exact Hh|exact Hm|].
  exists s1, s2. cbn zeta. rewrite Et, Ec, P2, (Hcpu h Hh), Lt, Lc, Hlb, Et, Ec. change CPU_SIZE with 0x3000.
  fold h in P2, A2, T2 |- *. clearbody h. unfold DTB_NR_CPUS in Hh.
  split; [exact R1|]. split; [exact R2|]. split; [lia|]. split; [exact A2|]. split; [exact T2|]. split_and!.
  - rewrite Hmm, (bootstrap_map_spec _ 256 t), KVA2PA_off by lia. done.
  - change DTB_MEMORY_END with 0x90000000. change phys_base_sym with 0x80100000. intros p Hp.
    rewrite Hmm, (bootstrap_map_spec p 2 (p - DTB_MEMORY)) by (unfold DTB_MEMORY; lia).
    cbn [Z.eqb Pos.eqb orb]. f_equal. lia.
  - intros k Hk. change CPU_STACK_SIZE with 0x2000 in Hk.
    rewrite Hmm, (bootstrap_map_spec _ 256 (cs + (h + 1) * 0x3000 - k)), KVA2PA_off by lia.
    cbn [Z.eqb Pos.eqb orb]. f_equal. lia.
Qed.
End kernel_entry.

(** ** Relocating the stack *)

Section relocate.
Context {D : Type} {L : Linker} `{!ImageOk L}.
Implicit Types (w : world D) (s : hart (world D)).

Lemma stack_delta_eq h : 0 <= h < DTB_NR_CPUS → stack_delta h = VAS_CPU_STRUCT - cpu_addr h ∧
  VAS_KERNEL <= cpu_addr h ∧ cpu_addr h + CPU_SIZE <= VAS_KERNEL + GIGAPAGE.
Proof.
  intros Hh. destruct image_offsets as (t & et & ro & ero & d & ed & cs & dy & O).
  destruct (of_eq _ _ _ _ _ _ _ _ O) as (_ & _ & _ & _ & _ & _ & E7 & _).
  pose proof (of_order _ _ _ _ _ _ _ _ O) as Ho. rewrite (cpu_addr_off _ _ _ _ _ _ _ _ O h Hh).
  unfold stack_delta. rewrite E7. change CPU_SIZE with 0x3000. unfold DTB_NR_CPUS, GIGAPAGE in *.
  unfold VAS_CPU_STRUCT, VAS_KERNEL in *. rewrite (u64_id (h * _)) by lia.
  rewrite (u64_id (_ - h * _)) by lia. rewrite u64_id by lia. lia.
Qed.

(** relocate_stack moves sp and fp by [a0], and the word [v] at [fp - 16]. *)
Lemma relocate_run s p v d : rx a0 s = d → 0 <= rx sp s + d < 2 ^ 64 → 16 <= rx fp s + d < 2 ^ 64 →
  (∀ a, a = ARead ∨ a = AWrite → mmu (w_mem (hw s)) (satp_root (hw s)) a (rx fp s + d - 16) = Some p) →
  rd64 (w_mem (hw s)) p = Some v →
  ∃ s', relocate_stack s = Ok tt s' ∧ rx sp s' = rx sp s + d ∧ rx fp s' = rx fp s + d ∧
    w_mem (hw s') = wr64 (w_mem (hw s)) p (u64 (v + d)).
Proof.
  intros Ha Hsp Hfp Hp Hv. set (s1 := wx fp (rx fp s + rx a0 s) (wx sp (rx sp s + rx a0 s) s)).
  assert (X : rx sp s1 = rx sp s + d ∧ rx fp s1 = rx fp s + d ∧ rx a0 s1 = d ∧ hw s1 = hw s).
  { unfold s1. rewrite !rx_wx, !wx_hw. cbn [Nat.eqb andb negb sp fp a0]. rewrite Ha, !u64_id by lia. done. }
  destruct X as (X1 & X2 & X3 & X4).
  assert (Hadr : u64 (rx fp s1 + -16) = rx fp s + d - 16) by (rewrite X2, u64_id; lia).
  assert (Hld : bus_ld virt_bus (u64 (rx fp s1 + -16)) (hw s1) = Ok v (hw s1)).
  { cbn [bus_ld virt_bus]. unfold virt_ld. rewrite Hadr, X4, Hp by auto. cbn [mbind option_bind]. by rewrite Hv. }
  set (s2 := wx a1 v (mk_hart (xr s1) (hw s1))). set (s3 := wx a1 (rx a1 s2 + rx a0 s2) s2).
  assert (Y : rx fp s3 = rx fp s1 ∧ rx sp s3 = rx sp s1 ∧ rx a1 s3 = u64 (v + d) ∧ hw s3 = hw s).
  { pose proof (rd64_range _ _ _ Hv) as Hvr. unfold s3, s2. clearbody s1. destruct s1 as [f w1].
    cbn [xr hw] in *. rewrite !rx_wx, !wx_hw. cbn [Nat.eqb andb negb sp fp a0 a1 hw] in *.
    rewrite X3, (u64_id v) by lia. done. }
  destruct Y as (Y1 & Y2 & Y3 & Y4).
  assert (Hsd : bus_sd virt_bus (u64 (rx fp s3 + -16)) (rx a1 s3) (hw s3) =
    Ok tt (set_mem (wr64 (w_mem (hw s)) p (u64 (v + d))) (hw s))).
  { cbn [bus_sd virt_bus]. unfold virt_sd. rewrite Y1, Hadr, Y3, Y4, Hp by auto. unfold phys_sd. by rewrite Hv. }
  exists (mk_hart (xr s3) (set_mem (wr64 (w_mem (hw s)) p (u64 (v + d))) (hw s))). split_and!; [| | |done].
  - unfold relocate_stack. asm_ops. asm_run. change (wx fp _ _) with s1.
    rewrite (bind_ok _ _ s1 tt s2) by exact (ld_ok virt_bus a1 (-16) fp v (hw s1) s1 Hld).
    rewrite op_seq. fold s3. exact (sd_ok virt_bus a1 (-16) fp _ s3 Hsd).
  - transitivity (rx sp s3); [done|congruence].
  - transitivity (rx fp s3); [done|congruence].
Qed.

(** Both address spaces reach the hart's structure. *)
Lemma structure_moved w tabs fl data x w' a b : before_vmem w tabs fl data → init_vmem w = Ok x w' →
  let c := cpu_addr (w_tp w) in c <= b < c + CPU_SIZE → a = ARead ∨ a = AWrite →
  mmu (w_mem w') (KPA2PA x) a (b + stack_delta (w_tp w)) = Some (KVA2PA b) ∧ bootstrap_map b = Some (KVA2PA b) ∧
  KVA2PA b = KVA2PA c + (b - c).
Proof.
  intros Hb Hrun c Hbb Haa. destruct (stack_delta_eq _ (bv_hart _ _ _ _ Hb)) as (Hd & Hc0 & Hc1). fold c in Hd, Hc0, Hc1.
  change CPU_SIZE with 0x3000 in *. unfold GIGAPAGE in Hc1.
  assert (Hpa : KVA2PA b = KVA2PA c + (b - c)).
  { replace b with (VAS_KERNEL + (b - VAS_KERNEL)) at 1 by lia.
    replace c with (VAS_KERNEL + (c - VAS_KERNEL)) at 1 by lia. rewrite !KVA2PA_off by lia. lia. }
  split_and!; [| |exact Hpa].
  - replace (b + stack_delta (w_tp w)) with (VAS_CPU_STRUCT + (b - c)) by lia.
    rewrite (kernel_own_cpu w tabs fl data x w' a (b - c) Hb Hrun Haa) by (change CPU_SIZE with 0x3000; lia).
    fold c. by rewrite Hpa.
  - rewrite (bootstrap_map_spec b 256 (b - VAS_KERNEL)) by lia. cbn [Z.eqb Pos.eqb orb].
    rewrite <- KVA2PA_off by lia. do 2 f_equal. lia.
Qed.

(** C23: when init_hart has switched to the tree init_vmem built, relocate_stack moves
    sp and the frame pointers so that the hart keeps its stack: every address of
    its structure, moved by the same amount, reaches the byte it named on the
    bootstrap tables, the stack pointer moves with it, and the frame pointer saved
    in main's frame is the only word of memory that changes. *)
Theorem relocate_stack_keeps_stack w tabs fl data x w' s : before_vmem w tabs fl data →
  init_vmem w = Ok x w' → let h := w_tp w in
  w_mem (hw s) = w_mem w' → satp_root (hw s) = KPA2PA x → rx a0 s = stack_delta h →
  has_bytes (w_mem w') (KVA2PA (cpu_addr h)) CPU_SIZE →
  cpu_addr h <= rx sp s <= cpu_addr h + CPU_SIZE →
  cpu_addr h + 16 <= rx fp s <= cpu_addr h + CPU_SIZE →
  ∃ s' v, relocate_stack s = Ok tt s' ∧
    rx sp s' = rx sp s + stack_delta h ∧ rx fp s' = rx fp s + stack_delta h ∧
    VAS_CPU_STRUCT <= rx sp s' <= VAS_CPU_STRUCT + CPU_SIZE ∧
    (∀ a b, cpu_addr h <= b < cpu_addr h + CPU_SIZE → a = ARead ∨ a = AWrite →
       mmu (w_mem w') (KPA2PA x) a (b + stack_delta h) = bootstrap_map b) ∧
    rd64 (w_mem w') (KVA2PA (rx fp s - 16)) = Some v ∧
    w_mem (hw s') = wr64 (w_mem w') (KVA2PA (rx fp s - 16)) (u64 (v + stack_delta h)).
Proof.
  intros Hb Hrun h Hmem Hroot Ha Hbytes Hsp Hfp.
  pose proof (λ a b, structure_moved w tabs fl data x w' a b Hb Hrun) as Hm. cbn zeta in Hm.
  destruct (stack_delta_eq h (bv_hart _ _ _ _ Hb)) as (Hd & Hc0 & Hc1). fold h in Hm. set (c := cpu_addr h) in *.
  change CPU_SIZE with 0x3000 in *. unfold GIGAPAGE in Hc1.
  destruct (Hm ARead (rx fp s - 16)) as (_ & _ & Hpa); [lia|by left|].
  destruct (proj1 (rd64_has (w_mem w') (KVA2PA (rx fp s - 16)))) as [v Hv].
  { rewrite Hpa. eapply has_bytes_sub; [exact Hbytes|lia|lia]. }
  destruct (relocate_run s (KVA2PA (rx fp s - 16)) v (stack_delta h)) as (s' & Hr & E1 & E2 & E3).
  - exact Ha.
  - unfold VAS_CPU_STRUCT, VAS_KERNEL in *. lia.
  - unfold VAS_CPU_STRUCT, VAS_KERNEL in *. lia.
  - intros a Haa. rewrite Hmem, Hroot. replace (rx fp s + stack_delta h - 16) with (rx fp s - 16 + stack_delta h) by lia.
    apply (Hm a (rx fp s - 16)); [lia|exact Haa].
  - by rewrite Hmem.
  - exists s', v. rewrite Hmem in E3. split_and!; try done; [lia|lia|].
    intros a b Hbb Haa. destruct (Hm a b Hbb Haa) as (-> & -> & _). done.
Qed.
End relocate.

(** The value init_hart writes to satp names the tree. *)
Lemma satp_root_init {D} {L : Linker} `{!LinkerOk L} (w : world D) x : valid_address x = true →
  csr_of (w_hart w) satp w = (KPA2PA x .>> 12) .| ATP_MODE_SV39 → satp_root w = KPA2PA x.
Proof.
  intros Hx E. destruct (valid_address_pa x Hx) as (Ha & Hlo & Hhi & _).
  rewrite (proj1 dynamic_pa) in Hlo. pose proof dynamic_range as Hd.
  change DTB_MEMORY_END with 0x90000000 in Hhi. unfold FIRMWARE_SIZE, DTB_MEMORY, PAGE_SIZE in *.
  unfold satp_root. rewrite E, Z.lor_comm. change ATP_MODE_SV39 with (2 ^ 19 * 2 ^ 44).
  rewrite Z.shiftr_div_pow2 by lia. change (2 ^ 12) with 4096. rewrite lor_mul_add by dlia.
  rewrite Z.add_comm, Z.mod_add, Z.mod_small by dlia. dlia.
Qed.

(** ** Witnesses *)

(** A firmware that records which harts it was asked to start. *)
Definition demo_firmware (r : sbi_regs) : cmd (world plic_regs) (Z * Z) := λ w,
  match sbi_decode r with
  | Some (HartStart h _ _) => Ok (0, 0) (set_cpus (h :: w_cpus w) w)
  | _ => Ok (SBI_ERR_NOT_SUPPORTED, 0) w
  end.
Lemma demo_firmware_laws : FirmwareLaws demo_firmware.
Proof.
  split; unfold demo_firmware.
  - by intros r r' h start opaque -> ->.
  - intros r h start opaque w ->. by eexists _, _, _.
Qed.

(** The machine as the firmware hands it to hart [h]: zeroed memory. *)
Definition power_on (m : ram) (h : Z) : hart (world plic_regs) :=
  mk_hart (λ n, if (n =? 10)%nat then h else 0)
    (mk_world m (mk_kmem 0 0) [] 0 demo_config [] ∅ ∅ h 0).

Lemma setup_starts_harts_witness : ∃ (s s' : hart (world plic_regs)),
  setup demo_firmware 0x80102000 0x80100040 0x80100080 s = Ok tt s' ∧ w_cpus (hw s') = [1] ∧
  mmu (w_mem (hw s')) 0x80102000 AWrite (VAS_RAM + 0x200000) = Some 0x80200000.
Proof.
  destruct zero_ram as [m Hm]. pose proof demo_firmware_laws as Hfw.
  destruct (setup_starts_harts demo_firmware 0x80102000 0x80100040 0x80100080 (power_on m 0))
    as (s' & Hr & Hs & _ & _ & _ & Hmm); [lia|by vm_compute| |by vm_compute|by vm_compute|lia|].
  - intros a Ha. apply Hm. unfold PAGE_SIZE, DTB_MEMORY, DTB_MEMORY_SIZE in *. lia.
  - exists (power_on m 0), s'. split; [exact Hr|]. split; [|rewrite Hmm; by vm_compute].
    injection Hs as Hs. rewrite <- Hs. done.
Defined.

Lemma enter_vas_reaches_kernel_witness : ∃ (s s1 : hart (world plic_regs)),
  rx a0 s = 1 ∧ enter_vas (im_eboot (link_script demo_sizes)) (vma (im_bsp (link_script demo_sizes))) s =
    Ok (VAS_KERNEL + 0x103000) s1.
Proof.
  destruct zero_ram as [m Hm]. set (bsp := vma (im_bsp (link_script demo_sizes))).
  assert (Hb : bsp = 0x80102000) by (by vm_compute).
  destruct (enter_vas_reaches_kernel demo_sizes demo_sizes_ok 0 0 (power_on (bootstrap_table m 0x80102000) 1))
    as (s1 & s2 & Hr & _).
  - by vm_compute.
  - intros a va. fold bsp. rewrite Hb. apply bootstrap_mmu. intros p Hp. apply Hm.
    unfold PAGE_SIZE, DTB_MEMORY, DTB_MEMORY_SIZE in *. lia.
  - exists (power_on (bootstrap_table m 0x80102000) 1), s1. split; [done|]. etrans; [exact Hr|].
    apply (f_equal (λ v, Ok v s1)). by vm_compute.
Defined.

Lemma relocate_stack_keeps_stack_witness : ∃ (s s' : hart (world plic_regs)),
  relocate_stack s = Ok tt s' ∧ rx sp s = cpu_addr 1 + 0x2f00 ∧ rx sp s' = VAS_CPU_STRUCT + 0x2f00.
Proof.
  destruct demo_before_vmem as (w & Hb & Ht & Hm). pose proof Hb as [Hmi Hcm Hh Hl].
  destruct (init_vmem_run w ∅ all_pages [] Hmi Hcm Hh Hl) as (x & w' & tabs' & fl' & Hrun & B).
  assert (Hx : valid_address x = true).
  { destruct (kb_fl _ _ _ _ _ _ _ _ _ B) as (used & Hf & _). apply (elem_of_all_pages x).
    rewrite Hf. by left. }
  set (w1 := set_csr (<[(w_hart w', satp) := (KPA2PA x .>> 12) .| ATP_MODE_SV39]> (w_csr w')) w').
  set (s := mk_hart (λ n, if (n =? 2)%nat then cpu_addr 1 + 0x2f00 else if (n =? 8)%nat then cpu_addr 1 + 0x3000
                          else if (n =? 10)%nat then stack_delta 1 else 0) w1).
  destruct (relocate_stack_keeps_stack w ∅ all_pages [] x w' s Hb Hrun) as (s' & v & Hr & Hs & _); rewrite ?Ht.
  - done.
  - apply satp_root_init; [exact Hx|]. change (hw s) with w1. unfold w1. rewrite csr_of_set.
    change (w_hart (set_csr _ w')) with (w_hart w'). by rewrite lookup_insert_eq.
  - done.
  - intros a Ha. rewrite (kb_static _ _ _ _ _ _ _ _ _ B).
    + apply Hm. revert Ha. replace (KVA2PA (cpu_addr 1)) with 0x801f3000 by by vm_compute.
      change CPU_SIZE with 0x3000. unfold DTB_MEMORY, DTB_MEMORY_SIZE. lia.
    + revert Ha. replace (KVA2PA (cpu_addr 1)) with 0x801f3000 by by vm_compute.
      replace (KVA2PA sym_dynamic) with 0x80200000 by by vm_compute. change CPU_SIZE with 0x3000. lia.
    + intros u j Hu. by rewrite lookup_empty in Hu.
  - by vm_compute.
  - by vm_compute.
  - exists s, s'. split; [exact Hr|]. split; [done|]. rewrite Hs, Ht. by vm_compute.
Defined.
