(* ===== verification/CpuConfig.v ===== *)
(** * CpuConfig: which hart runs which VM

    check_cpu_configuration (core/vm_run.c), get_config_for_cpu and get_vhartid
    (virtual/vcpu.c): the check the boot hart runs on the configuration and what
    it guarantees when every hart then looks up its VM. *)

From S2P Require Import Prelude Layout Bits Memory Machine Kmem Cpu Plic Vcpu VmRun VmConfig VplicSpec Concrete.

(** No two VMs share a hart. *)
Fixpoint vms_disjoint (cs : list vm_config) : Prop :=
  match cs with
  | [] => True
  | c :: cs' => Forall (λ c', cpu_affinity c' .& cpu_affinity c = 0) cs' ∧ vms_disjoint cs'
  end.

(** The harts the VMs claim together. *)
Fixpoint total_cpus (cs : list vm_config) : Z :=
  match cs with [] => 0 | c :: cs' => popcount 64 (cpu_affinity c) + total_cpus cs' end.

(** And what the code takes for it: count_set_bits counts the bits from 31 on as one. *)
Definition counted (a : Z) : Z := popcount 31 a + Z.b2z (negb (a / 2 ^ 31 =? 0)).
Fixpoint counted_cpus (cs : list vm_config) : Z :=
  match cs with [] => 0 | c :: cs' => counted (cpu_affinity c) + counted_cpus cs' end.

(** The affinities are of type uint64; the table has a size at which no int overflows. *)
Definition affinities_ok (cs : list vm_config) : Prop :=
  Forall (λ c, 0 <= cpu_affinity c < 2 ^ 64) cs ∧ Z.of_nat (length cs) < 2 ^ 20.

Lemma overlap_loop_false prev a :
  overlap_loop prev a = false ↔ Forall (λ c, a .& cpu_affinity c = 0) prev.
Proof.
  induction prev as [|c prev IH]; cbn [overlap_loop]; [by split|]. rewrite Forall_cons, <- IH.
  destruct (truthy (a .& cpu_affinity c)) eqn:E.
  - apply truthy_true in E. split; [done|]. by intros [? _].
  - apply truthy_false in E. tauto.
Qed.

Lemma check_loop_false prev cs : check_loop prev cs = false ↔
  (∀ c p, c ∈ cs → p ∈ prev → cpu_affinity c .& cpu_affinity p = 0) ∧ vms_disjoint cs.
Proof.
  revert prev. induction cs as [|c cs IH]; intros prev; cbn [check_loop vms_disjoint].
  - split; [|done]. intros _. split; [|done]. by intros c p Hc%not_elem_of_nil.
  - destruct (overlap_loop prev (cpu_affinity c)) eqn:E.
    + split; [done|]. intros [H _]. rewrite (proj2 (overlap_loop_false _ _)) in E; [done|].
      apply Forall_forall. intros p Hp. apply H; [by left|done].
    + apply overlap_loop_false in E. rewrite IH, Forall_forall. rewrite Forall_forall in E. split.
      * intros [H Hd]. split_and!; [|intros c' Hc'; apply H; [done|apply elem_of_app; right; by left]|done].
        intros c' p [->|Hc']%elem_of_cons Hp; [by apply E|]. apply H; [done|]. apply elem_of_app. by left.
      * intros (H & Hc & Hd). split; [|done].
        intros c' p Hc' [Hp| ->%list_elem_of_singleton]%elem_of_app; [apply H; [by right|done]|by apply Hc].
Qed.

Lemma vms_disjoint_lookup cs i j c c' : vms_disjoint cs → cs !! i = Some c → cs !! j = Some c' → i ≠ j →
  cpu_affinity c .& cpu_affinity c' = 0.
Proof.
  revert i j. induction cs as [|a cs IH]; intros i j Hd Hi Hj Hne; [by rewrite lookup_nil in Hi|].
  destruct Hd as [Ha Hd]. rewrite Forall_lookup in Ha. destruct i as [|i], j as [|j]; cbn in Hi, Hj; simplify_eq.
  - rewrite Z.land_comm. by eapply Ha.
  - by eapply Ha.
  - eapply (IH i j); try done. lia.
Qed.

Lemma counted_range a : 0 <= counted a <= 32.
Proof. unfold counted. pose proof (popcount_range 31 a). destruct (negb _); cbn [Z.b2z]; lia. Qed.

Lemma counted_small a : 0 <= a < 2 ^ 31 → counted a = popcount 64 a.
Proof.
  intros Ha. unfold counted. rewrite (Z.div_small _ (2 ^ 31)) by done. change 64%nat with (31 + 33)%nat.
  rewrite popcount_high by done. simpl. lia.
Qed.

Lemma counted_total cs : Forall (λ c, 0 <= cpu_affinity c < 2 ^ 31) cs → counted_cpus cs = total_cpus cs.
Proof. induction 1 as [|c cs Hc _ IH]; cbn [counted_cpus total_cpus]; [done|]. by rewrite counted_small, IH. Qed.

Lemma count_counted a : 0 <= a < 2 ^ 64 → count_set_bits a = counted a.
Proof. exact (count_set_bits_closed a). Qed.

Lemma count_cpus_counted cs n : Forall (λ c, 0 <= cpu_affinity c < 2 ^ 64) cs →
  0 <= n → n + 32 * Z.of_nat (length cs) < 2 ^ 31 → count_cpus cs n = n + counted_cpus cs.
Proof.
  intros Hf. revert n. induction Hf as [|c cs Hc _ IH]; intros n Hn Hlt; cbn [count_cpus counted_cpus]; [lia|].
  cbn [length] in Hlt. pose proof (counted_range (cpu_affinity c)) as Hr. rewrite (count_counted (cpu_affinity c)) by exact Hc. revert Hr.
  generalize (counted (cpu_affinity c)). intros k Hk. rewrite s32_id by lia. rewrite IH by lia. lia.
Qed.

Section check.
Context {D : Type}.
Implicit Type w : world D.

Lemma check_run w : affinities_ok (w_config w) →
  (vms_disjoint (w_config w) ∧ counted_cpus (w_config w) = DTB_NR_CPUS ∧
     check_cpu_configuration w = Ok tt w) ∨
  (¬ (vms_disjoint (w_config w) ∧ counted_cpus (w_config w) = DTB_NR_CPUS) ∧
     ∃ msg, check_cpu_configuration w = Panic msg w).
Proof.
  intros [Hf Hl]. unfold check_cpu_configuration. csimp.
  destruct (check_loop [] (w_config w)) eqn:E.
  - right. split; [|by eexists]. intros [Hd _].
    rewrite (proj2 (check_loop_false [] _)) in E; [done|]. split; [|done]. by intros c p _ Hp%not_elem_of_nil.
  - apply check_loop_false in E as [_ Hd]. rewrite count_cpus_counted by (done || lia).
    rewrite Z.add_0_l. destruct (Z.eqb_spec (counted_cpus (w_config w)) DTB_NR_CPUS) as [Et|Et]; cbn [negb].
    + by left.
    + right. split; [by intros [_ ?]|by eexists].
Qed.

(** C30: check_cpu_configuration, for any 64-bit affinities: it accepts a
    configuration exactly when no two VMs claim the same hart and the harts, as
    count_set_bits counts them (bits 31 to 63 of an affinity count as one), are as
    many as the machine has, and panics otherwise; it changes nothing.  When no
    affinity has a bit above 30 the count is the number of harts claimed. *)
Theorem check_cpu_configuration_correct w : affinities_ok (w_config w) →
  (check_cpu_configuration w = Ok tt w ↔
     vms_disjoint (w_config w) ∧ counted_cpus (w_config w) = DTB_NR_CPUS) ∧
  (check_cpu_configuration w = Ok tt w ∨ ∃ msg, check_cpu_configuration w = Panic msg w) ∧
  (Forall (λ c, cpu_affinity c < 2 ^ 31) (w_config w) → counted_cpus (w_config w) = total_cpus (w_config w)).
Proof.
  intros Hok. destruct (check_run w Hok) as [(Hd & Ht & ->)|(Hn & msg & Hm)].
  all: destruct Hok as [Hf _]; split; [|split; [|intros H31; apply counted_total; eapply Forall_impl;
    [apply Forall_and; split; [exact Hf|exact H31]|]; cbn beta; lia]].
  - done.
  - by left.
  - rewrite Hm. split; [done|]. intros H. by destruct Hn.
  - right. by eexists.
Qed.

(** ** Every hart finds its VM *)

(** How many VMs contain hart [h]. *)
Fixpoint vms_with (cs : list vm_config) (h : Z) : Z :=
  match cs with [] => 0 | c :: cs' => Z.b2z (Z.testbit (cpu_affinity c) h) + vms_with cs' h end.

Lemma vms_with_0 cs h a : 0 <= h → Forall (λ c', cpu_affinity c' .& a = 0) cs →
  Z.testbit a h = true → vms_with cs h = 0.
Proof.
  intros Hh Hf Ha. induction Hf as [|c cs Hc _ IH]; cbn [vms_with]; [done|]. rewrite IH.
  assert (E : Z.testbit (cpu_affinity c .& a) h = false) by (by rewrite Hc, Z.bits_0).
  rewrite Z.land_spec, Ha, andb_true_r in E. by rewrite E.
Qed.

Lemma vms_with_le cs h : 0 <= h → vms_disjoint cs → 0 <= vms_with cs h <= 1.
Proof.
  intros Hh. induction cs as [|c cs IH]; cbn [vms_with vms_disjoint]; [lia|]. intros [Hf Hd].
  specialize (IH Hd). destruct (Z.testbit (cpu_affinity c) h) eqn:E; cbn [Z.b2z]; [|lia].
  rewrite (vms_with_0 cs h (cpu_affinity c)) by done. lia.
Qed.

Lemma popcount_two a : 0 <= a < 4 → popcount 64 a = Z.b2z (Z.testbit a 0) + Z.b2z (Z.testbit a 1).
Proof.
  intros Ha. change 64%nat with (2 + 62)%nat. rewrite popcount_high by (change (2 ^ Z.of_nat 2) with 4; lia).
  cbn [popcount]. change (Z.of_nat 0) with 0. change (Z.of_nat 1) with 1. lia.
Qed.

Lemma total_two cs : Forall (λ c, 0 <= cpu_affinity c < 4) cs → total_cpus cs = vms_with cs 0 + vms_with cs 1.
Proof.
  induction 1 as [|c cs Hc _ IH]; cbn [total_cpus vms_with]; [done|]. rewrite popcount_two by done. lia.
Qed.

Lemma vms_with_some cs h : vms_with cs h ≠ 0 → ∃ k c, cs !! k = Some c ∧ Z.testbit (cpu_affinity c) h = true.
Proof.
  induction cs as [|c cs IH]; cbn [vms_with]; [done|].
  destruct (Z.testbit (cpu_affinity c) h) eqn:E; cbn [Z.b2z].
  - intros _. by exists 0%nat, c.
  - intros H. destruct IH as (k & c' & Hk & Ht); [lia|]. by exists (S k), c'.
Qed.

(** The lookup fails only when no VM has the hart. *)
Lemma config_loop_total cs i h k c : 0 <= h < 31 → cs !! k = Some c →
  Z.testbit (cpu_affinity c) h = true → ∃ j, config_loop cs i h = Some j.
Proof.
  intros Hh. revert i k. induction cs as [|c0 cs IH]; intros i [|k]; cbn [config_loop]; try done.
  - intros [= ->] Ht. rewrite land_hart_bit, Ht by done. by eexists.
  - intros Hk Ht. destruct (truthy _); [by eexists|]. by apply (IH (S i) k).
Qed.

(** C31: when every affinity names existing harts only, a configuration that
    passes the check gives every hart of the machine one and only one VM, so
    get_config_for_cpu returns it and never panics. *)
Theorem checked_harts_have_one_vm w h : affinities_ok (w_config w) →
  Forall (λ c, 0 <= cpu_affinity c < 2 ^ DTB_NR_CPUS) (w_config w) →
  check_cpu_configuration w = Ok tt w → 0 <= h < DTB_NR_CPUS →
  ∃ k c, get_config_for_cpu h w = Ok k w ∧ w_config w !! k = Some c ∧
    Z.testbit (cpu_affinity c) h = true ∧ vms_with (w_config w) h = 1.
Proof.
  intros Hok Hf Hchk Hh. unfold DTB_NR_CPUS in *. change (2 ^ 2) with 4 in Hf.
  destruct (check_run w Hok) as [(Hd & Ht & _)|(_ & msg & Hm)]; [|congruence].
  rewrite counted_total, total_two in Ht by (done || (eapply Forall_impl; [exact Hf|cbn beta; lia])). unfold DTB_NR_CPUS in Ht.
  pose proof (vms_with_le (w_config w) 0 ltac:(lia) Hd). pose proof (vms_with_le (w_config w) 1 ltac:(lia) Hd).
  assert (H1 : vms_with (w_config w) h = 1).
  { destruct (decide (h = 0)) as [->|]; [lia|]. replace h with 1 by lia. lia. }
  destruct (vms_with_some (w_config w) h) as (k0 & c0 & Hk0 & Ht0); [lia|].
  destruct (config_loop_total (w_config w) 0 h k0 c0) as [j Hj]; [lia|done|done|].
  pose proof Hj as (j' & c & -> & Hc & Htc & _)%config_loop_spec; [|lia].
  exists j', c. split; [|done]. unfold get_config_for_cpu. csimp. by rewrite Hj.
Qed.

(** The check alone does not guarantee that: it counts affinity bits without
    requiring them to name existing harts.  With one VM on hart 0 and one on the
    absent hart 2 the check passes on the two-hart machine, and hart 1 then
    panics in get_config_for_cpu ("No way ..."). *)
Theorem check_misses_absent_hart w c0 c1 : w_config w = [c0; c1] →
  cpu_affinity c0 = 0x1 → cpu_affinity c1 = 0x4 →
  check_cpu_configuration w = Ok tt w ∧
  get_config_for_cpu 1 w = Panic "No way (CPU configuration was already checked)" w.
Proof.
  intros Hc H0 H1. split.
  - unfold check_cpu_configuration. csimp. rewrite Hc. cbn [check_loop overlap_loop app count_cpus].
    by rewrite H0, H1.
  - unfold get_config_for_cpu. csimp. rewrite Hc. cbn [config_loop]. by rewrite H0, H1.
Qed.
End check.

(** ** Virtual hart ids *)

Lemma popcount_onto a n id : 0 <= id < popcount n a →
  ∃ k, (k < n)%nat ∧ Z.testbit a (Z.of_nat k) = true ∧ popcount k a = id.
Proof.
  induction n as [|n IH]; cbn [popcount]; [lia|]. intros Hid.
  destruct (decide (id < popcount n a)) as [Hlt|Hge].
  - destruct IH as (k & Hk & Hb & Hp); [lia|]. exists k. split_and!; [lia|done|done].
  - exists n. destruct (Z.testbit a (Z.of_nat n)) eqn:E; cbn [Z.b2z] in Hid; [|lia].
    split_and!; [lia|done|lia].
Qed.

(** Get_vhartid numbers the harts of a VM from 0 without gaps, in hart
    order: the id is the number of the VM's harts below, so it is below the VM's
    hart count, different harts get different ids, the first hart gets 0 (as the
    privileged specification requires of some hart), and every id below the
    count is given out. *)
Theorem get_vhartid_numbers a h : 0 <= a < 2 ^ 31 → 0 <= h < 31 → Z.testbit a h = true →
  0 <= get_vhartid h a < popcount 31 a ∧
  (∀ h', 0 <= h' < 31 → Z.testbit a h' = true → get_vhartid h' a = get_vhartid h a → h' = h) ∧
  (∀ id, 0 <= id < popcount 31 a → ∃ h', 0 <= h' < 31 ∧ Z.testbit a h' = true ∧ get_vhartid h' a = id).
Proof.
  intros Ha Hh Hb. rewrite get_vhartid_spec by lia. rewrite <- (Z2Nat.id h) in Hb by lia. split_and!.
  - apply popcount_range.
  - apply (popcount_lt a _ 31); [lia|done].
  - intros h' Hh' Hb' E. rewrite get_vhartid_spec in E by lia. rewrite <- (Z2Nat.id h') in Hb' by lia.
    destruct (decide (Z.to_nat h' < Z.to_nat h)%nat) as [Hlt|Hge].
    { pose proof (popcount_lt a _ _ Hlt Hb'). lia. }
    destruct (decide (Z.to_nat h < Z.to_nat h')%nat) as [Hlt|]; [|lia].
    pose proof (popcount_lt a _ _ Hlt Hb). lia.
  - intros id (k & Hk & Hbk & Hp)%popcount_onto. exists (Z.of_nat k).
    rewrite get_vhartid_spec, Nat2Z.id by lia. split_and!; [lia|lia|done|done].
Qed.

(** ** The theorems at work *)

Lemma demo_affinities {D} m (d : D) vs cs h : affinities_ok (w_config (demo_world m d vs cs h)).
Proof. split; [|done]. by repeat constructor. Qed.

Lemma check_cpu_configuration_correct_witness :
  let w := demo_world ∅ (∅ : plic_regs) [] ∅ 0 in check_cpu_configuration w = Ok tt w.
Proof.
  intros w. apply (check_cpu_configuration_correct w (demo_affinities _ _ _ _ _)).
  split; [by repeat constructor|done].
Defined.

Lemma checked_harts_have_one_vm_witness :
  let w := demo_world ∅ (∅ : plic_regs) [] ∅ 0 in
  ∃ k c, get_config_for_cpu 1 w = Ok k w ∧ w_config w !! k = Some c.
Proof.
  intros w. destruct (checked_harts_have_one_vm w 1 (demo_affinities _ _ _ _ _)) as (k & c & Hk & Hc & _).
  - by repeat constructor.
  - done.
  - done.
  - by exists k, c.
Defined.

Lemma check_misses_absent_hart_witness : ∃ w : world plic_regs,
  check_cpu_configuration w = Ok tt w ∧
  get_config_for_cpu 1 w = Panic "No way (CPU configuration was already checked)" w.
Proof.
  set (vm a := mk_vm_config a 0 0 0 0 0 [] (mk_barrier 0 0 0 0) 0).
  exists (set_config [vm 0x1; vm 0x4] (demo_world ∅ (∅ : plic_regs) [] ∅ 0)).
  by apply (check_misses_absent_hart _ (vm 0x1) (vm 0x4)).
Defined.

Lemma get_vhartid_numbers_witness : get_vhartid 3 0xc = 1 ∧ 0 <= get_vhartid 3 0xc < popcount 31 0xc.
Proof. split; [done|]. by apply (get_vhartid_numbers 0xc 3). Defined.
