(* ===== verification/MemTheorems.v ===== *)
(** * MemTheorems: correctness of the allocator and of the page tables

    mem/kmem.c and mem/vmem.c: what the operations promise, in terms of the
    free list, of the MMU's translation (Sv39.v) and of the rest of memory. *)

From S2P Require Import Prelude Layout Bits Memory Machine Kmem Vmem PageTable VmemSpec Sv39 Plic Vcpu VplicSpec VmConfig Concrete.

(** ** The allocator *)

Section allocator.
Context {D : Type} {L : Linker} `{!LinkerOk L}.
Implicit Types (w : world D) (fl : list Z).

(** Kmalloc returns the page at the head of the free list, zero-filled, and
    takes exactly that page off the list; no other byte of memory and no other
    variable changes. *)
Theorem kmalloc_takes_head w x fl : kmem_inv w (x :: fl) →
  ∃ w', kmalloc w = Ok x w' ∧ kmem_inv w' fl ∧ mem_only w w' ∧
    zeroed (w_mem w') (KPA2PA x) PAGE_SIZE ∧
    ∀ a, ¬ (KPA2PA x <= a < KPA2PA x + PAGE_SIZE) → w_mem w' !! a = w_mem w !! a.
Proof. intros H. destruct (kmalloc_ok _ _ _ H) as (w' & ? & ? & ? & ? & ?). by exists w'. Qed.

(** Kmalloc does not report exhaustion: with no free page it clears a page at
    address 0, where no memory is mapped, and faults instead of returning 0. *)
Theorem kmalloc_exhausted w : kmem_inv w [] → kmalloc w = Fault 0 w.
Proof. apply kmalloc_empty. Qed.

(** C27: kfree refuses every address that is not a page of the dynamic region,
    and a page that is freed is the next one allocated: freeing then allocating
    gives the page back, cleared, with the free list as it was. *)
Theorem kfree_kmalloc_roundtrip w x fl : kmem_inv w fl →
  (valid_address x = false → kfree x w = Panic "kfree" w) ∧
  (valid_address x = true → x ∉ fl → has_bytes (w_mem w) (KPA2PA x) PAGE_SIZE →
   ∃ w1 w2, kfree x w = Ok tt w1 ∧ kmem_inv w1 (x :: fl) ∧
     kmalloc w1 = Ok x w2 ∧ kmem_inv w2 fl ∧ zeroed (w_mem w2) (KPA2PA x) PAGE_SIZE ∧
     mem_only w w2 ∧
     ∀ a, ¬ (KPA2PA x <= a < KPA2PA x + PAGE_SIZE) → w_mem w2 !! a = w_mem w !! a).
Proof.
  intros Hinv. split.
  - intros Hx. unfold kfree. by rewrite Hx.
  - intros Hx Hni Hpg. destruct (kfree_ok w x fl Hinv Hx Hni Hpg) as (w1 & H1 & Hi1 & Ho1 & Hf1).
    destruct (kmalloc_ok w1 x fl Hi1) as (w2 & H2 & Hi2 & Ho2 & Hz & Hf2).
    exists w1, w2. split_and!; [done..|by etrans|]. intros a Ha.
    rewrite Hf2 by done. apply Hf1. unfold PAGE_SIZE in Ha. lia.
Qed.

(** C26: init_kmem terminates and hands over to the allocator every page of the
    dynamic region, each once, and no other page. *)
Theorem init_kmem_all_pages w :
  kmem_lk (w_kmem w) = 0 → freelist (w_kmem w) = 0 → ram_ok (w_mem w) →
  ∃ w' fl, init_kmem w = Ok tt w' ∧ kmem_inv w' fl ∧ mem_only w w' ∧
    NoDup fl ∧ ∀ p, p ∈ fl ↔ valid_address p = true.
Proof.
  intros Hl Hf Hr. destruct (init_kmem_ok w Hl Hf Hr) as (w' & Hrun & Hinv & Ho & _).
  exists w', all_pages. split_and!; [done..|apply Hinv|apply elem_of_all_pages].
Qed.
End allocator.

(** ** Page tables *)

Section tables.
Context {D : Type} {L : Linker} `{!LinkerOk L}.
Implicit Types (w : world D) (tabs : gmap Z tab) (fl data : list Z).

(** Map_page on an unmapped page, with two free pages for tables at most,
    succeeds; afterwards the MMU translates every address of that page to the
    given physical page exactly for the accesses the flags allow, and translates
    every other page of this and of every other tree as before. *)
Theorem map_page_translates w tabs fl data pgtable r x4 va pa flags :
  mem_inv w tabs fl data → root_ptr tabs pgtable r x4 →
  0 <= pa < 2 ^ 56 → 0 <= flags < 1024 →
  pt_look (w_mem w) 2 r (vpn va (truthy x4)) = None → (2 <= length fl)%nat →
  ∃ w' tabs' fl', map_page pgtable va pa flags x4 w = Ok 0 w' ∧
    mem_inv w' tabs' fl' data ∧ mem_only w w' ∧ tabs ⊆ tabs' ∧
    ∀ r' b a va', is_root tabs r' b →
      hw_translate (w_mem w') b r' a va' =
      if decide (r' = r ∧ vpn va' b = vpn va (truthy x4))
      then if access_ok b flags a && in_space b va' then Some (pa / 4096 * 4096 + va' mod 4096) else None
      else hw_translate (w_mem w) b r' a va'.
Proof.
  intros Hmi Hroot Hpa Hfl Hun Hlen.
  pose proof (missing_le (w_mem w) 2 r (vpn va (truthy x4))).
  destruct (map_page_ok w tabs fl data pgtable r x4 va pa flags) as (w' & tabs' & fl' & Hrun & _ & S & _);
    [done..|lia|].
  exists w', tabs', fl'. split_and!; [done|apply S|apply S|apply S|].
  intros r' b a va' Hr'. rewrite (hw_translate_step _ _ _ _ _ _ _ _ _ _ _ _ _ Hmi S Hr').
  destruct (decide _); [by apply entry_translate_leaf|done].
Qed.

(** Map_page refuses to remap: when the page is mapped it panics and the
    world is unchanged. *)
Theorem map_page_no_remap w tabs fl data pgtable r x4 va pa flags e :
  mem_inv w tabs fl data → root_ptr tabs pgtable r x4 →
  pt_look (w_mem w) 2 r (vpn va (truthy x4)) = Some e →
  map_page pgtable va pa flags x4 w = Panic "tried to remap page" w.
Proof.
  intros Hmi Hroot Hl. pose proof Hroot as [Hr Hk]. pose proof (mi_pt _ _ _ _ Hmi) as Hpt.
  pose proof (root_path _ _ _ _ Hr (vpn_range va (truthy x4))) as Hp.
  destruct (mapped_slot _ _ _ _ _ Hl) as (s & Hs & He & Hv).
  destruct (walk_loop_mapped 2 w tabs pgtable r _ va x4 s Hpt Hp Hk Hs) as (ptr & Hrun & Hptr & Hnz).
  unfold map_page, walk. rewrite (root_ptr_nz tabs pgtable r x4 Hroot).
  change (Z.to_nat (LEVELS - 1)) with 2%nat. erewrite bind_ok by exact Hrun.
  rewrite (proj2 (Z.eqb_neq ptr 0) Hnz). cbn iota.
  erewrite bind_ok by (eapply load64_ok; [exact Hptr|exact He]). by rewrite truthy_PTE_V, Hv.
Qed.

(** Map_pages with a physical address maps PGROUNDUP(size) / PAGE_SIZE
    consecutive pages to consecutive physical pages with the given flags, and
    changes no other translation in any tree; it needs free pages for tables
    only. *)
Theorem map_pages_translates w tabs fl data pgtable r x4 va pa size flags n :
  mem_inv w tabs fl data → root_ptr tabs pgtable r x4 →
  0 < pa → pa + PAGE_SIZE * Z.of_nat n <= 2 ^ 56 → 0 <= flags < 1024 →
  0 <= va → va + PAGE_SIZE * Z.of_nat n < 2 ^ 64 →
  let v := vpn va (truthy x4) in
  v + Z.of_nat n <= vpn_bound (truthy x4) →
  PGROUNDUP size = PAGE_SIZE * Z.of_nat n →
  (∀ j, v <= j < v + Z.of_nat n → pt_look (w_mem w) 2 r j = None) →
  (tables_needed (w_mem w) r v n <= length fl)%nat →
  ∃ w' tabs' fl', map_pages pgtable va pa size flags x4 w = Ok 0 w' ∧
    mem_inv w' tabs' fl' data ∧ mem_only w w' ∧ tabs ⊆ tabs' ∧
    ∀ r' b a va', is_root tabs r' b →
      hw_translate (w_mem w') b r' a va' =
      if decide (r' = r ∧ v <= vpn va' b < v + Z.of_nat n)
      then if access_ok b flags a && in_space b va'
           then Some ((pa + PAGE_SIZE * (vpn va' b - v)) / 4096 * 4096 + va' mod 4096) else None
      else hw_translate (w_mem w) b r' a va'.
Proof.
  intros Hmi Hroot Hpa Hpa' Hfl Hva Hva' v Hb Hsz Hun Hnd.
  destruct (map_pages_fixed w tabs fl data pgtable r x4 va pa size flags n)
    as (w' & tabs' & fl' & Hrun & _ & S); [done..|].
  exists w', tabs', fl'. split_and!; [done|apply S|apply S|apply S|].
  intros r' b a va' Hr'. rewrite (hw_translate_step _ _ _ _ _ _ _ _ _ _ _ _ _ Hmi S Hr'), upd_fixed.
  fold v. destruct (decide _) as [[-> Hin]|]; [|done]. apply entry_translate_leaf; [|done].
  unfold PAGE_SIZE in *. lia.
Qed.

(** Map_pages with physical address 0 maps freshly allocated pages: distinct
    free pages, zero-filled, that belong to no table and to no earlier data, so
    the memory it gives out is shared with nobody. *)
Theorem map_pages_allocates w tabs fl data pgtable r x4 va size flags n :
  mem_inv w tabs fl data → root_ptr tabs pgtable r x4 → 0 <= flags < 1024 →
  0 <= va → va + PAGE_SIZE * Z.of_nat n < 2 ^ 64 →
  let v := vpn va (truthy x4) in
  v + Z.of_nat n <= vpn_bound (truthy x4) →
  PGROUNDUP size = PAGE_SIZE * Z.of_nat n →
  (∀ j, v <= j < v + Z.of_nat n → pt_look (w_mem w) 2 r j = None) →
  (n + tables_needed (w_mem w) r v n <= length fl)%nat →
  ∃ w' tabs' fl' pages, map_pages pgtable va 0 size flags x4 w = Ok 0 w' ∧
    length pages = n ∧ NoDup pages ∧
    (∀ x, x ∈ pages → x ∈ fl ∧ (x ∉ fl') ∧ (x ∉ data) ∧ zeroed (w_mem w') (KPA2PA x) PAGE_SIZE ∧
      ∀ t i, tabs' !! t = Some i → KPA2PA x + PAGE_SIZE <= t ∨ t + tsize i <= KPA2PA x) ∧
    mem_inv w' tabs' fl' (reverse pages ++ data) ∧ mem_only w w' ∧ tabs ⊆ tabs' ∧
    ∀ r' b a va', is_root tabs r' b →
      hw_translate (w_mem w') b r' a va' =
      match upd_list r v (KPA2PA <$> pages) flags r' (vpn va' b) with
      | Some e => entry_translate b e a va'
      | None => hw_translate (w_mem w) b r' a va'
      end.
Proof.
  intros Hmi Hroot Hfl Hva Hva' v Hb Hsz Hun Hnd.
  destruct (map_pages_fresh w tabs fl data pgtable r x4 va size flags n)
    as (w' & tabs' & fl' & pages & Hrun & Hlen & _ & S); [done..|].
  pose proof (s_inv _ _ _ _ _ _ _ _ _ S) as Hmi'.
  pose proof (mi_nodup _ _ _ _ Hmi') as (_ & Hd1 & (Hnp & Hd2 & _)%NoDup_app)%NoDup_app.
  destruct (s_fl _ _ _ _ _ _ _ _ _ S) as (used & Hf & Hsub).
  exists w', tabs', fl', pages. split_and!; [done|done|by rewrite <- (reverse_Permutation pages)| |done|apply S|apply S|].
  - intros x Hx. assert (Hxr : x ∈ reverse pages) by by apply elem_of_reverse.
    split_and!.
    + rewrite Hf, elem_of_app. left. by apply Hsub.
    + intros Hx'. apply (Hd1 x Hx'). apply elem_of_app. by left.
    + by apply Hd2.
    + by apply (s_zero _ _ _ _ _ _ _ _ _ S).
    + intros t i Ht. apply (mi_free _ _ _ _ Hmi' x t i); [|done]. rewrite !elem_of_app. auto.
  - intros r' b a va' Hr'. by apply (hw_translate_step _ _ _ _ _ _ _ _ _ _ _ _ _ Hmi S Hr').
Qed.

(** C25: convert_va_to_pa agrees with the MMU: whenever an access to [va]
    translates, it returns that physical address, and changes nothing. *)
Theorem convert_va_to_pa_agrees w tabs pgtable r x4 va e a p :
  pt_inv (w_mem w) tabs → root_ptr tabs pgtable r x4 →
  pt_look (w_mem w) 2 r (vpn va (truthy x4)) = Some e → 0 <= e < 2 ^ 54 →
  hw_translate (w_mem w) (truthy x4) r a va = Some p →
  convert_va_to_pa pgtable va x4 w = Ok p w.
Proof.
  intros Hpt Hroot Hl He Hhw. destruct (mapped_slot _ _ _ _ _ Hl) as (s & Hs & Hrd & _).
  pose proof (convert_run w tabs pgtable r x4 va Hpt Hroot) as Hc. rewrite Hs in Hc.
  destruct Hc as (e' & Hrd' & ->). rewrite Hrd in Hrd'. injection Hrd' as <-.
  rewrite (hw_translate_look w tabs), Hl in Hhw by (done || apply Hroot).
  cbn [mbind option_bind] in Hhw. unfold entry_translate, leaf_result in Hhw.
  destruct (_ && pte_W e); [done|]. destruct (pte_R e || pte_X e); [|done].
  cbn [mbind option_bind] in Hhw. destruct (_ && _); [|done]. injection Hhw as <-.
  f_equal. rewrite PTE2PA_ppn by done. rewrite get_value_spec, Z.div_1_r by lia.
  change 4096 with (2 ^ 12). apply lor_mul_add; [lia|]. apply Z.mod_pos_bound. lia.
Qed.

(** On an address that is not mapped, convert_va_to_pa panics only when a
    table is missing; when the leaf table exists and the entry is empty it
    returns the page offset, as if the page were mapped to physical page 0. *)
Theorem convert_va_to_pa_unmapped w tabs pgtable r x4 va :
  pt_inv (w_mem w) tabs → root_ptr tabs pgtable r x4 →
  match pt_slot (w_mem w) 2 r (vpn va (truthy x4)) with
  | None => convert_va_to_pa pgtable va x4 w = Panic "bad walk for va" w
  | Some s => rd64 (w_mem w) s = Some 0 → convert_va_to_pa pgtable va x4 w = Ok (va mod 4096) w
  end.
Proof.
  intros Hpt Hroot. pose proof (convert_run w tabs pgtable r x4 va Hpt Hroot) as Hc.
  destruct (pt_slot _ _ _ _) as [s|]; [|done]. destruct Hc as (e & He & ->).
  intros H0. rewrite He in H0. injection H0 as ->.
  rewrite get_value_spec, Z.div_1_r by lia. done.
Qed.

(** A page mapped for emulation - permission bits 0, so flags [PTE_U] - is
    one every guest access to which faults, while convert_va_to_pa still finds
    the physical address behind it; the trap handler relies on both. *)
Theorem emulated_page_traps w tabs fl data pgtable r va pa :
  mem_inv w tabs fl data → root_ptr tabs pgtable r 1 → 0 <= pa < 2 ^ 56 →
  pt_look (w_mem w) 2 r (vpn va true) = None → (2 <= length fl)%nat →
  ∃ w', map_page pgtable va pa (0 .| PTE_U) 1 w = Ok 0 w' ∧
    (∀ a va', vpn va' true = vpn va true → hw_translate (w_mem w') true r a va' = None) ∧
    (∀ va', vpn va' true = vpn va true →
       convert_va_to_pa pgtable va' 1 w' = Ok (pa / 4096 * 4096 + va' mod 4096) w').
Proof.
  intros Hmi Hroot Hpa Hun Hlen. pose proof (missing_le (w_mem w) 2 r (vpn va true)).
  destruct (map_page_ok w tabs fl data pgtable r 1 va pa (0 .| PTE_U))
    as (w' & tabs' & fl' & Hrun & _ & S & _); [done..|change (truthy 1) with true; lia|].
  change (truthy 1) with true in S. exists w'. split_and!; [done|..].
  - intros a va' Hv. rewrite (hw_translate_step _ _ _ _ _ _ _ _ _ _ _ _ _ Hmi S (proj1 Hroot)).
    rewrite decide_True by done. rewrite entry_translate_leaf by done. by destruct a.
  - intros va' Hv. pose proof (pt_step_root _ _ _ _ _ _ _ _ _ _ _ _ S Hroot) as Hroot'.
    assert (Hl : pt_look (w_mem w') 2 r (vpn va' true) = Some (leaf_pte pa (0 .| PTE_U))).
    { rewrite (s_look _ _ _ _ _ _ _ _ _ S r true) by (apply Hroot || apply vpn_range).
      by rewrite decide_True. }
    destruct (mapped_slot _ _ _ _ _ Hl) as (s & Hs & Hrd & _).
    pose proof (convert_run w' tabs' pgtable r 1 va'
      (mi_pt _ _ _ _ (s_inv _ _ _ _ _ _ _ _ _ S)) Hroot') as Hc.
    change (truthy 1) with true in Hc. rewrite Hs in Hc.
    destruct Hc as (e' & Hrd' & ->). rewrite Hrd in Hrd'. injection Hrd' as <-.
    rewrite PTE2PA_ppn, leaf_ppn by (done || by apply leaf_pte_range).
    rewrite get_value_spec, Z.div_1_r by lia. f_equal.
    change 4096 with (2 ^ 12). apply lor_mul_add; [lia|]. apply Z.mod_pos_bound. lia.
Qed.
End tables.

(** ** The theorems at work *)

Lemma kmalloc_takes_head_witness : ∃ (w : world plic_regs) x fl w',
  kmem_inv w (x :: fl) ∧ kmalloc w = Ok x w' ∧ kmem_inv w' fl.
Proof.
  destruct (demo_boot ∅ [] ∅ 0) as (m & k & Hinv & _).
  destruct (demo_pages 1 ltac:(done)) as (l & fl & Hp & Hl).
  destruct l as [|x [|? ?]]; [done| |done]. rewrite Hp in Hinv.
  destruct (kmalloc_takes_head _ x fl Hinv) as (w' & Hrun & Hi & _).
  by exists (set_mem m (set_kmem k (demo_world ∅ ∅ [] ∅ 0))), x, fl, w'.
Defined.

Lemma kmalloc_exhausted_witness : ∃ w : world plic_regs, kmem_inv w [] ∧ kmalloc w = Fault 0 w.
Proof.
  destruct zero_ram as [m Hm]. exists (demo_world m ∅ [] ∅ 0).
  assert (Hi : kmem_inv (demo_world m (∅ : plic_regs) [] ∅ 0) []).
  { split_and!; [done|done|constructor|by intros x ?%not_elem_of_nil]. }
  split; [exact Hi|exact (kmalloc_exhausted _ Hi)].
Defined.

Lemma kfree_kmalloc_roundtrip_witness : ∃ (w : world plic_regs) w1 w2,
  let x := VAS_RAM + 0x200000 in
  kfree 0x1000 w = Panic "kfree" w ∧ kfree x w = Ok tt w1 ∧ kmalloc w1 = Ok x w2.
Proof.
  destruct zero_ram as [m Hm]. set (w := demo_world m (∅ : plic_regs) [] ∅ 0).
  assert (Hi : kmem_inv w []).
  { split_and!; [done|done|constructor|by intros x ?%not_elem_of_nil]. }
  destruct (kfree_kmalloc_roundtrip w 0x1000 [] Hi) as [Hbad _].
  destruct (kfree_kmalloc_roundtrip w (VAS_RAM + 0x200000) [] Hi) as [_ Hok].
  destruct Hok as (w1 & w2 & H1 & _ & H2 & _); [by vm_compute|apply not_elem_of_nil|eapply has_bytes_sub;
    [exact (zeroed_has_bytes _ _ _ Hm)|by vm_compute|by vm_compute]|].
  exists w, w1, w2. split; [apply Hbad; by vm_compute|]. split; [exact H1|exact H2].
Defined.

Lemma init_kmem_all_pages_witness : ∃ (w : world plic_regs) w' fl,
  init_kmem w = Ok tt w' ∧ kmem_inv w' fl ∧ VAS_RAM + 0x200000 ∈ fl.
Proof.
  destruct zero_ram as [m Hm]. set (w := demo_world m (∅ : plic_regs) [] ∅ 0).
  destruct (init_kmem_all_pages w) as (w' & fl & Hrun & Hinv & _ & _ & Hfl); [done|done| |].
  - eapply has_bytes_sub; [exact (zeroed_has_bytes _ _ _ Hm)|by vm_compute|by vm_compute].
  - exists w, w', fl. split; [exact Hrun|]. split; [exact Hinv|]. apply Hfl. by vm_compute.
Defined.

(** Mapping the serial line's page in an empty kernel tree: the MMU then reads and
    writes it, and does not execute it. *)
Lemma map_page_translates_witness : ∃ (w w' : world plic_regs) x,
  map_page x DTB_SERIAL DTB_SERIAL (PTE_R .| PTE_W) 0 w = Ok 0 w' ∧
  hw_translate (w_mem w') false (KPA2PA x) AWrite (DTB_SERIAL + 5) = Some (DTB_SERIAL + 5) ∧
  hw_translate (w_mem w') false (KPA2PA x) AExec (DTB_SERIAL + 5) = None.
Proof.
  destruct demo_root as (w & x & fl & Hmi & Hroot & Hlen & Hun).
  destruct (map_page_translates w _ fl [] x (KPA2PA x) 0 DTB_SERIAL DTB_SERIAL (PTE_R .| PTE_W) Hmi Hroot)
    as (w' & tabs' & fl' & Hrun & _ & _ & _ & Htr);
    [by vm_compute|by vm_compute|apply Hun; by vm_compute|lia|].
  exists w, w', x. split; [exact Hrun|].
  rewrite !(Htr (KPA2PA x) false) by apply (proj1 Hroot).
  by rewrite !decide_True by done.
Defined.

Lemma map_page_no_remap_witness : ∃ (w w' : world plic_regs) x,
  map_page x DTB_SERIAL DTB_SERIAL (PTE_R .| PTE_W) 0 w = Ok 0 w' ∧
  map_page x DTB_SERIAL DTB_RTC PTE_R 0 w' = Panic "tried to remap page" w'.
Proof.
  destruct demo_root as (w & x & fl & Hmi & Hroot & Hlen & Hun).
  pose proof (missing_le (w_mem w) 2 (KPA2PA x) (vpn DTB_SERIAL false)) as Hm.
  destruct (map_page_ok w _ fl [] x (KPA2PA x) 0 DTB_SERIAL DTB_SERIAL (PTE_R .| PTE_W) Hmi Hroot)
    as (w' & tabs' & fl' & Hrun & _ & S & _);
    [by vm_compute|by vm_compute|apply Hun; by vm_compute|change (truthy 0) with false; lia|].
  exists w, w', x. split; [exact Hrun|].
  apply (map_page_no_remap w' tabs' fl' [] x (KPA2PA x) 0 DTB_SERIAL DTB_RTC PTE_R
    (leaf_pte DTB_SERIAL (PTE_R .| PTE_W))).
  - apply S.
  - exact (pt_step_root _ _ _ _ _ _ _ _ _ _ _ _ S Hroot).
  - rewrite (s_look _ _ _ _ _ _ _ _ _ S (KPA2PA x) false) by (apply Hroot || by vm_compute).
    by rewrite decide_True.
Defined.

(** The CLINT, sixteen pages. *)
Lemma map_pages_translates_witness : ∃ (w w' : world plic_regs) x,
  map_pages x DTB_CLINT DTB_CLINT DTB_CLINT_SIZE (PTE_R .| PTE_W) 0 w = Ok 0 w' ∧
  hw_translate (w_mem w') false (KPA2PA x) ARead (DTB_CLINT + 0xbff8) = Some (DTB_CLINT + 0xbff8).
Proof.
  destruct demo_root as (w & x & fl & Hmi & Hroot & Hlen & Hun).
  destruct (map_pages_translates w _ fl [] x (KPA2PA x) 0 DTB_CLINT DTB_CLINT DTB_CLINT_SIZE
    (PTE_R .| PTE_W) 16 Hmi Hroot) as (w' & tabs' & fl' & Hrun & _ & _ & _ & Htr);
    [by vm_compute|by vm_compute|by vm_compute|by vm_compute|by vm_compute|by vm_compute|by vm_compute| | |].
  - intros j Hj. change (vpn DTB_CLINT (truthy 0)) with 0x2000 in Hj. apply Hun.
    unfold vpn_bound. lia.
  - pose proof (tables_needed_le (w_mem w) (KPA2PA x) (vpn DTB_CLINT (truthy 0)) 16) as Ht.
    change (vpn DTB_CLINT (truthy 0)) with 0x2000 in *. revert Ht.
    change (2 * Z.to_nat ((0x2000 + Z.of_nat 16 - 1) / 512 - 0x2000 / 512 + 1))%nat with 2%nat. lia.
  - exists w, w', x. split; [exact Hrun|]. rewrite (Htr (KPA2PA x) false) by apply (proj1 Hroot).
    by rewrite decide_True by (split; [done|by vm_compute]).
Defined.

(** Two fresh pages for a guest at its memory base. *)
Lemma map_pages_allocates_witness : ∃ (w w' : world plic_regs) (pages : list Z),
  map_pages (vm_pgtable demo_vm0) 0x80100000 0 0x2000 (PTE_U .| PTE_R) 1 w = Ok 0 w' ∧
  length pages = 2%nat ∧ NoDup pages.
Proof.
  destruct demo_guest_root as (w & fl & Hmi & Hroot & Hlen & Hun).
  destruct (map_pages_allocates w _ fl [] (vm_pgtable demo_vm0) (KVA2PA (vm_pgtable demo_vm0)) 1
    0x80100000 0x2000 (PTE_U .| PTE_R) 2 Hmi Hroot) as (w' & tabs' & fl' & pages & Hrun & Hl & Hnd & _);
    [by vm_compute|by vm_compute|by vm_compute|by vm_compute|by vm_compute| | |].
  - intros j Hj. change (vpn 0x80100000 (truthy 1)) with 0x80100 in Hj. apply Hun.
    unfold vpn_bound. lia.
  - pose proof (tables_needed_le (w_mem w) (KVA2PA (vm_pgtable demo_vm0))
      (vpn 0x80100000 (truthy 1)) 2) as Ht.
    change (vpn 0x80100000 (truthy 1)) with 0x80100 in *. revert Ht.
    change (2 * Z.to_nat ((0x80100 + Z.of_nat 2 - 1) / 512 - 0x80100 / 512 + 1))%nat with 2%nat. lia.
  - by exists w, w', pages.
Defined.

Lemma convert_va_to_pa_agrees_witness : ∃ (w : world plic_regs) x,
  hw_translate (w_mem w) false (KPA2PA x) ARead (DTB_SERIAL + 5) = Some (DTB_SERIAL + 5) ∧
  convert_va_to_pa x (DTB_SERIAL + 5) 0 w = Ok (DTB_SERIAL + 5) w.
Proof.
  destruct demo_root as (w & x & fl & Hmi & Hroot & Hlen & Hun).
  pose proof (missing_le (w_mem w) 2 (KPA2PA x) (vpn DTB_SERIAL false)) as Hm.
  destruct (map_page_ok w _ fl [] x (KPA2PA x) 0 DTB_SERIAL DTB_SERIAL (PTE_R .| PTE_W) Hmi Hroot)
    as (w' & tabs' & fl' & Hrun & _ & S & _);
    [by vm_compute|by vm_compute|apply Hun; by vm_compute|change (truthy 0) with false; lia|].
  assert (Hhw : hw_translate (w_mem w') false (KPA2PA x) ARead (DTB_SERIAL + 5) = Some (DTB_SERIAL + 5)).
  { rewrite (hw_translate_step _ _ _ _ _ _ _ _ _ _ _ _ _ Hmi S (proj1 Hroot)).
    rewrite decide_True by done. by vm_compute. }
  exists w', x. split; [exact Hhw|].
  apply (convert_va_to_pa_agrees w' tabs' x (KPA2PA x) 0 (DTB_SERIAL + 5)
    (leaf_pte DTB_SERIAL (PTE_R .| PTE_W)) ARead).
  - apply S.
  - exact (pt_step_root _ _ _ _ _ _ _ _ _ _ _ _ S Hroot).
  - rewrite (s_look _ _ _ _ _ _ _ _ _ S (KPA2PA x) false) by (apply Hroot || by vm_compute).
    by rewrite decide_True.
  - by vm_compute.
  - exact Hhw.
Defined.

(** In an empty tree every table is missing. *)
Lemma convert_va_to_pa_unmapped_witness : ∃ (w : world plic_regs) x,
  convert_va_to_pa x 0x5000 0 w = Panic "bad walk for va" w.
Proof.
  destruct (demo_boot ∅ [] ∅ 0) as (m & k & Hinv & _).
  destruct (demo_pages 1 ltac:(done)) as (l & fl & Hp & Hl).
  destruct l as [|x [|? ?]]; [done| |done]. rewrite Hp in Hinv.
  destruct (kmalloc_root _ ∅ x fl [] (mem_inv_boot _ _ Hinv)) as (w & _ & _ & Hmi & Hr & _ & Hlook).
  exists w, x. pose proof (convert_va_to_pa_unmapped w _ x (KPA2PA x) 0 0x5000
    (mi_pt _ _ _ _ Hmi) Hr) as H.
  destruct (Hlook (vpn 0x5000 (truthy 0)) ltac:(by vm_compute)) as [_ Hmiss].
  destruct (pt_slot _ _ _ _) as [s|] eqn:E; [|exact H].
  assert (missing (w_mem w) 2 (KPA2PA x) (vpn 0x5000 (truthy 0)) = 0%nat) by (apply missing_0_slot; by eexists).
  lia.
Defined.

Lemma emulated_page_traps_witness : ∃ (w w' : world plic_regs),
  map_page (vm_pgtable demo_vm0) DTB_PLIC DTB_PLIC (0 .| PTE_U) 1 w = Ok 0 w' ∧
  hw_translate (w_mem w') true (KVA2PA (vm_pgtable demo_vm0)) ARead (DTB_PLIC + 4) = None ∧
  convert_va_to_pa (vm_pgtable demo_vm0) (DTB_PLIC + 4) 1 w' = Ok (DTB_PLIC + 4) w'.
Proof.
  destruct demo_guest_root as (w & fl & Hmi & Hroot & Hlen & Hun).
  destruct (emulated_page_traps w _ fl [] (vm_pgtable demo_vm0) (KVA2PA (vm_pgtable demo_vm0))
    DTB_PLIC DTB_PLIC Hmi Hroot) as (w' & Hrun & Htr & Hc);
    [by vm_compute|apply Hun; by vm_compute|lia|].
  exists w, w'. split; [exact Hrun|]. split; [by apply Htr|]. rewrite Hc by done. done.
Defined.
