(* ===== verification/VmRunTheorems.v ===== *)
(** * VmRunTheorems: correctness of VM start-up

    The guest-physical address space of a VM, isolation of the memory of two VMs,
    the CPU configuration check and the assignment of virtual CPUs. *)

From S2P Require Import Prelude Layout Bits Memory Machine Lock Kmem Cpu Vmem PageTable VmemSpec Sv39 Plic Vcpu Vplic VmRun VmRunSpec VplicSpec VmConfig Concrete.

(** ** Guest memory *)

(** Physical bytes a VM can reach by configuration: its image and its devices
    that are not emulated. *)
Definition fixed_pa (c : vm_config) (ds : list mmio_dev) (p : Z) : Prop :=
  (∃ k, 0 <= k < Z.of_nat (image_pages c) ∧ p / 4096 = (image_base c + PAGE_SIZE * k) / 4096) ∨
  (∃ d a k, d ∈ ds ∧ access_ok true (dev_flags d) a = true ∧ 0 <= k < Z.of_nat (dev_pages d) ∧
     p / 4096 = (phys_base d + PAGE_SIZE * k) / 4096).

Section memory.
Context {D : Type} {L : Linker} `{!LinkerOk L}.
Implicit Types (w : world D) (tabs : gmap Z tab) (fl data pages : list Z) (c : vm_config)
  (ds : list mmio_dev).

Lemma devs_entry_some ds v e : devs_entry ds v = Some e → ∃ d, d ∈ ds ∧ in_dev d v ∧ e = dev_entry d v.
Proof.
  induction ds as [|d ds IH]; cbn [devs_entry]; [done|]. destruct (decide (in_dev d v)).
  - intros [= <-]. exists d. split; [by left|done].
  - intros (d' & Hd & ?)%IH. exists d'. split; [by right|done].
Qed.

Lemma page_of p q va : p = q / 4096 * 4096 + va mod 4096 → p / 4096 = q / 4096.
Proof. intros ->. dlia. Qed.

(** A translated address lies in a RAM page of the VM or in its fixed ranges. *)
Lemma guest_translation_cases c ds pages a gpa p : vm_ok c ds →
  Forall (λ x, valid_address x = true) pages →
  guest_translation c ds pages a gpa = Some p →
  (∃ x, x ∈ pages ∧ KPA2PA x <= p < KPA2PA x + PAGE_SIZE) ∨ fixed_pa c ds p.
Proof.
  intros Hok Hpg. rewrite guest_translation_vpn. unfold guest_entry. set (v := vpn gpa true).
  destruct (vok_image _ _ Hok) as [Hi1 Hi2]. destruct (vm_sizes c ds Hok) as (_ & _ & _ & _ & Hib & _).
  destruct (devs_entry ds v) as [e|] eqn:Ed.
  - apply devs_entry_some in Ed as (d & Hd & Hin & ->). cbn [mbind option_bind].
    pose proof (vok_dev _ _ Hok) as Hdo. rewrite Forall_forall in Hdo. specialize (Hdo d Hd).
    pose proof (dev_flags_range d Hdo). destruct Hdo as [Hs Hp _ _].
    pose proof (npages_bound (dev_size d) ltac:(lia)) as Hn. fold (dev_pages d) in Hn.
    unfold dev_entry, in_dev, PAGE_SIZE in *. rewrite entry_translate_leaf by lia.
    destruct (access_ok true (dev_flags d) a) eqn:Ea; [|done]. destruct (in_space _ _); [|done]. intros E. right. right.
    exists d, a, (v - dev_vpn d). split_and!; [done|done|lia|lia|]. injection E as <-. by eapply page_of.
  - destruct (upd_list _ _ _ _ _ _) as [e|] eqn:Er.
    + cbn [mbind option_bind]. unfold upd_list in Er. destruct (decide _); [|done].
      rewrite list_lookup_fmap in Er. destruct (pages !! _) as [x|] eqn:Ex; [|done].
      injection Er as <-. apply list_elem_of_lookup_2 in Ex. rewrite Forall_forall in Hpg.
      destruct (valid_address_pa x (Hpg x Ex)) as (Ha & Hlo & Hhi & _). pose proof dynamic_range.
      rewrite (proj1 dynamic_pa) in Hlo.
      unfold DTB_MEMORY_END, DTB_MEMORY_SIZE, DTB_MEMORY, PAGE_SIZE, FIRMWARE_SIZE in *.
      rewrite entry_translate_leaf by (lia || by vm_compute). destruct (_ && _); [|done].
      intros [= <-]. left. exists x. split; [done|]. revert Ha. generalize (KPA2PA x). clear. intros. dlia.
    + destruct (decide (base_vpn c <= v < ram_vpn c)) as [Hin|]; [|done]. cbn [mbind option_bind].
      unfold ram_vpn in Hin. unfold PAGE_SIZE in *. rewrite entry_translate_leaf by (lia || by vm_compute).
      destruct (_ && _); [|done]. intros E. right. left.
      exists (v - base_vpn c). split; [lia|]. injection E as <-. by eapply page_of.
Qed.

(** C11: init_hs_pgtable on a well-formed configuration with enough free pages
    succeeds, and the MMU then translates every guest-physical address as the
    configuration says ([guest_translation]): the image, fresh zero-filled RAM
    pages, each device at its place with its permissions, and nothing else
    (a guest-physical address of more than 41 bits faults);
    every other translation tree is as before. *)
Theorem init_hs_pgtable_builds w tabs fl data c ds :
  vm_ok c ds → mem_inv w tabs fl data →
  has_bytes (w_mem w) (root_of c) (PAGE_SIZE * 4) →
  (∀ u j, tabs !! u = Some j → root_of c + PAGE_SIZE * 4 <= u ∨ u + tsize j <= root_of c) →
  (vm_need c ds <= length fl)%nat →
  ∃ w' pages, init_hs_pgtable c w = Ok tt w' ∧ mem_only w w' ∧
    length pages = ram_pages c ∧ NoDup pages ∧ pages ⊆ fl ∧
    (∀ x, x ∈ pages → zeroed (w_mem w') (KPA2PA x) PAGE_SIZE) ∧
    (∀ a gpa, hw_translate (w_mem w') true (root_of c) a gpa = guest_translation c ds pages a gpa) ∧
    (∀ r' b a va, is_root tabs r' b →
       hw_translate (w_mem w') b r' a va = hw_translate (w_mem w) b r' a va).
Proof.
  intros Hok Hmi Hb Hsep Hlen.
  destruct (init_hs_pgtable_run w tabs fl data c ds Hok Hmi Hb Hsep Hlen)
    as (w' & tabs' & fl' & pages & Hrun & B).
  pose proof (vb_inv _ _ _ _ _ _ _ _ _ _ B) as Hmi'.
  exists w', pages. split_and!; [exact Hrun|apply B|apply B| | |apply B| |].
  - pose proof (mi_nodup _ _ _ _ Hmi') as (_ & _ & (Hn & _)%NoDup_app)%NoDup_app.
    by rewrite <- (reverse_Permutation pages).
  - destruct (vb_fl _ _ _ _ _ _ _ _ _ _ B) as (used & -> & Hs & _). intros x Hx. apply elem_of_app.
    left. by apply Hs.
  - intros a gpa. by eapply vm_built_translation.
  - intros r' b a va Hr'. pose proof (vpn_range va b) as Hv.
    rewrite (hw_translate_look w' tabs'), (hw_translate_look w tabs);
      [|apply Hmi|exact Hr'|apply Hmi'|eapply lookup_weaken; [exact Hr'|apply B]].
    by rewrite (vb_other _ _ _ _ _ _ _ _ _ _ B r' b).
Qed.

Lemma built_pages_valid c ds data w tabs fl w' tabs' fl' pages :
  vm_built c ds data w tabs fl w' tabs' fl' pages → Forall (λ x, valid_address x = true) pages.
Proof.
  intros B. apply Forall_forall. intros x Hx. eapply mi_valid; [apply B|].
  rewrite !elem_of_app. right. left. by apply elem_of_reverse.
Qed.

(** What building one VM's space leaves as it was for the next. *)
Lemma built_root_bytes c ds data w tabs fl w' tabs' fl' pages c1 ds1 :
  vm_built c ds data w tabs fl w' tabs' fl' pages → vm_ok c1 ds1 →
  has_bytes (w_mem w) (root_of c1) (PAGE_SIZE * 4) →
  root_of c + PAGE_SIZE * 4 <= root_of c1 ∨ root_of c1 + PAGE_SIZE * 4 <= root_of c →
  (∀ u j, tabs !! u = Some j → root_of c1 + PAGE_SIZE * 4 <= u ∨ u + tsize j <= root_of c1) →
  has_bytes (w_mem w') (root_of c1) (PAGE_SIZE * 4).
Proof.
  intros B Hok Hb Hrr Hs a Ha. destruct (vm_root c1 ds1 Hok) as (_ & _ & Hd & _).
  rewrite (vb_static _ _ _ _ _ _ _ _ _ _ B); [by apply Hb|lia|lia|].
  intros u j Hu Hin. destruct (Hs u j Hu); lia.
Qed.

Lemma built_root_sep c ds data w tabs fl w' tabs' fl' pages c1 ds1 :
  vm_built c ds data w tabs fl w' tabs' fl' pages → vm_ok c1 ds1 →
  root_of c + PAGE_SIZE * 4 <= root_of c1 ∨ root_of c1 + PAGE_SIZE * 4 <= root_of c →
  (∀ u j, tabs !! u = Some j → root_of c1 + PAGE_SIZE * 4 <= u ∨ u + tsize j <= root_of c1) →
  ∀ u j, tabs' !! u = Some j → root_of c1 + PAGE_SIZE * 4 <= u ∨ u + tsize j <= root_of c1.
Proof.
  intros B Hok Hrr Hs u j Hu. destruct (vm_root c1 ds1 Hok) as (_ & _ & Hd & _).
  destruct (vb_new _ _ _ _ _ _ _ _ _ _ B u j Hu) as [Hu'|[[-> Ht]|(x & Hx & ->)]].
  - by apply Hs.
  - rewrite Ht. lia.
  - left. destruct (valid_address_pa x Hx) as (_ & ? & _). lia.
Qed.

(** Memory isolation of two VMs.  After the address spaces of two VMs have
    been built one after the other, and provided the fixed physical ranges of
    their configurations do not meet each other or the allocator's region, no
    physical byte can be reached by both guests, whatever addresses and accesses
    they use. *)
Theorem vm_memory_isolation w tabs fl data c0 ds0 c1 ds1 :
  vm_ok c0 ds0 → vm_ok c1 ds1 → mem_inv w tabs fl data →
  has_bytes (w_mem w) (root_of c0) (PAGE_SIZE * 4) →
  has_bytes (w_mem w) (root_of c1) (PAGE_SIZE * 4) →
  root_of c0 + PAGE_SIZE * 4 <= root_of c1 ∨ root_of c1 + PAGE_SIZE * 4 <= root_of c0 →
  (∀ u j, tabs !! u = Some j → root_of c0 + PAGE_SIZE * 4 <= u ∨ u + tsize j <= root_of c0) →
  (∀ u j, tabs !! u = Some j → root_of c1 + PAGE_SIZE * 4 <= u ∨ u + tsize j <= root_of c1) →
  (vm_need c0 ds0 + vm_need c1 ds1 <= length fl)%nat →
  (∀ p, fixed_pa c0 ds0 p → ¬ fixed_pa c1 ds1 p) →
  (∀ p, fixed_pa c0 ds0 p ∨ fixed_pa c1 ds1 p → ¬ (KVA2PA sym_dynamic <= p < DTB_MEMORY_END)) →
  ∃ w1 w2, init_hs_pgtable c0 w = Ok tt w1 ∧ init_hs_pgtable c1 w1 = Ok tt w2 ∧
    ∀ a0 gpa0 p0 a1 gpa1 p1,
      hw_translate (w_mem w2) true (root_of c0) a0 gpa0 = Some p0 →
      hw_translate (w_mem w2) true (root_of c1) a1 gpa1 = Some p1 → p0 ≠ p1.
Proof.
  intros Hok0 Hok1 Hmi Hb0 Hb1 Hrr Hs0 Hs1 Hlen Hdis Hdyn.
  destruct (init_hs_pgtable_run w tabs fl data c0 ds0 Hok0 Hmi Hb0 Hs0 ltac:(lia))
    as (w1 & tabs1 & fl1 & pages0 & Hrun0 & B0).
  destruct (init_hs_pgtable_run w1 tabs1 fl1 (reverse pages0 ++ data) c1 ds1 Hok1
    (vb_inv _ _ _ _ _ _ _ _ _ _ B0)) as (w2 & tabs2 & fl2 & pages1 & Hrun1 & B1).
  { by eapply built_root_bytes. }
  { by eapply built_root_sep. }
  { destruct (vb_fl _ _ _ _ _ _ _ _ _ _ B0) as (used & -> & _ & Hu). rewrite length_app in Hlen. lia. }
  exists w1, w2. split; [exact Hrun0|]. split; [exact Hrun1|].
  intros a0 gpa0 p0 a1 gpa1 p1 H0 H1 <-.
  assert (Hr0 : is_root tabs1 (root_of c0) true) by apply (proj1 (vb_root _ _ _ _ _ _ _ _ _ _ B0)).
  rewrite (hw_translate_look w2 tabs2) in H0;
    [|apply B1|eapply lookup_weaken; [exact Hr0|apply B1]].
  rewrite (vb_other _ _ _ _ _ _ _ _ _ _ B1 _ true), <- (hw_translate_look w1 tabs1) in H0;
    [|apply B0|exact Hr0|exact Hr0|apply vpn_range].
  rewrite (vm_built_translation _ _ _ _ _ _ _ _ _ _ _ _ B0) in H0.
  rewrite (vm_built_translation _ _ _ _ _ _ _ _ _ _ _ _ B1) in H1.
  pose proof (built_pages_valid _ _ _ _ _ _ _ _ _ _ B0) as Hv0.
  pose proof (built_pages_valid _ _ _ _ _ _ _ _ _ _ B1) as Hv1.
  apply (guest_translation_cases _ _ _ _ _ _ Hok0 Hv0) in H0.
  apply (guest_translation_cases _ _ _ _ _ _ Hok1 Hv1) in H1.
  rewrite Forall_forall in Hv0, Hv1.
  destruct H0 as [(x & Hx & Hpx)|Hf0], H1 as [(y & Hy & Hpy)|Hf1].
  - pose proof (mi_nodup _ _ _ _ (vb_inv _ _ _ _ _ _ _ _ _ _ B1)) as (_ & _ & (_ & Hd & _)%NoDup_app)%NoDup_app.
    destruct (pages_disjoint x y (Hv0 x Hx) (Hv1 y Hy)); [|lia|lia].
    intros ->. apply (Hd y); [by apply elem_of_reverse|]. apply elem_of_app. left. by apply elem_of_reverse.
  - destruct (valid_address_pa x (Hv0 x Hx)) as (_ & ? & ? & _). apply (Hdyn p0); [by right|]. lia.
  - destruct (valid_address_pa y (Hv1 y Hy)) as (_ & ? & ? & _). apply (Hdyn p0); [by left|]. lia.
  - by apply (Hdis p0).
Qed.
End memory.

(** ** vm_run *)

Ltac csr_lookup := rewrite csr_of_set;
  repeat (rewrite lookup_insert_ne by congruence); rewrite ?lookup_insert_eq; cbn [default from_option id].

Section run.
Context {D : Type} {L : Linker} `{!LinkerOk L}.
Implicit Types (w : world D) (c : vm_config) (ds : list mmio_dev).

(** The physical address of the root table a hgatp value names: its PPN field. *)
Definition hgatp_root (x : Z) : Z := x mod 2 ^ 44 * 4096.
Definition hgatp_mode (x : Z) : Z := x / 2 ^ 60.

Lemma hgatp_fields r : 0 <= r < 2 ^ 56 → r mod 4096 = 0 →
  hgatp_root (ATP_MODE_SV39 .| (r .>> 12)) = r ∧ hgatp_mode (ATP_MODE_SV39 .| (r .>> 12)) = 8.
Proof.
  intros Hr Ha. rewrite Z.shiftr_div_pow2 by lia. change (2 ^ 12) with 4096.
  change ATP_MODE_SV39 with (8 * 2 ^ 60). rewrite lor_mul_add by dlia.
  unfold hgatp_root, hgatp_mode. split.
  - replace (8 * 2 ^ 60) with (2 ^ 19 * 2 ^ 44) by done. rewrite Z.add_comm, Z.mod_add by lia.
    rewrite Z.mod_small by dlia. dlia.
  - rewrite Z.div_add_l by lia. rewrite Z.div_small by dlia. done.
Qed.

(** The state in which hart [h], the [n]-th of its VM, leaves for its guest. *)
Record guest_ready (h : Z) c (k : nat) (n : Z) w : Prop := {
  gd_hgatp : hgatp_root (csr_of h hgatp w) = root_of c ∧ hgatp_mode (csr_of h hgatp w) = 8;
  gd_sepc : csr_of h sepc w = entry c;
  gd_spp : Z.testbit (csr_of h sstatus w) 8 = true;
  gd_spv : Z.testbit (csr_of h hstatus w) 7 = true;
  gd_hvip : csr_of h hvip w = 0;
  gd_hideleg : ∀ n, 0 <= n → Z.testbit (csr_of h hideleg w) n = true ↔ n = 6 ∨ n = 10;
  gd_hedeleg : ∀ n, n = EXC_ECALL_FROM_VS ∨ n = EXC_LOAD_GUEST_PAGE_FAULT ∨
                    n = EXC_STORE_OR_AMO_GUEST_PAGE_FAULT → Z.testbit (csr_of h hedeleg w) n = false;
  gd_vs : Forall (λ r, csr_of h r w = 0)
            [vsstatus; vsip; vsie; vstvec; vsscratch; vsepc; vscause; vstval; vsatp];
  gd_timer : csr_of h vstimecmp w = 2 ^ 64 - 1 ∧ csr_of h htimedelta w = 0 ∧
             Z.testbit (csr_of h henvcfg w) 63 = true ∧ Z.testbit (csr_of h hcounteren w) 1 = true;
  gd_sscratch : csr_of h sscratch w = u64 (sym_vcpus + VCPU_SIZE * h + VCPU_REGS);
  gd_vcpu : w_vcpus w !! Z.to_nat h = Some (fresh_vcpu k n)
}.

Lemma hideleg_bits n : 0 <= n →
  Z.testbit (HIDELEG_VSTI .| HIDELEG_VSEI) n = true ↔ n = 6 ∨ n = 10.
Proof.
  intros Hn. rewrite Z.lor_spec. change HIDELEG_VSTI with (2 ^ 6). change HIDELEG_VSEI with (2 ^ 10).
  rewrite !Z.pow2_bits_eqb by lia. rewrite orb_true_iff, !Z.eqb_eq. lia.
Qed.

(** From the CSR writes on: init_hs, init_vs and the return state. *)
Lemma enter_run h c k n w : w_hart w = h → 0 <= root_of c < 2 ^ 56 → root_of c mod 4096 = 0 →
  csr_of h sscratch w = u64 (sym_vcpus + VCPU_SIZE * h + VCPU_REGS) →
  w_vcpus w !! Z.to_nat h = Some (fresh_vcpu k n) →
  ∃ cs, (init_hs c ;; init_vs ;; CSRS sstatus SSTATUS_SPP ;; CSRW sepc (entry c)) w =
          Ok tt (set_csr cs w) ∧ guest_ready h c k n (set_csr cs w) ∧
    (∀ h' q, h' ≠ h → cs !! (h', q) = w_csr w !! (h', q)) ∧
    cs !! (h, sscratch) = w_csr w !! (h, sscratch) ∧ cs !! (h, satp) = w_csr w !! (h, satp) ∧
    cs !! (h, stvec) = w_csr w !! (h, stvec).
Proof.
  intros <- Hr Ha Hs Hv. eexists. split; [|split].
  - rewrite <- (set_csr_id w) at 1. unfold init_hs, init_vs.
    repeat (rewrite ?bind_bind, ?CSRW_seq, ?CSRS_seq). apply CSRW_last.
  - split.
    + csr_lookup. by apply hgatp_fields.
    + by csr_lookup.
    + csr_lookup. rewrite Z.lor_spec. apply orb_true_r.
    + by csr_lookup.
    + by csr_lookup.
    + csr_lookup. apply hideleg_bits.
    + csr_lookup. by intros i [->|[->| ->]].
    + repeat apply Forall_cons_2; [by csr_lookup..|by apply Forall_nil_2].
    + split_and!; [by csr_lookup|by csr_lookup| |by csr_lookup].
      csr_lookup. rewrite Z.lor_spec. apply orb_true_r.
    + csr_lookup. exact Hs.
    + exact Hv.
  - split; [intros h' q Hne|split_and!]; by repeat (rewrite lookup_insert_ne by congruence).
Qed.

(** Memory as init_hs_pgtable needs it for [c]. *)
Definition vm_memory_ok w (tabs : gmap Z tab) (fl data : list Z) c ds : Prop :=
  mem_inv w tabs fl data ∧ has_bytes (w_mem w) (root_of c) (PAGE_SIZE * 4) ∧
  (∀ u j, tabs !! u = Some j → root_of c + PAGE_SIZE * 4 <= u ∨ u + tsize j <= root_of c) ∧
  (vm_need c ds <= length fl)%nat.

Lemma mem_inv_same w w' tabs fl data : w_mem w' = w_mem w → w_kmem w' = w_kmem w →
  mem_inv w tabs fl data → mem_inv w' tabs fl data.
Proof.
  intros Hm Hk Hmi. split; [|rewrite Hm; apply Hmi|apply Hmi..].
  destruct (mi_kmem _ _ _ _ Hmi) as (H1 & H2 & H3 & H4). split_and!; rewrite ?Hm, ?Hk; done.
Qed.

(** [w'] is [w] after vm_setup on the first hart of the VM [c]. *)
Record vm_set_up (k : nat) c ds data w tabs fl w' tabs' fl' pages : Prop := {
  su_built : ∃ w0, w_mem w0 = w_mem w ∧ vm_built c ds data w0 tabs fl w' tabs' fl' pages;
  su_vcpus : w_vcpus w' = <[Z.to_nat (w_hart w) := fresh_vcpu k 0]> (w_vcpus w);
  su_csr : w_csr w' = <[(w_hart w, sscratch) := u64 (sym_vcpus + VCPU_SIZE * w_hart w + VCPU_REGS)]> (w_csr w);
  su_config : w_config w' = w_config w;
  su_plic : w_plic w' = w_plic w;
  su_cpus : w_cpus w' = w_cpus w ∧ w_cpu_mapped w' = w_cpu_mapped w;
  su_hart : w_hart w' = w_hart w ∧ w_tp w' = w_tp w
}.

Lemma vm_setup_run w tabs fl data k c ds v0 :
  cpu_ready w → w_vcpus w !! Z.to_nat (w_hart w) = Some v0 →
  config_loop (w_config w) 0 (w_hart w) = Some k → w_config w !! k = Some c →
  popcount (Z.to_nat (w_hart w)) (cpu_affinity c) = 0 →
  vm_ok c ds → vm_memory_ok w tabs fl data c ds →
  ∃ w' tabs' fl' pages, vm_setup (w_hart w) w = Ok tt w' ∧
    vm_set_up k c ds data w tabs fl w' tabs' fl' pages.
Proof.
  intros Hr Hv Hk Hc Hp Hok (Hmi & Hb & Hsep & Hlen).
  pose proof Hr as (_ & Hh & _). unfold DTB_NR_CPUS in Hh.
  pose proof (init_vcpu_run w v0 k c Hr ltac:(lia) Hv Hk Hc) as Hiv. rewrite Hp in Hiv.
  unfold vm_setup. erewrite bind_ok by exact Hiv.
  match type of Hiv with _ = Ok _ ?x => set (w1 := x) in * end.
  assert (Hv1 : w_vcpus w1 !! Z.to_nat (w_hart w) = Some (fresh_vcpu k 0)).
  { simpl. apply list_lookup_insert_eq. by eapply lookup_lt_Some. }
  erewrite bind_ok by (apply vcpu_get_ok; [lia|exact Hv1]).
  erewrite bind_ok by (apply (config_get_ok k c); exact Hc). cbn [whenM fresh_vcpu vhartid Z.eqb].
  assert (Hmi1 : mem_inv w1 tabs fl data) by (by apply (mem_inv_same w)).
  destruct (init_hs_pgtable_run w1 tabs fl data c ds Hok Hmi1 Hb Hsep Hlen)
    as (w2 & tabs2 & fl2 & pages & Hrun & B).
  exists w2, tabs2, fl2, pages. split; [exact Hrun|].
  destruct (vb_only _ _ _ _ _ _ _ _ _ _ B) as (m2 & k2 & E2). split; [by exists w1|by rewrite E2..].
Qed.

(** On the other harts of the VM vm_setup prepares the virtual CPU only. *)
Lemma vm_setup_next w k c v0 :
  cpu_ready w → w_vcpus w !! Z.to_nat (w_hart w) = Some v0 →
  config_loop (w_config w) 0 (w_hart w) = Some k → w_config w !! k = Some c →
  let n := popcount (Z.to_nat (w_hart w)) (cpu_affinity c) in n ≠ 0 →
  vm_setup (w_hart w) w =
    Ok tt (set_csr (<[(w_hart w, sscratch) := u64 (sym_vcpus + VCPU_SIZE * w_hart w + VCPU_REGS)]> (w_csr w))
      (set_vcpus (<[Z.to_nat (w_hart w) := fresh_vcpu k n]> (w_vcpus w)) w)).
Proof.
  intros Hr Hv Hk Hc n Hn. pose proof Hr as (_ & Hh & _). unfold DTB_NR_CPUS in Hh.
  unfold vm_setup. erewrite bind_ok by exact (init_vcpu_run w v0 k c Hr ltac:(lia) Hv Hk Hc). fold n.
  erewrite bind_ok.
  2:{ apply (vcpu_get_ok (w_hart w) (fresh_vcpu k n)); [lia|]. apply list_lookup_insert_eq. by eapply lookup_lt_Some. }
  erewrite bind_ok by (apply (config_get_ok k c); exact Hc). cbn [fresh_vcpu vhartid].
  by rewrite (proj2 (Z.eqb_neq _ _) Hn).
Qed.

(** The root table of a VM, as hgatp can name it. *)
Lemma vm_root_range c ds : vm_ok c ds → 0 <= root_of c < 2 ^ 56 ∧ root_of c mod 4096 = 0.
Proof.
  intros Hok. destruct (vm_root c ds Hok) as (Hr0 & Hra & Hrd & _). split; [|exact Hra].
  pose proof dynamic_range. rewrite (proj1 dynamic_pa) in Hrd.
  unfold DTB_MEMORY_SIZE, DTB_MEMORY, PAGE_SIZE, FIRMWARE_SIZE in *. lia.
Qed.

Lemma vm_start_run w k n c ds : vm_ok c ds → 0 <= w_hart w → w_config w !! k = Some c →
  csr_of (w_hart w) sscratch w = u64 (sym_vcpus + VCPU_SIZE * w_hart w + VCPU_REGS) →
  w_vcpus w !! Z.to_nat (w_hart w) = Some (fresh_vcpu k n) →
  ∃ cs, vm_start (w_hart w) w = Ok tt (set_csr cs w) ∧ guest_ready (w_hart w) c k n (set_csr cs w) ∧
    (∀ h q, h ≠ w_hart w → cs !! (h, q) = w_csr w !! (h, q)) ∧
    cs !! (w_hart w, sscratch) = w_csr w !! (w_hart w, sscratch) ∧
    cs !! (w_hart w, satp) = w_csr w !! (w_hart w, satp) ∧
    cs !! (w_hart w, stvec) = w_csr w !! (w_hart w, stvec).
Proof.
  intros Hok Hh Hc Hs Hv. unfold vm_start. erewrite bind_ok by (apply vcpu_get_ok; [lia|exact Hv]).
  erewrite bind_ok by (apply (config_get_ok k c); exact Hc).
  destruct (vm_root_range c ds Hok) as [Hr Ha].
  exact (enter_run (w_hart w) c k n w eq_refl Hr Ha Hs Hv).
Qed.

(** The part of vm_run after the boot barrier, for the first hart of a VM. *)
Lemma vm_run_rest w tabs fl data k c ds v0 :
  cpu_ready w → w_vcpus w !! Z.to_nat (w_hart w) = Some v0 →
  config_loop (w_config w) 0 (w_hart w) = Some k → w_config w !! k = Some c →
  popcount (Z.to_nat (w_hart w)) (cpu_affinity c) = 0 →
  vm_ok c ds → vm_memory_ok w tabs fl data c ds →
  ∃ w' pages,
    (i ← get_vcpu; vm_setup i ;; mret tt ;; vm_start i) w = Ok tt w' ∧
    guest_ready (w_hart w) c k 0 w' ∧
    ∀ a gpa, hw_translate (w_mem w') true (root_of c) a gpa = guest_translation c ds pages a gpa.
Proof.
  intros Hr Hv Hk Hc Hp Hok Hmem. pose proof Hr as (_ & Hh & _).
  destruct (vm_setup_run w tabs fl data k c ds v0 Hr Hv Hk Hc Hp Hok Hmem)
    as (w2 & tabs2 & fl2 & pages & Hrun & [(w0 & _ & B) Evc Ecs Eco _ _ [Eh _]]).
  erewrite bind_ok by by apply get_hartid_ready. erewrite bind_ok by exact Hrun. rewrite bind_mret.
  rewrite <- Eh in Evc, Ecs |- *.
  destruct (vm_start_run w2 k 0 c ds Hok) as (cs & He & Hg & _); [lia|by rewrite Eco| | |].
  - unfold csr_of. rewrite Ecs. by rewrite lookup_insert_eq.
  - rewrite Evc. apply list_lookup_insert_eq. rewrite Eh. by eapply lookup_lt_Some.
  - exists (set_csr cs w2), pages. split; [exact He|]. split; [exact Hg|].
    intros a gpa. by apply (vm_built_translation _ _ _ _ _ _ _ _ _ _ _ _ B).
Qed.

Lemma config_loop_set_bar f cs i h :
  config_loop ((λ c, set_bar (f c) c) <$> cs) i h = config_loop cs i h.
Proof.
  revert i. induction cs as [|c cs IH]; intros i; cbn [fmap list_fmap config_loop]; [done|].
  cbn [cpu_affinity set_bar]. destruct (truthy _); [done|]. apply IH.
Qed.

Lemma overlap_set_bar f prev a : overlap_loop ((λ c, set_bar (f c) c) <$> prev) a = overlap_loop prev a.
Proof.
  induction prev as [|c prev IH]; cbn [fmap list_fmap overlap_loop]; [done|].
  cbn [cpu_affinity set_bar]. by destruct (truthy _).
Qed.

Lemma check_loop_set_bar f prev cs :
  check_loop ((λ c, set_bar (f c) c) <$> prev) ((λ c, set_bar (f c) c) <$> cs) = check_loop prev cs.
Proof.
  revert prev. induction cs as [|c cs IH]; intros prev; cbn [fmap list_fmap check_loop]; [done|].
  change (list_fmap _ _ _ prev) with ((λ c, set_bar (f c) c) <$> prev). cbn [cpu_affinity set_bar].
  rewrite overlap_set_bar. destruct (overlap_loop prev _); [done|].
  rewrite <- IH. by rewrite fmap_app.
Qed.

Lemma count_cpus_set_bar f cs n : count_cpus ((λ c, set_bar (f c) c) <$> cs) n = count_cpus cs n.
Proof.
  revert n. induction cs as [|c cs IH]; intros n; cbn [fmap list_fmap count_cpus]; [done|]. apply IH.
Qed.

(** The check does not depend on the barriers. *)
Lemma check_set_bar f w : check_cpu_configuration w = Ok tt w →
  let w1 := set_config ((λ c, set_bar (f c) c) <$> w_config w) w in
  check_cpu_configuration w1 = Ok tt w1.
Proof.
  intros Hc w1. revert Hc. unfold check_cpu_configuration. csimp. unfold w1. cbn [w_config set_config].
  rewrite (check_loop_set_bar f []), count_cpus_set_bar.
  destruct (check_loop [] (w_config w)); [done|].
  by destruct (negb (count_cpus (w_config w) 0 =? DTB_NR_CPUS)).
Qed.

(** Vm_run, on the first hart of a VM and with the barriers passed, reaches
    the switch to the guest with the machine set up for it: hgatp names the VM's
    root table in Sv39x4 mode and the MMU translates guest-physical addresses as
    the configuration says; the guest starts at its entry point in VS mode with
    no interrupt pending, its timer and external interrupts delegated, and its
    calls and guest page faults trapping to the hypervisor; its own supervisor
    registers are clear, its timer is off; the virtual CPU is freshly initialised
    and sscratch points to its registers. *)
Theorem vm_run_enters_guest w tabs fl data k c ds v0 :
  cpu_ready w → w_vcpus w !! Z.to_nat (w_hart w) = Some v0 →
  config_loop (w_config w) 0 (w_hart w) = Some k → w_config w !! k = Some c →
  popcount (Z.to_nat (w_hart w)) (cpu_affinity c) = 0 →
  (w_hart w = 0 → check_cpu_configuration w = Ok tt w) →
  vm_ok c ds → vm_memory_ok w tabs fl data c ds →
  ∃ w' pages, vm_run (mret tt) (mret tt) (w_hart w) w = Ok tt w' ∧
    guest_ready (w_hart w) c k 0 w' ∧
    ∀ a gpa, hw_translate (w_mem w') true (hgatp_root (csr_of (w_hart w) hgatp w')) a gpa =
             guest_translation c ds pages a gpa.
Proof.
  intros Hr Hv Hk Hc Hp Hchk Hok Hmem. unfold vm_run, vm_check.
  destruct (Z.eqb_spec (w_hart w) 0) as [E0|].
  - specialize (Hchk E0). cbn [whenM]. set (f := λ c, init_barrier (bar c) (count_set_bits (cpu_affinity c))).
    set (w1 := set_config ((λ c, set_bar (f c) c) <$> w_config w) w).
    rewrite (bind_ok _ _ _ tt w1).
    2:{ unfold init_vm_barriers. rewrite bind_modify. fold f. fold w1. by apply check_set_bar. }
    rewrite bind_mret.
    destruct (vm_run_rest w1 tabs fl data k (set_bar (f c) c) ds v0) as (w' & pages & Hrun & Hg & Htr);
      [done|done|by rewrite <- Hk; apply config_loop_set_bar| |exact Hp|by destruct Hok|
       destruct Hmem as (Hmi & ?); split; [by apply (mem_inv_same w)|done]|].
    { unfold w1. cbn [w_config set_config]. by rewrite list_lookup_fmap, Hc. }
    change (w_hart w1) with (w_hart w) in Hg.
    exists w', pages. split; [exact Hrun|]. split; [by destruct Hg|].
    intros a gpa. rewrite (proj1 (gd_hgatp _ _ _ _ _ Hg)). apply Htr.
  - cbn [whenM]. rewrite !bind_mret.
    destruct (vm_run_rest w tabs fl data k c ds v0) as (w' & pages & Hrun & Hg & Htr); [done..|].
    exists w', pages. split; [exact Hrun|]. split; [done|].
    intros a gpa. rewrite (proj1 (gd_hgatp _ _ _ _ _ Hg)). apply Htr.
Qed.
End run.

(** ** The theorems at work on the configuration of guest/vm_config.c *)

(** The physical ranges of the two configurations, as page numbers. *)
Lemma demo_fixed0 p : fixed_pa demo_vm0 devs0 p →
  0x80110 <= p / 4096 < 0x80118 ∨ p / 4096 = 0x10000 ∨ p / 4096 = 0x10001.
Proof.
  unfold fixed_pa, PAGE_SIZE. destruct (demo_segments demo_vm0) as (_ & -> & _); [by left|].
  intros [(k & Hk & E)|(d & a & k & Hd & Ha & Hk & E)].
  - left. replace (image_base demo_vm0) with 0x80110000 in E by by vm_compute. dlia.
  - unfold devs0 in Hd. rewrite !elem_of_cons in Hd.
    destruct Hd as [->|[->|[->|Hn]]]; [| | |by apply not_elem_of_nil in Hn].
    + right. left. change (Z.of_nat (dev_pages serial)) with 1 in Hk. simpl in E.
      replace k with 0 in E by lia. done.
    + by destruct a.
    + right. right. change (Z.of_nat (dev_pages virtio_disk_1)) with 1 in Hk. simpl in E.
      replace k with 0 in E by lia. done.
Qed.
Lemma demo_fixed1 p : fixed_pa demo_vm1 devs1 p →
  0x80120 <= p / 4096 < 0x80128 ∨ p / 4096 = 0x3000 ∨ p / 4096 = 0x10002.
Proof.
  unfold fixed_pa, PAGE_SIZE. destruct (demo_segments demo_vm1) as (_ & -> & _); [by right|].
  intros [(k & Hk & E)|(d & a & k & Hd & Ha & Hk & E)].
  - left. replace (image_base demo_vm1) with 0x80120000 in E by by vm_compute. dlia.
  - unfold devs1 in Hd. rewrite !elem_of_cons in Hd.
    destruct Hd as [->|[->|[->|Hn]]]; [| | |by apply not_elem_of_nil in Hn].
    + right. left. change (Z.of_nat (dev_pages pci_serial)) with 1 in Hk. simpl in E.
      replace k with 0 in E by lia. done.
    + by destruct a.
    + right. right. change (Z.of_nat (dev_pages virtio_disk_2)) with 1 in Hk. simpl in E.
      replace k with 0 in E by lia. done.
Qed.

Lemma init_hs_pgtable_builds_witness : ∃ (w w' : world plic_regs) (pages : list Z),
  init_hs_pgtable demo_vm0 w = Ok tt w' ∧ length pages = ram_pages demo_vm0 ∧
  hw_translate (w_mem w') true (root_of demo_vm0) AWrite DTB_SERIAL = Some DTB_SERIAL ∧
  hw_translate (w_mem w') true (root_of demo_vm0) ARead DTB_PLIC = None.
Proof.
  destruct (demo_boot ∅ [] ∅ 0) as (m & k & Hinv & Hb).
  set (w := set_mem m (set_kmem k (demo_world ∅ (∅ : plic_regs) [] ∅ 0))) in *.
  destruct (init_hs_pgtable_builds w ∅ all_pages [] demo_vm0 devs0 demo_ok0 (mem_inv_boot _ _ Hinv))
    as (w' & pages & Hrun & _ & Hlen & _ & _ & _ & Htr & _).
  - eapply has_bytes_sub; [exact Hb|by vm_compute|by vm_compute].
  - intros u j Hu. by rewrite lookup_empty in Hu.
  - apply demo_enough. pose proof demo_need. lia.
  - exists w, w', pages. split; [exact Hrun|]. split; [exact Hlen|].
    rewrite !Htr. unfold guest_translation, guest_entry.
    change (vpn DTB_SERIAL true) with 0x10000. change (vpn DTB_PLIC true) with 0xc000.
    cbn [devs_entry devs0].
    rewrite (decide_True (P := in_dev serial 0x10000)) by (rewrite in_serial; lia).
    rewrite (decide_False (P := in_dev serial 0xc000)) by (rewrite in_serial; lia).
    rewrite (decide_True (P := in_dev emulated_plic 0xc000)) by (rewrite in_plic; lia).
    split; by vm_compute.
Defined.

(** The two VMs of the repository. *)
Lemma vm_memory_isolation_witness : ∃ (w w1 w2 : world plic_regs),
  init_hs_pgtable demo_vm0 w = Ok tt w1 ∧ init_hs_pgtable demo_vm1 w1 = Ok tt w2 ∧
  ∀ gpa0 gpa1 p, hw_translate (w_mem w2) true (root_of demo_vm0) AWrite gpa0 = Some p →
    hw_translate (w_mem w2) true (root_of demo_vm1) ARead gpa1 ≠ Some p.
Proof.
  destruct (demo_boot ∅ [] ∅ 0) as (m & k & Hinv & Hb).
  set (w := set_mem m (set_kmem k (demo_world ∅ (∅ : plic_regs) [] ∅ 0))) in *.
  destruct (vm_memory_isolation w ∅ all_pages [] demo_vm0 devs0 demo_vm1 devs1 demo_ok0 demo_ok1
    (mem_inv_boot _ _ Hinv)) as (w1 & w2 & H0 & H1 & Hiso).
  - eapply has_bytes_sub; [exact Hb|by vm_compute|by vm_compute].
  - eapply has_bytes_sub; [exact Hb|by vm_compute|by vm_compute].
  - left. by vm_compute.
  - intros u j Hu. by rewrite lookup_empty in Hu.
  - intros u j Hu. by rewrite lookup_empty in Hu.
  - apply demo_enough. pose proof demo_need. lia.
  - intros p Hp0%demo_fixed0 Hp1%demo_fixed1. lia.
  - replace (KVA2PA sym_dynamic) with 0x80200000 by by vm_compute.
    replace DTB_MEMORY_END with 0x90000000 by by vm_compute.
    intros p [Hp%demo_fixed0|Hp%demo_fixed1]; dlia.
  - exists w, w1, w2. split; [exact H0|]. split; [exact H1|].
    intros gpa0 gpa1 p Hp0 Hp1. by apply (Hiso AWrite gpa0 p ARead gpa1 p).
Defined.

Lemma vm_run_enters_guest_witness : ∃ (w w' : world plic_regs),
  vm_run (mret tt) (mret tt) 0 w = Ok tt w' ∧ guest_ready 0 demo_vm0 0 0 w'.
Proof.
  set (vs := replicate 2 (mk_vcpu 0 0 None [])).
  destruct (demo_boot ∅ vs ∅ 0) as (m & k & Hinv & Hb).
  set (w := set_mem m (set_kmem k (demo_world ∅ (∅ : plic_regs) vs ∅ 0))) in *.
  destruct (vm_run_enters_guest w ∅ all_pages [] 0 demo_vm0 devs0 (mk_vcpu 0 0 None []))
    as (w' & pages & Hrun & Hg & _).
  - apply (demo_cpu_ready ∅ (∅ : plic_regs) vs ∅ 0). by left.
  - done.
  - done.
  - done.
  - done.
  - done.
  - exact demo_ok0.
  - split; [by apply mem_inv_boot|]. split; [eapply has_bytes_sub; [exact Hb|by vm_compute|by vm_compute]|].
    split; [intros u j Hu; by rewrite lookup_empty in Hu|].
    apply demo_enough. pose proof demo_need. lia.
  - change (w_hart w) with 0 in Hrun, Hg. exists w, w'. split; [exact Hrun|exact Hg].
Defined.
