(* ===== verification/VmemConcTheorems.v ===== *)
(** * VmemConcTheorems: init_vmem and init_hs_pgtable on several harts

    In core/main.c all harts are in init_vmem at the same time, and in core/vm_run.c the
    first harts of all VMs are in init_hs_pgtable at the same time.  Interleaved
    access by access, each builds what it would build alone. *)

From S2P Require Import Prelude Layout Bits Memory Machine Kmem Cpu Linkerscript Lock Vmem Vcpu Plic VmRun VmemProg PageTable VmemSpec Sv39 VmRunSpec Regions KernelSpace KmemConc VmemConc VplicSpec VmConfig Concrete KernelTheorems VmRunTheorems.

Section trees.
Context {D : Type} {L : Linker} `{!LinkerOk L}.
Implicit Types (w : world D) (m : ram) (tabs : gmap Z tab) (fl : list Z).

Lemma freelist_det m p fl fl' : is_freelist m p fl → is_freelist m p fl' → fl = fl'.
Proof.
  revert p fl'. induction fl as [|x fl IH]; intros p [|y fl']; cbn [is_freelist]; [done| | |].
  - intros -> (Hy & Hv & _). apply valid_address_pa in Hv. by destruct Hv as (_ & _ & _ & _ & _ & []).
  - intros (-> & Hv & _) Hx. apply valid_address_pa in Hv. by destruct Hv as (_ & _ & _ & _ & _ & []).
  - intros (-> & _ & n & Hn & Hl) (-> & _ & n' & Hn' & Hl'). rewrite Hn in Hn'. injection Hn' as <-. f_equal. by eapply IH.
Qed.

(** A byte of the machine of a hart alone that is not free is the same byte of the
    shared machine. *)
Lemma alone_byte w w' j xs ys a b : models w' (part j xs (w_mem w)) ys → ¬ in_pages ys a →
  w_mem w' !! a = Some b → w_mem w !! a = Some b ∧ mine j xs a.
Proof. intros Hm Ha Hb. rewrite (mo_eq _ _ _ Hm) in Hb by done. by apply part_sub in Hb. Qed.

(** The tables a hart built alone are in the shared memory. *)
Lemma alone_tables w w' j xs ys tabs fl data : models w' (part j xs (w_mem w)) ys → mem_inv w' tabs fl data →
  agree_tabs tabs (w_mem w') (w_mem w) ∧ ys = fl.
Proof.
  intros Hm Hmi. assert (E : ys = fl).
  { eapply freelist_det; [apply (mo_kmem _ _ _ Hm)|apply (mi_kmem _ _ _ _ Hmi)]. }
  split; [|exact E]. subst ys. intros u i a Hu Ha.
  destruct (pt_mem _ _ (mi_pt _ _ _ _ Hmi) u i Hu) as [Hb _]. destruct (Hb a Ha) as [b Eb]. rewrite Eb. symmetry.
  apply (alone_byte w w' j xs fl a b Hm); [|done]. intros (x & Hx & Hxa). unfold in_page in Hxa.
  destruct (mi_free _ _ _ _ Hmi x u i ltac:(apply elem_of_app; by left) Hu); lia.
Qed.

Lemma alone_translation w w' j xs ys tabs fl data r x4 a va : models w' (part j xs (w_mem w)) ys →
  mem_inv w' tabs fl data → is_root tabs r x4 →
  hw_translate (w_mem w) x4 r a va = hw_translate (w_mem w') x4 r a va.
Proof.
  intros Hm Hmi Hr. destruct (alone_tables _ _ _ _ _ _ _ _ Hm Hmi) as [Hag _].
  pose proof (pt_inv_frame _ _ _ (mi_pt _ _ _ _ Hmi) Hag) as Hpt.
  rewrite (hw_translate_look w tabs), (hw_translate_look w' tabs) by (done || apply Hmi).
  f_equal. eapply pt_look_frame; [apply Hmi|exact Hag|]. apply root_path; [done|apply vpn_range].
Qed.
End trees.

(** ** init_vmem *)

Section kernel.
Context {D : Type} {L : Linker} `{!LinkerOk L} `{!ImageOk L}.
Implicit Types (w : world D) (h : Z).

(** What mycpu() returns on hart [h] before the structures are mapped. *)
Definition cpu_ptr h : Z := cpu_addr h.
Definition vmem_job h : job := mk_job (init_vmem_acc (cpu_ptr h)) 0 0 (S kernel_need).

(** The machine as hart [h] sees it. *)
Definition as_hart h w : world D :=
  mk_world (w_mem w) (w_kmem w) (w_cpus w) (w_cpu_mapped w) (w_config w) (w_vcpus w) (w_csr w) (w_plic w) h h.

Lemma vmem_alone h wb w xs : 0 <= h < DTB_NR_CPUS → w_cpu_mapped wb = 0 → mem_only (as_hart h wb) w → kmem_inv w xs →
  (S kernel_need <= length xs)%nat → before_vmem w ∅ xs [] ∧ w_tp w = h ∧ run (init_vmem_acc (cpu_ptr h)) w = init_vmem w.
Proof.
  intros Hh Hm (m & k & ->) Hk Hl. split; [|split; [done|]].
  - split; [by apply mem_inv_boot|exact Hm|exact Hh|exact Hl].
  - apply init_vmem_runs. unfold mycpu. cbn. by rewrite Hm.
Qed.

Lemma vmem_jobs_ok w all hs : kmem_inv w all → w_cpu_mapped w = 0 → Forall (λ h, 0 <= h < DTB_NR_CPUS) hs →
  (length hs * S kernel_need <= length all)%nat → (kernel_need + 3 <= length all_pages)%nat →
  jobs_ok w all (vmem_job <$> hs).
Proof.
  intros Hk Hm Hhs Hn Hp. assert (Hjob : ∀ i j, (vmem_job <$> hs) !! i = Some j → ∃ h, j = vmem_job h ∧ 0 <= h < DTB_NR_CPUS).
  { intros i j. rewrite list_lookup_fmap. destruct (hs !! i) as [h|] eqn:E; [|done]. intros [= <-]. exists h.
    split; [done|]. rewrite Forall_lookup in Hhs. by apply (Hhs i). }
  split; [exact Hk| | | | |].
  - intros i j (h & -> & Hh)%Hjob. exists (as_hart h w). intros w1 xs Ho Hmo Hl. cbn [jb_prog jb_need vmem_job] in *.
    destruct (vmem_alone h w w1 xs Hh Hm Ho (mo_kmem _ _ _ Hmo) Hl) as ([Hmi Hm1 Hh1 Hl1] & _ & E). rewrite E.
    destruct (init_vmem_run w1 ∅ xs [] Hmi Hm1 Hh1 Hl1) as (x & w' & _ & _ & Hr & _). by exists x, w'.
  - intros i j (h & -> & _)%Hjob. cbn [jb_need vmem_job]. revert Hp. generalize kernel_need. clear. lia.
  - intros i j a x (h & -> & _)%Hjob Hs. unfold static in Hs. cbn [jb_base jb_size vmem_job] in Hs. lia.
  - intros i i' j j' a _ (h & -> & _)%Hjob _ Hs. unfold static in Hs. cbn [jb_base jb_size vmem_job] in Hs. lia.
  - replace (sum_list (jb_need <$> (vmem_job <$> hs))) with (length hs * S kernel_need)%nat; [done|].
    clear. induction hs as [|h hs IH]; [done|].
    change (sum_list (jb_need <$> (vmem_job <$> h :: hs))) with (S kernel_need + sum_list (jb_need <$> (vmem_job <$> hs)))%nat.
    rewrite <- IH. cbn [length]. by rewrite Nat.mul_succ_l, Nat.add_comm.
Qed.

(** C14: the harts are in init_vmem at the same time, on one allocator: for any number
    of harts and any interleaving of their accesses to memory and to the lock, every
    access succeeds, no two harts get the same page, the run ends, and it ends with
    all harts finished; memory that was not free is as before.  A hart that has finished has a root table of its own, and
    through it the MMU translates in the shared memory exactly the address ranges of
    [kernel_regions], with the hart's own structure at VAS_CPU_STRUCT. *)
Theorem init_vmem_concurrent (w0 : world D) all hs w cs : kmem_inv w0 all → w_cpu_mapped w0 = 0 →
  Forall (λ h, 0 <= h < DTB_NR_CPUS) hs → (length hs * S kernel_need <= length all)%nat →
  (kernel_need + 3 <= length all_pages)%nat →
  rtc vstep (w0, start_clients (vmem_job <$> hs)) (w, cs) →
  harts_fine w cs ∧ (∀ a, ¬ in_pages all a → w_mem w !! a = w_mem w0 !! a) ∧
  ∀ i h c x, hs !! i = Some h → cs !! i = Some c → pc (cl_thread c) = Idle → cl_prog c = Ret x →
    x ∈ own (cl_thread c) ∧ ∀ a va, mmu (w_mem w) (KPA2PA x) a va = address_map (kernel_regions (cpu_addr h)) a va.
Proof.
  intros Hk Hm Hhs Hn Hp Hr. pose proof (vmem_jobs_ok w0 all hs Hk Hm Hhs Hn Hp) as Hj.
  destruct (jobs_run w0 all _ w cs Hj Hr) as [Hf (fl & J)]. split; [exact Hf|]. split.
  { intros a Ha. apply (ji_frame _ _ _ _ _ _ J a Ha). intros j (h & -> & _)%list_elem_of_fmap Hs.
    unfold static in Hs. cbn [jb_base jb_size vmem_job] in Hs. lia. }
  intros i h c x Hi Hc Ep Eq.
  assert (Hh : 0 <= h < DTB_NR_CPUS) by (rewrite Forall_lookup in Hhs; by apply (Hhs i)).
  assert (Hij : (vmem_job <$> hs) !! i = Some (vmem_job h)) by by rewrite list_lookup_fmap, Hi.
  destruct (finished_alone w0 all _ Hj (as_hart h w0) w cs fl i c (vmem_job h) x J Hc Hij Ep Eq)
    as (ws & xs & w' & ys & Hms & Ho & Hl & Hrun & Hm' & Exs). cbn [jb_prog jb_need vmem_job] in Hl, Hrun.
  destruct (vmem_alone h w0 ws xs Hh Hm Ho (mo_kmem _ _ _ Hms) Hl) as (Hb & Etp & E). rewrite E in Hrun.
  destruct (init_vmem_built _ _ _ _ _ _ Hb Hrun) as (tabs & fl' & B). pose proof (kb_inv _ _ _ _ _ _ _ _ _ B) as Hmi.
  pose proof (proj1 (kb_root _ _ _ _ _ _ _ _ _ B)) as Hroot. split.
  - destruct (alone_tables _ _ _ _ _ _ _ _ Hm' Hmi) as [_ ->].
    destruct (kb_fl _ _ _ _ _ _ _ _ _ B) as (used & Eu & _). rewrite Eu in Exs. change (x :: used ++ fl') with ((x :: used) ++ fl') in Exs.
    apply app_inv_tail in Exs. apply elem_of_reverse. rewrite <- Exs. by left.
  - intros a va. rewrite <- Etp, <- (init_vmem_mmu _ _ _ _ _ _ a va Hb Hrun). unfold mmu.
    destruct (canonical va); [|done]. by eapply alone_translation.
Qed.
End kernel.

(** ** init_hs_pgtable *)

Section guests.
Context {D : Type} {L : Linker} `{!LinkerOk L}.
Implicit Types (w : world D) (c : vm_config) (ds : list mmio_dev).

Definition guest_job (vm : vm_config * list mmio_dev) : job :=
  mk_job (init_hs_pgtable_acc vm.1 ;; mret 0) (root_of vm.1) (PAGE_SIZE * 4) (vm_need vm.1 vm.2).

(** VMs whose tables can be built in [w], from the pages [all]. *)
Record vms_ok w (all : list Z) (vms : list (vm_config * list mmio_dev)) : Prop := {
  vs_ok i c ds : vms !! i = Some (c, ds) → vm_ok c ds;
  vs_root i c ds : vms !! i = Some (c, ds) → has_bytes (w_mem w) (root_of c) (PAGE_SIZE * 4);
  vs_apart i i' c c' ds ds' : i ≠ i' → vms !! i = Some (c, ds) → vms !! i' = Some (c', ds') →
    root_of c + PAGE_SIZE * 4 <= root_of c' ∨ root_of c' + PAGE_SIZE * 4 <= root_of c;
  vs_pages i c ds : vms !! i = Some (c, ds) → (vm_need c ds + 2 <= length all_pages)%nat;
  vs_enough : (sum_list ((λ vm, vm_need vm.1 vm.2) <$> vms) <= length all)%nat
}.

Lemma guest_job_run c ds w : run (jb_prog (guest_job (c, ds))) w = (init_hs_pgtable c ;; mret 0) w.
Proof. apply (runs_bind _ _ _ (λ _, mret 0)); [apply init_hs_pgtable_runs|done]. Qed.

(** A byte of the root table is not in a page of the allocator. *)
Lemma root_not_page c ds a x : vm_ok c ds → root_of c <= a < root_of c + PAGE_SIZE * 4 → valid_address x = true →
  ¬ in_page x a.
Proof.
  intros Hok Ha Hx Hin. destruct (vm_root c ds Hok) as (_ & _ & Hd & _). destruct (valid_address_pa x Hx) as (_ & ? & _).
  unfold in_page in Hin. lia.
Qed.

(** A job in the root table of a VM finds the table there. *)
Lemma root_alone w0 c ds j w xs : vm_ok c ds → jb_base j = root_of c → jb_size j = PAGE_SIZE * 4 →
  has_bytes (w_mem w0) (root_of c) (PAGE_SIZE * 4) → models w (part j [] (w_mem w0)) xs → (vm_need c ds <= length xs)%nat →
  ∃ w' tabs' fl' pages, init_hs_pgtable c w = Ok tt w' ∧ vm_built c ds [] w ∅ xs w' tabs' fl' pages.
Proof.
  intros Hok Eb Es Hr Hm Hl. apply init_hs_pgtable_run; [exact Hok|apply mem_inv_boot, Hm| | |exact Hl].
  - intros a Ha. assert (Hna : ¬ in_pages xs a).
    { intros (x & Hx & Hxa). eapply root_not_page; [exact Hok|exact Ha| |exact Hxa].
      by eapply freelist_elem_valid, Hx; apply Hm. }
    rewrite (mo_eq _ _ _ Hm) by done. rewrite lookup_part, decide_True by (left; unfold static; by rewrite Eb, Es). by apply Hr.
  - intros u i Hu. by rewrite lookup_empty in Hu.
Qed.
Lemma guest_alone w0 all vms i c ds w xs : vms_ok w0 all vms → vms !! i = Some (c, ds) →
  models w (part (guest_job (c, ds)) [] (w_mem w0)) xs → (vm_need c ds <= length xs)%nat →
  ∃ w' tabs' fl' pages, init_hs_pgtable c w = Ok tt w' ∧ vm_built c ds [] w ∅ xs w' tabs' fl' pages.
Proof. intros Hv Hi. apply (root_alone w0 c ds (guest_job (c, ds))); [by eapply (vs_ok _ _ _ Hv)|done|done|by eapply (vs_root _ _ _ Hv)]. Qed.

Lemma guest_jobs_ok w0 all vms : kmem_inv w0 all → vms_ok w0 all vms → jobs_ok w0 all (guest_job <$> vms).
Proof.
  intros Hk Hv. assert (Hjob : ∀ i j, (guest_job <$> vms) !! i = Some j → ∃ c ds, j = guest_job (c, ds) ∧ vms !! i = Some (c, ds)).
  { intros i j. rewrite list_lookup_fmap. destruct (vms !! i) as [[c ds]|] eqn:E; [|done]. intros [= <-]. by exists c, ds. }
  split; [exact Hk| | | | |].
  - intros i j (c & ds & -> & Hi)%Hjob. exists w0. intros w xs _ Hm Hl.
    destruct (guest_alone w0 all vms i c ds w xs Hv Hi Hm Hl) as (w' & _ & _ & _ & Hr & _).
    exists 0, w'. rewrite guest_job_run. by rewrite (bind_ok _ _ _ _ _ Hr).
  - intros i j (c & ds & -> & Hi)%Hjob. by eapply (vs_pages _ _ _ Hv).
  - intros i j a x (c & ds & -> & Hi)%Hjob Hs Hx. eapply root_not_page; [by eapply (vs_ok _ _ _ Hv)|exact Hs|exact Hx].
  - intros i i' j j' a Hne (c & ds & -> & Hi)%Hjob (c' & ds' & -> & Hi')%Hjob Hs Hs'. unfold static in Hs, Hs'.
    cbn [jb_base jb_size guest_job fst] in Hs, Hs'. destruct (vs_apart _ _ _ Hv i i' c c' ds ds' Hne Hi Hi'); lia.
  - rewrite <- list_fmap_compose. apply Hv.
Qed.

(** The tables of a VM are built in the memory [w]. *)
Definition guest_built w c ds (xs pages : list Z) : Prop :=
  length pages = ram_pages c ∧ pages ⊆ xs ∧ (∀ x, x ∈ pages → zeroed (w_mem w) (KPA2PA x) PAGE_SIZE) ∧
  ∀ a gpa, hw_translate (w_mem w) true (root_of c) a gpa = guest_translation c ds pages a gpa.

Lemma guest_finished w0 all vms w cs fl i c ds cl : kmem_inv w0 all → vms_ok w0 all vms →
  jinv w0 all (guest_job <$> vms) w cs fl → vms !! i = Some (c, ds) → cs !! i = Some cl → finished cl →
  ∃ pages, guest_built w c ds (own (cl_thread cl)) pages.
Proof.
  intros Hk Hv J Hi Hc [Ep [x Eq]]. pose proof (guest_jobs_ok w0 all vms Hk Hv) as Hj.
  assert (Hij : (guest_job <$> vms) !! i = Some (guest_job (c, ds))) by by rewrite list_lookup_fmap, Hi.
  destruct (finished_alone w0 all _ Hj w0 w cs fl i cl _ x J Hc Hij Ep Eq)
    as (ws & xs & w' & ys & Hms & _ & Hl & Hrun & Hm' & Exs).
  destruct (guest_alone w0 all vms i c ds ws xs Hv Hi Hms Hl) as (w1 & tabs & fl' & pages & Hr1 & B).
  rewrite guest_job_run, (bind_ok _ _ _ _ _ Hr1) in Hrun. injection Hrun as _ ->.
  pose proof (vb_inv _ _ _ _ _ _ _ _ _ _ B) as Hmi. destruct (alone_tables _ _ _ _ _ _ _ _ Hm' Hmi) as [_ ->].
  exists pages. split; [apply B|]. split; [|split].
  - destruct (vb_fl _ _ _ _ _ _ _ _ _ _ B) as (used & Eu & Hs & _). rewrite Eu in Exs. apply app_inv_tail in Exs.
    intros y Hy. apply elem_of_reverse. rewrite <- Exs. by apply Hs.
  - intros y Hy b Hb. pose proof (vb_zero _ _ _ _ _ _ _ _ _ _ B y Hy b Hb) as Hz.
    apply (alone_byte w w' _ _ fl' b _ Hm'); [|exact Hz]. intros (z & Hz' & Hzb).
    pose proof (mi_nodup _ _ _ _ Hmi) as (_ & Hn & _)%NoDup_app.
    assert (Hyd : y ∈ reverse pages ++ []) by (apply elem_of_app; left; by apply elem_of_reverse).
    assert (Hvy : ∀ u, u ∈ fl' ++ reverse pages ++ [] → valid_address u = true) by (intros u; by eapply mi_valid).
    unfold in_page in Hzb. destruct (pages_disjoint z y); [apply Hvy, elem_of_app; by left|apply Hvy, elem_of_app; by right| |lia|lia].
    intros ->. by apply (Hn y).
  - intros a gpa. rewrite <- (vm_built_translation _ _ _ _ _ _ _ _ _ _ a gpa B).
    eapply alone_translation; [exact Hm'|exact Hmi|]. apply (proj1 (vb_root _ _ _ _ _ _ _ _ _ _ B)).
Qed.

(** VMs with disjoint images and devices, and pages of their own, share nothing. *)
Lemma built_apart w c c' ds ds' xs xs' pages pages' a a' gpa gpa' p : vm_ok c ds → vm_ok c' ds' →
  guest_built w c ds xs pages → guest_built w c' ds' xs' pages' →
  Forall (λ x, valid_address x = true) xs → Forall (λ x, valid_address x = true) xs' → (∀ x, x ∈ xs → x ∉ xs') →
  (∀ p, fixed_pa c ds p → ¬ fixed_pa c' ds' p) →
  (∀ p, fixed_pa c ds p ∨ fixed_pa c' ds' p → ¬ (KVA2PA sym_dynamic <= p < DTB_MEMORY_END)) →
  hw_translate (w_mem w) true (root_of c) a gpa = Some p →
  hw_translate (w_mem w) true (root_of c') a' gpa' ≠ Some p.
Proof.
  intros Hok Hok' (_ & Hs & _ & Ht) (_ & Hs' & _ & Ht') Hv Hv' Hx Hfix Hdyn H H'. rewrite Ht in H. rewrite Ht' in H'.
  rewrite Forall_forall in Hv, Hv'.
  apply (guest_translation_cases _ _ _ _ _ _ Hok) in H; [|apply Forall_forall; intros x ?; by apply Hv, Hs].
  apply (guest_translation_cases _ _ _ _ _ _ Hok') in H'; [|apply Forall_forall; intros x ?; by apply Hv', Hs'].
  destruct H as [(x & Hxp & Hp)|Hf], H' as [(y & Hyp & Hp')|Hf'].
  - destruct (pages_disjoint x y); [by apply Hv, Hs|by apply Hv', Hs'| |lia|lia]. intros ->. by apply (Hx y); [apply Hs|apply Hs'].
  - destruct (valid_address_pa x (Hv x (Hs x Hxp))) as (_ & ? & ? & _). apply (Hdyn p (or_intror Hf')). lia.
  - destruct (valid_address_pa y (Hv' y (Hs' y Hyp))) as (_ & ? & ? & _). apply (Hdyn p (or_introl Hf)). lia.
  - by apply (Hfix p).
Qed.

(** C13: the VMs' second-stage tables are built at the same time, by the first hart of
    each: for any number of VMs and any interleaving of the harts' accesses to memory
    and to the allocator's lock, every access succeeds, the run ends, and it ends
    with all tables built; memory that was neither free nor a root table is as
    before.  The tree of a VM that is finished translates in the shared memory exactly
    as the configuration says, with zeroed RAM pages of its own, and no two VMs with
    disjoint images and devices, outside the dynamic region, reach a common byte. *)
Theorem init_hs_pgtable_concurrent (w0 : world D) all vms w cs : kmem_inv w0 all → vms_ok w0 all vms →
  rtc vstep (w0, start_clients (guest_job <$> vms)) (w, cs) →
  harts_fine w cs ∧
  (∀ a, ¬ in_pages all a → (∀ c ds, (c, ds) ∈ vms → ¬ (root_of c <= a < root_of c + PAGE_SIZE * 4)) →
     w_mem w !! a = w_mem w0 !! a) ∧
  (∀ i c ds cl, vms !! i = Some (c, ds) → cs !! i = Some cl → finished cl →
    ∃ pages, guest_built w c ds (own (cl_thread cl)) pages) ∧
  ∀ i i' c c' ds ds' cl cl' a a' gpa gpa' p, i ≠ i' → vms !! i = Some (c, ds) → vms !! i' = Some (c', ds') →
    cs !! i = Some cl → cs !! i' = Some cl' → finished cl → finished cl' →
    (∀ p, fixed_pa c ds p → ¬ fixed_pa c' ds' p) →
    (∀ p, fixed_pa c ds p ∨ fixed_pa c' ds' p → ¬ (KVA2PA sym_dynamic <= p < DTB_MEMORY_END)) →
    hw_translate (w_mem w) true (root_of c) a gpa = Some p →
    hw_translate (w_mem w) true (root_of c') a' gpa' ≠ Some p.
Proof.
  intros Hk Hv Hr. pose proof (guest_jobs_ok w0 all vms Hk Hv) as Hj.
  destruct (jobs_run w0 all _ w cs Hj Hr) as [Hf (fl & J)]. split; [exact Hf|]. split; [|split].
  - intros a Ha Hs. apply (ji_frame _ _ _ _ _ _ J a Ha). intros j ([c ds] & -> & Hin)%list_elem_of_fmap. by apply (Hs c ds).
  - intros i c ds cl Hi Hc Hfin. by eapply guest_finished.
  - intros i i' c c' ds ds' cl cl' a a' gpa gpa' p Hne Hi Hi' Hc Hc' Hfin Hfin' Hfix Hdyn.
    destruct (guest_finished _ _ _ _ _ _ _ _ _ _ Hk Hv J Hi Hc Hfin) as [pages B].
    destruct (guest_finished _ _ _ _ _ _ _ _ _ _ Hk Hv J Hi' Hc' Hfin') as [pages' B'].
    destruct (own_valid w0 all _ Hj _ _ _ _ _ J Hc) as [_ Hvo]. destruct (own_valid w0 all _ Hj _ _ _ _ _ J Hc') as [_ Hvo'].
    eapply built_apart; [by eapply (vs_ok _ _ _ Hv)|by eapply (vs_ok _ _ _ Hv)|exact B|exact B'| | | |exact Hfix|exact Hdyn].
    + by apply Forall_reverse.
    + by apply Forall_reverse.
    + intros x. by apply (hf_apart _ _ Hf i i').
Qed.
End guests.

(** ** Witnesses: the two harts of the demonstration machine *)

Lemma demo_free : ∃ (w : world plic_regs), kmem_inv w all_pages ∧ w_cpu_mapped w = 0 ∧
  has_bytes (w_mem w) DTB_MEMORY DTB_MEMORY_SIZE.
Proof. destruct demo_before_vmem as (w & Hb & _ & Hm). exists w.
  exact (conj (mi_kmem _ _ _ _ (bv_inv _ _ _ _ Hb)) (conj (bv_cpu _ _ _ _ Hb) Hm)).
Qed.

Lemma demo_finished {D} (w0 : world D) all jobs w cs i j : jobs_ok w0 all jobs →
  rtc vstep (w0, start_clients jobs) (w, cs) → Forall finished cs → jobs !! i = Some j →
  ∃ c, cs !! i = Some c ∧ finished c.
Proof.
  intros Hj Hr Hf Hi. destruct (jobs_run _ _ _ _ _ Hj Hr) as [_ (fl & J)].
  destruct (lookup_lt_is_Some_2 cs i) as [c Hc]; [rewrite (ji_len _ _ _ _ _ _ J); by eapply lookup_lt_Some|].
  exists c. split; [done|]. rewrite Forall_lookup in Hf. by apply (Hf i).
Qed.

(** Both harts run init_vmem to the end; then each writes to the serial port through
    its own tree, and hart 1 finds its own structure. *)
Lemma init_vmem_concurrent_witness : ∃ (w0 w : world plic_regs) cs x0 x1,
  rtc vstep (w0, start_clients (vmem_job <$> [0; 1])) (w, cs) ∧ Forall finished cs ∧
  mmu (w_mem w) (KPA2PA x0) AWrite (DTB_SERIAL + 5) = Some (DTB_SERIAL + 5) ∧
  mmu (w_mem w) (KPA2PA x1) AWrite (VAS_CPU_STRUCT + 8) = Some (KVA2PA (sym_cpu_structs + CPU_SIZE) + 8).
Proof.
  destruct demo_free as (w0 & Hk & Hm & _).
  assert (Hhs : Forall (λ h, 0 <= h < DTB_NR_CPUS) [0; 1]) by (repeat constructor; by vm_compute).
  assert (Hn : (length [0; 1] * S kernel_need <= length all_pages)%nat)
    by exact (demo_enough (length [0; 1] * S kernel_need) ltac:(by vm_compute)).
  assert (Hp : (kernel_need + 3 <= length all_pages)%nat) by exact (demo_enough (kernel_need + 3) ltac:(by vm_compute)).
  pose proof (vmem_jobs_ok w0 all_pages [0; 1] Hk Hm Hhs Hn Hp) as Hj.
  destruct (jobs_complete w0 all_pages _ Hj) as (w & cs & Hr & Hf).
  destruct (init_vmem_concurrent w0 all_pages [0; 1] w cs Hk Hm Hhs Hn Hp Hr) as (_ & _ & Hfin).
  destruct (demo_finished w0 all_pages _ w cs 0 _ Hj Hr Hf eq_refl) as (c0 & Hc0 & Ep0 & x0 & E0).
  destruct (demo_finished w0 all_pages _ w cs 1 _ Hj Hr Hf eq_refl) as (c1 & Hc1 & Ep1 & x1 & E1).
  exists w0, w, cs, x0, x1. split; [exact Hr|]. split; [exact Hf|]. split.
  - destruct (Hfin 0%nat 0 c0 x0 eq_refl Hc0 Ep0 E0) as [_ ->]. by vm_compute.
  - destruct (Hfin 1%nat 1 c1 x1 eq_refl Hc1 Ep1 E1) as [_ ->]. by vm_compute.
Defined.

Lemma demo_vms w : has_bytes (w_mem (D:=plic_regs) w) DTB_MEMORY DTB_MEMORY_SIZE →
  vms_ok w all_pages [(demo_vm0, devs0); (demo_vm1, devs1)].
Proof.
  intros Hb. pose proof demo_need as Hneed. split.
  - intros [|[|i]] c ds; [intros [= <- <-]; apply demo_ok0|intros [= <- <-]; apply demo_ok1|done].
  - intros [|[|i]] c ds; [intros [= <- <-]..|done]; (eapply has_bytes_sub; [exact Hb|by vm_compute|by vm_compute]).
  - intros [|[|i]] [|[|i']] c c' ds ds' Hne; try done; intros [= <- <-] [= <- <-]; [left|right]; by vm_compute.
  - intros [|[|i]] c ds; [intros [= <- <-]..|done]; apply demo_enough; lia.
  - apply demo_enough. change (Z.of_nat (vm_need demo_vm0 devs0 + (vm_need demo_vm1 devs1 + 0)) <= 65024). lia.
Qed.

(** The VMs of the repository: their harts build the tables at the same time. *)
Lemma init_hs_pgtable_concurrent_witness : ∃ (w0 w : world plic_regs) cs,
  rtc vstep (w0, start_clients (guest_job <$> [(demo_vm0, devs0); (demo_vm1, devs1)])) (w, cs) ∧ Forall finished cs ∧
  hw_translate (w_mem w) true (root_of demo_vm0) AWrite DTB_SERIAL = Some DTB_SERIAL ∧
  hw_translate (w_mem w) true (root_of demo_vm0) ARead DTB_PLIC = None.
Proof.
  destruct demo_free as (w0 & Hk & _ & Hb). pose proof (demo_vms w0 Hb) as Hv.
  pose proof (guest_jobs_ok w0 all_pages _ Hk Hv) as Hj. destruct (jobs_complete w0 all_pages _ Hj) as (w & cs & Hr & Hf).
  destruct (init_hs_pgtable_concurrent w0 all_pages _ w cs Hk Hv Hr) as (_ & _ & Hfin & _).
  destruct (demo_finished w0 all_pages _ w cs 0 _ Hj Hr Hf eq_refl) as (c0 & Hc0 & Hf0).
  destruct (Hfin 0%nat demo_vm0 devs0 c0 eq_refl Hc0 Hf0) as (pages & _ & _ & _ & Htr).
  exists w0, w, cs. split; [exact Hr|]. split; [exact Hf|]. rewrite !Htr. unfold guest_translation, guest_entry.
  change (vpn DTB_SERIAL true) with 0x10000. change (vpn DTB_PLIC true) with 0xc000.
  cbn [devs_entry devs0].
  rewrite (decide_True (P := in_dev serial 0x10000)) by (rewrite in_serial; lia).
  rewrite (decide_False (P := in_dev serial 0xc000)) by (rewrite in_serial; lia).
  rewrite (decide_True (P := in_dev emulated_plic 0xc000)) by (rewrite in_plic; lia).
  split; by vm_compute.
Defined.
