(* ===== verification/VplicTheorems.v ===== *)
(** * VplicTheorems: correctness of the emulated PLIC

    Refinement of the specification of VplicSpec.v by the trap handlers of
    virtual/vplic.c, isolation between VMs, and the life of an interrupt from the
    physical claim to the guest's completion. *)

From S2P Require Import Prelude Layout Bits Memory Machine Cpu Plic Vcpu Vplic VplicSpec VmConfig Concrete.

#[local] Abbreviation devlist := (list (option mmio_dev)).

(** ** Who may access what *)

(** The writes a VM may cause: priorities and enable bits of its own interrupts,
    the latter in its own hart's context, that context's threshold, and the
    completion of the interrupt claimed for it. *)
Definition own_write (devs : devlist) (ctx last : Z) (o : plic_op) : Prop :=
  let mine irq := owned_irq devs irq ∧ 1 <= irq <= 1023 in
  match o with
  | PLoad _ => False
  | PStore off v => (∃ irq, mine irq ∧ off = priority_off irq) ∨ off = threshold_off ctx ∨
                    (off = claim_off ctx ∧ v = last)
  | PAmoAnd off m => ∃ irq, mine irq ∧ off = enable_off ctx irq ∧ m = ~32 (irq_bit irq)
  | PAmoOr off m => ∃ irq, mine irq ∧ off = enable_off ctx irq ∧ m = irq_bit irq
  end.

(** The registers that belong to a VM with devices [devs] on context [ctx]. *)
Definition vm_register (devs : devlist) (ctx off : Z) : Prop :=
  (∃ irq, owned_irq devs irq ∧ 1 <= irq <= 1023 ∧ off = priority_off irq) ∨
  (∃ irq, 1 <= irq <= 1023 ∧ off = enable_off ctx irq) ∨
  off = threshold_off ctx ∨ off = claim_off ctx.

Definition op_off (o : plic_op) : Z :=
  match o with PLoad off | PStore off _ | PAmoAnd off _ | PAmoOr off _ => off end.

Lemma valid_owned devs virq : bad_source (virt_to_phys_irq devs virq) = false →
  owned_irq devs (virt_to_phys_irq devs virq) ∧ 1 <= virt_to_phys_irq devs virq <= 1023.
Proof.
  intros H%bad_source_false. split; [|done]. apply virt_to_phys_owned. lia.
Qed.

Lemma enable_op_own devs ctx last virq on :
  Forall (own_write devs ctx last) (enable_op ctx (virt_to_phys_irq devs virq) on).
Proof.
  unfold enable_op. destruct (bad_source _) eqn:E; [constructor|]. apply valid_owned in E.
  apply Forall_singleton. destruct on; by exists (virt_to_phys_irq devs virq).
Qed.

Lemma write_ops_own devs vctx pctx last off val ops :
  vplic_write_ops devs vctx pctx last off val = Some ops →
  Forall (own_write devs pctx last) ops.
Proof.
  unfold vplic_write_ops. destruct (decode off) as [virq|g|ctx g|ctx|ctx|]; intros Ho;
    [apply (inj Some) in Ho as <-..|done].
  - destruct (bad_source _) eqn:E; [constructor|]. apply valid_owned in E.
    apply Forall_singleton. left. by exists (virt_to_phys_irq devs virq).
  - constructor.
  - destruct (ctx =? vctx); [|constructor]. apply Forall_bind, Forall_true. intros i.
    apply enable_op_own.
  - destruct (ctx =? vctx); [|constructor]. apply Forall_singleton. right. by left.
  - destruct (_ && _); [|constructor]. apply Forall_singleton. right. by right.
Qed.

(** A VM's writes miss every register of a VM with other interrupts on another
    context. *)
Lemma own_write_elsewhere devs ctx last o devs' ctx' :
  own_write devs ctx last o → 0 <= ctx <= 3 → 0 <= ctx' <= 3 → ctx ≠ ctx' →
  (∀ irq, owned_irq devs irq → 1 <= irq <= 1023 → ¬ owned_irq devs' irq) →
  ¬ vm_register devs' ctx' (op_off o).
Proof.
  intros Ho Hc Hc' Hne Hdis Hr. unfold own_write, vm_register, op_off in *.
  unfold priority_off, enable_off, threshold_off, claim_off in *.
  destruct o as [off|off v|off m|off m]; [done|..].
  - destruct Ho as [(irq & (Ho & Hi) & ->)|[->|[-> _]]];
      destruct Hr as [(irq' & Ho' & Hi' & E)|[(irq' & Hi' & E)|[E|E]]]; try dlia.
    assert (irq = irq') as <- by lia. by eapply Hdis.
  - destruct Ho as (irq & (Ho & Hi) & -> & _);
      destruct Hr as [(irq' & Ho' & Hi' & E)|[(irq' & Hi' & E)|[E|E]]]; dlia.
  - destruct Ho as (irq & (Ho & Hi) & -> & _);
      destruct Hr as [(irq' & Ho' & Hi' & E)|[(irq' & Hi' & E)|[E|E]]]; dlia.
Qed.

(** ** Frame of the trap handlers *)

(** From [w] to [w'] only the running hart's CSRs, its virtual CPU and the PLIC
    may have changed. *)
Record local_effect {D} (w w' : world D) : Prop := {
  le_mem : w_mem w' = w_mem w;
  le_kmem : w_kmem w' = w_kmem w;
  le_config : w_config w' = w_config w;
  le_hart : w_hart w' = w_hart w;
  le_cpus : w_cpus w' = w_cpus w ∧ w_cpu_mapped w' = w_cpu_mapped w;
  le_vcpus i : i ≠ Z.to_nat (w_hart w) → w_vcpus w' !! i = w_vcpus w !! i;
  le_csr h c : h ≠ w_hart w → csr_of h c w' = csr_of h c w
}.

Lemma csr_of_insert_ne {D} (w : world D) cs h h' c c' x : h' ≠ h →
  csr_of h' c' (set_csr (<[(h, c) := x]> cs) w) = csr_of h' c' (set_csr cs w).
Proof. intros Hne. unfold csr_of. simpl. rewrite lookup_insert_ne; [done|]. congruence. Qed.

Lemma after_write_local {D} {P : PlicDevice D} (w : world D) v ops comp k :
  local_effect w (resume k (after_write v ops comp w)).
Proof.
  destruct comp; split; try done.
  - intros i Hi. simpl. by rewrite list_lookup_insert_ne by done.
  - intros h c Hh. unfold csr_of. simpl. by rewrite !lookup_insert_ne by congruence.
  - intros h c Hh. unfold csr_of. simpl. by rewrite lookup_insert_ne by congruence.
Qed.

(** ** Refinement *)

Section refinement.
Context {D : Type} {P : PlicDevice D} {L : Linker}.

(** A trapped guest load of the PLIC (lw or lwu, 32-bit or compressed) puts
    in its destination register the value the specification [vplic_read] gives
    for the address - sign-extended for lw - advances the guest's pc over the
    instruction and changes nothing else; an address that is no PLIC register
    panics. *)
Theorem vplic_load_refines `{!PlicLaws D} (w : world D) v c a r f3 wide :
  running w v c → csr_of (w_hart w) htinst w = enc_load r f3 wide →
  0 <= r < 32 → f3 = 2 ∨ f3 = 6 →
  vplic_handle_load_page_fault a w =
  match vplic_read (devices c) (vctx_of v) (pctx_of w) (last_claimed_irq_id v) (w_plic w)
          (u64 (a - DTB_PLIC)) with
  | Some x => Ok tt (after_load v r (extend f3 x) (if wide then 4 else 2) w)
  | None => Panic "Bad PLIC access" w
  end.
Proof. apply load_fault_run. Qed.

(** A trapped guest store (sw or c.sw) performs on the physical PLIC exactly
    the accesses the specification [vplic_write_ops] lists for the address and
    the stored value, completes the claimed interrupt when it is a completion of
    it (forgetting it and withdrawing the virtual interrupt), and advances the
    guest's pc; an address that is no PLIC register panics. *)
Theorem vplic_store_refines (w : world D) v c a r wide :
  running w v c → csr_of (w_hart w) htinst w = enc_store r 2 wide → 0 <= r < 32 →
  let val := u32 (get_reg r v) in
  let off := u64 (a - DTB_PLIC) in
  vplic_handle_store_or_amo_page_fault a w =
  match vplic_write_ops (devices c) (vctx_of v) (pctx_of w) (last_claimed_irq_id v) off val with
  | Some ops => Ok tt (resume (if wide then 4 else 2)
                  (after_write v ops
                    (completes (devices c) (vctx_of v) (last_claimed_irq_id v) off val) w))
  | None => Panic "Bad PLIC access" w
  end.
Proof. apply store_fault_run. Qed.

(** C18: whatever the trapped instruction and the address, the store handler
    either panics without having touched anything or returns after writes that
    are all the VM's own; none of them reaches a register of a VM with other
    interrupts on another hart's context, and apart from the PLIC only the
    running hart's CSRs and virtual CPU change. *)
Theorem vplic_store_isolation (w : world D) v c a :
  running w v c →
  match vplic_handle_store_or_amo_page_fault a w with
  | Ok _ w' => local_effect w w' ∧ ∃ ops, w_plic w' = run_ops ops (w_plic w) ∧
      Forall (own_write (devices c) (pctx_of w) (last_claimed_irq_id v)) ops ∧
      (∀ c' h', 0 <= h' < DTB_NR_CPUS → h' ≠ w_hart w →
        (∀ irq, owned_irq (devices c) irq → 1 <= irq <= 1023 → ¬ owned_irq (devices c') irq) →
        Forall (λ o, ¬ vm_register (devices c') (2 * h' + 1) (op_off o)) ops)
  | Panic _ w' => w' = w
  | _ => False
  end.
Proof.
  intros Hr. unfold vplic_handle_store_or_amo_page_fault.
  set (h := csr_of (w_hart w) htinst w).
  assert (Hf : fields_ok h ∨ ¬ fields_ok h) by (unfold fields_ok; lia).
  destruct Hf as [Hf|Hf].
  2:{ destruct (parse_htinst_bad (D:=D) h Hf) as [msg Hm]. by erewrite bind_panic by by apply Hm. }
  erewrite bind_ok by by apply parse_htinst_run.
  destruct (negb _); [done|]. destruct (negb _); [done|].
  rewrite (emulate_store_run w v c) by (first [exact Hr|simpl; apply Z.mod_pos_bound; lia]).
  destruct (vplic_write_ops _ _ _ _ _ _) as [ops|] eqn:E; [|done].
  split; [apply after_write_local|]. exists ops. pose proof (write_ops_own _ _ _ _ _ _ _ E) as Hown.
  split; [by destruct (completes _ _ _ _ _)|]. split; [exact Hown|]. intros c' h' Hh Hne Hdis.
  eapply Forall_impl; [exact Hown|]. intros o Ho.
  destruct (running_hart _ _ _ Hr) as (_ & _ & _ & _ & ?). unfold DTB_NR_CPUS in Hh.
  eapply own_write_elsewhere; [exact Ho|unfold pctx_of; lia..|exact Hdis].
Qed.
End refinement.

(** ** What a guest can learn *)

Section noninterference.
Context {D : Type} {P : PlicDevice D} {L : Linker} `{!PlicLaws D}.
Implicit Types (w : world D) (d : D).

(** Two device states that look the same to a VM with devices [devs] on context
    [ctx]: they agree on its own interrupts' priority, pending and enable state
    and on its context's threshold. *)
Record same_view (devs : devlist) (ctx : Z) d d' : Prop := {
  sv_priority irq : owned_irq devs irq → phys_priority d irq = phys_priority d' irq;
  sv_pending irq : owned_irq devs irq → phys_pending d irq = phys_pending d' irq;
  sv_enabled irq : owned_irq devs irq → phys_enabled d ctx irq = phys_enabled d' ctx irq;
  sv_threshold : (dev_load (threshold_off ctx) d).1 = (dev_load (threshold_off ctx) d').1
}.

Lemma word_of_ext n f g : (∀ i, f i = g i) → word_of n f = word_of n g.
Proof. intros H. induction n as [|n IH]; cbn [word_of]; [done|]. by rewrite IH, H. Qed.

(** A fact about all owned interrupts, and about the numbers no device has,
    holds of every virtual interrupt. *)
Lemma by_owner {A} (f g : Z → A) devs virq : f 0 = g 0 →
  (∀ irq, owned_irq devs irq → f irq = g irq) →
  f (virt_to_phys_irq devs virq) = g (virt_to_phys_irq devs virq).
Proof.
  intros H0 H. destruct (decide (virt_to_phys_irq devs virq = 0)) as [->|]; [done|].
  by apply H, virt_to_phys_owned.
Qed.

Lemma vplic_read_view devs vctx pctx last d d' off : same_view devs pctx d d' →
  vplic_read devs vctx pctx last d off = vplic_read devs vctx pctx last d' off.
Proof.
  intros [H1 H2 H3 H4]. unfold vplic_read.
  destruct (decode off) as [virq|g|ctx g|ctx|ctx|]; f_equal; try done.
  - by apply by_owner.
  - apply word_of_ext. intros i. by apply by_owner.
  - destruct (ctx =? vctx); [|done]. apply word_of_ext. intros i. by apply by_owner.
  - by destruct (ctx =? vctx).
Qed.

(** The outcome of a command on a world with another device state. *)
Definition with_plic {A} d (o : outcome (world D) A) : outcome (world D) A :=
  match o with
  | Ok a w => Ok a (set_plic d w)
  | Panic msg w => Panic msg (set_plic d w)
  | Fault p w => Fault p (set_plic d w)
  | Hang w => Hang (set_plic d w)
  end.

Lemma running_set_plic w v c d : running w v c → running (set_plic d w) v c.
Proof. intros [? ? ? ? ?]. by split. Qed.

(** C19: noninterference of guest reads: on two device states that agree on the
    VM's own interrupts and context, any trapped guest load - whatever the
    instruction and the address - has the same outcome, and it leaves the device
    unchanged; the state of other VMs' interrupts does not leak. *)
Theorem vplic_load_noninterference w v c a d' : running w v c →
  same_view (devices c) (pctx_of w) (w_plic w) d' →
  vplic_handle_load_page_fault a (set_plic d' w) =
    with_plic d' (vplic_handle_load_page_fault a w) ∧
  with_plic (w_plic w) (vplic_handle_load_page_fault a w) = vplic_handle_load_page_fault a w.
Proof.
  intros Hr Hsv. pose proof (running_set_plic w v c d' Hr) as Hr'.
  unfold vplic_handle_load_page_fault. set (h := csr_of (w_hart w) htinst w).
  assert (Hf : fields_ok h ∨ ¬ fields_ok h) by (unfold fields_ok; lia).
  destruct Hf as [Hf|Hf].
  - rewrite (bind_ok _ _ _ _ _ (parse_htinst_run w Hf)).
    rewrite (bind_ok _ _ _ _ _ (parse_htinst_run (set_plic d' w) Hf)).
    change (csr_of (w_hart (set_plic d' w)) htinst (set_plic d' w)) with h. fold h.
    destruct (negb _); [split; [done|destruct w; done]|].
    destruct (negb _ && negb _); [split; [done|destruct w; done]|].
    set (ins := set_addr a _). assert (Hrd : 0 <= rd ins < 32) by (apply Z.mod_pos_bound; lia).
    rewrite (emulate_load_run w v c), (emulate_load_run (set_plic d' w) v c) by done.
    change (pctx_of (set_plic d' w)) with (pctx_of w). cbn [w_plic set_plic].
    rewrite <- (vplic_read_view _ _ _ _ (w_plic w) d') by done.
    destruct (vplic_read _ _ _ _ _ _); split; destruct w; done.
  - destruct (parse_htinst_bad (D:=D) h Hf) as [msg Hm].
    rewrite (bind_panic _ _ _ _ _ (Hm w eq_refl)), (bind_panic _ _ _ _ _ (Hm (set_plic d' w) eq_refl)).
    split; destruct w; done.
Qed.
End noninterference.

(** ** The life of an interrupt *)

(** Guest execution between two traps of a hart: guest registers and memory, the
    CSRs other than hvip and the device may change; the hypervisor's own records
    do not. *)
Record guest_run {D} (w w' : world D) : Prop := {
  gr_hart : w_hart w' = w_hart w;
  gr_cpus : w_cpus w' = w_cpus w ∧ w_cpu_mapped w' = w_cpu_mapped w;
  gr_config : w_config w' = w_config w;
  gr_vcpu v : w_vcpus w !! Z.to_nat (w_hart w) = Some v →
    ∃ rs, length rs = 32%nat ∧ w_vcpus w' !! Z.to_nat (w_hart w) = Some (set_regs rs v);
  gr_hvip : csr_of (w_hart w) hvip w' = csr_of (w_hart w) hvip w
}.

Lemma guest_run_refl {D} (w : world D) v c : running w v c → guest_run w w.
Proof.
  intros Hr. split; try done. intros v' Hv'. exists (regs v'). rewrite (run_vcpu _ _ _ Hr) in Hv'.
  injection Hv' as <-. split; [apply Hr|]. rewrite (run_vcpu _ _ _ Hr). by destruct v.
Qed.

Lemma guest_run_running {D} (w w' : world D) v c : running w v c → guest_run w w' →
  ∃ rs, running w' (set_regs rs v) c.
Proof.
  intros [(Hm & Hh & Hc) Hv Hk Hvh Hrs Hl] [Gh [Gc Gm] Gk Gv _].
  destruct (Gv v Hv) as (rs & Hlen & Hv'). exists rs.
  split; [|by rewrite Gh|by rewrite Gk|done|done|done].
  split; [by rewrite Gm|]. split; [by rewrite Gh|]. by rewrite Gc, Gh.
Qed.

(** The interrupt numbering of a VM is one-to-one (include/vm_config.h). *)
Definition irqs_one_to_one (devs : devlist) : Prop := ∀ d d',
  d ∈ vm_devices devs → d' ∈ vm_devices devs →
  virt_irq d = virt_irq d' ↔ phys_irq d = phys_irq d'.

Section interrupts.
Context {D : Type} {P : PlicDevice D} {L : Linker}.
Implicit Types (w : world D) (dev : mmio_dev).

(** The world after the handler claimed [irq]. *)
Definition after_interrupt (v : vcpu) (irq : Z) w : world D :=
  let w1 := set_vcpus (<[Z.to_nat (w_hart w) := set_last_claimed irq v]> (w_vcpus w))
              (do_ops [PLoad (claim_off (pctx_of w))] w) in
  if irq =? 0 then w1
  else set_csr (<[(w_hart w, hvip) := csr_of (w_hart w) hvip w .| HVIP_VSEIP]> (w_csr w)) w1.

Lemma handle_interrupt_run w v c : running w v c →
  vplic_handle_interrupt w =
  Ok tt (after_interrupt v (u32 (dev_load (claim_off (pctx_of w)) (w_plic w)).1) w).
Proof.
  intros Hr. destruct (running_hart _ _ _ Hr) as (Hgh & Hgv & Hvg & _ & Hh).
  destruct (pctx_range _ _ _ Hr) as (Hp & Ep & _). unfold vplic_handle_interrupt.
  erewrite bind_ok by exact Hgh. erewrite bind_ok by exact Hgv.
  rewrite Ep. erewrite bind_ok by (apply claim_run; lia).
  set (irq := u32 _). erewrite vcpu_upd_seq by (lia || apply Hr).
  pose proof (lookup_upd_vcpu _ _ (set_last_claimed irq v) (do_ops [PLoad (claim_off (pctx_of w))] w)
    (run_vcpu _ _ _ Hr)) as Hv1.
  erewrite bind_ok by (apply vcpu_get_ok; [lia|exact Hv1]).
  cbn [last_claimed_irq_id set_last_claimed]. unfold after_interrupt.
  by destruct (irq =? 0).
Qed.

Lemma after_interrupt_running w v c irq : running w v c → 0 <= irq < 2 ^ 32 →
  running (after_interrupt v irq w) (set_last_claimed irq v) c.
Proof.
  intros [Hc Hv Hk Hvh Hrs Hl] Hi.
  assert (H : running (set_vcpus (<[Z.to_nat (w_hart w) := set_last_claimed irq v]> (w_vcpus w))
    (do_ops [PLoad (claim_off (pctx_of w))] w)) (set_last_claimed irq v) c).
  { split; try done. simpl. apply list_lookup_insert_eq. by eapply lookup_lt_Some. }
  unfold after_interrupt. by destruct (irq =? 0); [exact H|destruct H].
Qed.

Lemma after_load_running w v c r x k : running w v c → running (after_load v r x k w) (set_reg r x v) c.
Proof.
  intros [Hc Hv Hk Hvh Hrs Hl]. split; try done; simpl; [|by rewrite length_insert].
  apply list_lookup_insert_eq. by eapply lookup_lt_Some.
Qed.

Lemma u64_plic off : 0 <= off < 2 ^ 32 → u64 (DTB_PLIC + off - DTB_PLIC) = off.
Proof. intros. rewrite u64_id; lia. Qed.

Lemma decode_claim ctx : 0 <= ctx <= 3 → decode (claim_off ctx) = RClaim ctx.
Proof.
  intros Hc. unfold decode, claim_off. rewrite !(proj2 (Z.ltb_ge _ _)) by lia.
  replace (0x200004 + 0x1000 * ctx - 0x200000) with (4 + ctx * 0x1000) by lia.
  rewrite Z.div_add, Z.mod_add, (Z.div_small 4), (Z.mod_small 4) by lia. simpl.
  rewrite (proj2 (Z.leb_gt _ _)) by lia. done.
Qed.

(** An interrupt of the VM as its guest sees it. *)
Definition live_irq (devs : devlist) dev : Prop :=
  dev ∈ vm_devices devs ∧ irqs_one_to_one devs ∧ 1 <= phys_irq dev <= 1023 ∧ 1 <= virt_irq dev <= 1023.

Lemma live_phys devs dev : live_irq devs dev → u32 (virt_to_phys_irq devs (s32 (virt_irq dev))) = phys_irq dev.
Proof.
  intros (Hd & Hu & Hp & Hv). rewrite s32_id by lia. unfold virt_to_phys_irq.
  rewrite irq_loop_unique; [apply u32_id; lia|done|]. intros d' Hd'. by apply Hu.
Qed.
Lemma live_virt devs dev : live_irq devs dev → u32 (phys_to_virt_irq devs (s32 (phys_irq dev))) = virt_irq dev.
Proof.
  intros (Hd & Hu & Hp & Hv). rewrite s32_id by lia. unfold phys_to_virt_irq.
  rewrite irq_loop_unique; [apply u32_id; lia|done|]. intros d' Hd'. by apply Hu.
Qed.

(** A guest's read of its claim register, and its completion write. *)
Lemma claim_load_run `{!PlicLaws D} w v c dev r f3 wide : running w v c → live_irq (devices c) dev →
  last_claimed_irq_id v = phys_irq dev →
  csr_of (w_hart w) htinst w = enc_load r f3 wide → 0 <= r < 32 → f3 = 2 ∨ f3 = 6 →
  vplic_handle_load_page_fault (DTB_PLIC + claim_off (vctx_of v)) w =
    Ok tt (after_load v r (virt_irq dev) (if wide then 4 else 2) w).
Proof.
  intros Hr Hl Hlast Hh Hrd Hf. destruct (pctx_range _ _ _ Hr) as (_ & _ & _ & Hv).
  rewrite (load_fault_run w v c _ r f3 wide) by done.
  rewrite u64_plic by (unfold claim_off; lia). unfold vplic_read.
  rewrite decode_claim, Z.eqb_refl, Hlast, live_virt by (lia || done).
  destruct Hl as (_ & _ & _ & Hvi). do 2 f_equal. unfold extend.
  destruct (f3 =? 2); [|done]. rewrite s32_id, u64_id by lia. done.
Qed.

Lemma complete_store_run w v c dev r wide : running w v c → live_irq (devices c) dev →
  csr_of (w_hart w) htinst w = enc_store r 2 wide → 0 <= r < 32 → get_reg r v = virt_irq dev →
  vplic_handle_store_or_amo_page_fault (DTB_PLIC + claim_off (vctx_of v)) w =
  Ok tt (resume (if wide then 4 else 2)
    (if phys_irq dev =? last_claimed_irq_id v
     then after_write v [PStore (claim_off (pctx_of w)) (phys_irq dev)] true w else w)).
Proof.
  intros Hr Hl Hh Hrd Hreg. destruct (pctx_range _ _ _ Hr) as (_ & _ & _ & Hv).
  rewrite (store_fault_run w v c _ r wide) by done. pose proof Hl as (_ & _ & _ & Hvi).
  rewrite u64_plic by (unfold claim_off; lia). rewrite Hreg, (u32_id (virt_irq dev)) by lia.
  unfold vplic_write_ops, completes. rewrite decode_claim, Z.eqb_refl, live_phys by (lia || done).
  destruct (Z.eqb_spec (phys_irq dev) (last_claimed_irq_id v)) as [<-|]; cbn [andb]; [done|].
  unfold after_write. by rewrite do_ops_nil.
Qed.
End interrupts.

Section protocol.
Context {D : Type} {P : PlicDevice D} {L : Linker}.
Implicit Types (w : world D) (dev : mmio_dev).

(** The virtual external interrupt is pending on the running hart. *)
Definition vseip w : bool := Z.testbit (csr_of (w_hart w) hvip w) 10.

Lemma vseip_set w h cs x : w_hart w = h →
  vseip (set_csr (<[(h, hvip) := x .| HVIP_VSEIP]> cs) w) = true.
Proof.
  intros <-. unfold vseip, csr_of. cbn [w_csr w_hart set_csr]. rewrite lookup_insert_eq.
  cbn [default from_option id]. rewrite Z.lor_spec. apply orb_true_r.
Qed.

(** C20: the life of a device interrupt.  When the physical PLIC presents the
    interrupt of a device of the VM, the handler claims it and raises the guest's
    external interrupt; the guest's next read of its claim register yields the
    device's virtual number; when the guest writes that number to its completion
    register, the physical interrupt is completed on the device in the hart's
    own context and the virtual interrupt is withdrawn.  Guest code may run
    between the three traps. *)
Theorem interrupt_roundtrip `{!PlicLaws D} w v c dev :
  running w v c → live_irq (devices c) dev →
  (dev_load (claim_off (pctx_of w)) (w_plic w)).1 = phys_irq dev →
  ∃ w1, vplic_handle_interrupt w = Ok tt w1 ∧ vseip w1 = true ∧
    w_plic w1 = (dev_load (claim_off (pctx_of w)) (w_plic w)).2 ∧
  ∀ w2 r f3 wide, guest_run w1 w2 → csr_of (w_hart w2) htinst w2 = enc_load r f3 wide →
    0 <= r < 32 → f3 = 2 ∨ f3 = 6 →
  ∃ w3 v3, vplic_handle_load_page_fault (DTB_PLIC + claim_off (vctx_of v)) w2 = Ok tt w3 ∧
    w_vcpus w3 !! Z.to_nat (w_hart w) = Some v3 ∧ get_reg r v3 = virt_irq dev ∧
  ∀ w4 v4 r' wide', guest_run w3 w4 → w_vcpus w4 !! Z.to_nat (w_hart w) = Some v4 →
    csr_of (w_hart w4) htinst w4 = enc_store r' 2 wide' → 0 <= r' < 32 →
    get_reg r' v4 = virt_irq dev →
  ∃ w5 v5, vplic_handle_store_or_amo_page_fault (DTB_PLIC + claim_off (vctx_of v)) w4 = Ok tt w5 ∧
    w_plic w5 = dev_store (claim_off (pctx_of w)) (phys_irq dev) (w_plic w4) ∧
    vseip w5 = false ∧
    w_vcpus w5 !! Z.to_nat (w_hart w) = Some v5 ∧ last_claimed_irq_id v5 = 0.
Proof.
  intros Hr Hl Hclaim. pose proof Hl as (_ & _ & Hp & _).
  pose proof (handle_interrupt_run w v c Hr) as Hrun. rewrite Hclaim, u32_id in Hrun by lia.
  pose proof (after_interrupt_running w v c (phys_irq dev) Hr ltac:(lia)) as Hr1.
  set (w1 := after_interrupt v (phys_irq dev) w) in *.
  assert (E0 : (phys_irq dev =? 0) = false) by (apply Z.eqb_neq; lia).
  assert (Eh1 : w_hart w1 = w_hart w) by (unfold w1, after_interrupt; by rewrite E0).
  exists w1. split; [exact Hrun|].
  split; [unfold w1, after_interrupt; rewrite E0; by apply vseip_set|].
  split; [unfold w1, after_interrupt; by rewrite E0|].
  intros w2 r f3 wide G Hi Hrd Hf.
  destruct (guest_run_running _ _ _ _ Hr1 G) as [rs Hr2]. pose proof (gr_hart _ _ G) as Eh2.
  eexists _, _. split; [exact (claim_load_run w2 _ c dev r f3 wide Hr2 Hl eq_refl Hi Hrd Hf)|].
  pose proof (after_load_running w2 _ c r (virt_irq dev) (if wide then 4 else 2) Hr2) as Hr3.
  split; [rewrite <- Eh1, <- Eh2; apply (run_vcpu _ _ _ Hr3)|]. split.
  { unfold get_reg, set_reg. cbn [regs set_regs]. pose proof (run_regs _ _ _ Hr2) as Hlen.
    cbn [regs set_regs] in Hlen. rewrite list_lookup_insert_eq; [done|]. lia. }
  intros w4 v4 r' wide' G' Hv4 Hi' Hrd' Hreg.
  destruct (guest_run_running _ _ _ _ Hr3 G') as [rs' Hr4]. pose proof (gr_hart _ _ G') as Eh4.
  assert (Eh : w_hart w4 = w_hart w) by (rewrite Eh4; simpl; congruence).
  assert (v4 = set_regs rs' (set_reg r (virt_irq dev) (set_regs rs (set_last_claimed (phys_irq dev) v))))
    as -> by (pose proof (run_vcpu _ _ _ Hr4) as H; rewrite Eh in H; congruence).
  eexists _, _. split; [exact (complete_store_run w4 _ c dev r' wide' Hr4 Hl Hi' Hrd' Hreg)|].
  cbn [last_claimed_irq_id set_regs set_reg set_last_claimed]. rewrite Z.eqb_refl.
  unfold after_write, do_ops, run_ops. cbn [foldl flip run_op].
  unfold pctx_of. rewrite Eh. split_and!.
  - done.
  - unfold vseip, csr_of, resume, after_complete. cbn [w_csr w_hart set_csr set_plic set_vcpus].
    rewrite lookup_insert_ne by congruence. rewrite lookup_insert_eq.
    cbn [default from_option id]. rewrite Z.ldiff_spec. apply andb_false_r.
  - simpl. rewrite Eh. apply list_lookup_insert_eq. by eapply lookup_lt_Some.
  - done.
Qed.

(** C38: a second physical interrupt that is taken before the guest has completed
    the first overwrites the record of the first: the guest's completion of the
    first then has no effect, neither on the physical PLIC - where the first
    stays claimed for ever - nor on the record. *)
Theorem nested_interrupt_loses_completion w v c dev :
  running w v c → live_irq (devices c) dev → last_claimed_irq_id v = phys_irq dev →
  u32 (dev_load (claim_off (pctx_of w)) (w_plic w)).1 ≠ phys_irq dev →
  ∃ w1, vplic_handle_interrupt w = Ok tt w1 ∧
  ∀ w2 v2 r wide, guest_run w1 w2 → w_vcpus w2 !! Z.to_nat (w_hart w) = Some v2 →
    csr_of (w_hart w2) htinst w2 = enc_store r 2 wide → 0 <= r < 32 →
    get_reg r v2 = virt_irq dev →
    vplic_handle_store_or_amo_page_fault (DTB_PLIC + claim_off (vctx_of v)) w2 =
      Ok tt (resume (if wide then 4 else 2) w2).
Proof.
  intros Hr Hl _ Hclaim. set (q := u32 _) in *.
  pose proof (handle_interrupt_run w v c Hr) as Hrun. fold q in Hrun.
  pose proof (after_interrupt_running w v c q Hr (u32_range _)) as Hr1.
  exists (after_interrupt v q w). split; [exact Hrun|].
  intros w2 v2 r wide G Hv2 Hi Hrd Hreg.
  destruct (guest_run_running _ _ _ _ Hr1 G) as [rs Hr2]. pose proof (gr_hart _ _ G) as Eh2.
  assert (Eh : w_hart w2 = w_hart w) by (rewrite Eh2; unfold after_interrupt; by destruct (q =? 0)).
  assert (v2 = set_regs rs (set_last_claimed q v)) as ->
    by (pose proof (run_vcpu _ _ _ Hr2) as H; rewrite Eh in H; congruence).
  pose proof (complete_store_run w2 _ c dev r wide Hr2 Hl Hi Hrd Hreg) as Hst.
  cbn [last_claimed_irq_id set_regs set_last_claimed vhartid] in Hst.
  change (vctx_of (set_regs rs (set_last_claimed q v))) with (vctx_of v) in Hst. rewrite Hst.
  by rewrite (proj2 (Z.eqb_neq _ _)) by congruence.
Qed.
End protocol.

(** ** The theorems at work on hart 1, which runs VM 1 *)

(** Interrupt 33 is pending (word 1, bit 1) and the guest reads word 0 of its
    pending registers: bit 10 is set, the serial line's virtual number. *)
Lemma vplic_load_refines_witness :
  let d : plic_regs := {[ 0x1004 := 2 ]} in
  let w := demo_world ∅ d (demo_vcpus 0 (replicate 32 0)) {[ (1, htinst) := enc_load 15 2 true ]} 1 in
  vplic_handle_load_page_fault (DTB_PLIC + 0x1000) w =
    Ok tt (after_load (demo_vcpu 0 (replicate 32 0)) 15 1024 4 w).
Proof.
  intros d w.
  rewrite (vplic_load_refines w (demo_vcpu 0 (replicate 32 0)) demo_vm1 (DTB_PLIC + 0x1000) 15 2 true);
    [|by apply demo_running|by vm_compute|lia|by left].
  assert (E : vplic_read (devices demo_vm1) 1 3 0 d 0x1000 = Some 1024) by by vm_compute.
  exact (f_equal (λ o, match o with
    | Some x => Ok tt (after_load (demo_vcpu 0 (replicate 32 0)) 15 (extend 2 x) 4 w)
    | None => Panic "Bad PLIC access" w end) E).
Defined.

(** The guest writes 1024 to word 0 of its enable registers: physical interrupt
    33 is enabled in context 3. *)
Lemma vplic_store_refines_witness :
  let w := demo_world ∅ (∅ : plic_regs) (demo_vcpus 0 (<[15%nat := 1024]> (replicate 32 0)))
             {[ (1, htinst) := enc_store 15 2 false ]} 1 in
  match vplic_handle_store_or_amo_page_fault (DTB_PLIC + 0x2080) w with
  | Ok _ w' => reg (enable_off 3 33) (w_plic w') = 2 ∧ csr_of 1 sepc w' = 2
  | _ => False
  end.
Proof.
  intros w.
  rewrite (vplic_store_refines w (demo_vcpu 0 (<[15%nat := 1024]> (replicate 32 0))) demo_vm1
    (DTB_PLIC + 0x2080) 15 false); [by vm_compute|by apply demo_running|by vm_compute|lia].
Defined.

(** The same store leaves hart 0's context alone. *)
Lemma vplic_store_isolation_witness :
  let w := demo_world ∅ (∅ : plic_regs) (demo_vcpus 0 (<[15%nat := 1024]> (replicate 32 0)))
             {[ (1, htinst) := enc_store 15 2 false ]} 1 in
  match vplic_handle_store_or_amo_page_fault (DTB_PLIC + 0x2080) w with
  | Ok _ w' => local_effect w w'
  | _ => False
  end.
Proof.
  intros w. assert (Hr : running w (demo_vcpu 0 (<[15%nat := 1024]> (replicate 32 0))) demo_vm1)
    by by apply demo_running.
  pose proof (vplic_store_isolation w _ _ (DTB_PLIC + 0x2080) Hr) as H. revert H.
  assert (E : match vplic_handle_store_or_amo_page_fault (DTB_PLIC + 0x2080) w with
              | Ok _ _ => true | _ => false end = true) by by vm_compute.
  destruct (vplic_handle_store_or_amo_page_fault _ w); [by intros [? _]|done|done|done].
Defined.

(** Interrupt 10 belongs to VM 0: whether it is pending does not show. *)
Lemma vplic_load_noninterference_witness :
  let d : plic_regs := {[ 0x1004 := 2 ]} in
  let d' : plic_regs := {[ 0x1004 := 2; 0x1000 := 1024 ]} in
  let w := demo_world ∅ d (demo_vcpus 0 (replicate 32 0)) {[ (1, htinst) := enc_load 15 2 true ]} 1 in
  vplic_handle_load_page_fault (DTB_PLIC + 0x1000) (set_plic d' w) =
    with_plic d' (vplic_handle_load_page_fault (DTB_PLIC + 0x1000) w).
Proof.
  intros d d' w.
  apply (vplic_load_noninterference w (demo_vcpu 0 (replicate 32 0)) demo_vm1 (DTB_PLIC + 0x1000) d');
    [by apply demo_running|].
  assert (Ho : ∀ irq, owned_irq (devices demo_vm1) irq → irq ∈ [33; 0; 2]).
  { intros irq (dv & Hd & <-). apply (list_elem_of_fmap_2 phys_irq) in Hd. exact Hd. }
  split; [| | |by vm_compute]; intros irq Hi%Ho;
    repeat (apply elem_of_cons in Hi as [->|Hi]; [by vm_compute|]); by apply not_elem_of_nil in Hi.
Defined.

Lemma demo_live : live_irq (devices demo_vm1) pci_serial.
Proof.
  split; [by left|]. split; [|done].
  assert (Hd : vm_devices (devices demo_vm1) = [pci_serial; emulated_plic; virtio_disk_2]) by done.
  intros d d'. rewrite Hd, !elem_of_cons, !elem_of_nil.
  intros [->|[->|[->|[]]]] [->|[->|[->|[]]]]; by split.
Qed.

(** The serial line of VM 1 interrupts hart 1. *)
Lemma interrupt_roundtrip_witness :
  let d : plic_regs := {[ claim_off 3 := 33 ]} in
  let w := demo_world ∅ d (demo_vcpus 0 (replicate 32 0)) ∅ 1 in
  ∃ w1, vplic_handle_interrupt w = Ok tt w1 ∧ vseip w1 = true.
Proof.
  intros d w. destruct (interrupt_roundtrip w (demo_vcpu 0 (replicate 32 0)) demo_vm1 pci_serial)
    as (w1 & Hrun & Hv & _); [by apply demo_running|apply demo_live|by vm_compute|].
  by exists w1.
Defined.

(** While interrupt 33 is in service, the disk's interrupt 2 arrives. *)
Lemma nested_interrupt_loses_completion_witness :
  let d : plic_regs := {[ claim_off 3 := 2 ]} in
  let rs := <[15%nat := 10]> (replicate 32 0) in
  let w := demo_world ∅ d (demo_vcpus 33 rs) {[ (1, htinst) := enc_store 15 2 true ]} 1 in
  ∃ w1, vplic_handle_interrupt w = Ok tt w1 ∧
    vplic_handle_store_or_amo_page_fault (DTB_PLIC + claim_off 1) w1 = Ok tt (resume 4 w1).
Proof.
  intros d rs w. assert (Hr : running w (demo_vcpu 33 rs) demo_vm1) by by apply demo_running.
  destruct (nested_interrupt_loses_completion w (demo_vcpu 33 rs) demo_vm1 pci_serial)
    as (w1 & Hrun & Hst); [exact Hr|apply demo_live|done|by vm_compute|].
  exists w1. split; [exact Hrun|].
  assert (E : w1 = after_interrupt (demo_vcpu 33 rs) 2 w).
  { pose proof (handle_interrupt_run w _ _ Hr) as H. rewrite Hrun in H. by injection H. }
  assert (Hr1 : running w1 (demo_vcpu 2 rs) demo_vm1)
    by (rewrite E; by apply (after_interrupt_running w (demo_vcpu 33 rs) demo_vm1 2)).
  apply (Hst w1 (demo_vcpu 2 rs) 15 true); rewrite ?E; [|done|by vm_compute|lia|done].
  rewrite <- E. by eapply guest_run_refl.
Defined.
