(* ===== verification/TrapTheorems.v ===== *)
(** * TrapTheorems: correctness of the trap handlers of core/trap.c

    From the trap cause and the CSRs the hardware sets to the emulated access:
    which traps are handled, on which address, and what happens to the others. *)

From S2P Require Import Prelude Layout Bits Memory Machine Kmem Cpu Vmem PageTable VmemSpec Sv39 Plic Vcpu Vplic Trap VmRun VmRunSpec VplicSpec VmConfig Concrete.

Section trap.
Context {D : Type} {P : PlicDevice D} {L : Linker} `{!LinkerOk L}.
Implicit Types (w : world D) (tabs : gmap Z tab) (c : vm_config) (v : vcpu).

(** The hart runs [v] of [c] and [tabs] are the tables in memory, the root of [c]
    among them. *)
Record guest_tables w v c tabs : Prop := {
  gt_running : running w v c;
  gt_inv : pt_inv (w_mem w) tabs;
  gt_root : root_ptr tabs (vm_pgtable c) (root_of c) 1
}.

(** The guest-physical address of a guest page fault: htval holds it shifted
    right by two. *)
Definition fault_gpa w : Z := u64 (csr_of (w_hart w) htval w .<< 2).

Lemma fault_gpa_intro w gpa : 0 <= gpa < 2 ^ 64 → gpa mod 4 = 0 →
  csr_of (w_hart w) htval w = gpa / 4 → fault_gpa w = gpa.
Proof.
  intros Hg Ha E. unfold fault_gpa. rewrite E, Z.shiftl_mul_pow2 by lia.
  change (2 ^ 2) with 4. rewrite u64_id; dlia.
Qed.

(** What convert_va_to_pa returns for a mapped page. *)
Lemma convert_mapped w tabs pg r va pa flags : pt_inv (w_mem w) tabs → root_ptr tabs pg r 1 →
  pt_look (w_mem w) 2 r (vpn va true) = Some (leaf_pte pa flags) →
  0 <= pa < 2 ^ 56 → 0 <= flags < 1024 →
  convert_va_to_pa pg va 1 w = Ok (pa / 4096 * 4096 + va mod 4096) w.
Proof.
  intros Hpt Hroot Hl Hpa Hfl. destruct (mapped_slot _ _ _ _ _ Hl) as (s & Hs & Hrd & _).
  pose proof (convert_run w tabs pg r 1 va Hpt Hroot) as Hc. change (truthy 1) with true in Hc.
  rewrite Hs in Hc. destruct Hc as (e' & Hrd' & ->). rewrite Hrd in Hrd'. injection Hrd' as <-.
  rewrite PTE2PA_ppn, leaf_ppn by (done || by apply leaf_pte_range).
  rewrite get_value_spec, Z.div_1_r by lia. f_equal.
  change 4096 with (2 ^ 12). apply lor_mul_add; [lia|]. apply Z.mod_pos_bound. lia.
Qed.

(** The address is_access_to_plic hands on, or 0. *)
Definition plic_address (a : Z) : Z :=
  if (DTB_PLIC <=? a) && (a <? DTB_PLIC + DTB_PLIC_SIZE) then a else 0.

Lemma is_access_to_plic_run w v c tabs : guest_tables w v c tabs →
  match convert_va_to_pa (vm_pgtable c) (fault_gpa w) 1 w with
  | Ok a w' => w' = w ∧ is_access_to_plic w = Ok (plic_address a) w
  | Panic msg w' => w' = w ∧ is_access_to_plic w = Panic msg w
  | _ => False
  end.
Proof.
  intros [Hr Hpt Hroot]. destruct (running_hart _ _ _ Hr) as (_ & Hgv & Hvg & Hcg & _).
  assert (E : is_access_to_plic w = (a ← get_pa (vm_pgtable c);
    if (DTB_PLIC <=? a) && (a <? DTB_PLIC + DTB_PLIC_SIZE) then mret (s32 a) else mret 0) w).
  { unfold is_access_to_plic. erewrite bind_ok by exact Hgv. erewrite bind_ok by exact Hvg.
    by erewrite bind_ok by exact Hcg. }
  rewrite E. unfold get_pa. rewrite bind_bind. rewrite (bind_ok _ _ w _ w) by reflexivity.
  fold (fault_gpa w).
  pose proof (convert_run w tabs (vm_pgtable c) (root_of c) 1 (fault_gpa w) Hpt Hroot) as Hc.
  destruct (pt_slot _ _ _ _).
  - destruct Hc as (e & _ & Hc). rewrite Hc. split; [done|]. erewrite bind_ok by exact Hc.
    unfold plic_address. destruct (_ && _) eqn:Er; [|done]. b2p.
    unfold DTB_PLIC, DTB_PLIC_SIZE in *. by rewrite s32_id by lia.
  - rewrite Hc. split; [done|]. by erewrite bind_panic by exact Hc.
Qed.

Lemma plic_handler_run w v c tabs (k : Z → cmd (world D) unit) msg :
  guest_tables w v c tabs →
  (r ← is_access_to_plic; let a := u64 r in if truthy a then k a else panic msg) w =
  match convert_va_to_pa (vm_pgtable c) (fault_gpa w) 1 w with
  | Ok a _ => if (DTB_PLIC <=? a) && (a <? DTB_PLIC + DTB_PLIC_SIZE) then k a w else Panic msg w
  | Panic m _ => Panic m w
  | _ => Hang w
  end.
Proof.
  intros Hg. pose proof (is_access_to_plic_run w v c tabs Hg) as H.
  destruct (convert_va_to_pa _ _ _ w) as [a w'|m w'|p w'|w']; [|destruct H as [_ Hi]; by erewrite bind_panic by exact Hi|done|done].
  destruct H as [-> Hi]. erewrite bind_ok by exact Hi. unfold plic_address.
  destruct (_ && _) eqn:Er; [|done]. b2p. unfold DTB_PLIC, DTB_PLIC_SIZE in *. rewrite u64_id by lia.
  by rewrite (proj2 (truthy_true a)) by lia.
Qed.

(** A guest's lw or lwu of its virtual PLIC, from the page fault on: when the
    guest's tables map the page of the faulting address to the PLIC page at the
    same address, hs_exception_handler performs the emulated load for exactly
    the faulting address, and the guest resumes after the instruction with the
    specified register value in its destination register. *)
Theorem guest_plic_load `{!PlicLaws D} w v c tabs gpa flags r f3 wide :
  guest_tables w v c tabs → 0 <= flags < 1024 →
  gpa mod 4 = 0 → DTB_PLIC <= gpa < DTB_PLIC + DTB_PLIC_SIZE →
  csr_of (w_hart w) htval w = gpa / 4 →
  pt_look (w_mem w) 2 (root_of c) (vpn gpa true) = Some (leaf_pte (gpa / 4096 * 4096) flags) →
  csr_of (w_hart w) htinst w = enc_load r f3 wide → 0 <= r < 32 → f3 = 2 ∨ f3 = 6 →
  hs_exception_handler EXC_LOAD_GUEST_PAGE_FAULT w =
  match vplic_read (devices c) (vctx_of v) (pctx_of w) (last_claimed_irq_id v) (w_plic w)
          (gpa - DTB_PLIC) with
  | Some x => Ok tt (after_load v r (extend f3 x) (if wide then 4 else 2) w)
  | None => Panic "Bad PLIC access" w
  end.
Proof.
  intros Hg Hfl Ha Hr Ht Hl Hi Hrd Hf. unfold hs_exception_handler.
  change (EXC_LOAD_GUEST_PAGE_FAULT =? EXC_ECALL_FROM_VS) with false.
  change (EXC_LOAD_GUEST_PAGE_FAULT =? EXC_LOAD_GUEST_PAGE_FAULT) with true. cbn iota.
  assert (Hgpa : fault_gpa w = gpa) by (apply fault_gpa_intro; unfold DTB_PLIC, DTB_PLIC_SIZE in *; lia || done).
  rewrite (plic_handler_run w v c tabs _ _ Hg), Hgpa.
  rewrite (convert_mapped w tabs _ (root_of c) gpa (gpa / 4096 * 4096) flags);
    [|apply Hg|apply Hg|exact Hl|unfold DTB_PLIC, DTB_PLIC_SIZE in *; dlia|exact Hfl].
  replace (gpa / 4096 * 4096 / 4096 * 4096 + gpa mod 4096) with gpa by dlia.
  rewrite (proj2 (Z.leb_le _ _)), (proj2 (Z.ltb_lt _ _)) by lia. cbn [andb].
  rewrite (load_fault_run w v c gpa r f3 wide) by (done || apply Hg).
  by rewrite u64_id by (unfold DTB_PLIC, DTB_PLIC_SIZE in *; lia).
Qed.

(** The same for a guest's sw: the emulated store is performed for exactly
    the faulting address and the guest resumes after the instruction. *)
Theorem guest_plic_store w v c tabs gpa flags r wide :
  guest_tables w v c tabs → 0 <= flags < 1024 →
  gpa mod 4 = 0 → DTB_PLIC <= gpa < DTB_PLIC + DTB_PLIC_SIZE →
  csr_of (w_hart w) htval w = gpa / 4 →
  pt_look (w_mem w) 2 (root_of c) (vpn gpa true) = Some (leaf_pte (gpa / 4096 * 4096) flags) →
  csr_of (w_hart w) htinst w = enc_store r 2 wide → 0 <= r < 32 →
  let val := u32 (get_reg r v) in
  let off := gpa - DTB_PLIC in
  hs_exception_handler EXC_STORE_OR_AMO_GUEST_PAGE_FAULT w =
  match vplic_write_ops (devices c) (vctx_of v) (pctx_of w) (last_claimed_irq_id v) off val with
  | Some ops => Ok tt (resume (if wide then 4 else 2)
                  (after_write v ops
                    (completes (devices c) (vctx_of v) (last_claimed_irq_id v) off val) w))
  | None => Panic "Bad PLIC access" w
  end.
Proof.
  intros Hg Hfl Ha Hr Ht Hl Hi Hrd val off. unfold hs_exception_handler.
  change (EXC_STORE_OR_AMO_GUEST_PAGE_FAULT =? EXC_ECALL_FROM_VS) with false.
  change (EXC_STORE_OR_AMO_GUEST_PAGE_FAULT =? EXC_LOAD_GUEST_PAGE_FAULT) with false.
  change (EXC_STORE_OR_AMO_GUEST_PAGE_FAULT =? EXC_STORE_OR_AMO_GUEST_PAGE_FAULT) with true. cbn iota.
  assert (Hgpa : fault_gpa w = gpa) by (apply fault_gpa_intro; unfold DTB_PLIC, DTB_PLIC_SIZE in *; lia || done).
  rewrite (plic_handler_run w v c tabs _ _ Hg), Hgpa.
  rewrite (convert_mapped w tabs _ (root_of c) gpa (gpa / 4096 * 4096) flags);
    [|apply Hg|apply Hg|exact Hl|unfold DTB_PLIC, DTB_PLIC_SIZE in *; dlia|exact Hfl].
  replace (gpa / 4096 * 4096 / 4096 * 4096 + gpa mod 4096) with gpa by dlia.
  rewrite (proj2 (Z.leb_le _ _)), (proj2 (Z.ltb_lt _ _)) by lia. cbn [andb].
  rewrite (store_fault_run w v c gpa r wide) by (done || apply Hg).
  by rewrite u64_id by (unfold DTB_PLIC, DTB_PLIC_SIZE in *; lia).
Qed.

(** No other guest fault is emulated: a guest page fault whose address the
    guest's tables send outside the PLIC, or for which a table is missing, and
    every exception cause but the three handled ones, end in a panic that leaves
    the world as it was. *)
Theorem other_guest_faults_panic w v c tabs cause :
  guest_tables w v c tabs →
  (cause = EXC_LOAD_GUEST_PAGE_FAULT ∨ cause = EXC_STORE_OR_AMO_GUEST_PAGE_FAULT →
   ∀ a, convert_va_to_pa (vm_pgtable c) (fault_gpa w) 1 w = Ok a w →
     ¬ (DTB_PLIC <= a < DTB_PLIC + DTB_PLIC_SIZE)) →
  cause ≠ EXC_ECALL_FROM_VS →
  ∃ msg, hs_exception_handler cause w = Panic msg w.
Proof.
  intros Hg Hout Hne.
  assert (Hfault : ∀ (k : Z → cmd (world D) unit) msg, (cause = EXC_LOAD_GUEST_PAGE_FAULT ∨ cause = EXC_STORE_OR_AMO_GUEST_PAGE_FAULT) →
    ∃ m, (r ← is_access_to_plic; let a := u64 r in if truthy a then k a else panic msg) w = Panic m w).
  { intros k msg Hc. rewrite (plic_handler_run w v c tabs k msg Hg).
    pose proof (is_access_to_plic_run w v c tabs Hg) as H.
    destruct (convert_va_to_pa _ _ _ w) as [a w'|m w'|p w'|w']; [|by eexists|done|done].
    destruct H as [-> _]. specialize (Hout Hc a eq_refl). destruct (_ && _) eqn:E; [|by eexists].
    b2p. lia. }
  unfold hs_exception_handler. rewrite (proj2 (Z.eqb_neq _ _) Hne).
  destruct (Z.eqb_spec cause EXC_LOAD_GUEST_PAGE_FAULT); [apply Hfault; by left|].
  destruct (Z.eqb_spec cause EXC_STORE_OR_AMO_GUEST_PAGE_FAULT); [apply Hfault; by right|].
  by eexists.
Qed.

(** A guest's environment call returns in a0 the host-physical address behind
    the guest-physical address it passed in a0 and resumes after the ecall. *)
Theorem guest_ecall_translates w v c tabs pa flags :
  guest_tables w v c tabs → 0 <= pa < 2 ^ 56 → 0 <= flags < 1024 →
  let gpa := get_reg 10 v in
  pt_look (w_mem w) 2 (root_of c) (vpn gpa true) = Some (leaf_pte pa flags) →
  hs_exception_handler EXC_ECALL_FROM_VS w =
    Ok tt (after_load v 10 (pa / 4096 * 4096 + gpa mod 4096) 4 w).
Proof.
  intros Hg Hpa Hfl gpa Hl. pose proof (gt_running _ _ _ _ Hg) as Hr.
  destruct (running_hart _ _ _ Hr) as (_ & Hgv & Hvg & Hcg & Hh).
  unfold hs_exception_handler. change (EXC_ECALL_FROM_VS =? EXC_ECALL_FROM_VS) with true. cbn iota.
  rewrite (bind_ok _ _ _ tt (set_vcpus (<[Z.to_nat (w_hart w) :=
    set_reg 10 (pa / 4096 * 4096 + gpa mod 4096) v]> (w_vcpus w)) w)).
  - erewrite bind_ok by reflexivity. done.
  - unfold perform_walk_for_guest. erewrite bind_ok by exact Hgv. erewrite bind_ok by exact Hvg.
    erewrite bind_ok by exact Hcg.
    erewrite bind_ok by (eapply convert_mapped; [apply Hg|apply Hg|exact Hl|exact Hpa|exact Hfl]).
    apply vcpu_upd_ok; [lia|apply Hr].
Qed.
End trap.

(** ** The theorems at work: hart 1, VM 1, tables built by init_hs_pgtable *)

Lemma demo_guest (d : plic_regs) cs last rs : 0 <= last < 2 ^ 32 → length rs = 32%nat →
  ∃ (w : world plic_regs) tabs, guest_tables w (demo_vcpu last rs) demo_vm1 tabs ∧
    w_plic w = d ∧ w_csr w = cs ∧ w_hart w = 1 ∧
    ∀ gpa, DTB_PLIC <= gpa < DTB_PLIC + DTB_PLIC_SIZE →
      pt_look (w_mem w) 2 (root_of demo_vm1) (vpn gpa true) = Some (leaf_pte (gpa / 4096 * 4096) PTE_U).
Proof.
  intros Hl Hrs. destruct (demo_boot d (demo_vcpus last rs) cs 1) as (m & k & Hinv & Hb).
  set (w := set_mem m _) in *.
  destruct (init_hs_pgtable_run w ∅ all_pages [] demo_vm1 devs1 demo_ok1 (mem_inv_boot _ _ Hinv))
    as (w' & tabs & fl & pages & _ & B).
  - eapply has_bytes_sub; [exact Hb|by vm_compute|by vm_compute].
  - intros u j Hu. by rewrite lookup_empty in Hu.
  - apply demo_enough. pose proof demo_need. lia.
  - destruct (vb_only _ _ _ _ _ _ _ _ _ _ B) as (m' & k' & E). exists w', tabs. split_and!.
    + split; [|apply B|apply B]. rewrite E. pose proof (demo_running ∅ d cs last rs Hl Hrs) as [? ? ? ? ?].
      by split.
    + by rewrite E.
    + by rewrite E.
    + by rewrite E.
    + intros gpa Hg. unfold DTB_PLIC, DTB_PLIC_SIZE in Hg.
      assert (Hv : vpn gpa true = gpa / 4096) by (unfold vpn; apply Z.mod_small; dlia).
      rewrite Hv, (vb_look _ _ _ _ _ _ _ _ _ _ B) by (unfold vpn_bound; dlia).
      unfold guest_entry, devs1. cbn [devs_entry].
      rewrite (decide_False (P := in_dev pci_serial _)) by (rewrite in_pci_serial; dlia).
      rewrite decide_True by (rewrite in_plic; dlia). f_equal. unfold dev_entry.
      change (dev_vpn emulated_plic) with 0xc000. change (phys_base emulated_plic) with 0xc000000.
      change (dev_flags emulated_plic) with PTE_U. unfold PAGE_SIZE. f_equal. lia.
Qed.

(** lw a5 of word 0 of the pending registers, with interrupt 33 pending. *)
Lemma guest_plic_load_witness : ∃ w w' : world plic_regs,
  hs_exception_handler EXC_LOAD_GUEST_PAGE_FAULT w = Ok tt w' ∧
  w_vcpus w' !! 1%nat = Some (set_reg 15 1024 (demo_vcpu 0 (replicate 32 0))).
Proof.
  destruct (demo_guest {[ 0x1004 := 2 ]}
    {[ (1, htinst) := enc_load 15 2 true; (1, htval) := (DTB_PLIC + 0x1000) / 4 ]} 0 (replicate 32 0))
    as (w & tabs & Hg & Hd & Hc & Hh & Hl); [done|done|].
  eexists w, _. split.
  - rewrite (guest_plic_load w _ demo_vm1 tabs (DTB_PLIC + 0x1000) PTE_U 15 2 true Hg).
    + replace (vplic_read _ _ _ _ _ _) with (Some 1024); [reflexivity|].
      unfold pctx_of. rewrite Hd, Hh. by vm_compute.
    + by vm_compute.
    + done.
    + by vm_compute.
    + unfold csr_of. rewrite Hc, Hh. by vm_compute.
    + by apply Hl.
    + unfold csr_of. rewrite Hc, Hh. by vm_compute.
    + lia.
    + by left.
  - cbn [after_load resume w_vcpus set_csr set_vcpus]. rewrite Hh.
    apply list_lookup_insert_eq.
    pose proof (run_vcpu _ _ _ (gt_running _ _ _ _ Hg)) as Hv. rewrite Hh in Hv. by eapply lookup_lt_Some.
Defined.

(** sw of 7 to the threshold register. *)
Lemma guest_plic_store_witness : ∃ w w' : world plic_regs,
  hs_exception_handler EXC_STORE_OR_AMO_GUEST_PAGE_FAULT w = Ok tt w' ∧
  reg (threshold_off 3) (w_plic w') = 7.
Proof.
  destruct (demo_guest ∅
    {[ (1, htinst) := enc_store 15 2 true; (1, htval) := (DTB_PLIC + 0x201000) / 4 ]} 0
    (<[15%nat := 7]> (replicate 32 0))) as (w & tabs & Hg & Hd & Hc & Hh & Hl); [done|done|].
  eexists w, _. split.
  - rewrite (guest_plic_store w _ demo_vm1 tabs (DTB_PLIC + 0x201000) PTE_U 15 true Hg).
    + replace (vplic_write_ops _ _ _ _ _ _) with (Some [PStore (threshold_off 3) 7]); [reflexivity|].
      unfold pctx_of. rewrite Hh. by vm_compute.
    + by vm_compute.
    + done.
    + by vm_compute.
    + unfold csr_of. rewrite Hc, Hh. by vm_compute.
    + by apply Hl.
    + unfold csr_of. rewrite Hc, Hh. by vm_compute.
    + lia.
  - cbn [after_write do_ops resume w_plic set_plic set_csr]. unfold run_ops. cbn [foldl flip run_op].
    destruct (completes _ _ _ _ _); cbn [after_complete w_plic set_csr set_vcpus]; rewrite Hd; by vm_compute.
Defined.

(** A fault on an address with no table: page 0 of a VM that maps nothing there. *)
Lemma other_guest_faults_panic_witness : ∃ (w : world plic_regs) msg,
  hs_exception_handler EXC_BREAKPOINT w = Panic msg w.
Proof.
  destruct (demo_guest ∅ ∅ 0 (replicate 32 0)) as (w & tabs & Hg & _); [done|done|].
  destruct (other_guest_faults_panic w _ demo_vm1 tabs EXC_BREAKPOINT Hg) as (msg & Hm);
    [by intros [?|?]|done|]. by exists w, msg.
Defined.

Lemma guest_ecall_translates_witness : ∃ w w' : world plic_regs,
  hs_exception_handler EXC_ECALL_FROM_VS w = Ok tt w' ∧
  w_vcpus w' !! 1%nat = Some (set_reg 10 (DTB_PLIC + 8) (demo_vcpu 0 (<[10%nat := DTB_PLIC + 8]> (replicate 32 0)))).
Proof.
  destruct (demo_guest ∅ ∅ 0 (<[10%nat := DTB_PLIC + 8]> (replicate 32 0)))
    as (w & tabs & Hg & _ & _ & Hh & Hl); [done|done|].
  eexists w, _. split.
  - apply (guest_ecall_translates w _ demo_vm1 tabs DTB_PLIC PTE_U Hg); [by vm_compute|by vm_compute|].
    by apply (Hl (DTB_PLIC + 8)).
  - cbn [after_load resume w_vcpus set_csr set_vcpus]. rewrite Hh.
    apply list_lookup_insert_eq.
    pose proof (run_vcpu _ _ _ (gt_running _ _ _ _ Hg)) as Hv. rewrite Hh in Hv. by eapply lookup_lt_Some.
Defined.
