(* ===== verification/TrapEntry.v ===== *)
(** * TrapEntry: switching between guest and hypervisor, core/trap.S

    hstrapvec saves the guest's registers into the structure sscratch points into,
    calls the handler of core/trap.c and reloads the registers from there.  The C
    handlers may leave anything in the registers: [clobber]. *)

From S2P Require Import Prelude Layout Bits Memory Machine Asm Kmem Cpu Linkerscript Vmem Plic Vcpu Vplic Trap.

Section entry.
Context {D : Type} {P : PlicDevice D} {L : Linker}.
Implicit Types (w : world D) (s : hart (world D)).
#[local] Abbreviation A := (cmd (hart (world D))).

(** ** Memory as trap.S sees it

    [vcpus] is an array in .data; the register area of element [i] starts at
    [regs_addr i].  Other addresses are plain kernel memory. *)

Definition regs_addr (i : Z) : Z := u64 (sym_vcpus + VCPU_SIZE * i + VCPU_REGS).

Definition reg_slot (p : Z) : option (nat * nat) :=
  let o := p - sym_vcpus in
  let f := o mod VCPU_SIZE - VCPU_REGS in
  if (0 <=? o) && (0 <=? f) && (f mod 8 =? 0) then Some (Z.to_nat (o / VCPU_SIZE), Z.to_nat (f / 8)) else None.

Definition trap_ld (p : Z) : cmd (world D) Z := λ w,
  match reg_slot p ≫= λ '(i, k), v ← w_vcpus w !! i; regs v !! k with
  | Some x => Ok x w
  | None => load64 p w
  end.
Definition trap_sd (p x : Z) : cmd (world D) unit := λ w,
  match reg_slot p ≫= λ '(i, k), v ← w_vcpus w !! i; _ ← regs v !! k; Some (i, k, v) with
  | Some (i, k, v) => Ok tt (set_vcpus (<[i := set_regs (<[k := x]> (regs v)) v]> (w_vcpus w)) w)
  | None => store64 p x w
  end.
Definition trap_bus : asm_bus (world D) := mk_bus _ trap_ld trap_sd CSRR CSRW.

(** ** The code *)

(** [sd x1, 1*8(x31)] ... [sd x30, 30*8(x31)], and the loads. *)
Fixpoint save_regs (ns : list nat) : A unit :=
  match ns with
  | [] => mret tt
  | n :: ns' => sd trap_bus n (Z.of_nat n * 8) x31 ;; save_regs ns'
  end.
Fixpoint load_regs (ns : list nat) : A unit :=
  match ns with
  | [] => mret tt
  | n :: ns' => ld trap_bus n (Z.of_nat n * 8) x31 ;; load_regs ns'
  end.

Definition VM_EXIT : A unit :=
  csrrw trap_bus x31 sscratch x31 ;;
  save_regs (seq 1 30) ;;
  mv sp x31 ;;
  csrrw trap_bus x31 sscratch x31 ;;
  sd trap_bus x31 (31 * 8) sp ;;
  li sp (VAS_CPU_STRUCT + CPU_STACK_OFF + CPU_STACK_SIZE).

(** The result is the address at which [sret] resumes the guest. *)
Definition sret : A Z := behind (CSRR sepc).

Definition vm_enter : A Z :=
  csrr trap_bus x31 sscratch ;;
  load_regs (seq 1 30) ;;
  ld trap_bus x31 (31 * 8) x31 ;;
  sret.

(** A call of a C function with one argument: only its effect on the state is
    known afterwards. *)
Context (clobber : (nat → Z) → nat → Z).
Definition call (f : Z → cmd (world D) unit) : A unit :=
  a ← gets (rx a0);
  behind (f a) ;;
  modify (λ s, mk_hart (clobber (xr s)) (hw s)).

Definition hstrapvec : A Z :=
  VM_EXIT ;;
  csrr trap_bus a0 scause ;;
  srli t0 a0 63 ;;
  t ← gets (rx t0);
  (if t =? 0 then call hs_exception_handler else call hs_interrupt_handler) ;;
  vm_enter.

(** ** The register area *)

Lemma reg_slot_addr i k : 0 <= i → 0 <= k < 32 → 0 <= sym_vcpus → sym_vcpus + VCPU_SIZE * (i + 1) < 2 ^ 64 →
  u64 (regs_addr i + k * 8) = sym_vcpus + VCPU_SIZE * i + VCPU_REGS + k * 8 ∧
  reg_slot (u64 (regs_addr i + k * 8)) = Some (Z.to_nat i, Z.to_nat k).
Proof.
  intros Hi Hk Hs Hb. unfold regs_addr, VCPU_SIZE, VCPU_REGS in *.
  rewrite (u64_id (sym_vcpus + _ + _)) by lia. rewrite u64_id by lia. split; [done|].
  unfold reg_slot, VCPU_SIZE, VCPU_REGS.
  replace (sym_vcpus + 280 * i + 24 + k * 8 - sym_vcpus) with ((24 + k * 8) + i * 280) by lia.
  rewrite Z.mod_add, Z.div_add, (Z.mod_small (24 + _)), (Z.div_small (24 + _)) by lia.
  replace (24 + k * 8 - 24) with (k * 8) by lia. rewrite Z.mod_mul, Z.div_mul by lia.
  rewrite (proj2 (Z.leb_le 0 _)), (proj2 (Z.leb_le 0 _)) by lia. cbn [andb Z.eqb].
  by rewrite Z.add_0_l.
Qed.

(** The hart [i] runs the virtual CPU [v] of its own slot, and sscratch points to
    the registers of that slot. *)
Record attached (i : Z) (v : vcpu) w : Prop := {
  at_hart : w_hart w = i;
  at_i : 0 <= i;
  at_vcpu : w_vcpus w !! Z.to_nat i = Some v;
  at_regs : length (regs v) = 32%nat;
  at_vcpus : 0 <= sym_vcpus ∧ sym_vcpus + VCPU_SIZE * (i + 1) < 2 ^ 64
}.

Definition scratch_ok (i : Z) w : Prop := w_csr w !! (i, sscratch) = Some (regs_addr i).

Definition with_regs (i : Z) (v : vcpu) (rs : list Z) w : world D :=
  set_vcpus (<[Z.to_nat i := set_regs rs v]> (w_vcpus w)) w.

Lemma with_regs_attached i v rs w : attached i v w → length rs = 32%nat →
  attached i (set_regs rs v) (with_regs i v rs w).
Proof.
  intros [? ? Hv ? ?] Hrs. split; try done. apply list_lookup_insert_eq. by eapply lookup_lt_Some.
Qed.

Lemma with_regs_with_regs i v rs rs' w :
  with_regs i (set_regs rs v) rs' (with_regs i v rs w) = with_regs i v rs' w.
Proof. unfold with_regs. destruct w. unfold set_vcpus. simpl. by rewrite list_insert_insert_eq. Qed.

Lemma with_regs_id i v w : attached i v w → with_regs i v (regs v) w = w.
Proof.
  intros [_ _ Hv _ _]. unfold with_regs. replace (set_regs (regs v) v) with v by by destruct v.
  rewrite list_insert_id by done. by destruct w.
Qed.

Lemma trap_sd_run i v w k x : attached i v w → (k < 32)%nat →
  trap_sd (u64 (regs_addr i + Z.of_nat k * 8)) x w = Ok tt (with_regs i v (<[k := x]> (regs v)) w).
Proof.
  intros [Hh Hi Hv Hl Ha] Hk. unfold trap_sd.
  destruct (reg_slot_addr i (Z.of_nat k)) as [_ ->]; [lia..|]. cbn [mbind option_bind].
  rewrite Hv. cbn [mbind option_bind]. rewrite Nat2Z.id.
  destruct (lookup_lt_is_Some_2 (regs v) k) as [y ->]; [lia|]. done.
Qed.

Lemma trap_ld_run i v w k x : attached i v w → regs v !! k = Some x →
  trap_ld (u64 (regs_addr i + Z.of_nat k * 8)) w = Ok x w.
Proof.
  intros [Hh Hi Hv Hl Ha] Hk. unfold trap_ld. pose proof (lookup_lt_Some _ _ _ Hk).
  destruct (reg_slot_addr i (Z.of_nat k)) as [_ ->]; [lia..|]. cbn [mbind option_bind].
  rewrite Hv. cbn [mbind option_bind]. by rewrite Nat2Z.id, Hk.
Qed.

(** Register values written over a saved file. *)
Fixpoint save_list (ns : list nat) (f : nat → Z) (rs : list Z) : list Z :=
  match ns with
  | [] => rs
  | n :: ns' => save_list ns' f (<[n := f n]> rs)
  end.

Lemma length_save_list ns f rs : length (save_list ns f rs) = length rs.
Proof. revert rs. induction ns as [|n ns IH]; intros rs; [done|]. cbn. by rewrite IH, length_insert. Qed.

Lemma lookup_save_list ns f rs k : (k < length rs)%nat →
  save_list ns f rs !! k = if decide (k ∈ ns) then Some (f k) else rs !! k.
Proof.
  revert rs. induction ns as [|n ns IH]; intros rs Hk; cbn [save_list]; [done|].
  rewrite IH by by rewrite length_insert. destruct (decide (k ∈ ns)).
  - by rewrite decide_True by by right.
  - destruct (decide (k = n)) as [->|Hne].
    + rewrite list_lookup_insert_eq by done. rewrite decide_True; [done|]. by left.
    + rewrite list_lookup_insert_ne by done. rewrite decide_False; [done|].
      intros [?|?]%elem_of_cons; done.
Qed.

Lemma save_regs_run ns i v s : attached i v (hw s) → rx x31 s = regs_addr i → Forall (λ n, (n < 32)%nat) ns →
  save_regs ns s = Ok tt (mk_hart (xr s) (with_regs i v (save_list ns (λ n, rx n s) (regs v)) (hw s))).
Proof.
  revert v s. induction ns as [|n ns IH]; intros v s Ha Hx Hns.
  - cbn [save_regs save_list]. rewrite with_regs_id by done. by destruct s.
  - apply Forall_cons in Hns as [Hn Hns]. cbn [save_regs].
    erewrite bind_ok; [|apply sd_ok; rewrite Hx; by apply trap_sd_run].
    rewrite (IH (set_regs (<[n := rx n s]> (regs v)) v));
      [|cbn [hw]; apply with_regs_attached; [done|by rewrite length_insert, (at_regs _ _ _ Ha)]|done|done].
    cbn [xr hw]. by rewrite with_regs_with_regs.
Qed.

Lemma load_regs_run ns i v s : attached i v (hw s) → rx x31 s = regs_addr i →
  Forall (λ n, (0 < n < 31)%nat) ns → Forall (λ x, 0 <= x < 2 ^ 64) (regs v) →
  ∃ f, load_regs ns s = Ok tt (mk_hart f (hw s)) ∧
    ∀ n, f n = if decide (n ∈ ns) then get_reg (Z.of_nat n) v else xr s n.
Proof.
  revert s. induction ns as [|n ns IH]; intros s Ha Hx Hns Hv.
  - exists (xr s). split; [by destruct s|done].
  - apply Forall_cons in Hns as [Hn Hns]. cbn [load_regs].
    destruct (lookup_lt_is_Some_2 (regs v) n) as [x Hxn]; [rewrite (at_regs _ _ _ Ha); lia|].
    erewrite bind_ok; [|apply ld_ok; rewrite Hx; by eapply trap_ld_run].
    assert (Hr : 0 <= x < 2 ^ 64) by (rewrite Forall_lookup in Hv; by eapply Hv).
    set (s1 := wx n x _).
    assert (E : xr s1 = upd n x (xr s) ∧ hw s1 = hw s).
    { unfold s1, wx. destruct (Nat.eqb_spec n 0); [lia|]. cbn [xr hw]. by rewrite u64_id. }
    destruct E as [E1 E2]. destruct (IH s1) as (f & Hrun & Hf); [by rewrite E2| |done|done|].
    { change (xr s1 31%nat = regs_addr i). rewrite E1. unfold upd.
      destruct (Nat.eqb_spec 31 n); [lia|exact Hx]. }
    exists f. rewrite Hrun, E2. split; [done|]. intros m. rewrite Hf, E1. unfold upd.
    destruct (decide (m ∈ ns)); [by rewrite decide_True by by right|].
    destruct (Nat.eqb_spec m n) as [->|].
    + rewrite decide_True by by left. unfold get_reg. by rewrite Nat2Z.id, Hxn.
    + rewrite decide_False; [done|]. intros [?|?]%elem_of_cons; done.
Qed.

(** ** Leaving the guest *)

(** The saved file holds x1 to x31; slot 0 keeps what it held. *)
Definition saved (g : nat → Z) (rs rs' : list Z) : Prop :=
  length rs' = 32%nat ∧ rs' !! 0%nat = rs !! 0%nat ∧ ∀ k, (0 < k < 32)%nat → rs' !! k = Some (g k).

Lemma regs_addr_range i : 0 <= regs_addr i < 2 ^ 64.
Proof. apply u64_range. Qed.

Lemma csrrw_run rd c rs s : csrrw trap_bus rd c rs s =
  Ok tt (wx rd (csr_of (w_hart (hw s)) c (hw s))
    (mk_hart (xr s) (set_csr (<[(w_hart (hw s), c) := rx rs s]> (w_csr (hw s))) (hw s)))).
Proof. done. Qed.

Lemma attached_csr i v cs w : attached i v w → attached i v (set_csr cs w).
Proof. by intros []. Qed.

Lemma VM_EXIT_run i v s : attached i v (hw s) → scratch_ok i (hw s) → 0 <= xr s 31%nat < 2 ^ 64 →
  ∃ s' rs, VM_EXIT s = Ok tt s' ∧ saved (xr s) (regs v) rs ∧ hw s' = with_regs i v rs (hw s) ∧
    rx sp s' = VAS_CPU_STRUCT + CPU_SIZE.
Proof.
  intros Ha Hs Hx. unfold VM_EXIT. asm_ops. set (w := hw s) in *. pose proof (at_hart _ _ _ Ha) as Hh.
  erewrite bind_ok by apply csrrw_run. fold w. rewrite Hh.
  replace (csr_of i sscratch w) with (regs_addr i) by (unfold csr_of; by rewrite Hs).
  set (w1 := set_csr _ w). set (s1 := wx x31 _ _).
  assert (E1 : rx x31 s1 = regs_addr i ∧ hw s1 = w1 ∧ ∀ n, n ≠ x31 → rx n s1 = rx n s).
  { unfold s1. split; [rewrite rx_wx; cbn; apply u64_id, regs_addr_range|]. split; [apply wx_hw|].
    intros n Hn. rewrite rx_wx. by destruct (Nat.eqb_spec n x31). }
  clearbody s1. destruct E1 as (E1 & W1 & X1).
  set (rs1 := save_list (seq 1 30) (λ n, rx n s1) (regs v)).
  rewrite (bind_ok _ _ s1 tt (mk_hart (xr s1) (with_regs i v rs1 w1))).
  2:{ rewrite <- W1. apply save_regs_run; [by rewrite W1; apply attached_csr|exact E1|].
      apply Forall_forall. intros n [??]%elem_of_seq. lia. }
  assert (L1 : length rs1 = 32%nat) by (unfold rs1; rewrite length_save_list; apply Ha).
  rewrite op_seq. erewrite bind_ok by apply csrrw_run. rewrite !wx_hw. cbn [hw].
  change (w_hart (with_regs i v rs1 w1)) with (w_hart w). rewrite Hh.
  set (s3 := wx x31 _ _).
  assert (E3 : rx x31 s3 = xr s 31%nat ∧ rx sp s3 = regs_addr i ∧ hw s3 = with_regs i v rs1 w).
  { unfold s3. rewrite !rx_wx, !wx_hw. cbn [Nat.eqb andb negb sp x31 hw].
    unfold rx, wx, upd, sp, x31. cbn [Nat.eqb xr]. change (xr s1 31%nat = regs_addr i) in E1. rewrite E1.
    rewrite (u64_id (regs_addr i)) by apply regs_addr_range. split_and!; [|done|].
    - replace (csr_of i sscratch (with_regs i v rs1 w1)) with (xr s 31%nat); [by rewrite u64_id|].
      unfold csr_of, w1. cbn [w_csr set_csr with_regs set_vcpus]. by rewrite lookup_insert_eq.
    - unfold w1, with_regs. cbn [w_csr set_csr set_vcpus]. rewrite insert_insert_eq, insert_id by exact Hs.
      by destruct w. }
  clearbody s3. destruct E3 as (E3 & P3 & W3).
  erewrite bind_ok; [|apply sd_ok; rewrite P3, W3, E3;
    exact (trap_sd_run i (set_regs rs1 v) (with_regs i v rs1 w) 31 (xr s 31%nat) ltac:(by apply with_regs_attached) ltac:(lia))].
  rewrite op_run. eexists _, _. split; [reflexivity|]. rewrite wx_hw. cbn [hw].
  rewrite with_regs_with_regs. split; [|split; [reflexivity|by rewrite rx_wx]].
  cbn [regs set_regs]. split_and!.
  - by rewrite length_insert.
  - rewrite list_lookup_insert_ne by lia. unfold rs1. rewrite lookup_save_list, decide_False; [done| |].
    + rewrite elem_of_seq. lia.
    + rewrite (at_regs _ _ _ Ha). lia.
  - intros k Hk. destruct (decide (k = 31%nat)) as [->|].
    + apply list_lookup_insert_eq. lia.
    + rewrite list_lookup_insert_ne by lia. unfold rs1. rewrite lookup_save_list, decide_True.
      * rewrite X1 by (unfold x31; lia). unfold rx. destruct (Nat.eqb_spec k 0); [lia|done].
      * rewrite elem_of_seq. lia.
      * rewrite (at_regs _ _ _ Ha). lia.
Qed.

(** ** Entering the guest *)

Lemma vm_enter_run i v s : attached i v (hw s) → scratch_ok i (hw s) →
  Forall (λ x, 0 <= x < 2 ^ 64) (regs v) →
  ∃ s', vm_enter s = Ok (csr_of i sepc (hw s)) s' ∧ hw s' = hw s ∧
    ∀ k, (0 < k < 32)%nat → xr s' k = get_reg (Z.of_nat k) v.
Proof.
  intros Ha Hs Hv. unfold vm_enter. pose proof (at_hart _ _ _ Ha) as Hh.
  erewrite bind_ok; [|apply csrr_ok; reflexivity].
  replace (csr_of (w_hart (hw s)) sscratch (hw s)) with (regs_addr i)
    by (rewrite Hh; unfold csr_of; by rewrite Hs).
  set (s1 := wx x31 _ _).
  assert (E1 : rx x31 s1 = regs_addr i ∧ hw s1 = hw s).
  { unfold s1. split; [rewrite rx_wx; cbn; apply u64_id, regs_addr_range|by rewrite wx_hw]. }
  clearbody s1. destruct E1 as [E1 W1].
  destruct (load_regs_run (seq 1 30) i v s1) as (f & Hrun & Hf); [by rewrite W1|done| |done|].
  { apply Forall_forall. intros n [??]%elem_of_seq. lia. }
  erewrite bind_ok by exact Hrun. rewrite W1.
  destruct (lookup_lt_is_Some_2 (regs v) 31) as [x Hx]; [rewrite (at_regs _ _ _ Ha); lia|].
  assert (Hxr : 0 <= x < 2 ^ 64) by (rewrite Forall_lookup in Hv; by eapply Hv).
  erewrite bind_ok; [|apply ld_ok].
  2:{ replace (rx x31 (mk_hart f (hw s))) with (regs_addr i).
      - exact (trap_ld_run i v (hw s) 31 x Ha Hx).
      - change (regs_addr i = f 31%nat). rewrite Hf, decide_False; [done|]. rewrite elem_of_seq. lia. }
  unfold sret. rewrite <- Hh. eexists. split; [apply behind_ok; rewrite wx_hw; reflexivity|].
  cbn [hw]. split; [done|]. intros k Hk. unfold wx, x31, upd. cbn [Nat.eqb xr].
  destruct (Nat.eqb_spec k 31) as [->|].
  - rewrite u64_id by done. unfold get_reg. change (Z.to_nat (Z.of_nat 31)) with 31%nat. by rewrite Hx.
  - rewrite Hf, decide_True; [done|]. rewrite elem_of_seq. lia.
Qed.

(** ** The whole way *)

(** The handler hstrapvec chooses: the top bit of scause is set for interrupts. *)
Definition handler (cause : Z) : cmd (world D) unit :=
  if cause .>> 63 =? 0 then hs_exception_handler cause else hs_interrupt_handler cause.

Lemma hstrapvec_run i v s : attached i v (hw s) → scratch_ok i (hw s) → 0 <= xr s 31%nat < 2 ^ 64 →
  let cause := csr_of i scause (hw s) in 0 <= cause < 2 ^ 64 →
  ∃ rs, saved (xr s) (regs v) rs ∧
    (∀ w2 v2, handler cause (with_regs i v rs (hw s)) = Ok tt w2 → attached i v2 w2 → scratch_ok i w2 →
     Forall (λ x, 0 <= x < 2 ^ 64) (regs v2) →
     ∃ s', hstrapvec s = Ok (csr_of i sepc w2) s' ∧ hw s' = w2 ∧
       ∀ k, (0 < k < 32)%nat → xr s' k = get_reg (Z.of_nat k) v2) ∧
    (∀ w2 msg, handler cause (with_regs i v rs (hw s)) = Panic msg w2 →
       ∃ s', hstrapvec s = Panic msg s' ∧ hw s' = w2).
Proof.
  intros Ha Hs Hx cause Hc. destruct (VM_EXIT_run i v s Ha Hs Hx) as (s1 & rs & R1 & Hsv & W1 & _).
  exists rs. split; [exact Hsv|].
  set (s2 := wx t0 (cause .>> 63) (wx a0 cause s1)).
  assert (E : hstrapvec s = (call (λ _, handler cause) ;; vm_enter) s2).
  { unfold hstrapvec. erewrite bind_ok by exact R1.
    assert (Hw : csr_of (w_hart (hw s1)) scause (hw s1) = cause) 
      by (rewrite W1; change (w_hart (with_regs _ _ _ (hw s))) with (w_hart (hw s)); by rewrite (at_hart _ _ _ Ha)).
    erewrite bind_ok; [|apply csrr_ok; reflexivity]. rewrite Hw. replace (mk_hart (xr s1) (hw s1)) with s1 by by destruct s1.
    asm_ops. rewrite op_seq. rewrite (rx_wx a0 a0). cbn [Nat.eqb andb negb a0]. rewrite (u64_id cause) by done.
    fold s2. rewrite bind_gets. replace (rx t0 s2) with (cause .>> 63).
    - assert (Ea : rx a0 s2 = cause) by (unfold s2; rewrite !rx_wx; cbn; by rewrite u64_id).
      unfold handler. destruct (cause .>> 63 =? 0); unfold call; by rewrite !bind_bind, !bind_gets, Ea.
    - unfold s2. rewrite !rx_wx. cbn [Nat.eqb andb negb t0]. rewrite u64_id; [done|].
      rewrite Z.shiftr_div_pow2 by lia. dlia. }
  assert (W2 : hw s2 = with_regs i v rs (hw s)) by (unfold s2; by rewrite !wx_hw). rewrite E. split.
  - intros w2 v2 Hh Ha2 Hs2 Hv2. unfold call. rewrite bind_bind, bind_gets, bind_bind.
    erewrite bind_ok by (apply behind_ok; rewrite W2; exact Hh). rewrite bind_modify.
    destruct (vm_enter_run i v2 (mk_hart (clobber (xr s2)) w2) Ha2 Hs2 Hv2) as (s' & Hr & Hw & Hk).
    exists s'. split; [exact Hr|]. split; [exact Hw|exact Hk].
  - intros w2 msg Hh. unfold call. rewrite bind_bind, bind_gets, bind_bind.
    exists (mk_hart (xr s2) w2). split; [|done]. apply bind_panic. unfold behind. by rewrite W2, Hh.
Qed.
End entry.
