(* ===== verification/TrapEntryTheorems.v ===== *)
(** * TrapEntryTheorems: from the guest's trap to its resumption

    What every trap can do to the hypervisor's state ([trap_effect]), and what the
    guest sees of a trapped instruction or an interrupt, registers included. *)

From S2P Require Import Prelude Layout Bits Memory Machine Asm Kmem Cpu Linkerscript Vmem PageTable VmemSpec Sv39 Plic Vcpu Vplic Trap VmRun VmRunSpec VplicSpec VmConfig Concrete VplicTheorems TrapTheorems TrapEntry.

(** ** The effect of a trap *)

Definition words (rs : list Z) : Prop := Forall (λ x, 0 <= x < 2 ^ 64) rs.

(** The PLIC accesses the hypervisor makes for a VM: the VM's own writes and the
    claim of its hart's context. *)
Definition own_op (devs : list (option mmio_dev)) (ctx last : Z) (o : plic_op) : Prop :=
  own_write devs ctx last o ∨ o = PLoad (claim_off ctx).

Section effect.
Context {D : Type} {P : PlicDevice D} {L : Linker}.
Implicit Types (w : world D) (v : vcpu) (c : vm_config).

(** [w'] is [w] after a trap of the running hart was handled: only the hart's CSRs
    (sepc, hvip and stimecmp), its virtual CPU and its own part of the PLIC changed. *)
Record trap_effect w v c w' v' : Prop := {
  te_local : local_effect w w';
  te_running : running w' v' c;
  te_len : length (w_vcpus w') = length (w_vcpus w);
  te_conf : conf v' = conf v ∧ vhartid v' = vhartid v;
  te_words : words (regs v) → words (regs v');
  te_csr i q : (i = w_hart w → q ≠ sepc ∧ q ≠ hvip ∧ q ≠ stimecmp) → w_csr w' !! (i, q) = w_csr w !! (i, q);
  te_plic : ∃ ops, w_plic w' = run_ops ops (w_plic w) ∧
    Forall (own_op (devices c) (pctx_of w) (last_claimed_irq_id v)) ops
}.

Lemma effect_load w v c r x k : running w v c → 0 <= x < 2 ^ 64 →
  trap_effect w v c (after_load v r x k w) (set_reg r x v).
Proof.
  intros Hr Hx. split; [split; try done| |by simpl; rewrite length_insert|done| | |by exists []].
  - intros i Hi. simpl. by rewrite list_lookup_insert_ne by done.
  - intros h q Hh. unfold csr_of. simpl. by rewrite lookup_insert_ne by congruence.
  - by apply after_load_running.
  - intros Hw. by apply Forall_insert.
  - intros i q Hq. simpl. rewrite lookup_insert_ne; [done|]. intros [= <- <-]. by destruct (Hq eq_refl) as (? & ? & ?).
Qed.

Lemma after_write_running w v c ops comp k : running w v c →
  running (resume k (after_write v ops comp w)) (if comp then set_last_claimed 0 v else v) c.
Proof.
  intros [Hc Hv Hk Hvh Hrs Hl]. destruct comp; split; try done; simpl.
  apply list_lookup_insert_eq. by eapply lookup_lt_Some.
Qed.

Lemma effect_write w v c ops comp k : running w v c →
  Forall (own_write (devices c) (pctx_of w) (last_claimed_irq_id v)) ops →
  trap_effect w v c (resume k (after_write v ops comp w)) (if comp then set_last_claimed 0 v else v).
Proof.
  intros Hr Ho. split; [apply after_write_local|by apply after_write_running|
    by destruct comp; simpl; rewrite ?length_insert|by destruct comp|by destruct comp| |].
  - intros i q Hq. destruct comp; simpl; rewrite ?lookup_insert_ne; try done; intros [= <- <-]; by destruct (Hq eq_refl) as (? & ? & ?).
  - exists ops. split; [by destruct comp|]. eapply Forall_impl; [exact Ho|]. intros o Hq. by left.
Qed.

Lemma effect_interrupt w v c irq : running w v c → 0 <= irq < 2 ^ 32 →
  trap_effect w v c (after_interrupt v irq w) (set_last_claimed irq v).
Proof.
  intros Hr Hi. unfold after_interrupt. split; [split| | |done|done| |].
  1-5: by destruct (irq =? 0).
  - intros i Hne. destruct (irq =? 0); simpl; by rewrite list_lookup_insert_ne by done.
  - intros h q Hh. unfold csr_of. destruct (irq =? 0); [done|]. simpl. by rewrite lookup_insert_ne by congruence.
  - by apply after_interrupt_running.
  - destruct (irq =? 0); simpl; by rewrite length_insert.
  - intros i q Hq. destruct (irq =? 0); simpl; [done|]. rewrite lookup_insert_ne; [done|]. intros [= <- <-]. by destruct (Hq eq_refl) as (? & ? & ?).
  - exists [PLoad (claim_off (pctx_of w))]. split; [by destruct (irq =? 0)|].
    apply Forall_singleton. by right.
Qed.

(** The timer write of the handler. *)
Lemma effect_timer w v c x : running w v c →
  trap_effect w v c (set_csr (<[(w_hart w, stimecmp) := x]> (w_csr w)) w) v.
Proof.
  intros Hr. split; [split; try done|by destruct Hr|done|done|done| |by exists []].
  - intros h q' Hh. unfold csr_of. simpl. by rewrite lookup_insert_ne by congruence.
  - intros i q Hq. simpl. rewrite lookup_insert_ne; [done|]. intros [= <- <-]. by destruct (Hq eq_refl) as (? & ? & ?).
Qed.

(** A handler that either returns with such an effect or panics at once. *)
Definition handled (o : outcome (world D) unit) w v c : Prop :=
  match o with
  | Ok _ w' => ∃ v', trap_effect w v c w' v'
  | Panic _ w' => w' = w
  | _ => False
  end.

Context `{!PlicLaws D}.

Lemma extend_range f3 x : 0 <= x < 2 ^ 32 → 0 <= extend f3 x < 2 ^ 64.
Proof. intros Hx. unfold extend. destruct (f3 =? 2); [apply u64_range|lia]. Qed.

Lemma handled_load w v c a : running w v c → handled (vplic_handle_load_page_fault a w) w v c.
Proof.
  intros Hr. unfold vplic_handle_load_page_fault. set (h := csr_of (w_hart w) htinst w).
  assert (Hf : fields_ok h ∨ ¬ fields_ok h) by (unfold fields_ok; lia).
  destruct Hf as [Hf|Hf].
  2:{ destruct (parse_htinst_bad (D:=D) h Hf) as [msg Hm]. by erewrite bind_panic by by apply Hm. }
  erewrite bind_ok by by apply parse_htinst_run.
  destruct (negb _); [done|]. destruct (_ && _); [done|].
  rewrite (emulate_load_run w v c) by (first [exact Hr|simpl; apply Z.mod_pos_bound; lia]).
  destruct (vplic_read _ _ _ _ _ _) as [x|] eqn:E; [|done].
  eexists. apply effect_load; [exact Hr|]. apply extend_range. by eapply vplic_read_range.
Qed.

Lemma handled_store w v c a : running w v c → handled (vplic_handle_store_or_amo_page_fault a w) w v c.
Proof.
  intros Hr. unfold vplic_handle_store_or_amo_page_fault. set (h := csr_of (w_hart w) htinst w).
  assert (Hf : fields_ok h ∨ ¬ fields_ok h) by (unfold fields_ok; lia).
  destruct Hf as [Hf|Hf].
  2:{ destruct (parse_htinst_bad (D:=D) h Hf) as [msg Hm]. by erewrite bind_panic by by apply Hm. }
  erewrite bind_ok by by apply parse_htinst_run.
  destruct (negb _); [done|]. destruct (negb _); [done|].
  rewrite (emulate_store_run w v c) by (first [exact Hr|simpl; apply Z.mod_pos_bound; lia]).
  destruct (vplic_write_ops _ _ _ _ _ _) as [ops|] eqn:E; [|done].
  eexists. apply effect_write; [exact Hr|]. by eapply write_ops_own.
Qed.

Context `{!LinkerOk L}.

(** An environment call, for whatever address. *)
Lemma handled_ecall w v c tabs : guest_tables w v c tabs →
  handled (hs_exception_handler EXC_ECALL_FROM_VS w) w v c.
Proof.
  intros Hg. pose proof (gt_running _ _ _ _ Hg) as Hr.
  destruct (running_hart _ _ _ Hr) as (_ & Hgv & Hvg & Hcg & Hh).
  unfold hs_exception_handler. change (EXC_ECALL_FROM_VS =? EXC_ECALL_FROM_VS) with true. cbn iota.
  unfold perform_walk_for_guest. rewrite !bind_bind. erewrite bind_ok by exact Hgv. rewrite bind_bind.
  erewrite bind_ok by exact Hvg. rewrite bind_bind. erewrite bind_ok by exact Hcg. rewrite bind_bind.
  pose proof (convert_run w tabs (vm_pgtable c) (root_of c) 1 (get_reg 10 v) (gt_inv _ _ _ _ Hg) (gt_root _ _ _ _ Hg)) as Hc.
  destruct (pt_slot _ _ _ _).
  - destruct Hc as (e & _ & Hc). erewrite bind_ok by exact Hc.
    erewrite bind_ok by (apply vcpu_upd_ok; [lia|apply Hr]). erewrite bind_ok by reflexivity.
    eexists. eapply (effect_load w v c 10); [exact Hr|]. rewrite get_value_spec, Z.div_1_r by lia.
    apply lor_range; [lia|apply u64_range|dlia].
  - by erewrite bind_panic by exact Hc.
Qed.

Lemma handled_exception w v c tabs cause : guest_tables w v c tabs →
  handled (hs_exception_handler cause w) w v c.
Proof.
  intros Hg. pose proof (gt_running _ _ _ _ Hg) as Hr.
  destruct (Z.eqb_spec cause EXC_ECALL_FROM_VS) as [->|Hne]; [by eapply handled_ecall|].
  unfold hs_exception_handler. rewrite (proj2 (Z.eqb_neq _ _) Hne).
  pose proof (is_access_to_plic_run w v c tabs Hg) as H.
  destruct (cause =? EXC_LOAD_GUEST_PAGE_FAULT); [|destruct (cause =? EXC_STORE_OR_AMO_GUEST_PAGE_FAULT); [|done]];
    rewrite (plic_handler_run w v c tabs _ _ Hg);
    (destruct (convert_va_to_pa _ _ _ w) as [a w'|m w'|p w'|w']; [|reflexivity|destruct H|destruct H]);
    (destruct (_ && _); [|reflexivity]); [by apply handled_load|by apply handled_store].
Qed.

Lemma handled_irq w v c cause : running w v c → handled (hs_interrupt_handler cause w) w v c.
Proof.
  intros Hr. unfold hs_interrupt_handler. destruct (_ =? INT_SUPERVISOR_TIM).
  - erewrite bind_ok by reflexivity. exists v. by apply effect_timer.
  - destruct (_ =? INT_SUPERVISOR_EXT); [|done]. rewrite (handle_interrupt_run w v c Hr).
    eexists. apply effect_interrupt; [exact Hr|apply u32_range].
Qed.

Lemma handler_effect w v c tabs cause : guest_tables w v c tabs →
  match handler cause w with
  | Ok _ w' => ∃ v', trap_effect w v c w' v' ∧ guest_tables w' v' c tabs
  | Panic _ w' => w' = w
  | _ => False
  end.
Proof.
  intros Hg. assert (H : handled (handler cause w) w v c).
  { unfold handler. destruct (_ =? 0); [by eapply handled_exception|]. apply handled_irq, Hg. }
  destruct (handler cause w) as [[] w'| | |]; [|exact H..].
  destruct H as (v' & E). exists v'. split; [exact E|].
  split; [apply E|rewrite (le_mem _ _ (te_local _ _ _ _ _ E)); apply Hg|apply Hg].
Qed.

(** ** A trap as the guest sees it *)

(** The hart [s] executes the guest of [c]: its registers are the guest's, and
    sscratch points to the area of its virtual CPU. *)
Record in_guest (s : hart (world D)) v c tabs : Prop := {
  ig_tables : guest_tables (hw s) v c tabs;
  ig_scratch : scratch_ok (w_hart (hw s)) (hw s);
  ig_xr n : (0 < n < 32)%nat → 0 <= xr s n < 2 ^ 64;
  ig_saved : words (regs v);
  ig_vcpus : 0 <= sym_vcpus ∧ sym_vcpus + VCPU_SIZE * DTB_NR_CPUS < 2 ^ 64
}.

Lemma running_attached w v c : running w v c → 0 <= sym_vcpus →
  sym_vcpus + VCPU_SIZE * DTB_NR_CPUS < 2 ^ 64 → attached (w_hart w) v w.
Proof.
  intros Hr ??. destruct (running_hart _ _ _ Hr) as (_ & _ & _ & _ & Hh).
  split; [done|lia|apply Hr|apply Hr|]. unfold VCPU_SIZE, DTB_NR_CPUS in *. lia.
Qed.

Lemma with_regs_tables w v c tabs rs : guest_tables w v c tabs → length rs = 32%nat →
  guest_tables (with_regs (w_hart w) v rs w) (set_regs rs v) c tabs.
Proof.
  intros [[Hc Hv Hk Hvh Hrs Hl] Hpt Hroot] Hlen. split; [|exact Hpt|exact Hroot]. split; try done.
  apply list_lookup_insert_eq. by eapply lookup_lt_Some.
Qed.

Lemma saved_words (g : nat → Z) rs rs' : saved g rs rs' → words rs →
  (∀ n, (0 < n < 32)%nat → 0 <= g n < 2 ^ 64) → words rs'.
Proof.
  intros (Hl & H0 & Hk) Hw Hg. apply Forall_lookup. intros n x Hx.
  pose proof (lookup_lt_Some _ _ _ Hx). destruct (decide (n = 0%nat)) as [->|].
  - rewrite H0 in Hx. unfold words in Hw. rewrite Forall_lookup in Hw. by eapply Hw.
  - rewrite Hk in Hx by lia. injection Hx as <-. apply Hg. lia.
Qed.

Lemma get_reg_word v n : words (regs v) → length (regs v) = 32%nat → (n < 32)%nat →
  0 <= get_reg (Z.of_nat n) v < 2 ^ 64.
Proof.
  intros Hw Hl Hn. unfold get_reg. rewrite Nat2Z.id.
  destruct (lookup_lt_is_Some_2 (regs v) n) as [x Hx]; [lia|]. rewrite Hx.
  unfold words in Hw. rewrite Forall_lookup in Hw. by eapply Hw.
Qed.

(** From the trap to the resumed guest, whatever the handler: the guest's
    registers are in the saved file while the handler runs, and the file the
    handler leaves is what the guest resumes with. *)
Lemma trap_round clobber s v c tabs : in_guest s v c tabs →
  let i := w_hart (hw s) in let cause := csr_of i scause (hw s) in 0 <= cause < 2 ^ 64 →
  ∃ rs, saved (xr s) (regs v) rs ∧
    let v1 := set_regs rs v in let w1 := with_regs i v rs (hw s) in
    guest_tables w1 v1 c tabs ∧ words rs ∧
    match handler cause w1 with
    | Ok _ w2 => ∃ s' v2, hstrapvec clobber s = Ok (csr_of i sepc w2) s' ∧ hw s' = w2 ∧
        trap_effect w1 v1 c w2 v2 ∧ in_guest s' v2 c tabs ∧
        ∀ n, (0 < n < 32)%nat → xr s' n = get_reg (Z.of_nat n) v2
    | Panic msg _ => ∃ s', hstrapvec clobber s = Panic msg s' ∧ hw s' = w1
    | _ => False
    end.
Proof.
  intros [Hg Hs Hx Hw [Hv0 Hv1]] i cause Hc.
  pose proof (running_attached _ _ _ (gt_running _ _ _ _ Hg) Hv0 Hv1) as Ha.
  destruct (hstrapvec_run clobber i v s Ha Hs (Hx 31%nat ltac:(lia)) Hc) as (rs & Hsv & Hok & Hpanic).
  exists rs. split; [exact Hsv|]. intros v1 w1.
  pose proof (with_regs_tables _ _ _ _ rs Hg (proj1 Hsv)) as Hg1. fold i v1 w1 in Hg1.
  pose proof (saved_words _ _ _ Hsv Hw Hx) as Hw1. split; [exact Hg1|]. split; [exact Hw1|].
  pose proof (handler_effect w1 v1 c tabs cause Hg1) as He. fold w1 cause in Hok, Hpanic.
  destruct (handler cause w1) as [[] w2|msg w2| |]; [|subst w2; by apply (Hpanic w1 msg)|exact He..].
  destruct He as (v2 & E & Hg2). pose proof (le_hart _ _ (te_local _ _ _ _ _ E)) as Eh.
  change (w_hart w2 = i) in Eh. pose proof (te_words _ _ _ _ _ E Hw1) as Hw2.
  assert (Hs2 : scratch_ok i w2) by (unfold scratch_ok; etransitivity; [by apply (te_csr _ _ _ _ _ E)|exact Hs]).
  destruct (Hok w2 v2 eq_refl) as (s' & Hrun & <- & Hxr); [|exact Hs2|exact Hw2|].
  { rewrite <- Eh. by apply (running_attached _ _ c); [apply Hg2|..]. }
  exists s', v2. split; [exact Hrun|]. split; [done|]. split; [exact E|]. split; [|exact Hxr].
  split; [exact Hg2|by rewrite Eh| |exact Hw2|done].
  intros n Hn. rewrite Hxr by done. apply get_reg_word; [exact Hw2|apply (run_regs _ _ _ (gt_running _ _ _ _ Hg2))|lia].
Qed.

Lemma local_trans w1 w2 w3 : local_effect w1 w2 → local_effect w2 w3 → local_effect w1 w3.
Proof.
  intros A B. pose proof (le_hart _ _ A) as Eh. split.
  - by rewrite (le_mem _ _ B), (le_mem _ _ A).
  - by rewrite (le_kmem _ _ B), (le_kmem _ _ A).
  - by rewrite (le_config _ _ B), (le_config _ _ A).
  - by rewrite (le_hart _ _ B).
  - destruct (le_cpus _ _ A) as [<- <-]. apply (le_cpus _ _ B).
  - intros j Hj. rewrite (le_vcpus _ _ B) by (by rewrite Eh). by apply (le_vcpus _ _ A).
  - intros h q Hh. rewrite (le_csr _ _ B) by (by rewrite Eh). by apply (le_csr _ _ A).
Qed.

Lemma with_regs_local w v rs : local_effect w (with_regs (w_hart w) v rs w).
Proof. split; try done. intros j Hj. simpl. by rewrite list_lookup_insert_ne by done. Qed.

(** The guest trapped with [cause] on an access to [gpa], an address of its
    virtual PLIC that its tables send to the PLIC page at the same address. *)
Record plic_fault w c (cause gpa : Z) : Prop := {
  pf_cause : csr_of (w_hart w) scause w = cause;
  pf_aligned : gpa mod 4 = 0;
  pf_range : DTB_PLIC <= gpa < DTB_PLIC + DTB_PLIC_SIZE;
  pf_htval : csr_of (w_hart w) htval w = gpa / 4;
  pf_mapped : ∃ flags, 0 <= flags < 1024 ∧
    pt_look (w_mem w) 2 (root_of c) (vpn gpa true) = Some (leaf_pte (gpa / 4096 * 4096) flags)
}.

Lemma saved_reg (s : hart (world D)) v rs n : saved (xr s) (regs v) rs → (0 < n < 32)%nat →
  get_reg (Z.of_nat n) (set_regs rs v) = xr s n.
Proof. intros (_ & _ & H) Hn. unfold get_reg. rewrite Nat2Z.id. simpl. by rewrite H. Qed.

Lemma saved_zero g v rs : saved g (regs v) rs → get_reg 0 (set_regs rs v) = get_reg 0 v.
Proof. intros (_ & H & _). unfold get_reg. apply (f_equal (default 0)), H. Qed.

Lemma get_set_reg v r x n : 0 <= r < 32 → (n < 32)%nat → length (regs v) = 32%nat →
  get_reg (Z.of_nat n) (set_reg r x v) = if decide (Z.of_nat n = r) then x else get_reg (Z.of_nat n) v.
Proof.
  intros Hr Hn Hl. unfold get_reg, set_reg. simpl. rewrite Nat2Z.id.
  destruct (decide (Z.of_nat n = r)) as [<-|].
  - rewrite Nat2Z.id. by rewrite list_lookup_insert_eq by lia.
  - by rewrite list_lookup_insert_ne by lia.
Qed.

(** The running virtual CPU is the one in the hart's slot. *)
Lemma running_unique w v v' c c' : running w v c → running w v' c' → v = v'.
Proof. intros [_ H _ _ _ _] [_ H' _ _ _ _]. congruence. Qed.

Lemma guest_load_run clobber (s : hart (world D)) v c tabs gpa r f3 wide : let w := hw s in
  in_guest s v c tabs → plic_fault w c EXC_LOAD_GUEST_PAGE_FAULT gpa →
  csr_of (w_hart w) htinst w = enc_load r f3 wide → 0 <= r < 32 → f3 = 2 ∨ f3 = 6 →
  match vplic_read (devices c) (vctx_of v) (pctx_of w) (last_claimed_irq_id v) (w_plic w) (gpa - DTB_PLIC) with
  | Some x => ∃ s' v', hstrapvec clobber s =
        Ok (u64 (csr_of (w_hart w) sepc w + if wide then 4 else 2)) s' ∧
      in_guest s' v' c tabs ∧ local_effect w (hw s') ∧ w_plic (hw s') = w_plic w ∧
      (∀ n, (0 < n < 32)%nat → xr s' n = if decide (Z.of_nat n = r) then extend f3 x else xr s n) ∧
      vhartid v' = vhartid v ∧ last_claimed_irq_id v' = last_claimed_irq_id v ∧
      get_reg 0 v' = if decide (0 = r) then extend f3 x else get_reg 0 v
  | None => ∃ s', hstrapvec clobber s = Panic "Bad PLIC access" s' ∧ local_effect w (hw s') ∧
      w_plic (hw s') = w_plic w
  end.
Proof.
  intros w Hin [Hca Hal Hrg Hht (flags & Hfl & Hpt)] Hti Hr Hf.
  assert (Hc : 0 <= csr_of (w_hart w) scause w < 2 ^ 64) by (rewrite Hca; by vm_compute).
  destruct (trap_round clobber s v c tabs Hin Hc) as (rs & Hsv & Hg1 & Hw1 & H). fold w in H, Hg1. rewrite Hca in H.
  set (v1 := set_regs rs v) in *. set (w1 := with_regs (w_hart w) v rs w) in *.
  pose proof (guest_plic_load w1 v1 c tabs gpa flags r f3 wide Hg1 Hfl Hal Hrg Hht Hpt Hti Hr Hf) as E.
  change (handler EXC_LOAD_GUEST_PAGE_FAULT w1) with (hs_exception_handler EXC_LOAD_GUEST_PAGE_FAULT w1) in H.
  rewrite E in H. change (vctx_of v1) with (vctx_of v) in H. change (pctx_of w1) with (pctx_of w) in H.
  change (last_claimed_irq_id v1) with (last_claimed_irq_id v) in H. change (w_plic w1) with (w_plic w) in H.
  pose proof (with_regs_local w v rs) as Hl. fold w1 in Hl.
  destruct (vplic_read _ _ _ _ _ _) as [x|].
  2:{ destruct H as (s' & Hs & Ew). exists s'. rewrite Ew. done. }
  destruct H as (s' & v2 & Hrun & Ew & He & Hin' & Hxr). exists s', v2.
  assert (Ev : v2 = set_reg r (extend f3 x) v1).
  { eapply running_unique; [apply (te_running _ _ _ _ _ He)|apply after_load_running, Hg1]. }
  split; [rewrite Hrun; f_equal; unfold csr_of; simpl; by rewrite lookup_insert_eq|].
  split; [exact Hin'|]. split; [rewrite Ew; by eapply local_trans, (te_local _ _ _ _ _ He)|].
  split; [by rewrite Ew|]. split; [|subst v2; split; [done|split; [done|]]].
  - intros n Hn. rewrite Hxr, Ev, get_set_reg by (done || lia || apply Hsv).
    destruct (decide _); [done|]. by apply saved_reg.
  - rewrite (get_set_reg v1 r _ 0) by (done || lia || apply Hsv). change (Z.of_nat 0) with 0.
    destruct (decide _); [done|]. by eapply saved_zero.
Qed.

(** C9: a guest's lw or lwu of its virtual PLIC, from the trap to the resumed
    guest: the destination register holds the value the specification
    [vplic_read] gives for the accessed register (x0 stays untouched), every
    other register is as before the trap whatever the C code left in the
    machine's registers, the guest continues after the instruction, and the
    device was not written.  An offset that is no PLIC register panics. *)
Theorem guest_load_emulated clobber (s : hart (world D)) v c tabs gpa r f3 wide : let w := hw s in
  in_guest s v c tabs → plic_fault w c EXC_LOAD_GUEST_PAGE_FAULT gpa →
  csr_of (w_hart w) htinst w = enc_load r f3 wide → 0 <= r < 32 → f3 = 2 ∨ f3 = 6 →
  match vplic_read (devices c) (vctx_of v) (pctx_of w) (last_claimed_irq_id v) (w_plic w) (gpa - DTB_PLIC) with
  | Some x => ∃ s' v', hstrapvec clobber s =
        Ok (u64 (csr_of (w_hart w) sepc w + if wide then 4 else 2)) s' ∧
      in_guest s' v' c tabs ∧ local_effect w (hw s') ∧ w_plic (hw s') = w_plic w ∧
      ∀ n, (0 < n < 32)%nat → xr s' n = if decide (Z.of_nat n = r) then extend f3 x else xr s n
  | None => ∃ s', hstrapvec clobber s = Panic "Bad PLIC access" s' ∧ local_effect w (hw s') ∧
      w_plic (hw s') = w_plic w
  end.
Proof.
  intros w Hin Hp Hi Hr Hf. pose proof (guest_load_run clobber s v c tabs gpa r f3 wide Hin Hp Hi Hr Hf) as H.
  fold w in H. destruct (vplic_read _ _ _ _ _ _); [|exact H].
  destruct H as (s' & v' & H1 & H2 & H3 & H4 & H5 & _). by exists s', v'.
Qed.

(** The value the hypervisor takes for register [r] of a guest's store: slot 0 of
    the saved file stands for x0. *)
Definition store_source (s : hart (world D)) v (r : Z) : Z :=
  if decide (r = 0) then get_reg 0 v else xr s (Z.to_nat r).

Lemma sepc_after_write w v ops comp k : csr_of (w_hart w) sepc (resume k (after_write v ops comp w)) =
  u64 (csr_of (w_hart w) sepc w + k).
Proof.
  unfold resume, csr_of. destruct comp; simpl; rewrite lookup_insert_eq; [|done].
  by rewrite lookup_insert_ne by congruence.
Qed.

Lemma guest_store_run clobber (s : hart (world D)) v c tabs gpa r wide : let w := hw s in
  in_guest s v c tabs → plic_fault w c EXC_STORE_OR_AMO_GUEST_PAGE_FAULT gpa →
  csr_of (w_hart w) htinst w = enc_store r 2 wide → 0 <= r < 32 →
  match vplic_write_ops (devices c) (vctx_of v) (pctx_of w) (last_claimed_irq_id v) (gpa - DTB_PLIC)
          (u32 (store_source s v r)) with
  | Some ops => ∃ s' v', hstrapvec clobber s =
        Ok (u64 (csr_of (w_hart w) sepc w + if wide then 4 else 2)) s' ∧
      in_guest s' v' c tabs ∧ local_effect w (hw s') ∧ w_plic (hw s') = run_ops ops (w_plic w) ∧
      ∀ n, (0 < n < 32)%nat → xr s' n = xr s n
  | None => ∃ s', hstrapvec clobber s = Panic "Bad PLIC access" s' ∧ local_effect w (hw s') ∧
      w_plic (hw s') = w_plic w
  end.
Proof.
  intros w Hin [Hca Hal Hrg Hht (flags & Hfl & Hpt)] Hti Hr.
  assert (Hc : 0 <= csr_of (w_hart w) scause w < 2 ^ 64) by (rewrite Hca; by vm_compute).
  destruct (trap_round clobber s v c tabs Hin Hc) as (rs & Hsv & Hg1 & Hw1 & H). fold w in H, Hg1. rewrite Hca in H.
  set (v1 := set_regs rs v) in *. set (w1 := with_regs (w_hart w) v rs w) in *.
  pose proof (guest_plic_store w1 v1 c tabs gpa flags r wide Hg1 Hfl Hal Hrg Hht Hpt Hti Hr) as E.
  change (handler EXC_STORE_OR_AMO_GUEST_PAGE_FAULT w1) with (hs_exception_handler EXC_STORE_OR_AMO_GUEST_PAGE_FAULT w1) in H.
  cbn zeta in E. rewrite E in H. change (vctx_of v1) with (vctx_of v) in H. change (pctx_of w1) with (pctx_of w) in H.
  change (last_claimed_irq_id v1) with (last_claimed_irq_id v) in H.
  replace (get_reg r v1) with (store_source s v r) in H.
  2:{ unfold store_source. destruct (decide (r = 0)) as [->|]; [symmetry; by eapply saved_zero|].
      replace r with (Z.of_nat (Z.to_nat r)) at 2 by lia. symmetry. apply saved_reg; [done|lia]. }
  pose proof (with_regs_local w v rs) as Hl. fold w1 in Hl.
  destruct (vplic_write_ops _ _ _ _ _ _) as [ops|].
  2:{ destruct H as (s' & Hs & Ew). exists s'. rewrite Ew. done. }
  destruct H as (s' & v2 & Hrun & Ew & He & Hin' & Hxr). exists s', v2.
  set (comp := completes _ _ _ _ _) in *.
  assert (Ev : v2 = if comp then set_last_claimed 0 v1 else v1).
  { eapply running_unique; [apply (te_running _ _ _ _ _ He)|apply after_write_running, Hg1]. }
  split; [rewrite Hrun; f_equal; apply (sepc_after_write w1)|].
  split; [exact Hin'|]. split; [rewrite Ew; by eapply local_trans, (te_local _ _ _ _ _ He)|].
  split; [rewrite Ew; by destruct comp|].
  intros n Hn. rewrite Hxr by done. rewrite <- (saved_reg s v rs n) by done. rewrite Ev. by destruct comp.
Qed.

(** C10: a guest's sw to its virtual PLIC, from the trap to the resumed guest: the
    physical device sees exactly the accesses the specification [vplic_write_ops]
    lists for the low word of the stored value, every register of the guest is as
    before the trap, and the guest continues after the instruction.  The stored value
    is that of the source register; for x0, which the entry code does not save, it is
    whatever slot 0 of the saved registers holds.  An offset that is no PLIC register
    panics before the device is touched. *)
Theorem guest_store_emulated clobber (s : hart (world D)) v c tabs gpa r wide : let w := hw s in
  in_guest s v c tabs → plic_fault w c EXC_STORE_OR_AMO_GUEST_PAGE_FAULT gpa →
  csr_of (w_hart w) htinst w = enc_store r 2 wide → 0 <= r < 32 →
  match vplic_write_ops (devices c) (vctx_of v) (pctx_of w) (last_claimed_irq_id v) (gpa - DTB_PLIC)
          (u32 (if r =? 0 then get_reg 0 v else xr s (Z.to_nat r))) with
  | Some ops => ∃ s' v', hstrapvec clobber s =
        Ok (u64 (csr_of (w_hart w) sepc w + if wide then 4 else 2)) s' ∧
      in_guest s' v' c tabs ∧ local_effect w (hw s') ∧ w_plic (hw s') = run_ops ops (w_plic w) ∧
      ∀ n, (0 < n < 32)%nat → xr s' n = xr s n
  | None => ∃ s', hstrapvec clobber s = Panic "Bad PLIC access" s' ∧ local_effect w (hw s') ∧
      w_plic (hw s') = w_plic w
  end.
Proof.
  intros w Hin Hp Hi Hr. pose proof (guest_store_run clobber s v c tabs gpa r wide Hin Hp Hi Hr) as H.
  fold w in H. unfold store_source in H. by destruct (Z.eqb_spec r 0), (decide (r = 0)).
Qed.

(** C17: the hypervisor's own interrupts are invisible to the interrupted code: the
    guest resumes at the interrupted instruction with every register as it was.
    A timer interrupt moves the hypervisor's timer on and touches nothing else
    of the world the guest can see; an external interrupt claims the interrupt
    of this hart's context, remembers it in the virtual CPU and makes the
    virtual external interrupt pending. *)
Theorem guest_interrupt_transparent clobber (s : hart (world D)) v c tabs : let w := hw s in let i := w_hart w in
  in_guest s v c tabs →
  csr_of i scause w = 2 ^ 63 + INT_SUPERVISOR_TIM ∨ csr_of i scause w = 2 ^ 63 + INT_SUPERVISOR_EXT →
  ∃ s' v', hstrapvec clobber s = Ok (csr_of i sepc w) s' ∧ in_guest s' v' c tabs ∧ local_effect w (hw s') ∧
    (∀ n, (0 < n < 32)%nat → xr s' n = xr s n) ∧
    if decide (csr_of i scause w = 2 ^ 63 + INT_SUPERVISOR_TIM)
    then w_plic (hw s') = w_plic w ∧ csr_of i hvip (hw s') = csr_of i hvip w ∧
         last_claimed_irq_id v' = last_claimed_irq_id v ∧
         csr_of i stimecmp (hw s') = u64 (csr_of i time w + 10000000)
    else let (x, d) := dev_load (claim_off (pctx_of w)) (w_plic w) in
         w_plic (hw s') = d ∧ last_claimed_irq_id v' = u32 x ∧
         csr_of i hvip (hw s') = if u32 x =? 0 then csr_of i hvip w else csr_of i hvip w .| HVIP_VSEIP.
Proof.
  intros w i Hin Hca.
  assert (Hc : 0 <= csr_of i scause w < 2 ^ 64) by (destruct Hca as [-> | ->]; by vm_compute).
  destruct (trap_round clobber s v c tabs Hin Hc) as (rs & Hsv & Hg1 & Hw1 & H). fold w i in H, Hg1.
  set (v1 := set_regs rs v) in *. set (w1 := with_regs i v rs w) in *.
  pose proof (gt_running _ _ _ _ Hg1) as Hr1. pose proof (with_regs_local w v rs) as Hl. fold i w1 in Hl.
  destruct Hca as [E|E]; rewrite E in H |- *.
  - change (handler _ w1) with (Ok (A:=unit) tt (set_csr (<[(i, stimecmp) := u64 (csr_of i time w + 10000000)]> (w_csr w1)) w1)) in H.
    destruct H as (s' & v2 & Hrun & Ew & He & Hin' & Hxr). exists s', v2.
    assert (Ev : v2 = v1) by (eapply running_unique; [apply (te_running _ _ _ _ _ He)|by destruct Hr1]).
    split; [rewrite Hrun; f_equal; unfold csr_of; simpl; by rewrite lookup_insert_ne by congruence|].
    split; [exact Hin'|]. split; [rewrite Ew; by eapply local_trans, (te_local _ _ _ _ _ He)|].
    split; [intros n Hn; rewrite Hxr, Ev by done; by apply saved_reg|].
    rewrite decide_True by done. rewrite Ew, Ev. split; [done|]. unfold csr_of. simpl.
    rewrite lookup_insert_eq, lookup_insert_ne by congruence. done.
  - change (handler _ w1) with (vplic_handle_interrupt w1) in H. rewrite (handle_interrupt_run w1 v1 c Hr1) in H.
    change (pctx_of w1) with (pctx_of w) in H. change (w_plic w1) with (w_plic w) in H.
    destruct (dev_load (claim_off (pctx_of w)) (w_plic w)) as [x d] eqn:Ed. cbn [fst] in H.
    destruct H as (s' & v2 & Hrun & Ew & He & Hin' & Hxr). exists s', v2.
    assert (Ev : v2 = set_last_claimed (u32 x) v1)
      by (eapply running_unique; [apply (te_running _ _ _ _ _ He)|by apply after_interrupt_running; [|apply u32_range]]).
    split; [rewrite Hrun; f_equal; unfold after_interrupt, csr_of; destruct (u32 x =? 0); simpl;
      rewrite ?lookup_insert_ne by congruence; done|].
    split; [exact Hin'|]. split; [rewrite Ew; by eapply local_trans, (te_local _ _ _ _ _ He)|].
    split; [intros n Hn; rewrite Hxr, Ev by done; by apply (saved_reg s v rs)|].
    rewrite decide_False by (by vm_compute). rewrite Ew, Ev. unfold after_interrupt.
    split; [destruct (u32 x =? 0); simpl; unfold run_ops; cbn; change (pctx_of w1) with (pctx_of w);
      by rewrite Ed|]. split; [done|].
    unfold csr_of. destruct (u32 x =? 0); simpl; rewrite ?lookup_insert_eq; done.
Qed.

(** A guest's environment call, from the trap to the resumed guest: a0 holds
    the host-physical address behind the guest-physical address the guest passed
    in a0, every other register and the PLIC are as before, and the guest
    continues after the ecall. *)
Theorem guest_ecall_emulated clobber (s : hart (world D)) v c tabs pa flags : let w := hw s in
  in_guest s v c tabs → csr_of (w_hart w) scause w = EXC_ECALL_FROM_VS →
  0 <= pa < 2 ^ 56 → 0 <= flags < 1024 → let gpa := xr s 10%nat in
  pt_look (w_mem w) 2 (root_of c) (vpn gpa true) = Some (leaf_pte pa flags) →
  ∃ s' v', hstrapvec clobber s = Ok (u64 (csr_of (w_hart w) sepc w + 4)) s' ∧
    in_guest s' v' c tabs ∧ local_effect w (hw s') ∧ w_plic (hw s') = w_plic w ∧
    ∀ n, (0 < n < 32)%nat → xr s' n = if decide (n = 10%nat) then pa / 4096 * 4096 + gpa mod 4096 else xr s n.
Proof.
  intros w Hin Hca Hpa Hfl gpa Hpt.
  assert (Hc : 0 <= csr_of (w_hart w) scause w < 2 ^ 64) by (rewrite Hca; by vm_compute).
  destruct (trap_round clobber s v c tabs Hin Hc) as (rs & Hsv & Hg1 & Hw1 & H). fold w in H, Hg1. rewrite Hca in H.
  set (v1 := set_regs rs v) in *. set (w1 := with_regs (w_hart w) v rs w) in *.
  assert (Eg : get_reg 10 v1 = gpa) by (apply (saved_reg s v rs 10); [done|lia]).
  pose proof (guest_ecall_translates w1 v1 c tabs pa flags Hg1 Hpa Hfl) as E. cbn zeta in E.
  rewrite Eg in E. specialize (E Hpt).
  change (handler EXC_ECALL_FROM_VS w1) with (hs_exception_handler EXC_ECALL_FROM_VS w1) in H. rewrite E in H.
  destruct H as (s' & v2 & Hrun & Ew & He & Hin' & Hxr). exists s', v2.
  pose proof (with_regs_local w v rs) as Hl. fold w1 in Hl.
  set (a0 := pa / 4096 * 4096 + gpa mod 4096) in *.
  assert (Ev : v2 = set_reg 10 a0 v1).
  { eapply running_unique; [apply (te_running _ _ _ _ _ He)|apply after_load_running, Hg1]. }
  split; [rewrite Hrun; f_equal; unfold csr_of; simpl; by rewrite lookup_insert_eq|].
  split; [exact Hin'|]. split; [rewrite Ew; by eapply local_trans, (te_local _ _ _ _ _ He)|].
  split; [by rewrite Ew|]. intros n Hn. rewrite Hxr, Ev, get_set_reg by (done || lia || apply Hsv).
  destruct (decide (Z.of_nat n = 10)), (decide (n = 10%nat)); [done|lia|lia|by apply saved_reg].
Qed.

(** C39: the value a guest stores from x0 need not be 0: after a trapped load into
    x0, which the hypervisor writes to slot 0 of the saved registers, a trapped
    store of x0 - at any later time, whatever the guest's registers - writes
    the loaded value to the device, since the entry code never saves x0. *)
Theorem guest_x0_store_leaks clobber (s : hart (world D)) v c tabs gpa f3 wide x : let w := hw s in
  in_guest s v c tabs → plic_fault w c EXC_LOAD_GUEST_PAGE_FAULT gpa →
  csr_of (w_hart w) htinst w = enc_load 0 f3 wide → f3 = 2 ∨ f3 = 6 →
  vplic_read (devices c) (vctx_of v) (pctx_of w) (last_claimed_irq_id v) (w_plic w) (gpa - DTB_PLIC) = Some x →
  ∃ pc s1, hstrapvec clobber s = Ok pc s1 ∧ local_effect w (hw s1) ∧
    ∀ xs cs gpa' wide' ops, let s2 := mk_hart xs (set_csr cs (hw s1)) in
      (∀ n, (0 < n < 32)%nat → 0 <= xs n < 2 ^ 64) → scratch_ok (w_hart w) (hw s2) →
      plic_fault (hw s2) c EXC_STORE_OR_AMO_GUEST_PAGE_FAULT gpa' →
      csr_of (w_hart w) htinst (hw s2) = enc_store 0 2 wide' →
      vplic_write_ops (devices c) (vctx_of v) (pctx_of w) (last_claimed_irq_id v) (gpa' - DTB_PLIC)
        (u32 (extend f3 x)) = Some ops →
      ∃ pc' s3, hstrapvec clobber s2 = Ok pc' s3 ∧ w_plic (hw s3) = run_ops ops (w_plic w).
Proof.
  intros w Hin Hp Hi Hf Hx.
  pose proof (guest_load_run clobber s v c tabs gpa 0 f3 wide Hin Hp Hi ltac:(lia) Hf) as H.
  fold w in H. rewrite Hx in H. destruct H as (s1 & v1 & Hrun & Hin1 & Hl & Epl & _ & Evh & Ela & E0).
  exists (u64 (csr_of (w_hart w) sepc w + if wide then 4 else 2)), s1. split; [exact Hrun|]. split; [exact Hl|].
  intros xs cs gpa' wide' ops s2 Hxs Hsc Hp' Hi' Hops.
  pose proof (le_hart _ _ Hl) as Eh.
  assert (Hin2 : in_guest s2 v1 c tabs).
  { destruct Hin1 as [[[? ? ? ? ? ?] ? ?] _ _ ? ?]. split; [by split|cbn [hw s2]; by rewrite <- Eh in Hsc|done..]. }
  pose proof (guest_store_run clobber s2 v1 c tabs gpa' 0 wide' Hin2 Hp') as H.
  change (w_hart (hw s2)) with (w_hart (hw s1)) in H. rewrite Eh in H. specialize (H Hi' ltac:(lia)).
  unfold store_source in H. rewrite decide_True, E0, decide_True, Ela in H by done.
  replace (vctx_of v1) with (vctx_of v) in H by (unfold vctx_of; by rewrite Evh).
  replace (pctx_of (hw s2)) with (pctx_of w) in H by (unfold pctx_of; by rewrite <- Eh).
  change (w_plic (hw s2)) with (w_plic (hw s1)) in H.
  rewrite Hops, Epl in H. destruct H as (s' & v' & Hr & _ & _ & Hpl & _). by eexists _, s'.
Qed.
End effect.

(** ** The theorems at work: hart 1 in the guest of VM 1 *)

Lemma demo_in_guest (d : plic_regs) cs xs last rs : 0 <= last < 2 ^ 32 → length rs = 32%nat → words rs →
  (∀ n, (0 < n < 32)%nat → 0 <= xs n < 2 ^ 64) → cs !! (1, sscratch) = Some (regs_addr 1) →
  ∃ (s : hart (world plic_regs)) tabs, in_guest s (demo_vcpu last rs) demo_vm1 tabs ∧
    xr s = xs ∧ w_plic (hw s) = d ∧ w_csr (hw s) = cs ∧ w_hart (hw s) = 1 ∧
    (∀ gpa, DTB_PLIC <= gpa < DTB_PLIC + DTB_PLIC_SIZE → ∃ flags, 0 <= flags < 1024 ∧
      pt_look (w_mem (hw s)) 2 (root_of demo_vm1) (vpn gpa true) = Some (leaf_pte (gpa / 4096 * 4096) flags)) ∧
    ∀ cause gpa, gpa mod 4 = 0 → DTB_PLIC <= gpa < DTB_PLIC + DTB_PLIC_SIZE →
      cs !! (1, scause) = Some cause → cs !! (1, htval) = Some (gpa / 4) →
      plic_fault (hw s) demo_vm1 cause gpa.
Proof.
  intros Hl Hrs Hw Hx Hs. destruct (demo_guest d cs last rs Hl Hrs) as (w & tabs & Hg & Hd & Hc & Hh & Hlk).
  exists (mk_hart xs w), tabs. split; [|split_and!; [done..| |]].
  - split; [exact Hg|by unfold scratch_ok; cbn [hw]; rewrite Hh, Hc|exact Hx|exact Hw|by vm_compute].
  - intros gpa Hr. exists PTE_U. split; [by vm_compute|]. by apply Hlk.
  - intros cause gpa Ha Hr H1 H2. split; cbn [hw]; rewrite ?Hh; [by unfold csr_of; rewrite Hc, H1|done|done|
      by unfold csr_of; rewrite Hc, H2|]. exists PTE_U. split; [by vm_compute|]. by apply Hlk.
Qed.

(** The registers of the demonstration: x[n] = n. *)
Definition demo_xs (n : nat) : Z := Z.of_nat n.
Lemma demo_xs_range n : (0 < n < 32)%nat → 0 <= demo_xs n < 2 ^ 64.
Proof. unfold demo_xs. lia. Qed.
Definition demo_csrs (cause gpa inst : Z) : gmap (Z * csr) Z :=
  {[ (1, sscratch) := regs_addr 1; (1, scause) := cause; (1, htval) := gpa / 4; (1, htinst) := inst;
     (1, sepc) := 0x1000 ]}.
Lemma demo_words : words (replicate 32 0).
Proof. apply Forall_replicate. lia. Qed.

(** lw a5 of word 1 of the pending registers, with interrupt 33 pending as virtual
    interrupt 10. *)
Lemma guest_load_emulated_witness : ∃ s s' : hart (world plic_regs),
  hstrapvec (λ f, f) s = Ok 0x1004 s' ∧ xr s' 15%nat = 1024 ∧ xr s' 14%nat = 14.
Proof.
  destruct (demo_in_guest {[ 0x1004 := 2 ]} (demo_csrs EXC_LOAD_GUEST_PAGE_FAULT (DTB_PLIC + 0x1000) (enc_load 15 2 true))
    demo_xs 0 (replicate 32 0)) as (s & tabs & Hin & Hx & Hd & Hc & Hh & Hm & Hf);
    [done|done|exact demo_words|exact demo_xs_range|by vm_compute|].
  exists s. pose proof (guest_load_emulated (λ f, f) s _ demo_vm1 tabs (DTB_PLIC + 0x1000) 15 2 true Hin) as H.
  cbn zeta in H. unfold pctx_of, csr_of in H. rewrite Hd, Hh, Hc in H.
  destruct H as (s' & v' & Hrun & _ & _ & _ & Hr);
    [by apply Hf; vm_compute|by vm_compute|lia|by left|]. exists s'.
  split; [by rewrite Hrun|]. by rewrite !Hr, Hx by lia.
Defined.

(** sw of x7 to the threshold register. *)
Lemma guest_store_emulated_witness : ∃ s s' : hart (world plic_regs),
  hstrapvec (λ f, f) s = Ok 0x1004 s' ∧ reg (threshold_off 3) (w_plic (hw s')) = 7.
Proof.
  destruct (demo_in_guest ∅ (demo_csrs EXC_STORE_OR_AMO_GUEST_PAGE_FAULT (DTB_PLIC + 0x201000) (enc_store 7 2 true))
    demo_xs 0 (replicate 32 0)) as (s & tabs & Hin & Hx & Hd & Hc & Hh & Hm & Hf);
    [done|done|exact demo_words|exact demo_xs_range|by vm_compute|].
  exists s. pose proof (guest_store_emulated (λ f, f) s _ demo_vm1 tabs (DTB_PLIC + 0x201000) 7 true Hin) as H.
  cbn zeta in H. unfold pctx_of, csr_of in H. rewrite Hd, Hh, Hc, Hx in H.
  destruct H as (s' & v' & Hrun & _ & _ & Hp & _); [by apply Hf; vm_compute|by vm_compute|lia|]. exists s'.
  split; [by rewrite Hrun|]. rewrite Hp. by vm_compute.
Defined.

(** The timer interrupt. *)
Lemma guest_interrupt_transparent_witness : ∃ s s' : hart (world plic_regs),
  hstrapvec (λ f, f) s = Ok 0x1000 s' ∧ xr s' 14%nat = 14.
Proof.
  destruct (demo_in_guest ∅ (demo_csrs (2 ^ 63 + INT_SUPERVISOR_TIM) DTB_PLIC 0)
    demo_xs 0 (replicate 32 0)) as (s & tabs & Hin & Hx & Hd & Hc & Hh & Hm & Hf);
    [done|done|exact demo_words|exact demo_xs_range|by vm_compute|].
  exists s. destruct (guest_interrupt_transparent (λ f, f) s _ demo_vm1 tabs Hin) as (s' & v' & Hrun & _ & _ & Hr & _).
  { left. unfold csr_of. rewrite Hh, Hc. by vm_compute. }
  exists s'. split; [rewrite Hrun; unfold csr_of; rewrite Hh, Hc; by vm_compute|]. by rewrite Hr, Hx by lia.
Defined.

(** The guest asks for the address behind the first PLIC page. *)
Lemma guest_ecall_emulated_witness : ∃ s s' : hart (world plic_regs),
  hstrapvec (λ f, f) s = Ok 0x1004 s' ∧ xr s' 10%nat = DTB_PLIC + 8 ∧ xr s' 14%nat = DTB_PLIC + 8.
Proof.
  destruct (demo_in_guest ∅ (demo_csrs EXC_ECALL_FROM_VS DTB_PLIC 0) (λ _, DTB_PLIC + 8) 0 (replicate 32 0))
    as (s & tabs & Hin & Hx & Hd & Hc & Hh & Hm & Hf); [done|done|exact demo_words|by vm_compute|by vm_compute|].
  destruct (Hf EXC_ECALL_FROM_VS DTB_PLIC) as [_ _ _ _ (flags & Hfl & Hl)]; [done|by vm_compute..|].
  destruct (guest_ecall_emulated (λ f, f) s _ demo_vm1 tabs DTB_PLIC flags Hin) as (s' & v' & Hrun & _ & _ & _ & Hr).
  - unfold csr_of. rewrite Hh, Hc. by vm_compute.
  - by vm_compute.
  - exact Hfl.
  - rewrite Hx. exact Hl.
  - exists s, s'. split; [rewrite Hrun; unfold csr_of; rewrite Hh, Hc; by vm_compute|].
    rewrite !Hr, Hx by lia. by vm_compute.
Defined.

(** lw x0 of the priority 5 of virtual interrupt 10, then sw x0 to the threshold:
    the device sees 5. *)
Lemma guest_x0_store_leaks_witness : ∃ (s s1 s2 s3 : hart (world plic_regs)) pc pc',
  hstrapvec (λ f, f) s = Ok pc s1 ∧ w_vcpus (hw s2) = w_vcpus (hw s1) ∧
  csr_of 1 htinst (hw s2) = enc_store 0 2 true ∧
  hstrapvec (λ f, f) s2 = Ok pc' s3 ∧ reg (threshold_off 3) (w_plic (hw s3)) = 5.
Proof.
  destruct (demo_in_guest {[ priority_off 33 := 5 ]}
    (demo_csrs EXC_LOAD_GUEST_PAGE_FAULT (DTB_PLIC + 40) (enc_load 0 2 true)) demo_xs 0 (replicate 32 0))
    as (s & tabs & Hin & Hx & Hd & Hc & Hh & Hm & Hf);
    [done|done|exact demo_words|exact demo_xs_range|by vm_compute|].
  pose proof (guest_x0_store_leaks (λ f, f) s _ demo_vm1 tabs (DTB_PLIC + 40) 2 true 5 Hin) as H.
  cbn zeta in H. unfold pctx_of in H. rewrite Hd, Hh in H.
  destruct H as (pc & s1 & Hrun & Hl & H);
    [by apply Hf; vm_compute|unfold csr_of; rewrite Hc; by vm_compute|by left|by vm_compute|].
  pose proof (le_hart _ _ Hl) as Eh. rewrite Hh in Eh.
  set (cs := demo_csrs EXC_STORE_OR_AMO_GUEST_PAGE_FAULT (DTB_PLIC + 0x201000) (enc_store 0 2 true)).
  destruct (H demo_xs cs (DTB_PLIC + 0x201000) true [PStore (threshold_off 3) 5]) as (pc' & s3 & Hrun3 & Hp3).
  - exact demo_xs_range.
  - by vm_compute.
  - split; cbn [hw w_hart set_csr]; rewrite ?Eh; [by vm_compute..|]. cbn [w_mem set_csr].
    rewrite (le_mem _ _ Hl). by apply Hm.
  - by vm_compute.
  - by vm_compute.
  - exists s, s1, (mk_hart demo_xs (set_csr cs (hw s1))), s3, pc, pc'. rewrite Hp3. split_and!; try done; by vm_compute.
Defined.
