(* ===== verification/TrapShared.v ===== *)
(** * TrapShared: traps while other harts use the PLIC

    The theorems of TrapEntryTheorems say what one trap does when nothing else
    happens.  Here nothing at all is assumed of the PLIC: every access may find it
    changed and every read may return anything, as it is when the other harts and
    the devices use it at the same time.  The handlers still return or panic, never
    fault or hang, and touch only what is theirs: [safe] says so of a command,
    [early] that it panics before it changes anything.  The device [contended] has
    other harts' accesses between those of the handler. *)

From S2P Require Import Prelude Layout Bits Memory Machine Asm Kmem Cpu Linkerscript Vmem PageTable VmemSpec Sv39 Plic Vcpu Vplic Trap VmRun VmRunSpec VplicSpec VmConfig Concrete VplicTheorems TrapTheorems TrapEntry TrapEntryTheorems.

(** ** Values of the C types *)

Definition is_u64 (x : Z) : Prop := 0 <= x < 2 ^ 64.
Definition is_u32 (x : Z) : Prop := 0 <= x < 2 ^ 32.

Lemma is_u64_lor x y : is_u64 x → is_u64 y → is_u64 (x .| y).
Proof. intros. by apply lor_range. Qed.
Lemma is_u32_lor x y : is_u32 x → is_u32 y → is_u32 (x .| y).
Proof. intros. by apply lor_range. Qed.
(** Clearing bits makes a number smaller. *)
Lemma land_le x y : 0 <= x → 0 <= x .& y <= x.
Proof.
  intros Hx. apply Z.ldiff_le; [done|]. apply Z.bits_inj'. intros n _.
  rewrite Z.ldiff_spec, Z.land_spec, Z.bits_0. by destruct (Z.testbit x n), (Z.testbit y n).
Qed.
Lemma is_u32_land x y : is_u32 x → is_u32 (x .& y).
Proof. intros [H0 H1]. pose proof (land_le x y H0). unfold is_u32. lia. Qed.
Lemma is_u64_u32 x : is_u32 x → is_u64 x.
Proof. unfold is_u32, is_u64. lia. Qed.
Lemma is_u32_u32 x : is_u32 (u32 x).
Proof. apply u32_range. Qed.
Lemma is_u64_field v o b : 0 <= o <= 63 → 0 <= b <= 63 → is_u64 (get_value v o b).
Proof.
  intros Ho Hb. pose proof (get_value_range v o b Ho Hb) as [H0 H1]. split; [done|].
  assert (2 ^ b <= 2 ^ 63) by (apply Z.pow_le_mono_r; lia). lia.
Qed.

Create HintDb value discriminated.
#[export] Hint Constants Opaque : value.
#[export] Hint Resolve is_u64_lor is_u32_lor is_u32_land is_u32_u32 is_u64_u32 : value.

(** The accesses of a VM on context [ctx]: its own writes, and reads that claim
    nothing of another context. *)
Definition own_access (devs : list (option mmio_dev)) (ctx last : Z) (o : plic_op) : Prop :=
  own_write devs ctx last o ∨
  (∃ off, o = PLoad off ∧ ∀ ctx', 0 <= ctx' → ctx' ≠ ctx → off ≠ claim_off ctx').

(** [w'] is [w] after a trap, whatever the PLIC answered. *)
Record trap_kept `{PlicDevice D} (w : world D) (v : vcpu) (c : vm_config) (w' : world D) (v' : vcpu) : Prop := {
  tk_local : local_effect w w';
  tk_running : running w' v' c;
  tk_len : length (w_vcpus w') = length (w_vcpus w);
  tk_conf : conf v' = conf v ∧ vhartid v' = vhartid v;
  tk_words : words (regs v');
  tk_csr i q : (i = w_hart w → q ≠ sepc ∧ q ≠ hvip ∧ q ≠ stimecmp) → w_csr w' !! (i, q) = w_csr w !! (i, q);
  tk_plic : ∃ ops, w_plic w' = run_ops ops (w_plic w) ∧ Forall (own_access (devices c) (pctx_of w) (last_claimed_irq_id v)) ops
}.

Section shared.
Context {D : Type} {P : PlicDevice D} {L : Linker} `{!LinkerOk L}.
Context (w0 : world D) (v0 : vcpu) (c : vm_config) (tabs : gmap Z tab).
Context (Hg : guest_tables w0 v0 c tabs) (Hw0 : words (regs v0)).
Implicit Types (w : world D) (v : vcpu) (b : bool).
#[local] Abbreviation h := (w_hart w0).
#[local] Abbreviation ctx := (pctx_of w0).
#[local] Abbreviation last := (last_claimed_irq_id v0).
#[local] Abbreviation M := (cmd (world D)).

(** What the handlers keep of the virtual CPU and of the machine; [b] says whether
    they have left the claimed interrupt alone so far. *)
Record fine b v : Prop := {
  f_conf : conf v = conf v0;
  f_vhartid : vhartid v = vhartid v0;
  f_regs : length (regs v) = 32%nat;
  f_last : is_u32 (last_claimed_irq_id v);
  f_words : words (regs v);
  f_claim : b = true → last_claimed_irq_id v = last
}.
Record kept b w : Prop := {
  k_mem : w_mem w = w_mem w0 ∧ w_kmem w = w_kmem w0;
  k_config : w_config w = w_config w0;
  k_hart : w_hart w = h ∧ w_tp w = w_tp w0;
  k_cpus : w_cpus w = w_cpus w0 ∧ w_cpu_mapped w = w_cpu_mapped w0;
  k_len : length (w_vcpus w) = length (w_vcpus w0);
  k_vcpus i : i ≠ Z.to_nat h → w_vcpus w !! i = w_vcpus w0 !! i;
  k_vcpu : ∃ v, w_vcpus w !! Z.to_nat h = Some v ∧ fine b v;
  k_csr i q : (i = h → q ≠ sepc ∧ q ≠ hvip ∧ q ≠ stimecmp) → w_csr w !! (i, q) = w_csr w0 !! (i, q);
  k_plic : ∃ ops, w_plic w = run_ops ops (w_plic w0) ∧ Forall (own_access (devices c) ctx last) ops
}.

Lemma kept_start : kept true w0.
Proof.
  pose proof (gt_running _ _ _ _ Hg) as [Hc Hv Hk Hvh Hrs Hl]. split; try done; [by exists v0|by exists []].
Qed.

Lemma kept_running b w : kept b w → ∃ v, running w v c ∧ fine b v.
Proof.
  intros [_ Ec [Eh Et] [Ecp Em] _ _ (v & Hv & F) _ _]. pose proof (gt_running _ _ _ _ Hg) as [(H1 & H2 & H3) _ Hk Hvh _ _].
  exists v. split; [|done]. split.
  - split; [by rewrite Em|]. rewrite Eh, Ecp. by split.
  - by rewrite Eh.
  - by rewrite (f_conf _ _ F), Ec.
  - by rewrite (f_vhartid _ _ F).
  - apply F.
  - apply F.
Qed.

(** ** Commands that keep it, and neither fault nor hang *)

(** They may panic; when they do is the next section's. *)
Definition safe {A} b b' (Q : A → Prop) (m : M A) : Prop := ∀ w, kept b w →
  match m w with Ok a w' => Q a ∧ kept b' w' | Panic _ _ => True | _ => False end.

Lemma safe_ret {b A} (Q : A → Prop) a : Q a → safe b b Q (mret a).
Proof. by intros Ha w Hw. Qed.
Lemma safe_bind {b b1 b2 A B} (Q : A → Prop) (R : B → Prop) (m : M A) (k : A → M B) :
  safe b b1 Q m → (∀ a, Q a → safe b1 b2 R (k a)) → safe b b2 R (m ≫= k).
Proof.
  intros Hm Hk w Hw. specialize (Hm w Hw). unfold mbind, cmd_bind.
  destruct (m w) as [a w'|e w'|p w'|w']; [|done..]. destruct Hm as [Ha Hw']. exact (Hk a Ha w' Hw').
Qed.
Lemma safe_panic {b b' A} (Q : A → Prop) e : safe b b' Q (panic e).
Proof. by intros w Hw. Qed.
Lemma safe_modify {b} f : (∀ w, kept b w → kept b (f w)) → safe b b (λ _, True) (modify f).
Proof. intros Hf w Hw. split; [done|by apply Hf]. Qed.
Lemma safe_whenM {b} (e : bool) m : safe b b (λ _, True) m → safe b b (λ _, True) (whenM e m).
Proof. intros Hm. destruct e; [done|by apply safe_ret]. Qed.
Lemma safe_weaken {b A} (Q R : A → Prop) (m : M A) : safe b b Q m → (∀ a, Q a → R a) → safe b b R m.
Proof. intros Hm HQR w Hw. specialize (Hm w Hw). destruct (m w); [|done..]. destruct Hm. split; [by apply HQR|done]. Qed.

Lemma kept_loose b w : kept b w → kept false w.
Proof. intros [? ? ? ? ? ? (v & Hv & []) ? ?]; split; try done. exists v. split; [done|by split]. Qed.
Lemma safe_loose {b A} (Q : A → Prop) (m : M A) : safe b b Q m → safe b false Q m.
Proof. intros Hm w Hw. specialize (Hm w Hw). destruct (m w); [|done..]. destruct Hm. split; [done|by eapply kept_loose]. Qed.

(** ** The primitives *)

Lemma kept_plic b o d w : kept b w → own_access (devices c) ctx last o → d = run_op o (w_plic w) → kept b (set_plic d w).
Proof.
  intros [? ? ? ? ? ? ? ? (ops & E & Ho)] Hown ->. split; try done.
  exists (ops ++ [o]). rewrite run_ops_app, <- E. split; [done|]. apply Forall_app. split; [done|by constructor].
Qed.
Lemma safe_plic_rd {b} i : (∀ ctx', 0 <= ctx' → ctx' ≠ ctx → 4 * i ≠ claim_off ctx') → safe b b is_u32 (plic_rd i).
Proof.
  intros Hi w Hw. rewrite plic_rd_run. split; [apply is_u32_u32|].
  eapply (kept_plic _ (PLoad (4 * i))); [done| |done]. right. by exists (4 * i).
Qed.
Lemma safe_plic_wr {b} i x : own_write (devices c) ctx last (PStore (4 * i) x) → safe b b (λ _, True) (plic_wr i x).
Proof. intros Ho. apply safe_modify. intros. eapply (kept_plic _ (PStore (4 * i) x)); [done| |done]. by left. Qed.
Lemma safe_plic_amoand {b} i x : own_write (devices c) ctx last (PAmoAnd (4 * i) x) → safe b b (λ _, True) (plic_amoand i x).
Proof. intros Ho. apply safe_modify. intros. eapply (kept_plic _ (PAmoAnd (4 * i) x)); [done| |done]. by left. Qed.
Lemma safe_plic_amoor {b} i x : own_write (devices c) ctx last (PAmoOr (4 * i) x) → safe b b (λ _, True) (plic_amoor i x).
Proof. intros Ho. apply safe_modify. intros. eapply (kept_plic _ (PAmoOr (4 * i) x)); [done| |done]. by left. Qed.

Lemma safe_CSRR {b} q : safe b b (λ _, True) (CSRR q).
Proof. by intros w Hw. Qed.
Lemma safe_CSRW {b} q x : q = sepc ∨ q = hvip ∨ q = stimecmp → safe b b (λ _, True) (CSRW q x).
Proof.
  intros Hq. apply safe_modify. intros w Hw. pose proof (proj1 (k_hart _ _ Hw)) as Eh. destruct Hw as [? ? ? ? ? ? ? Hc ?].
  split; try done. intros i r Hr. cbn [w_csr set_csr]. rewrite Eh, lookup_insert_ne; [by apply Hc|].
  intros [= <- <-]. destruct (Hr eq_refl) as (? & ? & ?). by destruct Hq as [->|[->| ->]].
Qed.
Lemma safe_CSRS {b} q x : q = sepc ∨ q = hvip ∨ q = stimecmp → safe b b (λ _, True) (CSRS q x).
Proof. intros Hq. eapply safe_bind; [apply safe_CSRR|]. intros v _. by apply safe_CSRW. Qed.
Lemma safe_CSRC {b} q x : q = sepc ∨ q = hvip ∨ q = stimecmp → safe b b (λ _, True) (CSRC q x).
Proof. intros Hq. eapply safe_bind; [apply safe_CSRR|]. intros v _. by apply safe_CSRW. Qed.

Lemma safe_get_hartid {b} : safe b b (λ i, i = h) get_hartid.
Proof.
  intros w Hw. destruct (kept_running _ w Hw) as (v & Hr & _). destruct (running_hart _ _ _ Hr) as (-> & _).
  split; [apply Hw|done].
Qed.
Lemma safe_get_vcpu {b} : safe b b (λ i, i = h) get_vcpu.
Proof. exact safe_get_hartid. Qed.
Lemma safe_vcpu_get {b} : safe b b (fine b) (vcpu_get h).
Proof.
  intros w Hw. destruct (kept_running _ w Hw) as (v & Hr & F). destruct (running_hart _ _ _ Hr) as (_ & _ & Hv & _).
  by rewrite <- (proj1 (k_hart _ _ Hw)), Hv.
Qed.
Lemma safe_config_get {b} v : fine b v → safe b b (λ c', c' = c) (config_get (conf v)).
Proof.
  intros F w Hw. destruct (kept_running _ w Hw) as (v' & Hr & F'). destruct (running_hart _ _ _ Hr) as (_ & _ & _ & Hc & _).
  by rewrite (f_conf _ _ F), <- (f_conf _ _ F'), Hc.
Qed.
Lemma safe_vcpu_upd {b b'} f : (∀ v, fine b v → fine b' (f v)) → safe b b' (λ _, True) (vcpu_upd h f).
Proof.
  intros Hf w Hw. destruct (kept_running _ w Hw) as (v & Hr & F). destruct (running_hart _ _ _ Hr) as (_ & _ & _ & _ & Hh).
  pose proof (proj1 (k_hart _ _ Hw)) as Eh. pose proof (run_vcpu _ _ _ Hr) as Hv. rewrite Eh in Hv, Hh.
  rewrite (vcpu_upd_ok h f v w) by (lia || done). split; [done|]. destruct Hw as [? ? ? ? Hl Ho _ ? ?].
  split; try done; cbn [w_vcpus set_vcpus].
  - by rewrite length_insert.
  - intros i Hi. rewrite list_lookup_insert_ne by done. by apply Ho.
  - exists (f v). split; [apply list_lookup_insert_eq; by eapply lookup_lt_Some|by apply Hf].
Qed.

(** The walk of the guest's tables: memory does not change under it. *)
Lemma safe_convert {b} va : safe b b is_u64 (convert_va_to_pa (vm_pgtable c) va 1).
Proof.
  intros w Hw. destruct Hg as [_ Hpt Hroot].
  assert (Hpt' : pt_inv (w_mem w) tabs) by (by rewrite (proj1 (k_mem _ _ Hw))).
  pose proof (convert_run w tabs (vm_pgtable c) (root_of c) 1 va Hpt' Hroot) as Hc.
  destruct (pt_slot _ _ _ _); [|by rewrite Hc]. destruct Hc as (e & _ & ->). split; [|done].
  apply is_u64_lor; [apply u64_range|by apply is_u64_field].
Qed.

(** ** driver/plic.c *)

(** The constants of the register offsets. *)
Ltac offsets := unfold enable_off, threshold_off, claim_off; change (4 * 8) with 32; change (1024 / 32) with 32;
  change (0x1000 / 4) with 1024; change (0x2000 / 4) with 2048; change (0x200000 / 4) with 524288;
  change (0x200004 / 4) with 524289; dlia.

Lemma ctx_range : 0 <= ctx <= 3 ∧ s32 (u64 (2 * h + 1)) = ctx ∧ s32 ctx = ctx.
Proof.
  pose proof (pctx_range _ _ _ (gt_running _ _ _ _ Hg)) as (H & E & _). split; [exact H|]. split; [exact E|].
  rewrite s32_id; lia.
Qed.
Lemma good_ctx : bad_context ctx = false.
Proof. apply bad_context_false. pose proof ctx_range. lia. Qed.

Lemma safe_get_priority {b} irq : safe b b is_u32 (plic_get_priority irq).
Proof.
  unfold plic_get_priority. destruct (bad_source irq) eqn:E; [by apply safe_ret|]. apply bad_source_false in E.
  apply safe_plic_rd. intros. unfold claim_off. lia.
Qed.
Lemma safe_get_pending {b} irq : safe b b is_u32 (plic_get_pending irq).
Proof.
  unfold plic_get_pending. destruct (bad_source irq) eqn:E; [by apply safe_ret|]. apply bad_source_false in E.
  eapply safe_bind; [apply safe_plic_rd; intros; offsets|]. intros x Hx. apply safe_ret. by apply is_u32_land.
Qed.
Lemma safe_get_enabled {b} irq : safe b b is_u32 (plic_get_enabled ctx irq).
Proof.
  unfold plic_get_enabled. destruct (bad_source irq) eqn:E; [by apply safe_ret|]. apply bad_source_false in E.
  rewrite good_ctx. pose proof ctx_range as [? _].
  eapply safe_bind; [apply safe_plic_rd; intros; offsets|]. intros x Hx. apply safe_ret. by apply is_u32_land.
Qed.
Lemma safe_get_threshold {b} : safe b b is_u32 (plic_get_threshold ctx).
Proof. unfold plic_get_threshold. rewrite good_ctx. apply safe_plic_rd. intros. offsets. Qed.
Lemma safe_claim {b} : safe b b is_u32 (plic_claim ctx).
Proof. unfold plic_claim. rewrite good_ctx. apply safe_plic_rd. intros. offsets. Qed.

Lemma safe_set_priority {b} virq x : safe b b (λ _, True) (plic_set_priority (virt_to_phys_irq (devices c) virq) x).
Proof.
  unfold plic_set_priority. destruct (bad_source _) eqn:E; [by apply safe_ret|]. apply valid_owned in E.
  apply safe_plic_wr. left. by eexists.
Qed.
Lemma safe_set_enabled {b} virq x : safe b b (λ _, True) (plic_set_enabled ctx (virt_to_phys_irq (devices c) virq) x).
Proof.
  unfold plic_set_enabled. destruct (bad_source _) eqn:E; [by apply safe_ret|]. apply valid_owned in E.
  rewrite good_ctx. cbv zeta. rewrite source_mask_bit.
  destruct (x =? 0); [apply safe_plic_amoand|apply safe_plic_amoor]; eexists; (split; [exact E|]); split; try done;
    offsets.
Qed.
Lemma safe_set_threshold {b} x : safe b b (λ _, True) (plic_set_threshold ctx x).
Proof.
  unfold plic_set_threshold. rewrite good_ctx. apply safe_plic_wr. right. left. offsets.
Qed.
Lemma safe_complete {b} : safe b b (λ _, True) (plic_complete ctx last).
Proof.
  unfold plic_complete. rewrite good_ctx. apply safe_plic_wr. right. right. split; [offsets|done].
Qed.

(** ** virtual/vplic.c *)

Lemma fine_last b x v : is_u32 x → fine b v → fine false (set_last_claimed x v).
Proof. by intros Hx []; split. Qed.
Lemma fine_reg b r x v : is_u64 x → fine b v → fine b (set_reg r x v).
Proof. intros Hx []; split; try done; cbn; [by rewrite length_insert|by apply Forall_insert]. Qed.
Lemma fine_get_reg b r v : fine b v → is_u64 (get_reg r v).
Proof.
  intros F. unfold get_reg. destruct (regs v !! Z.to_nat r) as [x|] eqn:E; cbn; [|by vm_compute].
  exact (Forall_lookup_1 _ _ _ _ (f_words _ _ F) E).
Qed.

Lemma safe_parse_htinst {b} : safe b b (λ _, True) parse_htinst.
Proof.
  eapply safe_bind; [apply safe_CSRR|]. intros x _. cbv zeta.
  destruct (negb _); [apply safe_panic|]. destruct (negb _); [apply safe_panic|by apply safe_ret].
Qed.
Lemma safe_advance_sepc {b} o : safe b b (λ _, True) (advance_sepc o).
Proof. eapply safe_bind; [apply safe_CSRR|]. intros x _. destruct (truthy _); apply safe_CSRW; by left. Qed.

Lemma safe_bits_loop {b} k devs g get m : (∀ i, safe b b is_u32 (get i)) → is_u32 m → safe b b is_u32 (bits_loop k devs g get m).
Proof.
  intros Hget. revert m. induction k as [|k IH]; intros m Hm; cbn [bits_loop]; [by apply safe_ret|].
  eapply safe_bind; [apply Hget|]. intros p _. apply IH. destruct (truthy p); eauto with value.
Qed.

Lemma safe_load_dispatch {b} devs off vctx : safe b b is_u32 (load_dispatch devs off vctx ctx).
Proof.
  pose proof ctx_range as (_ & _ & Es). unfold load_dispatch.
  destruct (is_access_to_priority_reg off); [apply safe_get_priority|].
  destruct (is_access_to_pending_regs off); [apply safe_bits_loop; [apply safe_get_pending|by vm_compute]|].
  destruct (is_access_to_enable_regs off).
  { unfold handle_enable_regs_load. destruct (negb _); [by apply safe_ret|]. cbv zeta. rewrite Es.
    apply safe_bits_loop; [apply safe_get_enabled|by vm_compute]. }
  destruct (is_access_to_threshold_reg off).
  { unfold handle_threshold_reg_load. rewrite Es. destruct (negb _); [by apply safe_ret|apply safe_get_threshold]. }
  destruct (is_access_to_claim_complete_reg off); [|apply safe_panic].
  unfold handle_claim_reg_load. destruct (negb _); [by apply safe_ret|].
  eapply safe_bind; [apply safe_get_vcpu|]. intros i ->. eapply safe_bind; [apply safe_vcpu_get|]. intros v F.
  apply safe_ret, is_u32_u32.
Qed.

(** The beginning of the emulation of loads and stores. *)
Lemma safe_emulation {b b' A} (Q : A → Prop) (k : Z → vcpu → vm_config → Z → M A) :
  (∀ v, fine b v → safe b b' Q (k h v c h)) →
  safe b b' Q (vi ← get_vcpu; v ← vcpu_get vi; c ← config_get (conf v); hartid ← get_hartid; k vi v c hartid).
Proof.
  intros Hk. eapply safe_bind; [apply safe_get_vcpu|]. intros i ->. eapply safe_bind; [apply safe_vcpu_get|]. intros v F.
  eapply safe_bind; [by apply safe_config_get|]. intros c' ->. eapply safe_bind; [apply safe_get_hartid|]. intros i ->.
  by apply Hk.
Qed.
Lemma own_pctx : u64 (2 * h + 1) = ctx.
Proof. pose proof ctx_range as (H & _). unfold pctx_of in *. apply u64_id. lia. Qed.

Lemma safe_emulate_load {b} ins : safe b b (λ _, True) (emulate_load ins).
Proof.
  apply (safe_emulation _ (λ vi v c hartid, _)). intros v F. cbv beta zeta. rewrite own_pctx.
  eapply safe_bind; [apply safe_load_dispatch|]. intros x Hx.
  eapply safe_bind; [apply safe_vcpu_upd; intros v' F'; apply fine_reg; eauto with value|]. intros _ _.
  eapply safe_bind; [|intros _ _; apply safe_advance_sepc]. apply safe_whenM, safe_vcpu_upd. intros v' F'.
  apply fine_reg; [|done]. apply is_u64_lor; [by eapply fine_get_reg|by vm_compute].
Qed.
Lemma safe_load_fault {b} a : safe b b (λ _, True) (vplic_handle_load_page_fault a).
Proof.
  eapply safe_bind; [apply safe_parse_htinst|]. intros i _.
  destruct (negb _); [apply safe_panic|]. destruct (_ && _); [apply safe_panic|apply safe_emulate_load].
Qed.

Lemma safe_enable_store_loop {b} k g x : safe b b (λ _, True) (enable_store_loop k (devices c) g x ctx).
Proof.
  pose proof ctx_range as (_ & _ & Es). induction k as [|k IH]; cbn [enable_store_loop]; [by apply safe_ret|].
  cbv zeta. rewrite Es. eapply safe_bind; [apply safe_set_enabled|]. by intros _ _.
Qed.
Lemma safe_store_dispatch off vctx x : safe true false (λ _, True) (store_dispatch (devices c) h off vctx ctx x).
Proof.
  pose proof ctx_range as (_ & _ & Es). unfold store_dispatch.
  destruct (is_access_to_priority_reg off); [apply safe_loose, safe_set_priority|].
  destruct (is_access_to_pending_regs off); [by apply safe_loose, safe_ret|].
  destruct (is_access_to_enable_regs off).
  { apply safe_loose. unfold handle_enable_regs_store. destruct (negb _); [by apply safe_ret|apply safe_enable_store_loop]. }
  destruct (is_access_to_threshold_reg off).
  { apply safe_loose. unfold handle_threshold_reg_store. rewrite Es. destruct (negb _); [by apply safe_ret|apply safe_set_threshold]. }
  destruct (is_access_to_claim_complete_reg off); [|apply safe_panic].
  unfold handle_complete_reg_store. destruct (negb _); [by apply safe_loose, safe_ret|].
  eapply safe_bind; [apply safe_vcpu_get|]. intros v F. eapply safe_bind; [by apply safe_config_get|]. intros c' ->.
  cbv zeta. destruct (Z.eqb_spec (u32 (virt_to_phys_irq (devices c) (s32 x))) (last_claimed_irq_id v)) as [->|]; [|by apply safe_loose, safe_ret].
  rewrite Es, (f_claim _ _ F eq_refl).
  eapply safe_bind; [apply safe_vcpu_upd; intros v' F'; by eapply fine_last|]. intros _ _.
  eapply safe_bind; [apply safe_complete|]. intros _ _. apply safe_CSRC. right. by left.
Qed.
Lemma safe_emulate_store ins : safe true false (λ _, True) (emulate_store ins).
Proof.
  apply (safe_emulation _ (λ vi v c hartid, _)). intros v F. cbv beta zeta. rewrite own_pctx.
  eapply safe_bind; [apply safe_store_dispatch|]. intros _ _. apply safe_advance_sepc.
Qed.
Lemma safe_store_fault a : safe true false (λ _, True) (vplic_handle_store_or_amo_page_fault a).
Proof.
  eapply safe_bind; [apply safe_parse_htinst|]. intros i _.
  destruct (negb _); [apply safe_panic|]. destruct (negb _); [apply safe_panic|apply safe_emulate_store].
Qed.

Lemma safe_vplic_interrupt : safe true false (λ _, True) vplic_handle_interrupt.
Proof.
  pose proof ctx_range as (_ & Es & _).
  eapply safe_bind; [apply safe_get_hartid|]. intros i ->. eapply safe_bind; [apply safe_get_vcpu|]. intros i ->.
  rewrite Es. eapply safe_bind; [apply safe_claim|]. intros irq Hi.
  eapply safe_bind; [apply safe_vcpu_upd; intros v' F'; by eapply fine_last|]. intros _ _.
  eapply safe_bind; [apply safe_vcpu_get|]. intros v F. apply safe_whenM, safe_CSRS. right. by left.
Qed.

(** ** core/trap.c *)

Lemma safe_is_access_to_plic {b} : safe b b (λ _, True) is_access_to_plic.
Proof.
  eapply safe_bind; [apply safe_get_vcpu|]. intros i ->. eapply safe_bind; [apply safe_vcpu_get|]. intros v F.
  eapply safe_bind; [by apply safe_config_get|]. intros c' ->.
  eapply (safe_bind is_u64). { eapply safe_bind; [apply safe_CSRR|]. intros x _. apply safe_convert. }
  intros a _. destruct (_ && _); by apply safe_ret.
Qed.
Lemma safe_perform_walk {b} : safe b b (λ _, True) perform_walk_for_guest.
Proof.
  eapply safe_bind; [apply safe_get_vcpu|]. intros i ->. eapply safe_bind; [apply safe_vcpu_get|]. intros v F.
  eapply safe_bind; [by apply safe_config_get|]. intros c' ->. eapply safe_bind; [apply safe_convert|]. intros a Ha.
  apply safe_vcpu_upd. intros v' F'. by apply fine_reg.
Qed.
Lemma safe_hs_exception cause : safe true false (λ _, True) (hs_exception_handler cause).
Proof.
  unfold hs_exception_handler. destruct (cause =? EXC_ECALL_FROM_VS).
  { apply safe_loose. eapply safe_bind; [apply safe_perform_walk|]. intros _ _. eapply safe_bind; [apply safe_CSRR|]. intros e _.
    apply safe_CSRW. by left. }
  destruct (cause =? EXC_LOAD_GUEST_PAGE_FAULT); [|destruct (cause =? EXC_STORE_OR_AMO_GUEST_PAGE_FAULT); [|apply safe_panic]];
    (eapply safe_bind; [apply safe_is_access_to_plic|]; intros r _; cbv zeta; destruct (truthy _); [|apply safe_panic]);
    [apply safe_loose, safe_load_fault|apply safe_store_fault].
Qed.
Lemma safe_hs_interrupt cause : safe true false (λ _, True) (hs_interrupt_handler cause).
Proof.
  unfold hs_interrupt_handler. cbv zeta. destruct (_ =? INT_SUPERVISOR_TIM).
  { apply safe_loose. eapply safe_bind; [apply safe_CSRR|]. intros t _. apply safe_CSRW. right. by right. }
  destruct (_ =? INT_SUPERVISOR_EXT); [apply safe_vplic_interrupt|apply safe_panic].
Qed.
Lemma safe_handler cause : safe true false (λ _, True) (handler cause).
Proof. unfold handler. destruct (_ =? 0); [apply safe_hs_exception|apply safe_hs_interrupt]. Qed.

(** ** Panics come first *)

(** Commands that leave [w0] alone, that panic before they change it, that never
    panic. *)
Definition looks {A} (m : M A) : Prop := match m w0 with Ok _ w | Panic _ w => w = w0 | _ => True end.
Definition early {A} (m : M A) : Prop := match m w0 with Panic _ w => w = w0 | _ => True end.
Definition sure {A} (m : M A) : Prop := ∀ w, match m w with Panic _ _ => False | _ => True end.

Lemma looks_bind {A B} (m : M A) (k : A → M B) : looks m → (∀ a, looks (k a)) → looks (m ≫= k).
Proof. unfold looks, mbind, cmd_bind. intros Hm Hk. destruct (m w0); [subst|done..]. apply Hk. Qed.
Lemma early_after {A B} (m : M A) (k : A → M B) : looks m → (∀ a, early (k a)) → early (m ≫= k).
Proof. unfold looks, early, mbind, cmd_bind. intros Hm Hk. destruct (m w0); [subst|done..]. apply Hk. Qed.
Lemma early_before {A B} (m : M A) (k : A → M B) : early m → (∀ a, sure (k a)) → early (m ≫= k).
Proof.
  unfold early, sure, mbind, cmd_bind. intros Hm Hk. destruct (m w0) as [a w| | |]; [|done..].
  specialize (Hk a w). by destruct (k a w).
Qed.
Lemma sure_bind {A B} (m : M A) (k : A → M B) : sure m → (∀ a, sure (k a)) → sure (m ≫= k).
Proof. unfold sure, mbind, cmd_bind. intros Hm Hk w. specialize (Hm w). destruct (m w); [apply Hk|done..]. Qed.
Lemma sure_early {A} (m : M A) : sure m → early m.
Proof. intros H. specialize (H w0). unfold early. by destruct (m w0). Qed.
Lemma looks_early {A} (m : M A) : looks m → early m.
Proof. unfold looks, early. by destruct (m w0). Qed.

Lemma looks_CSRR q : looks (CSRR q).
Proof. done. Qed.
Lemma looks_hartid : looks get_hartid.
Proof. destruct (running_hart _ _ _ (gt_running _ _ _ _ Hg)) as (E & _). unfold looks. by rewrite E. Qed.
Lemma looks_convert va : looks (convert_va_to_pa (vm_pgtable c) va 1).
Proof.
  destruct Hg as [_ Hpt Hroot]. pose proof (convert_run w0 tabs (vm_pgtable c) (root_of c) 1 va Hpt Hroot) as Hc.
  unfold looks. destruct (pt_slot _ _ _ _); [|by rewrite Hc]. by destruct Hc as (e & _ & ->).
Qed.
Lemma at_start {A} (k : Z → vcpu → vm_config → M A) :
  (vi ← get_vcpu; v ← vcpu_get vi; c ← config_get (conf v); k vi v c) w0 = k h v0 c w0.
Proof.
  destruct (running_hart _ _ _ (gt_running _ _ _ _ Hg)) as (_ & E1 & E2 & E3 & _).
  erewrite bind_ok by exact E1. erewrite bind_ok by exact E2. by erewrite bind_ok by exact E3.
Qed.

Lemma sure_ret {A} (a : A) : sure (mret a).
Proof. done. Qed.
Lemma sure_modify f : sure (modify f).
Proof. done. Qed.
Lemma sure_CSRR q : sure (CSRR q).
Proof. done. Qed.
Lemma sure_CSRW q x : sure (CSRW q x).
Proof. done. Qed.
Lemma sure_CSRS q x : sure (CSRS q x).
Proof. done. Qed.
Lemma sure_CSRC q x : sure (CSRC q x).
Proof. done. Qed.
Lemma sure_plic_rd i : sure (plic_rd i).
Proof. intros w. by rewrite plic_rd_run. Qed.
Lemma sure_plic_wr i x : sure (plic_wr i x).
Proof. done. Qed.
Lemma sure_plic_amoand i x : sure (plic_amoand i x).
Proof. done. Qed.
Lemma sure_plic_amoor i x : sure (plic_amoor i x).
Proof. done. Qed.
Lemma sure_vcpu_get i : sure (vcpu_get i).
Proof. intros w. unfold vcpu_get. destruct (i <? 0); [done|]. by destruct (w_vcpus w !! _). Qed.
Lemma sure_vcpu_upd i f : sure (vcpu_upd i f).
Proof. apply sure_bind; [apply sure_vcpu_get|done]. Qed.
Lemma sure_config_get o : sure (config_get o).
Proof. intros w. unfold config_get. by destruct (o ≫= _). Qed.
Lemma sure_get_hartid : sure get_hartid.
Proof.
  apply sure_bind; [intros w; unfold mycpu; by destruct (truthy _)|]. intros p w. unfold load_hartid.
  by destruct (cpu_index p w ≫= _).
Qed.
Lemma sure_get_vcpu : sure get_vcpu.
Proof. exact sure_get_hartid. Qed.
Lemma sure_whenM (e : bool) m : sure m → sure (whenM e m).
Proof. by destruct e. Qed.

Create HintDb sure discriminated.
Hint Constants Opaque : sure.
Hint Resolve sure_ret sure_modify sure_CSRR sure_CSRW sure_CSRS sure_CSRC sure_plic_rd sure_plic_wr sure_plic_amoand
  sure_plic_amoor sure_vcpu_get sure_vcpu_upd sure_config_get sure_get_hartid sure_get_vcpu sure_whenM sure_bind : sure.
Ltac sr := repeat lazymatch goal with
  | |- sure (if ?e then _ else _) => destruct e
  | |- sure (let _ := _ in _) => cbv zeta
  | |- sure (_ ≫= _) => apply sure_bind; [|intros ?]
  | |- sure _ => solve [eauto with sure]
  end.

Lemma sure_plic_gets irq x : sure (plic_get_priority irq) ∧ sure (plic_get_pending irq) ∧ sure (plic_get_enabled x irq) ∧
  sure (plic_get_threshold x) ∧ sure (plic_claim x).
Proof. unfold plic_get_priority, plic_get_pending, plic_get_enabled, plic_get_threshold, plic_claim. split_and!; sr. Qed.
Lemma sure_plic_sets irq x y : sure (plic_set_priority irq y) ∧ sure (plic_set_enabled x irq y) ∧
  sure (plic_set_threshold x y) ∧ sure (plic_complete x y).
Proof. unfold plic_set_priority, plic_set_enabled, plic_set_threshold, plic_complete. split_and!; sr. Qed.
Lemma sure_bits_loop k devs g get m : (∀ i, sure (get i)) → sure (bits_loop k devs g get m).
Proof.
  intros Hget. revert m. induction k as [|k IH]; intros m; cbn [bits_loop]; [done|].
  apply sure_bind; [apply Hget|]. intros p. apply IH.
Qed.
Lemma sure_enable_store_loop k devs g x pctx : sure (enable_store_loop k devs g x pctx).
Proof.
  induction k as [|k IH]; cbn [enable_store_loop]; [done|]. apply sure_bind; [apply (sure_plic_sets _ _ _)|done].
Qed.
Lemma sure_advance_sepc o : sure (advance_sepc o).
Proof. unfold advance_sepc. sr. Qed.

Lemma looks_parse_htinst : looks parse_htinst.
Proof. unfold parse_htinst. apply looks_bind; [done|]. intros x. cbv zeta. destruct (negb _); [done|]. by destruct (negb _). Qed.

Lemma early_load_dispatch devs off vctx pctx : early (load_dispatch devs off vctx pctx).
Proof.
  unfold load_dispatch. destruct (is_access_to_priority_reg off); [apply sure_early, (sure_plic_gets _ 0)|].
  destruct (is_access_to_pending_regs off).
  { apply sure_early, sure_bits_loop. intros i. apply (sure_plic_gets i 0). }
  destruct (is_access_to_enable_regs off).
  { apply sure_early. unfold handle_enable_regs_load. destruct (negb _); [done|]. apply sure_bits_loop. intros i. apply (sure_plic_gets i _). }
  destruct (is_access_to_threshold_reg off).
  { apply sure_early. unfold handle_threshold_reg_load. destruct (negb _); [done|]. apply (sure_plic_gets 0). }
  destruct (is_access_to_claim_complete_reg off); [|done]. apply sure_early. unfold handle_claim_reg_load. sr.
Qed.
Lemma early_store_dispatch devs vi off vctx pctx x : early (store_dispatch devs vi off vctx pctx x).
Proof.
  unfold store_dispatch. destruct (is_access_to_priority_reg off); [apply sure_early, (sure_plic_sets _ 0)|].
  destruct (is_access_to_pending_regs off); [done|].
  destruct (is_access_to_enable_regs off).
  { apply sure_early. unfold handle_enable_regs_store. destruct (negb _); [done|]. apply sure_enable_store_loop. }
  destruct (is_access_to_threshold_reg off).
  { apply sure_early. unfold handle_threshold_reg_store. destruct (negb _); [done|]. apply (sure_plic_sets 0). }
  destruct (is_access_to_claim_complete_reg off); [|done]. apply sure_early. unfold handle_complete_reg_store. sr.
  apply (sure_plic_sets 0).
Qed.

Lemma early_load_fault a : early (vplic_handle_load_page_fault a).
Proof.
  apply early_after; [apply looks_parse_htinst|]. intros i. destruct (negb _); [done|]. destruct (_ && _); [done|].
  unfold early, emulate_load. rewrite (at_start (λ _ _ _, _)). cbv beta zeta.
  apply early_after; [exact looks_hartid|]. intros j. apply early_before; [apply early_load_dispatch|].
  intros x. pose proof sure_advance_sepc. sr.
Qed.
Lemma early_store_fault a : early (vplic_handle_store_or_amo_page_fault a).
Proof.
  apply early_after; [apply looks_parse_htinst|]. intros i. destruct (negb _); [done|]. destruct (negb _); [done|].
  unfold early, emulate_store. rewrite (at_start (λ _ _ _, _)). cbv beta zeta.
  apply early_after; [exact looks_hartid|]. intros j. apply early_before; [apply early_store_dispatch|].
  intros x. apply sure_advance_sepc.
Qed.

Lemma looks_is_access_to_plic : looks is_access_to_plic.
Proof.
  unfold looks, is_access_to_plic. rewrite (at_start (λ _ _ _, _)). apply looks_bind; [|by intros a; destruct (_ && _)].
  apply looks_bind; [done|]. intros x. apply looks_convert.
Qed.
Lemma early_perform_walk : early perform_walk_for_guest.
Proof.
  unfold early, perform_walk_for_guest. rewrite (at_start (λ _ _ _, _)).
  apply early_after; [apply looks_convert|]. intros a. apply sure_early, sure_vcpu_upd.
Qed.
Lemma early_handler cause : early (handler cause).
Proof.
  unfold handler. destruct (_ =? 0).
  - unfold hs_exception_handler. destruct (cause =? EXC_ECALL_FROM_VS); [apply early_before; [apply early_perform_walk|done]|].
    destruct (cause =? EXC_LOAD_GUEST_PAGE_FAULT); [|destruct (cause =? EXC_STORE_OR_AMO_GUEST_PAGE_FAULT); [|done]];
      (apply early_after; [apply looks_is_access_to_plic|]; intros r; cbv zeta; destruct (truthy _); [|done]);
      [apply early_load_fault|apply early_store_fault].
  - unfold hs_interrupt_handler. cbv zeta. destruct (_ =? INT_SUPERVISOR_TIM); [done|].
    destruct (_ =? INT_SUPERVISOR_EXT); [|done]. apply sure_early. unfold vplic_handle_interrupt. sr.
    apply (sure_plic_gets 0).
Qed.

Lemma kept_trap b w : kept b w → ∃ v, trap_kept w0 v0 c w v ∧ guest_tables w v c tabs.
Proof.
  intros Hw. destruct (kept_running _ w Hw) as (v & Hr & F). exists v. pose proof Hw as [[Em Ek] Ec [Eh Et] [Ecp Ema] Hl Hv _ Hc Hp].
  split; [split; [split|..]|split]; try done.
  - intros i q Hi. unfold csr_of. f_equal. apply Hc. by intros ->.
  - split; apply F.
  - apply F.
  - rewrite Em. apply Hg.
  - apply Hg.
Qed.
End shared.

(** ** Traps for every device *)

Section traps.
Context {D : Type} {P : PlicDevice D} {L : Linker} `{!LinkerOk L}.
Implicit Types (w : world D) (v : vcpu) (c : vm_config) (tabs : gmap Z tab).

Lemma handler_kept w v c tabs cause : guest_tables w v c tabs → words (regs v) →
  match handler cause w with
  | Ok _ w' => ∃ v', trap_kept w v c w' v' ∧ guest_tables w' v' c tabs
  | Panic _ w' => w' = w
  | _ => False
  end.
Proof.
  intros Hg Hw. pose proof (early_handler w v c tabs Hg cause) as He. unfold early in He. pose proof (safe_handler w v c tabs Hg cause w (kept_start w v c tabs Hg Hw)) as H.
  destruct (handler cause w) as [[] w'|m w'| |]; [destruct H as [_ H]; by eapply kept_trap|done..].
Qed.

(** From the trap to the resumed guest. *)
Lemma trap_round_shared clobber s v c tabs : in_guest s v c tabs →
  let i := w_hart (hw s) in let cause := csr_of i scause (hw s) in 0 <= cause < 2 ^ 64 →
  ∃ rs, saved (xr s) (regs v) rs ∧
    let v1 := set_regs rs v in let w1 := with_regs i v rs (hw s) in
    match handler cause w1 with
    | Ok _ w2 => ∃ s' v2, hstrapvec clobber s = Ok (csr_of i sepc w2) s' ∧ hw s' = w2 ∧
        trap_kept w1 v1 c w2 v2 ∧ in_guest s' v2 c tabs
    | Panic msg _ => ∃ s', hstrapvec clobber s = Panic msg s' ∧ hw s' = w1
    | _ => False
    end.
Proof.
  intros [Hg Hs Hx Hw [Hv0 Hv1]] i cause Hc.
  pose proof (running_attached _ _ _ (gt_running _ _ _ _ Hg) Hv0 Hv1) as Ha.
  destruct (hstrapvec_run clobber i v s Ha Hs (Hx 31%nat ltac:(lia)) Hc) as (rs & Hsv & Hok & Hpanic).
  exists rs. split; [exact Hsv|]. intros v1 w1.
  pose proof (with_regs_tables _ _ _ _ rs Hg (proj1 Hsv)) as Hg1. fold i v1 w1 in Hg1.
  pose proof (saved_words _ _ _ Hsv Hw Hx) as Hw1.
  pose proof (handler_kept w1 v1 c tabs cause Hg1 Hw1) as He. fold w1 cause in Hok, Hpanic.
  destruct (handler cause w1) as [[] w2|msg w2| |]; [|subst w2; by apply (Hpanic w1 msg)|exact He..].
  destruct He as (v2 & E & Hg2). pose proof (le_hart _ _ (tk_local _ _ _ _ _ E)) as Eh.
  change (w_hart w2 = i) in Eh. pose proof (tk_words _ _ _ _ _ E) as Hw2.
  assert (Hs2 : scratch_ok i w2) by (unfold scratch_ok; etransitivity; [by apply (tk_csr _ _ _ _ _ E)|exact Hs]).
  destruct (Hok w2 v2 eq_refl) as (s' & Hrun & <- & Hxr); [|exact Hs2|exact Hw2|].
  { rewrite <- Eh. by apply (running_attached _ _ c); [apply Hg2|..]. }
  exists s', v2. split; [exact Hrun|]. split; [done|]. split; [exact E|].
  split; [exact Hg2|by rewrite Eh| |exact Hw2|done].
  intros n Hn. rewrite Hxr by done. apply get_reg_word; [exact Hw2|apply (run_regs _ _ _ (gt_running _ _ _ _ Hg2))|lia].
Qed.
End traps.

(** ** Interleaving with the other harts

    The PLIC as one hart finds it when the others use it too: before its n-th
    access they have made the n-th list of accesses. *)

Record contended (D : Type) := mk_contended { cd_dev : D; cd_others : list (list plic_op) }.
Arguments mk_contended {D}.
Arguments cd_dev {D}.
Arguments cd_others {D}.

Section contended.
Context {D : Type} {P : PlicDevice D}.
Implicit Types (s : contended D).

Definition meanwhile s : D := run_ops (default [] (head (cd_others s))) (cd_dev s).
#[export] Instance contended_plic : PlicDevice (contended D) := {|
  dev_load off s := let '(x, d) := dev_load off (meanwhile s) in (x, mk_contended d (tail (cd_others s)));
  dev_store off x s := mk_contended (dev_store off x (meanwhile s)) (tail (cd_others s));
  dev_amoand off x s := mk_contended (dev_amoand off x (meanwhile s)) (tail (cd_others s));
  dev_amoor off x s := mk_contended (dev_amoor off x (meanwhile s)) (tail (cd_others s))
|}.

(** All accesses in their order. *)
Fixpoint interleave (others : list (list plic_op)) (own : list plic_op) : list plic_op :=
  match own with
  | [] => []
  | o :: own => default [] (head others) ++ o :: interleave (tail others) own
  end.

Lemma contended_step o s : run_op o s = mk_contended (run_op o (meanwhile s)) (tail (cd_others s)).
Proof. destruct o; cbn; [by destruct (dev_load _ _)|done..]. Qed.
Lemma contended_run own s : cd_dev (run_ops own s) = run_ops (interleave (cd_others s) own) (cd_dev s).
Proof.
  revert s. induction own as [|o own IH]; intros s; [done|].
  change (run_ops (o :: own) s) with (run_ops own (run_op o s)). rewrite IH, contended_step. cbn [cd_dev cd_others interleave].
  rewrite run_ops_app. unfold run_ops at 1. by cbn [foldl].
Qed.

(** The machine [w] with another device. *)
Definition with_device {D' : Type} (d : D') (w : world D) : world D' :=
  mk_world (w_mem w) (w_kmem w) (w_cpus w) (w_cpu_mapped w) (w_config w) (w_vcpus w) (w_csr w) d (w_hart w) (w_tp w).
Lemma tables_with_device {L : Linker} {D'} (d : D') (w : world D) v c tabs :
  guest_tables w v c tabs → guest_tables (with_device d w) v c tabs.
Proof. intros [[? ? ? ? ? ?] ? ?]. by split; [split|..]. Qed.

(** C8: every trap a guest can cause is handled, also while the other harts use the
    PLIC: whatever the cause, the faulting address and the instruction bits, and
    whatever accesses of other harts come between the accesses of the handler, the
    handler returns or panics - it never touches unmapped memory and never loops.
    When it returns, memory, the allocator, the configuration, the other harts'
    registers and virtual CPUs are as before, the hart still runs its own virtual
    CPU with the same tables, and what it added to the accesses of the others were
    writes the VM is entitled to and reads that claim nothing of another hart.
    When it panics nothing was changed. *)
Theorem trap_handlers_safe {L : Linker} `{!LinkerOk L} (w : world D) others v c tabs cause :
  guest_tables w v c tabs → words (regs v) →
  let w0 := with_device (mk_contended (w_plic w) others) w in
  match handler cause w0 with
  | Ok _ w' => (∃ v', trap_kept w0 v c w' v' ∧ guest_tables w' v' c tabs) ∧
      ∃ own, cd_dev (w_plic w') = run_ops (interleave others own) (w_plic w) ∧
        Forall (own_access (devices c) (pctx_of w) (last_claimed_irq_id v)) own
  | Panic _ w' => w' = w0
  | _ => False
  end.
Proof.
  intros Hg Hw w0. pose proof (handler_kept w0 v c tabs cause (tables_with_device _ _ _ _ _ Hg) Hw) as H.
  destruct (handler cause w0) as [[] w'| | |]; [|exact H..]. split; [exact H|].
  destruct H as (v' & E & _). destruct (tk_plic _ _ _ _ _ E) as (own & Ed & Ho). exists own.
  split; [by rewrite Ed, contended_run|exact Ho].
Qed.
End contended.

(** An external interrupt of hart 1, while hart 0 claims an interrupt and sets a threshold. *)
Lemma trap_handlers_safe_witness : ∃ (w : world plic_regs) v c,
  let w0 := with_device (mk_contended (w_plic w) [[PLoad (claim_off 1); PStore (threshold_off 1) 3]]) w in
  match handler (2 ^ 63 + INT_SUPERVISOR_EXT) w0 with
  | Ok _ w' => ∃ v', trap_kept w0 v c w' v'
  | Panic _ w' => w' = w0
  | _ => False
  end.
Proof.
  destruct (demo_guest ∅ ∅ 0 (replicate 32 0)) as (w & tabs & Hg & _); [done|done|].
  exists w, (demo_vcpu 0 (replicate 32 0)), demo_vm1.
  assert (Hw : words (replicate 32 0)) by (apply Forall_replicate; lia).
  pose proof (trap_handlers_safe w [[PLoad (claim_off 1); PStore (threshold_off 1) 3]] _ demo_vm1 tabs
    (2 ^ 63 + INT_SUPERVISOR_EXT) Hg Hw) as H.
  cbv zeta in H |- *. destruct (handler _ _) as [[] w'| | |]; [|exact H..]. destruct H as [(v' & E & _) _]. by exists v'.
Defined.
