(* ===== verification/Uart.v ===== *)
(** * Uart: the serial driver of driver/uart.c

    The UART is hardware: [UartDevice] is its register interface (byte accesses by
    offset from [DTB_SERIAL]), the states [U] are a parameter, and [UartLaws] is
    what the ns16550a documentation says of the registers the driver uses.  The
    driver, and printf above it, run on a [console]: the device, the two locks
    and the memory the C strings are read from. *)

From S2P Require Import Prelude Layout.

(** ** Registers *)

Definition RBR := 0.
Definition THR := 0.
Definition DLL := 0.
Definition DLL_38400 := 0x03.
Definition IER := 1.
Definition IER_RECEIVED_DATA_AVAILABLE := 1 .<< 0.
Definition IER_THR_EMPTY := 1 .<< 1.
Definition IER_RECEIVER_LSR_CHANGE := 1 .<< 2.
Definition IER_MSR_CHANGE := 1 .<< 3.
Definition DLM := 1.
Definition DLM_38400 := 0x00.
Definition IIR := 2.
Definition FCR := 2.
Definition FCR_ENABLE_FIFO := 1 .<< 0.
Definition FCR_CLEAR_RECEIVE_FIFO := 1 .<< 1.
Definition FCR_CLEAR_TRANSMIT_FIFO := 1 .<< 2.
Definition LCR := 3.
Definition LCR_DLAB := 1 .<< 7.
Definition LCR_EIGHT_BITS := 3 .<< 0.
Definition MCR := 4.
Definition MCR_DATA_TERMINAL_READY := 1 .<< 0.
Definition MCR_RTS := 1 .<< 1.
Definition MCR_AUX1 := 1 .<< 2.
Definition MCR_AUX2 := 1 .<< 3.
Definition MCR_LOOPBACK_MODE := 1 .<< 4.
Definition LSR := 5.
Definition LSR_DATA_AVAILABLE := 1 .<< 0.
Definition LSR_OVERRUN_ERROR := 1 .<< 1.
Definition LSR_PARITY_ERROR := 1 .<< 2.
Definition LSR_FRAMING_ERROR := 1 .<< 3.
Definition LSR_BREAK_SIGNAL_RECVD := 1 .<< 4.
Definition LSR_THR_EMPTY := 1 .<< 5.
Definition LSR_THR_EMPTY_AND_LINE_IDLE := 1 .<< 6.
Definition LSR_ERRORNOUS_DATA_IN_FIFO := 1 .<< 7.
Definition MSR := 6.
Definition MSR_CHANGE_IN_CTS := 1 .<< 0.
Definition MSR_CHANGE_IN_DATA_SET_READY := 1 .<< 1.
Definition MSR_TRAILING_EDGE_RING_INDICATOR := 1 .<< 2.
Definition MSR_CHANGE_IN_CARRIER_DETECT := 1 .<< 3.
Definition MSR_CTS := 1 .<< 4.
Definition MSR_DATA_SET_READY := 1 .<< 5.
Definition MSR_RING_INDICATOR := 1 .<< 6.
Definition MSR_CARRIER_DETECT := 1 .<< 7.
Definition SCR := 7.

Class UartDevice (U : Type) := {
  uart_read : Z → U → Z * U;
  uart_write : Z → Z → U → U
}.

(** ** What the data sheet says

    [uart_view] is what the registers hold and which bytes the transmitter has
    accepted.  While bit 7 of the LCR (DLAB) is set, offsets 0 and 1 are the
    divisor latch. *)
Record uart_view := mk_view {
  v_ier : Z; v_fcr : Z; v_lcr : Z; v_mcr : Z; v_dll : Z; v_dlm : Z;
  v_sent : list Z
}.

Definition dlab (x : uart_view) : bool := Z.testbit (v_lcr x) 7.

Definition view_write (r v : Z) (x : uart_view) : uart_view :=
  let 'mk_view ier fcr lcr mcr dll dlm sent := x in
  if r =? 0 then
    if dlab x then mk_view ier fcr lcr mcr v dlm sent
    else mk_view ier fcr lcr mcr dll dlm (sent ++ [v])
  else if r =? 1 then
    if dlab x then mk_view ier fcr lcr mcr dll v sent
    else mk_view v fcr lcr mcr dll dlm sent
  else if r =? 2 then mk_view ier v lcr mcr dll dlm sent
  else if r =? 3 then mk_view ier fcr v mcr dll dlm sent
  else if r =? 4 then mk_view ier fcr lcr v dll dlm sent
  else x.

(** A byte written to the THR is accepted when the THR is empty; every poll of
    the LSR either shows it empty or is one of the finitely many ([uart_busy])
    that the transmission in progress takes. *)
Class UartLaws (U : Type) {UD : UartDevice U} := {
  view : U → uart_view;
  thr_empty : U → Prop;
  uart_busy : U → nat;
  uart_write_view r v u : (r = THR → dlab (view u) = false → thr_empty u) →
    view (uart_write r v u) = view_write r v (view u);
  uart_lsr_view u : view (uart_read LSR u).2 = view u;
  uart_lsr_empty u : truthy ((uart_read LSR u).1 .& LSR_THR_EMPTY) = true →
    thr_empty (uart_read LSR u).2;
  uart_lsr_busy u : truthy ((uart_read LSR u).1 .& LSR_THR_EMPTY) = false →
    (uart_busy (uart_read LSR u).2 < uart_busy u)%nat
}.

(** ** The console *)

Record console (U : Type) := mk_console {
  c_uart : U;
  uart_lk : Z;
  printf_lk : Z;
  c_mem : gmap Z Z
}.
Arguments mk_console {U}. Arguments c_uart {U}. Arguments uart_lk {U}.
Arguments printf_lk {U}. Arguments c_mem {U}.

Section driver.
Context {U : Type} {UD : UartDevice U}.
Implicit Type s : console U.
#[local] Abbreviation C := (cmd (console U)).

Definition set_uart (u : U) s : console U := mk_console u (uart_lk s) (printf_lk s) (c_mem s).
Definition set_uart_lk (x : Z) s : console U := mk_console (c_uart s) x (printf_lk s) (c_mem s).
Definition set_printf_lk (x : Z) s : console U := mk_console (c_uart s) (uart_lk s) x (c_mem s).

Definition R_REG (reg : Z) : C Z := λ s,
  let '(v, u) := uart_read reg (c_uart s) in Ok v (set_uart u s).
Definition W_REG (reg val : Z) : C unit :=
  modify (λ s, set_uart (uart_write reg (u8 val) (c_uart s)) s).

(** A lock that is held is never released while this hart alone runs. *)
Definition acquire_uart : C unit := λ s, if uart_lk s =? 0 then Ok tt (set_uart_lk 1 s) else Hang s.
Definition release_uart : C unit := modify (set_uart_lk 0).

(** [while ((R_REG(LSR) & LSR_THR_EMPTY) == 0);], at most [fuel] turns. *)
Fixpoint wait_thr (fuel : nat) : C unit :=
  match fuel with
  | O => hang
  | S fuel' => v ← R_REG LSR; if v .& LSR_THR_EMPTY =? 0 then wait_thr fuel' else mret tt
  end.

Context {UL : UartLaws U}.

Definition uartputc (c : Z) : C unit :=
  acquire_uart ;;
  u ← gets c_uart;
  wait_thr (S (uart_busy u)) ;;
  W_REG THR c ;;
  release_uart.

Definition init_uart : C unit :=
  W_REG IER 0 ;;
  W_REG LCR LCR_DLAB ;;
  W_REG DLL DLL_38400 ;;
  W_REG DLM DLM_38400 ;;
  W_REG LCR LCR_EIGHT_BITS ;;
  W_REG FCR (FCR_ENABLE_FIFO .| FCR_CLEAR_RECEIVE_FIFO .| FCR_CLEAR_TRANSMIT_FIFO) ;;
  W_REG MCR 0 ;;
  W_REG IER IER_RECEIVED_DATA_AVAILABLE.

(** ** Lemmas *)

Definition sent s : list Z := v_sent (view (c_uart s)).

(** The registers but the transmitted bytes, the lock of printf and the memory
    are those of [s]; the UART's lock is free. *)
Definition quiet s : Prop := uart_lk s = 0 ∧ dlab (view (c_uart s)) = false.
Definition same_rest s s' : Prop := printf_lk s' = printf_lk s ∧ c_mem s' = c_mem s.

Lemma wait_thr_ok fuel s : (uart_busy (c_uart s) < fuel)%nat →
  ∃ u, wait_thr fuel s = Ok tt (set_uart u s) ∧ thr_empty u ∧ view u = view (c_uart s).
Proof.
  revert s. induction fuel as [|fuel IH]; intros s Hf; [lia|]. cbn [wait_thr].
  pose proof (uart_lsr_view (c_uart s)) as Hv. pose proof (uart_lsr_empty (c_uart s)) as He.
  pose proof (uart_lsr_busy (c_uart s)) as Hb. unfold truthy in *.
  unfold R_REG. unfold mbind, cmd_bind.
  destruct (uart_read LSR (c_uart s)) as [v u]; simpl in *.
  destruct (v .& LSR_THR_EMPTY =? 0); simpl in *.
  - destruct (IH (set_uart u s)) as (u' & -> & Ht & Hv').
    { specialize (Hb eq_refl). simpl. lia. }
    exists u'. split_and!; [done|done|]. simpl in *. congruence.
  - exists u. auto.
Qed.

(** Sending a byte: it is appended to what the transmitter accepted. *)
Lemma uartputc_ok c s : 0 <= c < 256 → quiet s →
  ∃ s', uartputc c s = Ok tt s' ∧ quiet s' ∧ same_rest s s' ∧ sent s' = sent s ++ [c].
Proof.
  intros Hc [Hl Hd]. unfold uartputc.
  rewrite (bind_ok _ _ _ tt (set_uart_lk 1 s)) by (unfold acquire_uart; by rewrite Hl).
  csimp. destruct (wait_thr_ok (S (uart_busy (c_uart s))) (set_uart_lk 1 s)) as (u & Hw & Ht & Hv).
  { simpl. lia. }
  rewrite (bind_ok _ _ _ _ _ Hw). unfold W_REG, release_uart. csimp.
  eexists. split; [reflexivity|]. unfold quiet, same_rest, sent. simpl.
  rewrite u8_id by lia. simpl in Hv.
  assert (view (uart_write THR c u) = view_write THR c (view u)) as ->
    by (apply uart_write_view; auto).
  rewrite Hv. destruct (view (c_uart s)) eqn:E. unfold view_write, THR.
  simpl Z.eqb. cbn iota. rewrite Hd. unfold dlab in *. simpl in *. auto.
Qed.

(** Init_uart sends nothing, whatever the line control register held
    before: it leaves divisor 3 (115200 / 3 = 38400 baud), 8 data bits with the
    divisor latch closed, the FIFOs enabled and reset, no modem control, and only
    the received-data interrupt enabled; the transmitter is ready to be used. *)
Theorem init_uart_configures s :
  ∃ u, init_uart s = Ok tt (set_uart u s) ∧ view u = mk_view 1 7 3 0 3 0 (sent s).
Proof.
  unfold init_uart, W_REG. csimp. eexists. split; [by destruct s|]. simpl.
  assert (∀ r v u, r ≠ THR → view (uart_write r v u) = view_write r v (view u)) as Hw
    by (intros; by apply uart_write_view).
  assert (∃ ier dlm, view_write IER (u8 0) (view (c_uart s)) =
    mk_view ier (v_fcr (view (c_uart s))) (v_lcr (view (c_uart s))) (v_mcr (view (c_uart s)))
      (v_dll (view (c_uart s))) dlm (sent s)) as (ier & dlm & E).
  { unfold sent. destruct (view (c_uart s)). unfold view_write. cbn [Z.eqb IER].
    destruct (dlab _); eauto. }
  do 5 rewrite Hw by done. rewrite uart_write_view by (rewrite !Hw, E by done; done).
  by rewrite !Hw, E by done.
Qed.
End driver.

(** ** A UART that needs two polls per byte, loses a byte sent too early, and has
    received an A *)

Record sim_uart := mk_sim { sim_view : uart_view; sim_busy : nat }.
#[export] Instance sim_device : UartDevice sim_uart := {
  uart_read r u :=
    if r =? LSR then
      match sim_busy u with
      | O => (LSR_THR_EMPTY, u)
      | S n => (0, mk_sim (sim_view u) n)
      end
    else (if r =? 0 then 0x41 else 0, u);
  uart_write r v u :=
    if (r =? THR) && negb (dlab (sim_view u)) then
      if (sim_busy u =? 0)%nat then mk_sim (view_write r v (sim_view u)) 2 else u
    else mk_sim (view_write r v (sim_view u)) (sim_busy u)
}.
#[export] Program Instance sim_laws : UartLaws sim_uart := {
  view := sim_view;
  thr_empty u := sim_busy u = 0%nat;
  uart_busy := sim_busy
}.
Next Obligation.
  intros r v u H. simpl. destruct (Z.eqb_spec r THR); simpl; [|done].
  destruct (dlab (sim_view u)); simpl; [done|]. by rewrite H.
Qed.
Next Obligation. intros u. simpl. by destruct (sim_busy u). Qed.
Next Obligation. intros u. simpl. by destruct (sim_busy u) eqn:E. Qed.
Next Obligation. intros u. simpl. destruct (sim_busy u) eqn:E; simpl; [done|lia]. Qed.

Lemma init_uart_configures_witness :
  ∃ u, init_uart (mk_console (mk_sim (mk_view 9 9 0xff 9 9 9 [65]) 1) 0 0 ∅) =
         Ok tt (mk_console u 0 0 ∅) ∧ view u = mk_view 1 7 3 0 3 0 [65].
Proof.
  destruct (init_uart_configures (mk_console (mk_sim (mk_view 9 9 0xff 9 9 9 [65]) 1) 0 0 ∅))
    as (u & E & Hv).
  exists u. split; [exact E|exact Hv].
Defined.
