(* ===== verification/RegFields.v ===== *)
(** * RegFields: the fields of the control and device registers

    include/riscv.h defines a mask for every field of the registers the hypervisor
    touches, driver/uart.c for those of the serial port.  Here are the masks the
    other files have no use for, the positions of all of them from the privileged
    specification and the data sheet of the ns16550a, and the theorem that a field
    is set, cleared and read by its mask without touching another one. *)

From S2P Require Import Prelude Layout Bits Uart.

(** ** Masks: include/riscv.h *)

(** Nominal privilege level *)
Definition M_MODE : Z := 3.
Definition S_MODE : Z := 1.
Definition U_MODE : Z := 0.
Definition XLEN_64 : Z := 2.

(** All mode common register fields *)
Definition STATUS_SIE : Z := 1 .<< 1.
Definition STATUS_MIE : Z := 1 .<< 3.
Definition STATUS_SPIE : Z := 1 .<< 5.
Definition STATUS_UBE : Z := 1 .<< 6.
Definition STATUS_MPIE : Z := 1 .<< 7.
Definition STATUS_SPP : Z := 1 .<< 8.
Definition STATUS_VS : Z := 3 .<< 9.
Definition STATUS_MPP : Z := 3 .<< 11.
Definition STATUS_MPP_M : Z := M_MODE .<< 11.
Definition STATUS_MPP_S : Z := S_MODE .<< 11.
Definition STATUS_MPP_U : Z := U_MODE .<< 11.
Definition STATUS_FS : Z := 3 .<< 13.
Definition STATUS_XS : Z := 3 .<< 15.
Definition STATUS_MPRV : Z := 1 .<< 17.
Definition STATUS_SUM : Z := 1 .<< 18.
Definition STATUS_MXR : Z := 1 .<< 19.
Definition STATUS_TVM : Z := 1 .<< 20.
Definition STATUS_TW : Z := 1 .<< 21.
Definition STATUS_TSR : Z := 1 .<< 22.
Definition STATUS_UXL : Z := 3 .<< 32.
Definition STATUS_UXL_64 : Z := XLEN_64 .<< 32.
Definition STATUS_SXL : Z := 3 .<< 34.
Definition STATUS_SXL_64 : Z := XLEN_64 .<< 34.
Definition STATUS_SBE : Z := 1 .<< 36.
Definition STATUS_MBE : Z := 1 .<< 37.
Definition STATUS_GVA : Z := 1 .<< 38.
Definition STATUS_SD : Z := 1 .<< 63.
Definition TVEC_MODE_VECTORED : Z := 1.
Definition INT_SUPERVISOR_SW : Z := 1.
Definition INT_VIRTUAL_SUPERVISOR_SW : Z := 2.
Definition INT_MACHINE_SW : Z := 3.
Definition INT_MACHINE_TIM : Z := 7.
Definition INT_MACHINE_EXT : Z := 11.
Definition INT_SUPERVISOR_GUEST_EXT : Z := 12.
Definition INT_SSI : Z := 1 .<< INT_SUPERVISOR_SW.
Definition INT_VSSI : Z := 1 .<< INT_VIRTUAL_SUPERVISOR_SW.
Definition INT_MSI : Z := 1 .<< INT_MACHINE_SW.
Definition INT_MTI : Z := 1 .<< INT_MACHINE_TIM.
Definition INT_MEI : Z := 1 .<< INT_MACHINE_EXT.
Definition INT_SGEI : Z := 1 .<< INT_SUPERVISOR_GUEST_EXT.
Definition COUNT_CY : Z := 1 .<< 0.
Definition COUNT_TM : Z := 1 .<< 1.
Definition COUNT_IR : Z := 1 .<< 2.
Definition COUNT_HPM (n : Z) : Z := 1 .<< n.
Definition EXC_ECALL_FROM_HS : Z := 9.
Definition EXC_ECALL_FROM_M : Z := 11.
Definition EXC_INSTRUCTION_GUEST_PAGE_FAULT : Z := 20.
Definition EXC_VIRTUAL_INSTRUCTION : Z := 22.
Definition ENVCFG_FIOM : Z := 1 .<< 0.
Definition ATP_PPN : Z := 0xfffffffffff.
Definition ATP_ASID : Z := 0xffff .<< 44.
Definition ATP_ASID_N (n : Z) : Z := n .<< 44.
Definition ATP_MODE : Z := 15 .<< 60.
Definition ATP_MODE_BARE : Z := 0 .<< 60.
Definition MISA_EXT_A : Z := 1 .<< 0.
Definition MISA_EXT_C : Z := 1 .<< 2.
Definition MISA_EXT_D : Z := 1 .<< 3.
Definition MISA_EXT_F : Z := 1 .<< 5.
Definition MISA_EXT_H : Z := 1 .<< 7.
Definition MISA_EXT_I : Z := 1 .<< 8.
Definition MISA_EXT_M : Z := 1 .<< 12.
Definition MISA_EXT_S : Z := 1 .<< 18.
Definition MISA_EXT_U : Z := 1 .<< 20.

(** Supervisor Status Register *)
Definition SSTATUS_SIE : Z := STATUS_SIE.
Definition SSTATUS_SPIE : Z := STATUS_SPIE.
Definition SSTATUS_UBE : Z := STATUS_UBE.
Definition SSTATUS_VS : Z := STATUS_VS.
Definition SSTATUS_FS : Z := STATUS_FS.
Definition SSTATUS_XS : Z := STATUS_XS.
Definition SSTATUS_SUM : Z := STATUS_SUM.
Definition SSTATUS_MXR : Z := STATUS_MXR.
Definition SSTATUS_UXL : Z := STATUS_UXL.
Definition SSTATUS_SD : Z := STATUS_SD.

(** Supervisor Interrupt Pending Register *)
Definition SIP_SSIP : Z := INT_SSI.
Definition SIP_STIP : Z := INT_STI.
Definition SIP_SEIP : Z := INT_SEI.

(** Supervisor Interrupt Enable Register *)
Definition SIE_SSIE : Z := INT_SSI.

(** Supervisor Counter-Enable Register *)
Definition SCOUNTEREN_CY : Z := COUNT_CY.
Definition SCOUNTEREN_TM : Z := COUNT_TM.
Definition SCOUNTEREN_IR : Z := COUNT_IR.
Definition SCOUNTEREN_HPM (n : Z) : Z := COUNT_HPM n.

(** Supervisor Environment Configuration Register *)
Definition SENVCFG_FIOM : Z := ENVCFG_FIOM.

(** Hypervisor Status Register *)
Definition HSTATUS_VSBE : Z := 1 .<< 5.
Definition HSTATUS_GVA : Z := STATUS_GVA.
Definition HSTATUS_SPVP : Z := 1 .<< 8.
Definition HSTATUS_HU : Z := 1 .<< 9.
Definition HSTATUS_VGEIN : Z := 0x3f .<< 12.
Definition HSTATUS_VTVM : Z := 1 .<< 20.
Definition HSTATUS_VTW : Z := 1 .<< 21.
Definition HSTATUS_VTSR : Z := 1 .<< 22.
Definition HSTATUS_VSXL : Z := 3 .<< 32.

(** Hypervisor Exception Delegation Register *)
Definition HEDELEG_INSTRUCTION_ADDR_MISALIGNED : Z := 1 .<< EXC_INSTRUCTION_ADDR_MISALIGNED.
Definition HEDELEG_INSTRUCTION_ACCESS_FAULT : Z := 1 .<< EXC_INSTRUCTION_ACCESS_FAULT.
Definition HEDELEG_ILLEGAL_INSTRUCTION : Z := 1 .<< EXC_ILLEGAL_INSTRUCTION.
Definition HEDELEG_BREAKPOINT : Z := 1 .<< EXC_BREAKPOINT.
Definition HEDELEG_LOAD_ADDR_MISALIGNED : Z := 1 .<< EXC_LOAD_ADDR_MISALIGNED.
Definition HEDELEG_LOAD_ACCESS_FAULT : Z := 1 .<< EXC_LOAD_ACCESS_FAULT.
Definition HEDELEG_STORE_OR_AMO_ADDRESS_MISALIGNED : Z := 1 .<< EXC_STORE_OR_AMO_ADDRESS_MISALIGNED.
Definition HEDELEG_STORE_OR_AMO_ACCESS_FAULT : Z := 1 .<< EXC_STORE_OR_AMO_ACCESS_FAULT.
Definition HEDELEG_ECALL_FROM_U : Z := 1 .<< EXC_ECALL_FROM_U.
Definition HEDELEG_INSTRUCTION_PAGE_FAULT : Z := 1 .<< EXC_INSTRUCTION_PAGE_FAULT.
Definition HEDELEG_LOAD_PAGE_FAULT : Z := 1 .<< EXC_LOAD_PAGE_FAULT.
Definition HEDELEG_STORE_OR_AMO_PAGE_FAULT : Z := 1 .<< EXC_STORE_OR_AMO_PAGE_FAULT.

(** Hypervisor Interrupt Delegation Register *)
Definition HIDELEG_VSSI : Z := INT_VSSI.

(** Hypervisor Virtual Interrupt Pending Register *)
Definition HVIP_VSSIP : Z := INT_VSSI.
Definition HVIP_VSTIP : Z := INT_VSTI.

(** Hypervisor Interrupt Pending Register *)
Definition HIP_VSSIP : Z := INT_VSSI.
Definition HIP_VSTIP : Z := INT_VSTI.
Definition HIP_VSEIP : Z := INT_VSEI.
Definition HIP_SGEIP : Z := INT_SGEI.

(** Hypervisor Interrupt Enable Register *)
Definition HIE_VSSIE : Z := INT_VSSI.
Definition HIE_VSTIE : Z := INT_VSTI.
Definition HIE_VSEIE : Z := INT_VSEI.
Definition HIE_SGEIE : Z := INT_SGEI.

(** Hypervisor Environment Configuration Register *)
Definition HENVCFG_FIOM : Z := ENVCFG_FIOM.
Definition HENVCFG_PBMTE : Z := 1 .<< 62.

(** Hypervisor Counter-Enable Register *)
Definition HCOUNTEREN_CY : Z := COUNT_CY.
Definition HCOUNTEREN_IR : Z := COUNT_IR.
Definition HCOUNTEREN_HPM (n : Z) : Z := COUNT_HPM n.

(** Hypervisor Trap Instruction Register *)
Definition HTINST_READ : Z := 0x3000.
Definition HTINST_WRITE : Z := 0x3020.

(** Hypervisor Guest Address Translation and Protection Register *)
Definition HGATP_PPN : Z := ATP_PPN.
Definition HGATP_VMID : Z := 0x3fff .<< 44.
Definition HGATP_VMID_N (n : Z) : Z := n .<< 44.
Definition HGATP_MODE : Z := ATP_MODE.

(** Virtual Supervisor Status Register *)
Definition VSSTATUS_SIE : Z := STATUS_SIE.
Definition VSSTATUS_SPIE : Z := STATUS_SPIE.
Definition VSSTATUS_UBE : Z := STATUS_UBE.
Definition VSSTATUS_SPP : Z := STATUS_SPP.
Definition VSSTATUS_VS : Z := STATUS_VS.
Definition VSSTATUS_FS : Z := STATUS_FS.
Definition VSSTATUS_XS : Z := STATUS_XS.
Definition VSSTATUS_SUM : Z := STATUS_SUM.
Definition VSSTATUS_MXR : Z := STATUS_MXR.
Definition VSSTATUS_UXL : Z := STATUS_UXL.
Definition VSSTATUS_SD : Z := STATUS_SD.

(** Virtual Supervisor Interrupt Pending Register *)
Definition VSIP_SSIP : Z := INT_SSI.
Definition VSIP_STIP : Z := INT_STI.
Definition VSIP_SEIP : Z := INT_SEI.

(** Virtual Supervisor Interrupt Enable Register *)
Definition VSIE_SSIE : Z := INT_SSI.
Definition VSIE_STIE : Z := INT_STI.
Definition VSIE_SEIE : Z := INT_SEI.

(** ** Positions: the privileged specification *)

(** A mask of the code with the lowest bit and the width of the field. *)
Record field := mk_field { f_mask : Z; f_off : Z; f_width : Z }.

#[export] Instance field_eq_dec : EqDecision field.
Proof. solve_decision. Defined.

Definition csr_layout : list (string * list field) := [
  ("mstatus",
    [
      mk_field STATUS_SIE 1 1; mk_field STATUS_MIE 3 1; mk_field STATUS_SPIE 5 1; mk_field STATUS_UBE 6 1;
      mk_field STATUS_MPIE 7 1; mk_field STATUS_SPP 8 1; mk_field STATUS_VS 9 2; mk_field STATUS_MPP 11 2;
      mk_field STATUS_FS 13 2; mk_field STATUS_XS 15 2; mk_field STATUS_MPRV 17 1; mk_field STATUS_SUM 18 1;
      mk_field STATUS_MXR 19 1; mk_field STATUS_TVM 20 1; mk_field STATUS_TW 21 1; mk_field STATUS_TSR 22 1;
      mk_field STATUS_UXL 32 2; mk_field STATUS_SXL 34 2; mk_field STATUS_SBE 36 1; mk_field STATUS_MBE 37 1;
      mk_field STATUS_GVA 38 1; mk_field STATUS_SD 63 1 ]);
  ("sstatus",
    [
      mk_field SSTATUS_SIE 1 1; mk_field SSTATUS_SPIE 5 1; mk_field SSTATUS_UBE 6 1;
      mk_field SSTATUS_SPP 8 1; mk_field SSTATUS_VS 9 2; mk_field SSTATUS_FS 13 2; mk_field SSTATUS_XS 15 2;
      mk_field SSTATUS_SUM 18 1; mk_field SSTATUS_MXR 19 1; mk_field SSTATUS_UXL 32 2;
      mk_field SSTATUS_SD 63 1 ]);
  ("vsstatus",
    [
      mk_field VSSTATUS_SIE 1 1; mk_field VSSTATUS_SPIE 5 1; mk_field VSSTATUS_UBE 6 1;
      mk_field VSSTATUS_SPP 8 1; mk_field VSSTATUS_VS 9 2; mk_field VSSTATUS_FS 13 2;
      mk_field VSSTATUS_XS 15 2; mk_field VSSTATUS_SUM 18 1; mk_field VSSTATUS_MXR 19 1;
      mk_field VSSTATUS_UXL 32 2; mk_field VSSTATUS_SD 63 1 ]);
  ("sip",
    [
      mk_field SIP_SSIP 1 1; mk_field SIP_STIP 5 1; mk_field SIP_SEIP 9 1 ]);
  ("sie",
    [
      mk_field SIE_SSIE 1 1; mk_field SIE_STIE 5 1; mk_field SIE_SEIE 9 1 ]);
  ("vsip",
    [
      mk_field VSIP_SSIP 1 1; mk_field VSIP_STIP 5 1; mk_field VSIP_SEIP 9 1 ]);
  ("vsie",
    [
      mk_field VSIE_SSIE 1 1; mk_field VSIE_STIE 5 1; mk_field VSIE_SEIE 9 1 ]);
  ("mip",
    [
      mk_field INT_SSI 1 1; mk_field INT_VSSI 2 1; mk_field INT_MSI 3 1; mk_field INT_STI 5 1;
      mk_field INT_VSTI 6 1; mk_field INT_MTI 7 1; mk_field INT_SEI 9 1; mk_field INT_VSEI 10 1;
      mk_field INT_MEI 11 1; mk_field INT_SGEI 12 1 ]);
  ("hip",
    [
      mk_field HIP_VSSIP 2 1; mk_field HIP_VSTIP 6 1; mk_field HIP_VSEIP 10 1; mk_field HIP_SGEIP 12 1 ]);
  ("hie",
    [
      mk_field HIE_VSSIE 2 1; mk_field HIE_VSTIE 6 1; mk_field HIE_VSEIE 10 1; mk_field HIE_SGEIE 12 1 ]);
  ("hvip",
    [
      mk_field HVIP_VSSIP 2 1; mk_field HVIP_VSTIP 6 1; mk_field HVIP_VSEIP 10 1 ]);
  ("hideleg",
    [
      mk_field HIDELEG_VSSI 2 1; mk_field HIDELEG_VSTI 6 1; mk_field HIDELEG_VSEI 10 1 ]);
  ("hedeleg",
    [
      mk_field HEDELEG_INSTRUCTION_ADDR_MISALIGNED 0 1; mk_field HEDELEG_INSTRUCTION_ACCESS_FAULT 1 1;
      mk_field HEDELEG_ILLEGAL_INSTRUCTION 2 1; mk_field HEDELEG_BREAKPOINT 3 1;
      mk_field HEDELEG_LOAD_ADDR_MISALIGNED 4 1; mk_field HEDELEG_LOAD_ACCESS_FAULT 5 1;
      mk_field HEDELEG_STORE_OR_AMO_ADDRESS_MISALIGNED 6 1; mk_field HEDELEG_STORE_OR_AMO_ACCESS_FAULT 7 1;
      mk_field HEDELEG_ECALL_FROM_U 8 1; mk_field HEDELEG_INSTRUCTION_PAGE_FAULT 12 1;
      mk_field HEDELEG_LOAD_PAGE_FAULT 13 1; mk_field HEDELEG_STORE_OR_AMO_PAGE_FAULT 15 1 ]);
  ("hstatus",
    [
      mk_field HSTATUS_VSBE 5 1; mk_field HSTATUS_SPV 7 1; mk_field HSTATUS_SPVP 8 1;
      mk_field HSTATUS_HU 9 1; mk_field HSTATUS_VGEIN 12 6; mk_field HSTATUS_VTVM 20 1;
      mk_field HSTATUS_VTW 21 1; mk_field HSTATUS_VTSR 22 1; mk_field HSTATUS_VSXL 32 2 ]);
  ("senvcfg",
    [
      mk_field SENVCFG_FIOM 0 1 ]);
  ("henvcfg",
    [
      mk_field HENVCFG_FIOM 0 1; mk_field HENVCFG_ADUE 61 1; mk_field HENVCFG_PBMTE 62 1;
      mk_field HENVCFG_SSTC 63 1 ]);
  ("satp",
    [
      mk_field ATP_PPN 0 44; mk_field ATP_ASID 44 16; mk_field ATP_MODE 60 4 ]);
  ("hgatp",
    [
      mk_field HGATP_PPN 0 44; mk_field HGATP_VMID 44 14; mk_field HGATP_MODE 60 4 ]);
  ("misa",
    [
      mk_field MISA_EXT_A 0 1; mk_field MISA_EXT_C 2 1; mk_field MISA_EXT_D 3 1; mk_field MISA_EXT_F 5 1;
      mk_field MISA_EXT_H 7 1; mk_field MISA_EXT_I 8 1; mk_field MISA_EXT_M 12 1; mk_field MISA_EXT_S 18 1;
      mk_field MISA_EXT_U 20 1 ])
]%string.

(** The counter enables: bit [n] of scounteren and hcounteren is counter [n]. *)
Definition counteren_layout (cy tm ir : Z) (hpm : Z → Z) : list field :=
  [mk_field cy 0 1; mk_field tm 1 1; mk_field ir 2 1] ++ ((λ n, mk_field (hpm n) n 1) <$> seqZ 3 29).

(** The data sheet of the ns16550a. *)
Definition uart_layout : list (string * list field) := [
  ("IER",
    [
      mk_field IER_RECEIVED_DATA_AVAILABLE 0 1; mk_field IER_THR_EMPTY 1 1;
      mk_field IER_RECEIVER_LSR_CHANGE 2 1; mk_field IER_MSR_CHANGE 3 1 ]);
  ("FCR",
    [
      mk_field FCR_ENABLE_FIFO 0 1; mk_field FCR_CLEAR_RECEIVE_FIFO 1 1; mk_field FCR_CLEAR_TRANSMIT_FIFO 2 1 ]);
  ("LCR",
    [
      mk_field LCR_EIGHT_BITS 0 2; mk_field LCR_DLAB 7 1 ]);
  ("MCR",
    [
      mk_field MCR_DATA_TERMINAL_READY 0 1; mk_field MCR_RTS 1 1; mk_field MCR_AUX1 2 1;
      mk_field MCR_AUX2 3 1; mk_field MCR_LOOPBACK_MODE 4 1 ]);
  ("LSR",
    [
      mk_field LSR_DATA_AVAILABLE 0 1; mk_field LSR_OVERRUN_ERROR 1 1; mk_field LSR_PARITY_ERROR 2 1;
      mk_field LSR_FRAMING_ERROR 3 1; mk_field LSR_BREAK_SIGNAL_RECVD 4 1; mk_field LSR_THR_EMPTY 5 1;
      mk_field LSR_THR_EMPTY_AND_LINE_IDLE 6 1; mk_field LSR_ERRORNOUS_DATA_IN_FIFO 7 1 ]);
  ("MSR",
    [
      mk_field MSR_CHANGE_IN_CTS 0 1; mk_field MSR_CHANGE_IN_DATA_SET_READY 1 1;
      mk_field MSR_TRAILING_EDGE_RING_INDICATOR 2 1; mk_field MSR_CHANGE_IN_CARRIER_DETECT 3 1;
      mk_field MSR_CTS 4 1; mk_field MSR_DATA_SET_READY 5 1; mk_field MSR_RING_INDICATOR 6 1;
      mk_field MSR_CARRIER_DETECT 7 1 ])
]%string.

(** All of them, with one exception: the list of hstatus has no GVA, since HSTATUS_GVA is
    not the mask of that field ([hstatus_gva_misplaced]). *)
Definition all_layouts : list (list field) :=
  csr_layout.*2 ++ uart_layout.*2 ++
  [counteren_layout SCOUNTEREN_CY SCOUNTEREN_TM SCOUNTEREN_IR SCOUNTEREN_HPM;
   counteren_layout HCOUNTEREN_CY HCOUNTEREN_TM HCOUNTEREN_IR HCOUNTEREN_HPM].

(** ** Theorems *)

Definition field_ok (f : field) : bool :=
  (0 <=? f_off f) && (1 <=? f_width f) && (f_off f + f_width f <=? 64) && (f_width f <=? 63) &&
  (f_mask f =? Z.ones (f_width f) .<< f_off f).
Definition apart (f g : field) : bool :=
  (f_off f + f_width f <=? f_off g) || (f_off g + f_width g <=? f_off f).
Fixpoint layout_ok (fs : list field) : bool :=
  match fs with [] => true | f :: fs' => field_ok f && forallb (apart f) fs' && layout_ok fs' end.

Lemma all_layouts_ok : forallb layout_ok all_layouts = true.
Proof. vm_compute. reflexivity. Qed.

Lemma apart_sym f g : apart f g = apart g f.
Proof. unfold apart. apply orb_comm. Qed.

Lemma layout_ok_spec fs : layout_ok fs = true →
  (∀ f, f ∈ fs → field_ok f = true) ∧ (∀ f g, f ∈ fs → g ∈ fs → f ≠ g → apart f g = true).
Proof.
  induction fs as [|f fs IH]; cbn [layout_ok]; [intros _; split; intros; by rewrite elem_of_nil in *|].
  intros [[Hf Ha]%andb_true_iff Hl]%andb_true_iff. destruct (IH Hl) as [H1 H2]. rewrite forallb_forall in Ha.
  split.
  - intros g [->|Hg]%elem_of_cons; [done|by apply H1].
  - intros g h [->|Hg]%elem_of_cons [->|Hh]%elem_of_cons Hne; [done| | |by apply H2].
    + apply Ha. by apply list_elem_of_In.
    + rewrite apart_sym. apply Ha. by apply list_elem_of_In.
Qed.

(** Bit [i] of a mask. *)
Lemma mask_bit f i : field_ok f = true → 0 <= i →
  Z.testbit (f_mask f) i = (f_off f <=? i) && (i <? f_off f + f_width f).
Proof.
  unfold field_ok. intros H Hi. b2p. rewrite H0. rewrite Z.shiftl_spec by done.
  destruct (Z.leb_spec (f_off f) i); cbn [andb].
  - rewrite Z.testbit_ones by lia. destruct (Z.ltb_spec i (f_off f + f_width f)); lia.
  - apply Z.testbit_neg_r. lia.
Qed.

(** A field whose bits are those of another value has its value. *)
Lemma field_ext f x y : field_ok f = true →
  (∀ i, f_off f <= i < f_off f + f_width f → Z.testbit x i = Z.testbit y i) →
  get_value x (f_off f) (f_width f) = get_value y (f_off f) (f_width f).
Proof.
  intros Hf H. unfold field_ok in Hf. b2p. rewrite !get_value_spec by lia.
  apply Z.bits_inj'. intros i Hi. destruct (Z.ltb_spec i (f_width f)).
  - rewrite !Z.mod_pow2_bits_low, <- !Z.shiftr_div_pow2, !Z.shiftr_spec by lia. apply H. lia.
  - by rewrite !Z.mod_pow2_bits_high by lia.
Qed.

(** The masks of include/riscv.h (HSTATUS_GVA excepted, see below) and driver/uart.c
    are the fields of the privileged specification and of the data sheet: setting the mask of a field
    fills it with ones, clearing it with zeros, and neither changes what get_value
    reads from any other field of the register. *)
Theorem field_masks_exact fs f v : fs ∈ all_layouts → f ∈ fs →
  get_value (v .| f_mask f) (f_off f) (f_width f) = Z.ones (f_width f) ∧
  get_value (Z.ldiff v (f_mask f)) (f_off f) (f_width f) = 0 ∧
  ∀ g, g ∈ fs → g ≠ f →
    get_value (v .| f_mask f) (f_off g) (f_width g) = get_value v (f_off g) (f_width g) ∧
    get_value (Z.ldiff v (f_mask f)) (f_off g) (f_width g) = get_value v (f_off g) (f_width g).
Proof.
  intros Hfs Hf. pose proof (proj1 (forallb_forall _ _) all_layouts_ok fs (proj1 (list_elem_of_In _ _) Hfs)) as Hok.
  destruct (layout_ok_spec fs Hok) as [H1 H2]. pose proof (H1 f Hf) as Hfo. pose proof Hfo as Hr. unfold field_ok in Hr. b2p.
  split_and!.
  - transitivity (get_value (Z.ones (f_width f) .<< f_off f) (f_off f) (f_width f)).
    + apply field_ext; [done|]. intros i Hi. rewrite Z.lor_spec, <- H0, mask_bit by (done || lia).
      rewrite (proj2 (Z.leb_le _ _)), (proj2 (Z.ltb_lt _ _)) by lia. by rewrite orb_true_r.
    + rewrite get_value_spec by lia. rewrite Z.shiftl_mul_pow2, Z.div_mul by (try apply Z.pow_nonzero; lia).
      apply Z.mod_small. rewrite Z.ones_equiv. assert (0 < 2 ^ f_width f) by (apply Z.pow_pos_nonneg; lia). lia.
  - transitivity (get_value 0 (f_off f) (f_width f)).
    + apply field_ext; [done|]. intros i Hi. rewrite Z.ldiff_spec, mask_bit by (done || lia).
      rewrite (proj2 (Z.leb_le _ _)), (proj2 (Z.ltb_lt _ _)) by lia. by rewrite andb_false_r, Z.bits_0.
    + rewrite get_value_spec by lia. by rewrite Z.div_0_l, Z.mod_0_l by (apply Z.pow_nonzero; lia).
  - intros g Hg Hne. pose proof (H1 g Hg) as Hgo. pose proof (H2 g f Hg Hf Hne) as Ha.
    pose proof Hgo as Hr. unfold field_ok in Hr. unfold apart in Ha. b2p.
    assert (Hm : ∀ i, f_off g <= i < f_off g + f_width g → Z.testbit (f_mask f) i = false).
    { intros i Hi. rewrite mask_bit by (done || lia). lia. }
    split; (apply field_ext; [done|]); intros i Hi.
    + by rewrite Z.lor_spec, Hm, orb_false_r by done.
    + by rewrite Z.ldiff_spec, Hm, andb_true_r by done.
Qed.

(** Enabling the external interrupt in sie leaves the timer's enable alone. *)
Lemma field_masks_exact_witness :
  get_value (0x20 .| SIE_SEIE) 9 1 = 1 ∧ get_value (0x20 .| SIE_SEIE) 5 1 = get_value 0x20 5 1.
Proof.
  destruct (field_masks_exact [mk_field SIE_SSIE 1 1; mk_field SIE_STIE 5 1; mk_field SIE_SEIE 9 1]
    (mk_field SIE_SEIE 9 1) 0x20) as (H1 & _ & H2).
  - apply (bool_decide_unpack _). by vm_compute.
  - apply (bool_decide_unpack _). by vm_compute.
  - split; [exact H1|]. apply (H2 (mk_field SIE_STIE 5 1)); [apply (bool_decide_unpack _); by vm_compute|done].
Defined.

(** The one mask that is not its field: GVA is bit 6 of hstatus; HSTATUS_GVA
    takes the position the bit has in mstatus, so that it neither reads nor changes
    the field, and is no field of hstatus at all. *)
Theorem hstatus_gva_misplaced v :
  get_value (v .| HSTATUS_GVA) 6 1 = get_value v 6 1 ∧
  get_value (Z.ldiff v HSTATUS_GVA) 6 1 = get_value v 6 1 ∧
  HSTATUS_GVA = 1 .<< 38 ∧
  ∀ f, f ∈ default [] (list_to_map (M := gmap string _) csr_layout !! "hstatus"%string) → f_mask f .& HSTATUS_GVA = 0.
Proof.
  assert (Hf : field_ok (mk_field (1 .<< 6) 6 1) = true) by done.
  split_and!.
  - apply (field_ext (mk_field (1 .<< 6) 6 1)); [done|]. cbn [f_off f_width]. intros i Hi.
    assert (i = 6) as -> by lia. rewrite Z.lor_spec. apply orb_false_r.
  - apply (field_ext (mk_field (1 .<< 6) 6 1)); [done|]. cbn [f_off f_width]. intros i Hi.
    assert (i = 6) as -> by lia. rewrite Z.ldiff_spec. apply andb_true_r.
  - done.
  - apply Forall_forall. apply (bool_decide_unpack _). by vm_compute.
Qed.
