(* ===== verification/Printf.v ===== *)
(** * Printf: formatted output, lib/printf.c

    Characters are bytes ([char] is unsigned on RISC-V), the format and the
    strings are read from memory, and the variable arguments are the 64-bit slots
    that the calling convention passes.  [panic] inside this file stands for the
    message and the endless loop of include/stdio.h. *)

From S2P Require Import Prelude Layout Uart.

(** [static const char digits[] = "0123456789abcdef"] with its terminator. *)
Definition digits : list Z :=
  [48; 49; 50; 51; 52; 53; 54; 55; 56; 57; 97; 98; 99; 100; 101; 102; 0].

Section ops.
Context {U : Type} {UD : UartDevice U} {UL : UartLaws U}.
Implicit Type s : console U.
#[local] Abbreviation C := (cmd (console U)).

Definition digit_at (i : Z) : C Z :=
  match digits !! Z.to_nat i with Some c => mret c | None => fault i end.

(** [do { buf[size++] = digits[tmp % base]; tmp /= base; } while (tmp > 0);]
    with the 64 characters of [buf]. *)
Fixpoint digits_loop (fuel : nat) (tmp base : Z) (buf : list Z) : C (list Z) :=
  match fuel with
  | O => hang
  | S fuel' =>
      c ← digit_at (tmp mod base);
      if (length buf <? 64)%nat then
        if 0 <? tmp / base then digits_loop fuel' (tmp / base) base (buf ++ [c])
        else mret (buf ++ [c])
      else fault 64
  end.

(** [while (--size >= 0) uartputc(buf[size]);] *)
Fixpoint put_back (size : nat) (buf : list Z) : C unit :=
  match size with
  | O => mret tt
  | S k => match buf !! k with
           | Some c => uartputc c ;; put_back k buf
           | None => fault (Z.of_nat k)
           end
  end.

Definition print_uint (num base : Z) : C unit :=
  if base <? 2 then panic "invalid base (base < 2)"
  else buf ← digits_loop 65 num base []; put_back (length buf) buf.

(** [while (base > 1) { base /= 2; bits_in_char++; }] *)
Fixpoint char_bits_loop (fuel : nat) (base bits : Z) : Z :=
  match fuel with
  | O => bits
  | S fuel' => if 1 <? base then char_bits_loop fuel' (Z.quot base 2) (bits + 1) else bits
  end.

(** The second loop of print_padded, from [i] to [end]. *)
Fixpoint padded_loop (n : nat) (i start num bits chars : Z) : C unit :=
  match n with
  | O => mret tt
  | S n' =>
      whenM (negb (i =? start) && (bits =? 1) && (Z.rem i chars =? 0)) (uartputc 95) ;;
      c ← digit_at (num .>> (8 * 8 - bits));
      uartputc c ;;
      padded_loop n' (i + 1) start (u64 (num .<< bits)) bits chars
  end.

Definition print_padded (num base bytes : Z) : C unit :=
  if negb (base =? 2) && negb (base =? 16) then panic "invalid base (must be 2 or 16)"
  else
    let bits_in_char := char_bits_loop 32 base 0 in
    let chars_for_byte := Z.quot 8 bits_in_char in
    let start := s32 (u64 (8 - bytes) * chars_for_byte) in
    let end_ := 8 * chars_for_byte in
    let num := Nat.iter (Z.to_nat start) (λ num, u64 (num .<< bits_in_char)) num in
    padded_loop (Z.to_nat (end_ - start)) start start num bits_in_char chars_for_byte.

(** ** printf *)

Definition char_at (p : Z) : C Z := λ s,
  match c_mem s !! p with Some c => Ok c s | None => Fault p s end.

Definition va_arg (ap : list Z) : C (Z * list Z) :=
  match ap with x :: ap' => mret (x, ap') | [] => fault 0 end.

Definition print_num (num base length : Z) : C unit :=
  if (base =? 2) || (base =? 16) then print_padded num base length else print_uint num base.

(** The argument is converted to the promoted type, then to the type of [uvar]. *)
Definition PRINT_UINT (uvar utype : Z → Z) (base length : Z) (ap : list Z) : C (list Z) :=
  '(x, ap) ← va_arg ap;
  print_num (uvar (utype x)) base length ;;
  mret ap.

(** [var = -var] wraps in the type of [var]. *)
Definition PRINT_INT (var type : Z → Z) (base length : Z) (ap : list Z) : C (list Z) :=
  '(x, ap) ← va_arg ap;
  let v := var (type x) in
  (if v <? 0 then uartputc 45 ;; print_num (u64 (var (- v))) base length
   else print_num (u64 v) base length) ;;
  mret ap.

(** decide_format: the base, the index and the character after it. *)
Definition decide_format (fmt i c : Z) : C (Z * Z * Z) :=
  if c =? 98 then c ← char_at (fmt + (i + 1)); mret (2, i + 1, c)
  else if c =? 120 then c ← char_at (fmt + (i + 1)); mret (16, i + 1, c)
  else mret (10, i, c).

(** decide_length, from the default length 4. *)
Definition decide_length (fmt i c : Z) : C (Z * Z * Z) :=
  if c =? 108 then c ← char_at (fmt + (i + 1)); mret (4 * 2, i + 1, c)
  else if c =? 104 then
    c ← char_at (fmt + (i + 1));
    if c =? 104 then c ← char_at (fmt + (i + 2)); mret (4 / 2 / 2, i + 2, c)
    else mret (4 / 2, i + 1, c)
  else mret (4, i, c).

(** [while ( *s != 0) { uartputc( *s); s++; }] *)
Fixpoint puts_loop (fuel : nat) (p : Z) : C unit :=
  match fuel with
  | O => hang
  | S fuel' => c ← char_at p; if c =? 0 then mret tt else uartputc c ;; puts_loop fuel' (p + 1)
  end.

(** decide_type: the remaining arguments and the two error flags. *)
Definition decide_type (c base length : Z) (ap : list Z) (invalid_length unknown_specifier : bool)
  : C (list Z * bool * bool) :=
  let ok (m : C (list Z)) := (ap ← m; mret (ap, invalid_length, unknown_specifier)) in
  if c =? 37 then ok (uartputc 37 ;; mret ap)
  else if c =? 112 then
    ok (uartputc 48 ;; uartputc 120 ;; '(x, ap) ← va_arg ap; print_padded x 16 8 ;; mret ap)
  else if c =? 115 then
    ok ('(p, ap) ← va_arg ap;
        (if p =? 0 then forM [40; 110; 117; 108; 108; 41] uartputc
         else fuel ← gets (λ s, S (size (c_mem s))); puts_loop fuel p) ;;
        mret ap)
  else if c =? 100 then
    if length =? 1 then ok (PRINT_INT s8 s32 base length ap)
    else if length =? 2 then ok (PRINT_INT s16 s32 base length ap)
    else if length =? 4 then ok (PRINT_INT s32 s32 base length ap)
    else if length =? 8 then ok (PRINT_INT s64 s64 base length ap)
    else mret (ap, true, unknown_specifier)
  else if c =? 117 then
    if length =? 1 then ok (PRINT_UINT u8 u32 base length ap)
    else if length =? 2 then ok (PRINT_UINT u16 u32 base length ap)
    else if length =? 4 then ok (PRINT_UINT u32 u32 base length ap)
    else if length =? 8 then ok (PRINT_UINT u64 u64 base length ap)
    else mret (ap, true, unknown_specifier)
  else mret (ap, invalid_length, true).

(** [while (c != 0) { ... }] *)
Fixpoint printf_loop (fuel : nat) (fmt i c : Z) (ap : list Z) (inv unk : bool)
  : C (bool * bool) :=
  match fuel with
  | O => hang
  | S fuel' =>
      if c =? 0 then mret (inv, unk)
      else if negb (c =? 37) then
        uartputc c ;;
        c ← char_at (fmt + (i + 1));
        printf_loop fuel' fmt (i + 1) c ap inv unk
      else
        c ← char_at (fmt + (i + 1));
        '(base, i, c) ← decide_format fmt (i + 1) c;
        '(length, i, c) ← decide_length fmt i c;
        '(ap, inv, unk) ← decide_type c base length ap inv unk;
        c ← char_at (fmt + (i + 1));
        printf_loop fuel' fmt (i + 1) c ap inv unk
  end.

Definition acquire_printf : C unit := λ s,
  if printf_lk s =? 0 then Ok tt (set_printf_lk 1 s) else Hang s.
Definition release_printf : C unit := modify (set_printf_lk 0).

Definition printf (fmt : Z) (ap : list Z) : C unit :=
  if fmt =? 0 then panic "fmt cannot not be null"
  else
    c ← char_at fmt;
    acquire_printf ;;
    fuel ← gets (λ s, S (size (c_mem s)));
    '(inv, unk) ← printf_loop fuel fmt 0 c ap false false;
    release_printf ;;
    if (inv : bool) then panic "invalid length"
    else if (unk : bool) then panic "unknown specifier"
    else mret tt.
End ops.
