(* ===== verification/PrintfSpec.v ===== *)
(** * PrintfSpec: what the routines of lib/printf.c emit

    Number notations stated without the code's loops, and the emission lemmas
    that relate the code to them. *)

From S2P Require Import Prelude Layout Uart Printf.

(** ** Number notations *)

Definition digit_char (d : Z) : Z := default 0 (digits !! Z.to_nat d).

(** Horner's rule, most significant digit first. *)
Definition of_digits (b : Z) (ds : list Z) : Z := foldl (λ a d, a * b + d) 0 ds.

(** [ds] is the notation of [n] in base [b], without leading zeros. *)
Definition is_repr (b n : Z) (ds : list Z) : Prop :=
  of_digits b ds = n ∧ Forall (λ d, 0 <= d < b) ds ∧ ds ≠ [] ∧ (head ds = Some 0 → ds = [0]).

(** The [n] low digits of [num], each of [bits] bits; binary digits are grouped
    by eight. *)
Fixpoint padded_text (n : nat) (bits num : Z) : list Z :=
  match n with
  | O => []
  | S m =>
      digit_char (num / 2 ^ (bits * Z.of_nat m) mod 2 ^ bits) ::
      (if negb (m =? 0)%nat && (bits =? 1) && (Z.of_nat m mod 8 =? 0) then [95] else []) ++
      padded_text m bits num
  end.

Lemma of_digits_snoc b ds d : of_digits b (ds ++ [d]) = of_digits b ds * b + d.
Proof. unfold of_digits. by rewrite foldl_app. Qed.

Lemma of_digits_nonneg b ds : 0 <= b → Forall (λ d, 0 <= d < b) ds → 0 <= of_digits b ds.
Proof.
  intros Hb. induction ds as [|d ds IH] using rev_ind; intros H; [done|].
  rewrite of_digits_snoc. apply Forall_app in H as [H1 H2]. specialize (IH H1).
  rewrite Forall_singleton in H2. nia.
Qed.

(** Every number has one notation in each base. *)
Lemma is_repr_snoc b n ds d : 2 <= b → 0 < n → is_repr b n ds → 0 <= d < b →
  is_repr b (n * b + d) (ds ++ [d]).
Proof.
  intros Hb Hn (Hv & Hd & Hne & Hh) Hdb. split_and!.
  - rewrite of_digits_snoc. lia.
  - apply Forall_app; auto.
  - by destruct ds.
  - destruct ds as [|x ds]; [done|]. simpl. intros [= ->]. specialize (Hh eq_refl).
    rewrite Hh in Hv. unfold of_digits in Hv. simpl in Hv. lia.
Qed.

Lemma is_repr_one b d : 0 <= d < b → is_repr b d [d].
Proof. intros Hd. split_and!; [done|by constructor|done|]. simpl. intros [= ->]. done. Qed.

Lemma is_repr_unique b n ds ds' : 2 <= b → is_repr b n ds → is_repr b n ds' → ds = ds'.
Proof.
  intros Hb. revert n ds'. induction ds as [|d ds IH] using rev_ind.
  { intros n ds' (_ & _ & ? & _). done. }
  intros n ds' (Hv & Hd & _ & Hh) (Hv' & Hd' & Hne' & Hh').
  destruct ds' as [|d' ds' _] using rev_ind; [done|].
  rewrite of_digits_snoc in Hv, Hv'.
  apply Forall_app in Hd as [Hd Hd1], Hd' as [Hd' Hd1'].
  rewrite Forall_singleton in Hd1, Hd1'.
  assert (of_digits b ds = of_digits b ds' ∧ d = d') as [Heq ->].
  { apply (Z.div_mod_unique b); [by left|by left|]. rewrite !(Z.mul_comm b). lia. }
  f_equal.
  assert (∀ l, l ≠ [] → (head (l ++ [d']) = Some 0 → l ++ [d'] = [0]) → head l ≠ Some 0) as Hhd.
  { intros [|x [|y l]] Hl H; try done; simpl in *; intros [= ->]; specialize (H eq_refl); done. }
  assert (∀ l, l ≠ [] → Forall (λ d, 0 <= d < b) l → head l ≠ Some 0 → 0 < of_digits b l) as Hpos.
  { clear -Hb. intros l Hl H. induction l as [|y l IH] using rev_ind; [done|]. intros Hh.
    rewrite of_digits_snoc. apply Forall_app in H as [H1 H2]. rewrite Forall_singleton in H2.
    destruct l as [|z l]; [unfold of_digits; simpl in *; assert (y ≠ 0) by congruence; lia|].
    specialize (IH ltac:(done) H1 Hh). nia. }
  destruct (decide (ds = [])) as [->|Hds], (decide (ds' = [])) as [->|Hds']; [done| | |].
  - specialize (Hpos _ Hds' Hd' (Hhd _ Hds' Hh')). rewrite <- Heq in Hpos. unfold of_digits in Hpos.
    simpl in Hpos. lia.
  - specialize (Hpos _ Hds Hd (Hhd _ Hds Hh)). rewrite Heq in Hpos. unfold of_digits in Hpos.
    simpl in Hpos. lia.
  - apply (IH (of_digits b ds)); split_and!; try done; intros E;
      [by destruct (Hhd _ Hds Hh)|by destruct (Hhd _ Hds' Hh')].
Qed.

(** The padded notation is positional: without the separators its digits are
    those of [num] modulo the width. *)
Fixpoint padded_digits (n : nat) (bits num : Z) : list Z :=
  match n with
  | O => []
  | S m => num / 2 ^ (bits * Z.of_nat m) mod 2 ^ bits :: padded_digits m bits num
  end.

Lemma of_digits_cons b d ds : of_digits b (d :: ds) = d * b ^ Z.of_nat (length ds) + of_digits b ds.
Proof.
  induction ds as [|e ds IH] using rev_ind; [unfold of_digits; simpl; lia|].
  rewrite app_comm_cons, !of_digits_snoc, IH, length_app. cbn [length].
  rewrite Nat.add_1_r, Nat2Z.inj_succ, Z.pow_succ_r by lia. lia.
Qed.

Lemma padded_digits_length n bits num : length (padded_digits n bits num) = n.
Proof. induction n; simpl; auto. Qed.

Lemma padded_digits_value n bits num : 0 < bits →
  of_digits (2 ^ bits) (padded_digits n bits num) = num mod 2 ^ (bits * Z.of_nat n).
Proof.
  intros Hb. induction n as [|n IH]; cbn [padded_digits].
  - rewrite Z.mul_0_r, Z.mod_1_r. done.
  - rewrite of_digits_cons, padded_digits_length, IH, <- Z.pow_mul_r by lia.
    replace (bits * Z.of_nat (S n)) with (bits * Z.of_nat n + bits) by lia.
    rewrite Z.pow_add_r, Z.rem_mul_r by (try apply Z.pow_nonzero; lia). lia.
Qed.

Lemma digit_char_range d : 0 <= digit_char d < 256.
Proof.
  unfold digit_char. destruct (digits !! Z.to_nat d) as [c|] eqn:E; simpl; [|lia].
  apply list_elem_of_lookup_2 in E. revert c E. apply Forall_forall. unfold digits.
  repeat constructor; lia.
Qed.

(** Only the terminator of [digits] is not a digit character. *)
Lemma digit_char_not_sep d : digit_char d ≠ 95.
Proof.
  unfold digit_char. destruct (digits !! Z.to_nat d) as [c|] eqn:E; simpl; [|lia].
  apply list_elem_of_lookup_2 in E. revert c E. apply Forall_forall. unfold digits.
  repeat constructor; lia.
Qed.

Lemma padded_text_digits n bits num :
  filter (λ c, c ≠ 95) (padded_text n bits num) = digit_char <$> padded_digits n bits num.
Proof.
  induction n as [|n IH]; [done|]. cbn [padded_text padded_digits].
  rewrite filter_cons_True by apply digit_char_not_sep.
  rewrite filter_app, IH. cbn [fmap list_fmap]. f_equal.
  destruct (_ && _); [|done]. rewrite filter_cons_False by naive_solver. done.
Qed.

(** ** Emission *)

Section emits.
Context {U : Type} {UD : UartDevice U} {UL : UartLaws U}.
Implicit Type s : console U.
#[local] Abbreviation C := (cmd (console U)).

(** [m] returns [a] after sending [out], from any console whose UART is idle and
    whose memory is [mem]. *)
Definition emits (mem : gmap Z Z) {A} (m : C A) (a : A) (out : list Z) : Prop :=
  ∀ s, quiet s → c_mem s = mem →
    ∃ s', m s = Ok a s' ∧ quiet s' ∧ same_rest s s' ∧ sent s' = sent s ++ out.

Lemma emits_ret mem {A} (a : A) : emits mem (mret a) a [].
Proof. intros s Hq _. exists s. rewrite app_nil_r. unfold same_rest. auto. Qed.

Lemma emits_bind mem {A B} (m : C A) (k : A → C B) a b o1 o2 :
  emits mem m a o1 → emits mem (k a) b o2 → emits mem (m ≫= k) b (o1 ++ o2).
Proof.
  intros H1 H2 s Hq Hm. destruct (H1 s Hq Hm) as (s1 & E1 & Hq1 & [Hp1 Hm1] & Hs1).
  destruct (H2 s1 Hq1 ltac:(congruence)) as (s2 & E2 & Hq2 & [Hp2 Hm2] & Hs2).
  exists s2. rewrite (bind_ok _ _ _ _ _ E1), Hs2, Hs1, app_assoc.
  unfold same_rest. split_and!; [done|done|congruence..].
Qed.

(** A first part that sends nothing. *)
Lemma emits_pure mem {A B} (m : C A) (k : A → C B) a b out :
  emits mem m a [] → emits mem (k a) b out → emits mem (m ≫= k) b out.
Proof. intros H1 H2. by apply (emits_bind mem m k a b [] out). Qed.

Lemma emits_putc mem c : 0 <= c < 256 → emits mem (uartputc c) tt [c].
Proof. intros Hc s Hq _. by apply uartputc_ok. Qed.

Lemma emits_char mem p c : mem !! p = Some c → emits mem (char_at p) c [].
Proof.
  intros Hc s Hq Hm. exists s. unfold char_at, same_rest. rewrite Hm, Hc, app_nil_r. auto.
Qed.

Lemma emits_size mem : emits mem (gets (λ s, S (size (c_mem s)))) (S (size mem)) [].
Proof. intros s Hq Hm. exists s. unfold gets, same_rest. rewrite Hm, app_nil_r. auto. Qed.

Lemma emits_digit mem d : 0 <= d < 16 → emits mem (digit_at d) (digit_char d) [].
Proof.
  intros Hd. unfold digit_at, digit_char.
  destruct (digits !! Z.to_nat d) as [c|] eqn:E; [apply emits_ret|].
  apply lookup_ge_None in E. simpl in E. lia.
Qed.

(** ** print_uint *)

Lemma digits_loop_ok mem k base tmp buf fuel :
  2 <= base <= 16 → (1 <= k)%nat → 0 <= tmp < 2 ^ Z.of_nat k →
  (length buf + k <= 64)%nat → (k <= fuel)%nat →
  ∃ ds, is_repr base tmp ds ∧ (length ds <= k)%nat ∧
    emits mem (digits_loop fuel tmp base buf) (buf ++ rev (digit_char <$> ds)) [].
Proof.
  intros Hb. revert tmp buf fuel. induction k as [|k IH]; intros tmp buf fuel Hk Ht Hl Hf; [lia|].
  destruct fuel as [|fuel]; [lia|]. cbn [digits_loop].
  assert (0 <= tmp mod base < base) as Hm by (apply Z.mod_pos_bound; lia).
  rewrite Nat2Z.inj_succ, Z.pow_succ_r in Ht by lia.
  assert (0 <= tmp / base < 2 ^ Z.of_nat k) as Hq.
  { split; [apply Z.div_pos; lia|]. apply Z.div_lt_upper_bound; nia. }
  assert ((length buf <? 64)%nat = true) as Hlt by (apply Nat.ltb_lt; lia).
  destruct (Z.ltb_spec 0 (tmp / base)) as [Hp|Hp].
  - destruct (IH (tmp / base) (buf ++ [digit_char (tmp mod base)]) fuel) as (ds & Hr & Hn & He).
    { destruct k; [simpl in Hq; lia|lia]. }
    { lia. }
    { rewrite length_app. simpl. lia. }
    { lia. }
    exists (ds ++ [tmp mod base]). split_and!.
    + replace tmp with (tmp / base * base + tmp mod base) at 1
        by (rewrite (Z_div_mod_eq_full tmp base) at 3; lia).
      by apply is_repr_snoc; [lia| | |].
    + rewrite length_app. simpl. lia.
    + eapply emits_pure; [apply emits_digit; lia|]. cbn beta. rewrite Hlt.
      rewrite fmap_app, rev_app_distr. simpl. rewrite <- app_assoc in He. exact He.
  - exists [tmp mod base]. split_and!.
    + assert (tmp / base = 0) as E by lia. apply Z.div_small_iff in E; [|lia].
      rewrite Z.mod_small by lia. apply is_repr_one. lia.
    + simpl. lia.
    + eapply emits_pure; [apply emits_digit; lia|]. cbn beta. rewrite Hlt. apply emits_ret.
Qed.

Lemma put_back_ok mem buf : Forall (λ c, 0 <= c < 256) buf →
  emits mem (put_back (length buf) buf) tt (rev buf).
Proof.
  intros Hb. rewrite <- (app_nil_r buf) at 2. generalize (@nil Z).
  induction buf as [|c buf IH] using rev_ind; intros l; [apply emits_ret|].
  rewrite Forall_app, Forall_singleton in Hb. destruct Hb as [Hb Hc].
  rewrite length_app, Nat.add_1_r, <- app_assoc. cbn [put_back app].
  rewrite list_lookup_middle by done. rewrite rev_app_distr.
  apply (emits_bind mem _ _ tt tt [c]); [by apply emits_putc|by apply IH].
Qed.

Lemma print_uint_ok mem num base : 2 <= base <= 16 → 0 <= num < 2 ^ 64 →
  ∃ ds, is_repr base num ds ∧ (length ds <= 64)%nat ∧
    emits mem (print_uint num base) tt (digit_char <$> ds).
Proof.
  intros Hb Hn.
  destruct (digits_loop_ok mem 64 base num [] 65) as (ds & Hr & Hl & He); [done|lia|done|done|lia|].
  exists ds. split_and!; [done|done|]. unfold print_uint.
  rewrite (proj2 (Z.ltb_ge base 2)) by lia. eapply emits_pure; [exact He|]. cbn beta. simpl.
  rewrite <- (rev_involutive (digit_char <$> ds)) at 3. apply put_back_ok.
  apply Forall_rev, Forall_fmap, Forall_true. intros d. apply digit_char_range.
Qed.

(** ** print_padded *)

Lemma iter_shift k bits num : 0 <= bits → 0 <= num < 2 ^ 64 →
  Nat.iter k (λ num, u64 (num .<< bits)) num = u64 (num .<< (bits * Z.of_nat k)).
Proof.
  intros Hb Hn. induction k as [|k IH].
  - simpl. by rewrite Z.mul_0_r, Z.shiftl_0_r, u64_id.
  - rewrite Nat.iter_succ, IH. unfold u64. rewrite !Z.shiftl_mul_pow2 by lia.
    rewrite Z.mul_mod_idemp_l, <- Z.mul_assoc, <- Z.pow_add_r by lia. do 3 f_equal. lia.
Qed.

(** The top digit of a value shifted [i] digits to the left. *)
Lemma top_digit bits num m i : 0 < bits → 0 <= num < 2 ^ 64 → 0 <= i → 0 <= m →
  bits * (i + m + 1) = 64 →
  u64 (num .<< (bits * i)) .>> (64 - bits) = num / 2 ^ (bits * m) mod 2 ^ bits.
Proof.
  intros Hb Hn Hi Hm He. apply Z.bits_inj'. intros k Hk.
  rewrite Z.shiftr_spec by lia. unfold u64. destruct (Z.ltb_spec k bits).
  - rewrite !Z.mod_pow2_bits_low, Z.shiftl_spec, Z.div_pow2_bits by lia. f_equal. lia.
  - by rewrite !Z.mod_pow2_bits_high by lia.
Qed.

Definition sep_before (n : nat) (i start bits : Z) : list Z :=
  if negb (n =? 0)%nat && negb (i =? start) && (bits =? 1) && (Z.of_nat n mod 8 =? 0)
  then [95] else [].

Lemma padded_loop_ok mem n i start num bits chars :
  0 < bits <= 4 → bits * chars = 8 → 0 <= num < 2 ^ 64 → 0 <= start <= i →
  i + Z.of_nat n = 8 * chars →
  emits mem (padded_loop n i start (u64 (num .<< (bits * i))) bits chars) tt
    (sep_before n i start bits ++ padded_text n bits num).
Proof.
  intros Hb Hc Hn. revert i. induction n as [|n IH]; intros i Hi He; [apply emits_ret|].
  cbn [padded_loop padded_text]. eapply emits_bind.
  - instantiate (1 := tt). unfold sep_before. cbn [negb Nat.eqb andb].
    destruct (Z.eqb_spec bits 1) as [->|]; [|rewrite !andb_false_r; apply emits_ret].
    replace (Z.rem i chars =? 0) with (Z.of_nat (S n) mod 8 =? 0).
    + destruct (i =? start), (Z.of_nat (S n) mod 8 =? 0); simpl;
        first [by apply emits_ret|by apply emits_putc].
    + rewrite Z.rem_mod_nonneg by lia. replace chars with 8 in * by lia. apply eq_bool_prop_intro.
      rewrite !Is_true_true, !Z.eqb_eq. split; intros; dlia.
  - eapply emits_pure.
    { change (8 * 8) with 64. rewrite (top_digit bits num (Z.of_nat n) i); [|lia..].
      apply emits_digit.
      assert (2 ^ bits <= 2 ^ 4) by (apply Z.pow_le_mono_r; lia).
      pose proof (Z.mod_pos_bound (num / 2 ^ (bits * Z.of_nat n)) (2 ^ bits)). lia. }
    apply (emits_bind _ _ _ tt tt [_]); [apply emits_putc, digit_char_range|].
    assert ((if negb (n =? 0)%nat && (bits =? 1) && (Z.of_nat n mod 8 =? 0) then [95] else [])
      = sep_before n (i + 1) start bits) as ->.
    + unfold sep_before. rewrite (proj2 (Z.eqb_neq (i + 1) start)) by lia.
      by rewrite andb_true_r.
    + replace (u64 (u64 (num .<< (bits * i)) .<< bits)) with (u64 (num .<< (bits * (i + 1)))).
      * apply IH; lia.
      * assert (0 <= bits * i) by nia. assert (0 <= bits * (i + 1)) by nia.
        unfold u64. rewrite !Z.shiftl_mul_pow2 by lia.
        rewrite Z.mul_mod_idemp_l, <- Z.mul_assoc, <- Z.pow_add_r by lia. do 3 f_equal. lia.
Qed.

Lemma print_padded_ok mem num base bits bytes :
  (base = 2 ∧ bits = 1) ∨ (base = 16 ∧ bits = 4) → 0 <= num < 2 ^ 64 → 1 <= bytes <= 8 →
  emits mem (print_padded num base bytes) tt (padded_text (Z.to_nat (bytes * (8 / bits))) bits num).
Proof.
  intros Hbase Hn Hy. unfold print_padded.
  assert (negb (base =? 2) && negb (base =? 16) = false) as ->
    by (destruct Hbase as [[-> _]|[-> _]]; done).
  assert (char_bits_loop 32 base 0 = bits) as -> by (destruct Hbase as [[-> ->]|[-> ->]]; done).
  assert (0 < bits <= 4 ∧ bits * (8 / bits) = 8 ∧ 2 <= 8 / bits <= 8 ∧ Z.quot 8 bits = 8 / bits)
    as (Hb & Hc & Hr & ->) by (destruct Hbase as [[-> ->]|[-> ->]]; by vm_compute).
  cbv zeta. generalize dependent (8 / bits). intros chars Hc Hr.
  assert (0 <= (8 - bytes) * chars <= 56) as Hs by nia.
  rewrite u64_id, s32_id by lia. rewrite iter_shift, Z2Nat.id by lia.
  set (start := (8 - bytes) * chars) in *.
  replace (Z.to_nat (bytes * chars)) with (Z.to_nat (8 * chars - start)) by (f_equal; lia).
  pose proof (padded_loop_ok mem (Z.to_nat (8 * chars - start)) start start num bits chars) as H.
  unfold sep_before in H. rewrite Z.eqb_refl, andb_false_r in H. apply H; nia.
Qed.
End emits.
