(* ===== verification/PrintfTheorems.v ===== *)
(** * PrintfTheorems: the format language of printf and its correctness *)

From S2P Require Import Prelude Layout Uart Printf PrintfSpec.

(** ** The format language

    [%{format}{length}{type}]: the items of a format string, their concrete
    syntax and what they print. *)

Inductive base_flag := FDec | FBin | FHex.
Inductive len_flag := LLong | LInt | LShort | LChar.
Inductive conv := KPercent | KPtr | KStr | KSigned | KUnsigned.
Inductive item :=
| Lit (c : Z)
| Dir (b : base_flag) (l : len_flag) (k : conv)
| Bad (b : base_flag) (l : len_flag) (c : Z).

Definition base_text (b : base_flag) : list Z :=
  match b with FDec => [] | FBin => [98] | FHex => [120] end.
Definition base_val (b : base_flag) : Z := match b with FDec => 10 | FBin => 2 | FHex => 16 end.
Definition len_text (l : len_flag) : list Z :=
  match l with LLong => [108] | LInt => [] | LShort => [104] | LChar => [104; 104] end.
Definition len_val (l : len_flag) : Z :=
  match l with LLong => 8 | LInt => 4 | LShort => 2 | LChar => 1 end.
Definition conv_char (k : conv) : Z :=
  match k with KPercent => 37 | KPtr => 112 | KStr => 115 | KSigned => 100 | KUnsigned => 117 end.

Definition dir_text (b : base_flag) (l : len_flag) (c : Z) : list Z :=
  base_text b ++ len_text l ++ [c].
Definition item_text (x : item) : list Z :=
  match x with
  | Lit c => [c]
  | Dir b l k => 37 :: dir_text b l (conv_char k)
  | Bad b l c => 37 :: dir_text b l c
  end.
Definition format_text (its : list item) : list Z := concat (item_text <$> its).

(** The character after the flags is not one of the flags that could follow. *)
Definition after_flags (b : base_flag) (l : len_flag) (c : Z) : bool :=
  match l with
  | LInt => negb (c =? 108) && negb (c =? 104) &&
            match b with FDec => negb (c =? 98) && negb (c =? 120) | _ => true end
  | LShort => negb (c =? 104)
  | _ => true
  end.
Definition is_type (c : Z) : bool :=
  (c =? 37) || (c =? 112) || (c =? 115) || (c =? 100) || (c =? 117).

(** The bytes at [p]. *)
Fixpoint text_at (mem : gmap Z Z) (p : Z) (l : list Z) : Prop :=
  match l with [] => True | c :: l' => mem !! p = Some c ∧ text_at mem (p + 1) l' end.

(** How a number of [bytes] bytes is written. *)
Definition shows (b : base_flag) (bytes n : Z) (out : list Z) : Prop :=
  match b with
  | FDec => ∃ ds, is_repr 10 n ds ∧ out = digit_char <$> ds
  | FBin => out = padded_text (Z.to_nat (bytes * 8)) 1 n
  | FHex => out = padded_text (Z.to_nat (bytes * 2)) 4 n
  end.

(** The number printed after the sign of [v], of [bits] bits: its absolute value, but
    for the most negative value, whose negation wraps to itself and is printed as the
    64-bit number it is extended to. *)
Definition magnitude (bits v : Z) : Z :=
  if v =? - 2 ^ (bits - 1) then 2 ^ 64 - 2 ^ (bits - 1) else Z.abs v.

(** [renders mem its args out left]: what a format prints for the argument slots
    it is given, and the slots it leaves.  A directive takes its argument at its
    width, two's complement when it is signed. *)
Inductive renders (mem : gmap Z Z) : list item → list Z → list Z → list Z → Prop :=
| R_end args : renders mem [] args [] args
| R_lit c its args out left : 0 < c < 256 → c ≠ 37 →
    renders mem its args out left → renders mem (Lit c :: its) args (c :: out) left
| R_percent b l its args out left :
    renders mem its args out left → renders mem (Dir b l KPercent :: its) args (37 :: out) left
| R_pointer b l x its args out left : 0 <= x < 2 ^ 64 → renders mem its args out left →
    renders mem (Dir b l KPtr :: its) (x :: args) ([48; 120] ++ padded_text 16 4 x ++ out) left
| R_string b l p txt its args out left : p ≠ 0 → text_at mem p (txt ++ [0]) →
    Forall (λ c, 0 < c < 256) txt → renders mem its args out left →
    renders mem (Dir b l KStr :: its) (p :: args) (txt ++ out) left
| R_null b l its args out left : renders mem its args out left →
    renders mem (Dir b l KStr :: its) (0 :: args) ([40; 110; 117; 108; 108; 41] ++ out) left
| R_signed b l x txt its args out left :
    let v := sgn (8 * len_val l) x in
    shows b (len_val l) (magnitude (8 * len_val l) v) txt → renders mem its args out left →
    renders mem (Dir b l KSigned :: its) (x :: args)
      ((if v <? 0 then [45] else []) ++ txt ++ out) left
| R_unsigned b l x txt its args out left :
    shows b (len_val l) (x mod 2 ^ (8 * len_val l)) txt → renders mem its args out left →
    renders mem (Dir b l KUnsigned :: its) (x :: args) (txt ++ out) left
| R_bad b l c its args out left : is_type c = false → c ≠ 0 → after_flags b l c = true →
    renders mem its args out left → renders mem (Bad b l c :: its) args out left.

Definition is_bad (x : item) : bool := match x with Bad _ _ _ => true | _ => false end.

(** ** Lemmas *)

Lemma text_at_app mem p l1 l2 :
  text_at mem p (l1 ++ l2) ↔ text_at mem p l1 ∧ text_at mem (p + Z.of_nat (length l1)) l2.
Proof.
  revert p. induction l1 as [|c l1 IH]; intros p; cbn [app text_at length].
  - rewrite Z.add_0_r. tauto.
  - rewrite IH, Nat2Z.inj_succ. replace (p + 1 + Z.of_nat (length l1))
      with (p + Z.succ (Z.of_nat (length l1))) by lia. tauto.
Qed.

(** A text takes as many bytes of memory as it has characters. *)
Lemma text_at_size mem p l : text_at mem p l → (length l <= size mem)%nat.
Proof.
  intros H. transitivity (length (seqZ p (Z.of_nat (length l)))); [rewrite length_seqZ; lia|].
  rewrite <- (size_list_to_set (C := gset Z)) by apply NoDup_seqZ.
  rewrite <- size_dom. apply subseteq_size. intros x. rewrite elem_of_list_to_set, elem_of_seqZ.
  intros Hx. apply elem_of_dom. revert p H Hx. induction l as [|c l IH]; intros p H Hx;
    cbn [length text_at] in *; [lia|]. destruct H as [Hc H].
  destruct (decide (x = p)) as [->|]; [by eauto|]. apply (IH (p + 1)); [done|lia].
Qed.

Lemma sgn_sgn w w' x : 0 < w <= w' → sgn w (sgn w' x) = sgn w x.
Proof.
  intros Hw. unfold sgn. f_equal.
  replace (2 ^ w') with (2 ^ w * 2 ^ (w' - w)) by (rewrite <- Z.pow_add_r by lia; f_equal; lia).
  assert (0 < 2 ^ w) by (apply Z.pow_pos_nonneg; lia).
  set (q := 2 ^ (w' - w)). set (y := x + 2 ^ (w' - 1)).
  rewrite (Z.mod_eq y) by (unfold q; apply Z.neq_mul_0; split; apply Z.pow_nonzero; lia).
  replace (y - 2 ^ w * q * (y / (2 ^ w * q)) - 2 ^ (w' - 1) + 2 ^ (w - 1))
    with (x + 2 ^ (w - 1) + (- (q * (y / (2 ^ w * q)))) * 2 ^ w) by (unfold y; lia).
  by rewrite Z.mod_add by lia.
Qed.

Lemma mod_mod_pow x w w' : 0 <= w <= w' → (x mod 2 ^ w') mod 2 ^ w = x mod 2 ^ w.
Proof.
  intros Hw. apply Z.bits_inj'. intros n Hn. destruct (Z.ltb_spec n w).
  - by rewrite !Z.mod_pow2_bits_low by lia.
  - by rewrite !Z.mod_pow2_bits_high by lia.
Qed.

Lemma sgn_range w x : 0 < w → - 2 ^ (w - 1) <= sgn w x < 2 ^ (w - 1).
Proof.
  intros Hw. unfold sgn. replace (2 ^ w) with (2 * 2 ^ (w - 1))
    by (rewrite <- Z.pow_succ_r by lia; f_equal; lia).
  assert (0 < 2 ^ (w - 1)) by (apply Z.pow_pos_nonneg; lia).
  pose proof (Z.mod_pos_bound (x + 2 ^ (w - 1)) (2 * 2 ^ (w - 1))). lia.
Qed.

Lemma sgn_id w x : 0 < w → - 2 ^ (w - 1) <= x < 2 ^ (w - 1) → sgn w x = x.
Proof.
  intros Hw Hx. unfold sgn. rewrite Z.mod_small; [lia|].
  replace (2 ^ w) with (2 * 2 ^ (w - 1)) by (rewrite <- Z.pow_succ_r by lia; f_equal; lia). lia.
Qed.

Section printf.
Context {U : Type} {UD : UartDevice U} {UL : UartLaws U}.
Implicit Type s : console U.
#[local] Abbreviation C := (cmd (console U)).

Lemma print_num_ok mem b bytes n out : 0 <= n < 2 ^ 64 → 1 <= bytes <= 8 → shows b bytes n out →
  emits mem (print_num n (base_val b) bytes : C unit) tt out.
Proof.
  intros Hn Hy. destruct b; cbn [shows base_val print_num].
  - intros (ds & Hr & ->). destruct (print_uint_ok mem n 10) as (ds' & Hr' & _ & He); [lia..|].
    by rewrite (is_repr_unique 10 n ds ds') by done.
  - intros ->. apply (print_padded_ok mem n 2 1); auto.
  - intros ->. apply (print_padded_ok mem n 16 4); auto.
Qed.

(** The flags select the base and the length. *)
Lemma decide_format_ok mem fmt i b c0 c : mem !! (fmt + i) = Some c0 →
  text_at mem (fmt + i) (base_text b ++ [c]) → (b = FDec → c ≠ 98 ∧ c ≠ 120) →
  emits mem (decide_format fmt i c0 : C _) (base_val b, i + Z.of_nat (length (base_text b)), c) [].
Proof.
  intros Hc0. rewrite text_at_app. unfold decide_format. destruct b; cbn [base_text base_val length text_at].
  - rewrite !Z.add_0_r. intros (_ & Hc & _) Hb. assert (c0 = c) as -> by congruence. destruct (Hb eq_refl) as [H1 H2].
    rewrite (proj2 (Z.eqb_neq c 98)), (proj2 (Z.eqb_neq c 120)) by done. apply emits_ret.
  - rewrite <- Z.add_assoc. intros ([? _] & Hc & _) _. simplify_eq; cbn [Z.eqb Pos.eqb].
    eapply emits_pure; [by apply emits_char|]. apply emits_ret.
  - rewrite <- Z.add_assoc. intros ([? _] & Hc & _) _. simplify_eq; cbn [Z.eqb Pos.eqb].
    eapply emits_pure; [by apply emits_char|]. apply emits_ret.
Qed.

Lemma decide_length_ok mem fmt i l c0 c : mem !! (fmt + i) = Some c0 →
  text_at mem (fmt + i) (len_text l ++ [c]) → (l = LInt → c ≠ 108) → (l = LInt ∨ l = LShort → c ≠ 104) →
  emits mem (decide_length fmt i c0 : C _) (len_val l, i + Z.of_nat (length (len_text l)), c) [].
Proof.
  intros Hc0. rewrite text_at_app. unfold decide_length. destruct l; cbn [len_text len_val length text_at].
  - rewrite <- Z.add_assoc. intros ([? _] & Hc & _) _ _. simplify_eq; cbn [Z.eqb Pos.eqb].
    eapply emits_pure; [by apply emits_char|]. apply emits_ret.
  - rewrite !Z.add_0_r. intros (_ & Hc & _) H1 H2. assert (c0 = c) as -> by congruence.
    rewrite (proj2 (Z.eqb_neq c 108)), (proj2 (Z.eqb_neq c 104)) by auto. apply emits_ret.
  - rewrite <- Z.add_assoc. intros ([? _] & Hc & _) _ H2. simplify_eq; cbn [Z.eqb Pos.eqb].
    eapply emits_pure; [by apply emits_char|]. rewrite (proj2 (Z.eqb_neq c 104)) by auto. apply emits_ret.
  - rewrite <- !Z.add_assoc. intros ((? & H1 & _) & Hc & _) _ _. simplify_eq; cbn [Z.eqb Pos.eqb].
    eapply emits_pure; [by apply emits_char|]. cbn [Z.eqb Pos.eqb].
    eapply emits_pure; [by apply emits_char|]. apply emits_ret.
Qed.

Lemma after_flags_spec b l c : after_flags b l c = true →
  (b = FDec → ∃ c1 rest, len_text l ++ [c] = c1 :: rest ∧ c1 ≠ 98 ∧ c1 ≠ 120) ∧
  (l = LInt → c ≠ 108) ∧ (l = LInt ∨ l = LShort → c ≠ 104).
Proof. destruct b, l; cbn; intros; b2p; split_and!; naive_solver lia. Qed.

Lemma dir_split b l c : ∃ c0 c1 rest, dir_text b l c = c0 :: rest ∧
  head (len_text l ++ [c]) = Some c1.
Proof. destruct b, l; eauto. Qed.

Lemma text_at_head mem p c l : text_at mem p l → head l = Some c → mem !! p = Some c.
Proof. destruct l; [done|]. intros [H _] [= ->]. done. Qed.

Lemma decide_ok mem fmt i b l c {A} (K : Z → Z → Z → Z → C A) r out :
  text_at mem (fmt + i) (dir_text b l c) → after_flags b l c = true →
  emits mem (K (base_val b) (len_val l) (i + Z.of_nat (length (base_text b ++ len_text l))) c) r out →
  emits mem (c ← char_at (fmt + i);
             '(base, i, c) ← decide_format fmt i c;
             '(length, i, c) ← decide_length fmt i c;
             K base length i c) r out.
Proof.
  intros Ht Ha He. destruct (after_flags_spec b l c Ha) as (Hb & Hl1 & Hl2).
  destruct (dir_split b l c) as (c0 & c1 & rest & E0 & E1).
  assert (mem !! (fmt + i) = Some c0) as Hc0 by (apply (text_at_head _ _ _ _ Ht); by rewrite E0).
  eapply emits_pure; [by apply emits_char|]. unfold dir_text in Ht.
  pose proof (proj1 (text_at_app _ _ _ _) Ht) as [Ht1 Ht2].
  pose proof (text_at_head _ _ _ _ Ht2 E1) as Hc1. rewrite <- Z.add_assoc in Ht2, Hc1.
  eapply emits_pure; [apply (decide_format_ok mem fmt i b c0 c1 Hc0)|].
  - apply text_at_app. rewrite <- Z.add_assoc. split; [done|]. by split.
  - intros Hd. destruct (Hb Hd) as (? & ? & E & ?). rewrite E in E1. naive_solver.
  - cbn beta iota. eapply emits_pure; [by apply (decide_length_ok mem fmt _ l c1 c)|].
    cbn beta iota. rewrite length_app, Nat2Z.inj_add, Z.add_assoc in He. exact He.
Qed.

Lemma puts_loop_ok mem p txt fuel : text_at mem p (txt ++ [0]) → Forall (λ c, 0 < c < 256) txt →
  (length txt < fuel)%nat → emits mem (puts_loop fuel p : C unit) tt txt.
Proof.
  revert p fuel. induction txt as [|c txt IH]; intros p [|fuel] [Hc Ht] Hr Hf; cbn [length] in Hf;
    [lia| |lia|]; cbn [puts_loop]; (eapply emits_pure; [by apply emits_char|]).
  - apply emits_ret.
  - apply Forall_cons in Hr as [Hr Hr']. rewrite (proj2 (Z.eqb_neq c 0)) by lia.
    apply (emits_bind _ _ _ tt tt [c]); [apply emits_putc; lia|]. apply IH; [done|done|lia].
Qed.

Lemma forM_putc mem l : Forall (λ c, 0 <= c < 256) l → emits mem (forM l uartputc : C unit) tt l.
Proof.
  induction l as [|c l IH]; intros H; [apply emits_ret|]. apply Forall_cons in H as [Hc Hl].
  apply (emits_bind _ _ _ tt tt [c]); [by apply emits_putc|by apply IH].
Qed.

Lemma PRINT_UINT_ok mem uvar utype b l x ap txt :
  uvar (utype x) = x mod 2 ^ (8 * len_val l) →
  shows b (len_val l) (x mod 2 ^ (8 * len_val l)) txt →
  emits mem (PRINT_UINT uvar utype (base_val b) (len_val l) (x :: ap) : C _) ap txt.
Proof.
  intros Hx Hs. unfold PRINT_UINT. eapply emits_pure; [apply emits_ret|]. cbn beta iota.
  rewrite Hx, <- (app_nil_r txt). eapply emits_bind; [|apply emits_ret].
  apply print_num_ok; [|by destruct l|done].
  pose proof (Z.mod_pos_bound x (2 ^ (8 * len_val l))) as H.
  assert (0 < 2 ^ (8 * len_val l) <= 2 ^ 64) by (destruct l; done). lia.
Qed.

(** [-var] at its width, extended to uint64. *)
Lemma negated_magnitude bits v : 0 < bits → 2 ^ (bits - 1) <= 2 ^ 63 → - 2 ^ (bits - 1) <= v < 0 →
  u64 (sgn bits (- v)) = magnitude bits v.
Proof.
  intros Hb H63 Hv. unfold magnitude. destruct (Z.eqb_spec v (- 2 ^ (bits - 1))) as [->|Hne].
  - assert (0 < 2 ^ (bits - 1)) by lia.
    assert (E : sgn bits (- - 2 ^ (bits - 1)) = - 2 ^ (bits - 1)).
    { unfold sgn. replace (2 ^ bits) with (2 * 2 ^ (bits - 1)) by (rewrite <- Z.pow_succ_r by lia; f_equal; lia).
      replace (- - 2 ^ (bits - 1) + 2 ^ (bits - 1)) with (2 * 2 ^ (bits - 1)) by lia. rewrite Z.mod_same by lia. lia. }
    rewrite E. unfold u64. rewrite <- (Z.mod_add _ 1) by lia. rewrite Z.mod_small; lia.
  - rewrite sgn_id by lia. rewrite Z.abs_neq by lia. apply u64_id. lia.
Qed.

Lemma PRINT_INT_ok mem type b l x ap txt :
  let v := sgn (8 * len_val l) x in
  sgn (8 * len_val l) (type x) = v → shows b (len_val l) (magnitude (8 * len_val l) v) txt →
  emits mem (PRINT_INT (sgn (8 * len_val l)) type (base_val b) (len_val l) (x :: ap) : C _) ap
    ((if v <? 0 then [45] else []) ++ txt).
Proof.
  intros v Hv Hs. unfold PRINT_INT. eapply emits_pure; [apply emits_ret|]. cbn beta iota zeta.
  rewrite Hv. pose proof (sgn_range (8 * len_val l) x) as Hr. fold v in Hr.
  assert (0 < 8 * len_val l ∧ 2 ^ (8 * len_val l - 1) <= 2 ^ 63 ∧ 1 <= len_val l <= 8) as (Hw & Hw' & Hy)
    by (by destruct l).
  specialize (Hr Hw). rewrite <- (app_nil_r (_ ++ txt)).
  eapply emits_bind; [|apply emits_ret]. destruct (Z.ltb_spec v 0).
  - eapply emits_bind; [by apply emits_putc|]. rewrite (negated_magnitude (8 * len_val l) v) by lia.
    apply print_num_ok; [|lia|done]. unfold magnitude. destruct (Z.eqb_spec v (- 2 ^ (8 * len_val l - 1))); lia.
  - unfold magnitude in Hs. rewrite (proj2 (Z.eqb_neq _ _)), Z.abs_eq in Hs by lia. rewrite u64_id by lia. apply print_num_ok; [lia..|done].
Qed.

(** The [type] switch, one lemma for the signed and one for the unsigned branch. *)
Lemma decide_signed mem b l x ap txt inv unk :
  let v := sgn (8 * len_val l) x in
  shows b (len_val l) (magnitude (8 * len_val l) v) txt →
  emits mem (decide_type 100 (base_val b) (len_val l) (x :: ap) inv unk : C _) (ap, inv, unk)
    ((if v <? 0 then [45] else []) ++ txt).
Proof.
  intros v Hs. subst v. rewrite <- (app_nil_r (_ ++ txt)).
  destruct l; (eapply emits_bind; [|apply emits_ret]).
  - by apply (PRINT_INT_ok mem s64 b LLong); [apply sgn_sgn|].
  - by apply (PRINT_INT_ok mem s32 b LInt); [apply sgn_sgn|].
  - by apply (PRINT_INT_ok mem s32 b LShort); [apply sgn_sgn|].
  - by apply (PRINT_INT_ok mem s32 b LChar); [apply sgn_sgn|].
Qed.

Lemma decide_unsigned mem b l x ap txt inv unk :
  shows b (len_val l) (x mod 2 ^ (8 * len_val l)) txt →
  emits mem (decide_type 117 (base_val b) (len_val l) (x :: ap) inv unk : C _) (ap, inv, unk) txt.
Proof.
  intros Hs. rewrite <- (app_nil_r txt).
  destruct l; (eapply emits_bind; [|apply emits_ret]).
  - by apply (PRINT_UINT_ok mem u64 u64 b LLong); [apply mod_mod_pow|].
  - by apply (PRINT_UINT_ok mem u32 u32 b LInt); [apply mod_mod_pow|].
  - by apply (PRINT_UINT_ok mem u16 u32 b LShort); [apply mod_mod_pow|].
  - by apply (PRINT_UINT_ok mem u8 u32 b LChar); [apply mod_mod_pow|].
Qed.

Lemma decide_bad mem c base len ap inv unk : is_type c = false →
  emits mem (decide_type c base len ap inv unk : C _) (ap, inv, true) [].
Proof.
  unfold is_type. intros H. b2p. unfold decide_type.
  repeat rewrite (proj2 (Z.eqb_neq c _)) by done. apply emits_ret.
Qed.

Lemma decide_string mem base len p txt ap inv unk : p ≠ 0 → text_at mem p (txt ++ [0]) →
  Forall (λ c, 0 < c < 256) txt →
  emits mem (decide_type 115 base len (p :: ap) inv unk : C _) (ap, inv, unk) txt.
Proof.
  intros Hp Ht Hc. rewrite <- (app_nil_r txt).
  eapply emits_bind; [|apply emits_ret]. eapply emits_pure; [apply emits_ret|]. cbn beta iota.
  rewrite (proj2 (Z.eqb_neq p 0)) by done. rewrite <- (app_nil_r txt).
  eapply emits_bind; [|apply emits_ret]. eapply emits_pure; [apply emits_size|].
  apply puts_loop_ok; [done|done|]. apply text_at_size in Ht. rewrite length_app in Ht.
  cbn [length] in Ht. lia.
Qed.

Lemma decide_null mem base len ap inv unk :
  emits mem (decide_type 115 base len (0 :: ap) inv unk : C _) (ap, inv, unk)
    [40; 110; 117; 108; 108; 41].
Proof.
  rewrite <- (app_nil_r [_; _; _; _; _; _]). eapply emits_bind; [|apply emits_ret].
  eapply emits_pure; [apply emits_ret|]. cbn beta iota.
  rewrite <- (app_nil_r [_; _; _; _; _; _]). eapply emits_bind; [|apply emits_ret].
  apply forM_putc. repeat constructor; lia.
Qed.

Lemma decide_pointer mem base len x ap inv unk : 0 <= x < 2 ^ 64 →
  emits mem (decide_type 112 base len (x :: ap) inv unk : C _) (ap, inv, unk)
    ([48; 120] ++ padded_text 16 4 x).
Proof.
  intros Hx. rewrite <- (app_nil_r (_ ++ _)). eapply emits_bind; [|apply emits_ret].
  apply (emits_bind _ _ _ tt _ [48]); [by apply emits_putc|].
  apply (emits_bind _ _ _ tt _ [120]); [by apply emits_putc|].
  eapply emits_pure; [apply emits_ret|]. cbn beta iota.
  rewrite <- (app_nil_r (padded_text _ _ _)). eapply emits_bind; [|apply emits_ret].
  apply (print_padded_ok mem x 16 4 8); [auto|done|lia].
Qed.

Lemma decide_percent mem base len ap inv unk :
  emits mem (decide_type 37 base len ap inv unk : C _) (ap, inv, unk) [37].
Proof.
  rewrite <- (app_nil_r [37]). eapply emits_bind; [|apply emits_ret].
  rewrite <- (app_nil_r [37]). eapply emits_bind; [by apply emits_putc|apply emits_ret].
Qed.

(** ** The loop *)

(** Running [m] sends [out] and goes on as [m']. *)
Definition reaches (mem : gmap Z Z) {A} (m m' : C A) (out : list Z) : Prop :=
  ∀ s, quiet s → c_mem s = mem →
    ∃ s', m s = m' s' ∧ quiet s' ∧ same_rest s s' ∧ sent s' = sent s ++ out.

Lemma reaches_refl mem {A} (m : C A) : reaches mem m m [].
Proof. intros s Hq _. exists s. rewrite app_nil_r. unfold same_rest. auto. Qed.

Lemma reaches_trans mem {A} (m1 m2 m3 : C A) o1 o2 :
  reaches mem m1 m2 o1 → reaches mem m2 m3 o2 → reaches mem m1 m3 (o1 ++ o2).
Proof.
  intros H1 H2 s Hq Hm. destruct (H1 s Hq Hm) as (s1 & E1 & Hq1 & [Hp1 Hm1] & Hs1).
  destruct (H2 s1 Hq1 ltac:(congruence)) as (s2 & E2 & Hq2 & [Hp2 Hm2] & Hs2).
  exists s2. rewrite E1, E2, Hs2, Hs1, app_assoc. unfold same_rest. split_and!; congruence.
Qed.

Lemma reaches_bind mem {A B} (m : C A) (k : A → C B) a out :
  emits mem m a out → reaches mem (m ≫= k) (k a) out.
Proof.
  intros H s Hq Hm. destruct (H s Hq Hm) as (s1 & E1 & ?). exists s1.
  by rewrite (bind_ok _ _ _ _ _ E1).
Qed.

Lemma reaches_pure mem {A B} (m : C A) (k : A → C B) a m' out :
  emits mem m a [] → reaches mem (k a) m' out → reaches mem (m ≫= k) m' out.
Proof. intros H1 H2. apply (reaches_trans mem _ (k a) _ [] out); [by apply reaches_bind|done]. Qed.

(** One directive, whose type character [k] is handled as [H] says. *)
Lemma printf_loop_directive mem fmt i b l k c' args left inv unk unk' fuel out :
  text_at mem (fmt + i) ((37 :: dir_text b l k) ++ [c']) → after_flags b l k = true →
  emits mem (decide_type k (base_val b) (len_val l) args inv unk : C _) (left, inv, unk') out →
  reaches mem (printf_loop (S fuel) fmt i 37 args inv unk)
    (printf_loop fuel fmt (i + Z.of_nat (length (37 :: dir_text b l k))) c' left inv unk') out.
Proof.
  rewrite text_at_app. intros [[_ Ht] [Hc' _]] Ha He. cbn [printf_loop Z.eqb Pos.eqb negb].
  rewrite <- Z.add_assoc in Ht, Hc'. unfold dir_text in *.
  set (n := length (base_text b ++ len_text l)).
  assert (Z.of_nat (length (37 :: base_text b ++ len_text l ++ [k])) = 1 + Z.of_nat n + 1) as El
    by (unfold n; cbn [length]; rewrite !length_app; cbn [length]; lia).
  rewrite El in Hc' |- *.
  enough (emits mem (c ← char_at (fmt + (i + 1));
             '(base, i, c) ← decide_format fmt (i + 1) c;
             '(length, i, c) ← decide_length fmt i c;
             '(ap, inv, unk) ← decide_type c base length args inv unk;
             c ← char_at (fmt + (i + 1));
             mret (i, c, ap, inv, unk)) (i + 1 + Z.of_nat n, c', left, inv, unk') out) as H.
  - intros s Hq Hm. destruct (H s Hq Hm) as (s' & E & Hrest). exists s'. split; [|done].
    replace (i + (1 + Z.of_nat n + 1)) with (i + 1 + Z.of_nat n + 1) by lia.
    revert E. unfold mbind, cmd_bind, mret, cmd_ret.
    repeat (case_match; try done); intros; by simplify_eq.
  - apply (decide_ok mem fmt (i + 1) b l k
      (λ base length i c, '(ap, inv, unk) ← decide_type c base length args inv unk;
        c ← char_at (fmt + (i + 1)); mret (i, c, ap, inv, unk))); [done|done|].
    rewrite <- (app_nil_r out). eapply emits_bind; [exact He|]. cbn beta iota. fold n.
    eapply emits_pure; [apply emits_char|apply emits_ret].
    rewrite <- Hc'. f_equal. lia.
Qed.

(** One item, and a list of items, from any position. *)
Definition steps (mem : gmap Z Z) (x : item) (args left out : list Z) : Prop :=
  ∀ fmt i c c' fuel inv unk,
  text_at mem (fmt + i) (item_text x ++ [c']) → mem !! (fmt + i) = Some c →
  reaches mem (printf_loop (S fuel) fmt i c args inv unk)
    (printf_loop fuel fmt (i + Z.of_nat (length (item_text x))) c' left inv (unk || is_bad x)) out.
Definition runs (mem : gmap Z Z) (its : list item) (args left out : list Z) : Prop :=
  ∀ fmt i c c' rest fuel inv unk,
  text_at mem (fmt + i) (format_text its ++ c' :: rest) → mem !! (fmt + i) = Some c →
  reaches mem (printf_loop (length its + fuel) fmt i c args inv unk)
    (printf_loop fuel fmt (i + Z.of_nat (length (format_text its))) c' left inv
       (unk || existsb is_bad its)) out.

Lemma runs_nil mem args : runs mem [] args args [].
Proof.
  intros fmt i c c' rest fuel inv unk [Hc' _] Hc. assert (c = c') as -> by congruence.
  cbn [existsb format_text length]. rewrite orb_false_r, Z.add_0_r. apply reaches_refl.
Qed.

Lemma format_text_nonempty its (c' : Z) rest : ∃ c l, format_text its ++ c' :: rest = c :: l.
Proof. destruct (format_text its); simpl; eauto. Qed.

Lemma runs_cons mem x its args mid left o1 o2 :
  steps mem x args mid o1 → runs mem its mid left o2 → runs mem (x :: its) args left (o1 ++ o2).
Proof.
  intros Hx Hr fmt i c c' rest fuel inv unk Ht Hc.
  change (format_text (x :: its)) with (item_text x ++ format_text its) in *.
  rewrite <- app_assoc in Ht. apply text_at_app in Ht as [Ht1 Ht2].
  destruct (format_text_nonempty its c' rest) as (c1 & l & E).
  assert (mem !! (fmt + i + Z.of_nat (length (item_text x))) = Some c1) as Hc1
    by (rewrite E in Ht2; apply Ht2).
  eapply reaches_trans.
  - apply Hx with (c' := c1); [|done]. apply text_at_app. split; [done|]. by split.
  - rewrite length_app, Nat2Z.inj_add, Z.add_assoc. cbn [existsb]. rewrite orb_assoc.
    rewrite <- Z.add_assoc in Ht2, Hc1. by eapply Hr.
Qed.

Lemma steps_dir mem x b l k args left out :
  item_text x = 37 :: dir_text b l k → after_flags b l k = true →
  (∀ inv unk, emits mem (decide_type k (base_val b) (len_val l) args inv unk : C _)
    (left, inv, unk || is_bad x) out) →
  steps mem x args left out.
Proof.
  intros Ex Ha He fmt i c c' fuel inv unk Ht Hc. rewrite Ex in *.
  assert (c = 37) as -> by (destruct Ht; congruence). by apply printf_loop_directive.
Qed.

Lemma steps_lit mem c args : 0 < c < 256 → c ≠ 37 → steps mem (Lit c) args args [c].
Proof.
  intros Hr Hp fmt i ch c' fuel inv unk (Hc & Hc' & _) Hch. assert (ch = c) as -> by congruence.
  cbn [printf_loop]. rewrite (proj2 (Z.eqb_neq c 0)), (proj2 (Z.eqb_neq c 37)) by lia. cbn [negb].
  rewrite <- Z.add_assoc in Hc'. rewrite orb_false_r.
  eapply (reaches_trans _ _ _ _ [c] []); [apply reaches_bind, emits_putc; lia|].
  eapply reaches_pure; [by apply emits_char|]. apply reaches_refl.
Qed.

Lemma after_flags_conv b l k : after_flags b l (conv_char k) = true.
Proof. by destruct b, l, k. Qed.

Lemma steps_conv mem b l k args left out :
  (∀ inv unk, emits mem (decide_type (conv_char k) (base_val b) (len_val l) args inv unk : C _)
    (left, inv, unk) out) →
  steps mem (Dir b l k) args left out.
Proof.
  intros He. eapply steps_dir; [done|apply after_flags_conv|]. intros inv unk.
  cbn [is_bad]. rewrite orb_false_r. apply He.
Qed.

Lemma printf_loop_items mem its args out left : renders mem its args out left →
  runs mem its args left out.
Proof.
  intros Hr. induction Hr; rewrite ?app_assoc.
  - apply runs_nil.
  - apply (runs_cons mem _ _ _ args _ [c]); [by apply steps_lit|done].
  - apply (runs_cons mem _ _ _ args _ [37]); [|done]. apply steps_conv, decide_percent.
  - eapply runs_cons; [|done]. apply steps_conv. intros. by apply decide_pointer.
  - eapply runs_cons; [|done]. apply steps_conv. intros. by apply decide_string.
  - eapply runs_cons; [|done]. apply steps_conv. intros. by apply decide_null.
  - eapply runs_cons; [|done]. apply steps_conv. intros. by apply decide_signed.
  - eapply runs_cons; [|done]. apply steps_conv. intros. by apply decide_unsigned.
  - apply (runs_cons mem _ _ _ args _ []); [|done]. eapply steps_dir; [done|done|]. intros inv unk.
    cbn [is_bad]. rewrite orb_true_r. by apply decide_bad.
Qed.

(** The whole of printf up to the end of a prefix [its] of the format. *)
Lemma printf_prefix fmt its c' rest args out left s : quiet s → printf_lk s = 0 → fmt ≠ 0 →
  text_at (c_mem s) fmt (format_text its ++ c' :: rest) → runs (c_mem s) its args left out →
  ∃ s' fuel, quiet s' ∧ printf_lk s' = 1 ∧ c_mem s' = c_mem s ∧ sent s' = sent s ++ out ∧
    printf fmt args s =
      ('(inv, unk) ← printf_loop (S fuel) fmt (Z.of_nat (length (format_text its))) c' left false
                       (existsb is_bad its);
       release_printf ;;
       if (inv : bool) then panic "invalid length"
       else if (unk : bool) then panic "unknown specifier" else mret tt) s'.
Proof.
  intros Hq Hp Hf Ht Hr. unfold printf. rewrite (proj2 (Z.eqb_neq fmt 0)) by done.
  destruct (format_text_nonempty its c' rest) as (c & l & E).
  assert (c_mem s !! fmt = Some c) as Hc by (rewrite E in Ht; apply Ht).
  rewrite (bind_ok _ _ _ c s) by (unfold char_at; by rewrite Hc).
  rewrite (bind_ok _ _ _ tt (set_printf_lk 1 s)) by (unfold acquire_printf; by rewrite Hp). csimp.
  pose proof (text_at_size _ _ _ Ht) as Hsz. rewrite length_app in Hsz. cbn [length] in Hsz.
  assert (length its <= length (format_text its))%nat as Hle.
  { clear. induction its as [|x its IH]; [done|].
    change (format_text (x :: its)) with (item_text x ++ format_text its).
    rewrite length_app. destruct x; cbn [item_text length]; lia. }
  change (c_mem (set_printf_lk 1 s)) with (c_mem s).
  replace (S (size (c_mem s))) with (length its + S (size (c_mem s) - length its))%nat by lia.
  destruct (Hr fmt 0 c c' rest (S (size (c_mem s) - length its)) false false)
    with (set_printf_lk 1 s) as (s' & E' & Hq' & [Hp' Hm'] & Hs');
    [by rewrite Z.add_0_r|by rewrite Z.add_0_r|done|done|].
  exists s', (size (c_mem s) - length its)%nat. split_and!; [done..|].
  unfold mbind at 1 2, cmd_bind at 1 2. by rewrite E'.
Qed.

(** A format that runs to its end. *)
Lemma printf_runs fmt its args out left s : quiet s → printf_lk s = 0 → fmt ≠ 0 →
  text_at (c_mem s) fmt (format_text its ++ [0]) → runs (c_mem s) its args left out →
  ∃ s', printf fmt args s =
      (if existsb is_bad its then Panic "unknown specifier" s' else Ok tt s') ∧
    sent s' = sent s ++ out ∧ quiet s' ∧ printf_lk s' = 0 ∧ c_mem s' = c_mem s.
Proof.
  intros Hq Hp Hf Ht Hr.
  destruct (printf_prefix fmt its 0 [] args out left s) as (s' & fuel & Hq' & Hp' & Hm' & Hs' & E);
    [done..|].
  exists (set_printf_lk 0 s'). rewrite E. split; [|by split_and!; try apply Hq'].
  cbn [printf_loop Z.eqb]. unfold release_printf. csimp. by destruct (existsb is_bad its).
Qed.

(** ** Theorems *)


(** Print_uint round trip.  For every 64-bit number and every base from 2 to
    16, print_uint sends the digits of the number in that base, most significant
    first and without leading zeros (reading them back gives the number), and its
    buffer of 64 characters never overflows. *)
Theorem print_uint_roundtrip num base s : 2 <= base <= 16 → 0 <= num < 2 ^ 64 → quiet s →
  ∃ s' ds, print_uint num base s = Ok tt s' ∧ sent s' = sent s ++ (digit_char <$> ds) ∧
    of_digits base ds = num ∧ Forall (λ d, 0 <= d < base) ds ∧
    (head ds = Some 0 → num = 0) ∧ (1 <= length ds <= 64)%nat.
Proof.
  intros Hb Hn Hq. destruct (print_uint_ok (c_mem s) num base Hb Hn) as (ds & Hr & Hl & He).
  destruct (He s Hq eq_refl) as (s' & E & _ & _ & Hs). exists s', ds.
  destruct Hr as (Hv & Hd & Hne & Hh). split_and!; try done.
  - intros H0. rewrite (Hh H0) in Hv. by rewrite <- Hv.
  - destruct ds; [done|]. simpl. lia.
Qed.

(** Print_padded round trip.  In base 2 or 16 it sends exactly the digits of
    the low [bytes] bytes of the number, zeros included: with the separators
    removed, the digits read back give the number modulo the width. *)
Theorem print_padded_roundtrip num base bits bytes s :
  (base = 2 ∧ bits = 1) ∨ (base = 16 ∧ bits = 4) → 0 <= num < 2 ^ 64 → 1 <= bytes <= 8 → quiet s →
  ∃ s' out ds, print_padded num base bytes s = Ok tt s' ∧ sent s' = sent s ++ out ∧
    filter (λ c, c ≠ 95) out = digit_char <$> ds ∧
    Z.of_nat (length ds) = bytes * (8 / bits) ∧ of_digits base ds = num mod 2 ^ (8 * bytes).
Proof.
  intros Hb Hn Hy Hq.
  destruct (print_padded_ok (c_mem s) num base bits bytes Hb Hn Hy s Hq eq_refl)
    as (s' & E & _ & _ & Hs).
  exists s', (padded_text (Z.to_nat (bytes * (8 / bits))) bits num),
    (padded_digits (Z.to_nat (bytes * (8 / bits))) bits num).
  assert (0 < bits ∧ bits * (8 / bits) = 8 ∧ 2 ^ bits = base) as (Hp & Hm & Hbase)
    by (destruct Hb as [[-> ->]|[-> ->]]; done).
  assert (0 < 8 / bits) by nia.
  split_and!; [done|done|apply padded_text_digits| |].
  - rewrite padded_digits_length. nia.
  - rewrite <- Hbase, padded_digits_value, Z2Nat.id by nia. do 2 f_equal. nia.
Qed.

(** The most negative value of 8, 16 or 32 bits is printed wrongly in decimal: [-var]
    does not fit the type of [var], stays negative and is sign-extended, so that printf
    shows 2^64 - 2^(width-1) after the sign. *)
Theorem printf_most_negative fmt l x s :
  quiet s → printf_lk s = 0 → fmt ≠ 0 →
  text_at (c_mem s) fmt (format_text [Dir FDec l KSigned] ++ [0]) →
  sgn (8 * len_val l) x = - 2 ^ (8 * len_val l - 1) →
  ∃ s' txt, printf fmt [x] s = Ok tt s' ∧ sent s' = sent s ++ [45] ++ txt ∧
    shows FDec (len_val l) (2 ^ 64 - 2 ^ (8 * len_val l - 1)) txt.
Proof.
  intros Hq Hp Hf Ht Hx. set (n := 2 ^ 64 - 2 ^ (8 * len_val l - 1)).
  assert (0 <= n < 2 ^ 64) as Hn by (destruct l; by vm_compute).
  destruct (print_uint_ok (U := U) (c_mem s) n 10) as (ds & Hr & _); [lia|done|].
  assert (Hs : shows FDec (len_val l) n (digit_char <$> ds)) by by exists ds.
  pose proof (R_signed (c_mem s) FDec l x (digit_char <$> ds) [] [] [] []) as R. cbn zeta in R.
  rewrite Hx in R. unfold magnitude in R. rewrite Z.eqb_refl in R. specialize (R Hs (R_end _ _)).
  replace (- 2 ^ (8 * len_val l - 1) <? 0) with true in R by by destruct l.
  destruct (printf_runs fmt _ _ _ _ s Hq Hp Hf Ht (printf_loop_items _ _ _ _ _ R)) as (s' & E & Hs' & _).
  rewrite app_nil_r in Hs'. by exists s', (digit_char <$> ds).
Qed.

(** A format that ends in a lone percent sign makes printf read past the terminator: the
    null byte is taken for the type, and the loop goes on with the byte after the
    string.  When that byte is not mapped the hart faults, with the printf lock
    still held. *)
Theorem printf_trailing_percent fmt its args out left s :
  quiet s → printf_lk s = 0 → fmt ≠ 0 →
  text_at (c_mem s) fmt (format_text its ++ [37; 0]) → renders (c_mem s) its args out left →
  let p := fmt + Z.of_nat (length (format_text its)) + 2 in
  c_mem s !! p = None →
  ∃ s', printf fmt args s = Fault p s' ∧ printf_lk s' = 1 ∧ sent s' = sent s ++ out.
Proof.
  intros Hq Hp Hf Ht Hr p Hnone.
  destruct (printf_prefix fmt its 37 [0] args out left s) as (s' & fuel & Hq' & Hp' & Hm' & Hs' & E);
    [done..|by apply printf_loop_items|].
  exists s'. rewrite E. split; [|done].
  apply text_at_app in Ht as [_ (_ & H0 & _)]. rewrite <- !Z.add_assoc in H0.
  apply bind_fault. cbn [printf_loop Z.eqb Pos.eqb negb].
  rewrite (bind_ok _ _ _ 0 s') by (unfold char_at; by rewrite Hm', H0).
  set (n := Z.of_nat _) in *.
  rewrite (bind_ok _ _ _ (10, n + 1, 0) s') by done. cbn beta iota.
  rewrite (bind_ok _ _ _ (4, n + 1, 0) s') by done. cbn beta iota.
  rewrite (bind_ok _ _ _ (left, false, true) s') by done. cbn beta iota.
  apply bind_fault. unfold char_at. replace (fmt + (n + 1 + 1)) with p by (unfold p; lia).
  by rewrite Hm', Hnone.
Qed.
End printf.

(** ** Witnesses, on the simulated UART *)

Definition str_mem (p : Z) (l : list Z) : gmap Z Z :=
  list_to_map (imap (λ k c, (p + Z.of_nat k, c)) l).

(** A console after init_uart, with [l] at address 4096. *)
Definition sim_console (l : list Z) : console sim_uart :=
  mk_console (mk_sim (mk_view 1 7 3 0 3 0 []) 0) 0 0 (str_mem 4096 l).

(** "%d=%xhhu%b?" with the arguments -42 and 511: "-42=ff", then a panic. *)
Definition sim_items : list item :=
  [Dir FDec LInt KSigned; Lit 61; Dir FHex LChar KUnsigned; Bad FBin LInt 63].

Lemma sim_renders mem : renders mem sim_items [2 ^ 64 - 42; 511] [45; 52; 50; 61; 102; 102] [].
Proof.
  apply (R_signed mem FDec LInt (2 ^ 64 - 42) [52; 50] _ _ [61; 102; 102] []).
  { change (magnitude _ _) with 42. exists [4; 2]. split; [|done]. split_and!; [done|by repeat constructor; lia|done|done]. }
  apply R_lit; [done|done|].
  apply (R_unsigned mem FHex LChar 511 [102; 102] _ [] []); [done|].
  apply R_bad; [done|done|done|]. apply R_end.
Qed.


Lemma print_uint_roundtrip_witness :
  ∃ s' ds, print_uint 1234 10 (sim_console []) = Ok tt s' ∧ of_digits 10 ds = 1234 ∧
    sent s' = digit_char <$> ds.
Proof.
  destruct (print_uint_roundtrip 1234 10 (sim_console [])) as (s' & ds & E & Hs & Hv & _);
    [lia|lia|by split|]. exists s', ds. auto.
Defined.

Lemma print_padded_roundtrip_witness :
  ∃ s' out ds, print_padded 0x1ff 2 2 (sim_console []) = Ok tt s' ∧ sent s' = out ∧
    Z.of_nat (length ds) = 16 ∧ of_digits 2 ds = 511.
Proof.
  destruct (print_padded_roundtrip 0x1ff 2 1 2 (sim_console []))
    as (s' & out & ds & E & Hs & _ & Hl & Hv); [by left|lia|lia|by split|].
  exists s', out, ds. auto.
Defined.

Lemma printf_most_negative_witness :
  ∃ s' txt, printf 4096 [2 ^ 64 - 128] (sim_console [37; 104; 104; 100; 0]) = Ok tt s' ∧
    sent s' = [] ++ [45] ++ txt ∧ shows FDec 1 18446744073709551488 txt.
Proof.
  destruct (printf_most_negative 4096 LChar (2 ^ 64 - 128) (sim_console [37; 104; 104; 100; 0]))
    as (s' & txt & E & Hs & Ht);
    [by split|reflexivity|done|by vm_compute|by vm_compute|].
  exists s', txt. split; [exact E|]. split; [exact Hs|].
  replace 18446744073709551488 with (2 ^ 64 - 2 ^ (8 * len_val LChar - 1)) by reflexivity. exact Ht.
Defined.

Lemma printf_trailing_percent_witness :
  ∃ s', printf 4096 [] (sim_console [72; 105; 37; 0]) = Fault 4100 s' ∧ printf_lk s' = 1 ∧
    sent s' = [72; 105].
Proof.
  destruct (printf_trailing_percent 4096 [Lit 72; Lit 105] [] [72; 105] []
    (sim_console [72; 105; 37; 0])) as (s' & E & Hl & Hs);
    [by split|reflexivity|done|by vm_compute| |by vm_compute|exists s'; split_and!; [exact E|exact Hl|exact Hs]].
  apply R_lit; [done|done|]. apply R_lit; [done|done|]. apply R_end.
Defined.

(** ** test/printf_test.c

    The test program's calls (but the one that prints an address) with the outputs
    it announces. *)

(** What printf sends for the format at 4096, with the string [arg] at 8192. *)
Definition printed (fmt : string) (arg : string) (args : list Z) : option (list Z) :=
  let mem := str_mem 4096 (chars fmt ++ [0]) ∪ str_mem 8192 (chars arg ++ [0]) in
  match printf 4096 args (mk_console (mk_sim (mk_view 1 7 3 0 3 0 []) 0) 0 0 mem) with
  | Ok _ s => Some (sent s)
  | _ => None
  end.

Definition printf_test : list (string * list Z * string) :=
  [ ("%xld", [0xffffffffffffffff], "-0000000000000001");
    ("%xd", [0xffffffff7fffffff], "7fffffff");
    ("%xhd", [0xffffffff7fffffff], "-0001");
    ("%xhhd", [0xffffffff7fffffff], "-01");
    ("%xlu", [0xffffffff7fffffff], "ffffffff7fffffff");
    ("%xu", [0xffffffff7fffffff], "7fffffff");
    ("%xhu", [0xffffffff7fffffff], "ffff");
    ("%xhhu", [0xffffffff7fffffff], "ff");
    ("%bhd", [0xffff], "-0000000000000001");
    ("%bhhd", [0xffff], "-00000001");
    ("%bhhu", [0xfff0], "11110000");
    ("%d %d %d %d %d", [0; u64 (-1); 1; 1234; u64 (-1234)], "0 -1 1 1234 -1234");
    ("%hhd %hd", [0x100; 0x10000], "0 0");
    ("%s", [8192], "Hello world %s");
    ("%s", [0], "(null)") ]%string.

(** Every announced output is right but that of the ninth call: the code groups
    binary digits by eight. *)
Theorem printf_test_outputs :
  (λ '(fmt, args, expected),
     bool_decide (printed fmt "Hello world %s" args = Some (chars expected))) <$> printf_test
  = [true; true; true; true; true; true; true; true; false; true; true; true; true; true; true] ∧
  printed "%bhd" "" [0xffff] = Some (chars "-00000000_00000001").
Proof. split; vm_compute; reflexivity. Qed.
