(* ===== verification/Keygrab.v ===== *)
(** * Keygrab: the demonstration guest of guest/keygrab

    The guest's drivers and its interrupt handler, written against the registers
    it sees ([Mmio]), and the platform a VM gives it: a virtual PLIC that behaves
    as the specification of VplicSpec.v, and a serial port of its own. *)

From S2P Require Import Prelude Layout Bits Memory Machine Plic Vcpu Vplic VplicSpec VplicTheorems Uart VmConfig Concrete.

(** include/dtb.h of the guest. *)
Definition KG_SERIAL : Z := 2 * 0x10000000.
Definition KG_SERIAL_IRQ_NUM := 11.
Definition KG_PLIC := 0xc000000.

(** The accesses of the guest's code: words of the PLIC by word index, bytes of the
    serial port by register number. *)
Class Mmio (S : Type) := {
  plic_lw : Z → cmd S Z;
  plic_sw : Z → Z → cmd S unit;
  uart_lb : Z → cmd S Z;
  uart_sb : Z → Z → cmd S unit;
  uart_polls : S → nat
}.

(** ** driver/plic.c of the guest *)

Section drivers.
Context {S : Type} {Mm : Mmio S}.

Definition kg_plic_set_priority (interrupt_source priority : Z) : cmd S unit :=
  if (interrupt_source <? 1) || (1023 <? interrupt_source) then mret tt
  else plic_sw interrupt_source priority.

(** A plain read-modify-write, where the hypervisor's driver uses an AMO. *)
Definition kg_plic_set_enabled (context interrupt_source enable : Z) : cmd S unit :=
  if (interrupt_source <? 1) || (1023 <? interrupt_source) then mret tt
  else
    let source_offset := interrupt_source / (4 * 8) in
    let source_mask := u32 (1 .<< (interrupt_source mod (4 * 8))) in
    if (context <? 0) || (15871 <? context) then mret tt
    else
      let context_offset := 1024 / (4 * 8) in
      let offset := 0x2000 / 4 in
      let offset := offset + context_offset * context in
      let offset := offset + source_offset in
      v ← plic_lw offset;
      if enable =? 0 then plic_sw offset (v .& ~32 source_mask)
      else plic_sw offset (v .| source_mask).

Definition kg_plic_set_threshold (context threshold : Z) : cmd S unit :=
  if (context <? 0) || (15871 <? context) then mret tt
  else
    let context_offset := 0x1000 / 4 in
    let offset := 0x200000 / 4 in
    plic_sw (offset + context_offset * context) threshold.

Definition kg_plic_claim (context : Z) : cmd S Z :=
  if (context <? 0) || (15871 <? context) then mret 0
  else
    let context_offset := 0x1000 / 4 in
    let offset := 0x200004 / 4 in
    plic_lw (offset + context_offset * context).

Definition kg_plic_complete (context interrupt_id : Z) : cmd S unit :=
  if (context <? 0) || (15871 <? context) then mret tt
  else
    let context_offset := 0x1000 / 4 in
    let offset := 0x200004 / 4 in
    plic_sw (offset + context_offset * context) interrupt_id.

(** ** driver/uart.c of the guest: no lock, the guest has one hart *)

(** [while ((R_REG(LSR) & LSR_THR_EMPTY) == 0);] *)
Fixpoint kg_wait_thr (fuel : nat) : cmd S unit :=
  match fuel with
  | O => hang
  | Datatypes.S fuel' => v ← uart_lb LSR; if v .& LSR_THR_EMPTY =? 0 then kg_wait_thr fuel' else mret tt
  end.

Definition kg_uartputc (c : Z) : cmd S unit :=
  n ← gets uart_polls;
  kg_wait_thr (Datatypes.S n) ;;
  uart_sb THR c.

Definition kg_init_uart : cmd S unit :=
  uart_sb IER 0 ;;
  uart_sb LCR LCR_DLAB ;;
  uart_sb DLL DLL_38400 ;;
  uart_sb DLM DLM_38400 ;;
  uart_sb LCR LCR_EIGHT_BITS ;;
  uart_sb FCR (FCR_ENABLE_FIFO .| FCR_CLEAR_RECEIVE_FIFO .| FCR_CLEAR_TRANSMIT_FIFO) ;;
  uart_sb MCR 0 ;;
  uart_sb IER IER_RECEIVED_DATA_AVAILABLE.

(** ** core/main.S: the calls of _start and of the trap handler; [tp] holds the
    hart number the guest was started with *)

Definition kg_context (tp : Z) : Z := u64 (u64 (tp .<< 1) + 1).

Definition kg_start (tp : Z) : cmd S unit :=
  kg_init_uart ;;
  kg_uartputc 0x44 ;;
  kg_plic_set_priority KG_SERIAL_IRQ_NUM 1 ;;
  kg_plic_set_enabled (s32 (kg_context tp)) KG_SERIAL_IRQ_NUM 1 ;;
  kg_plic_set_threshold (s32 (kg_context tp)) 0.

Definition kg_trap (tp : Z) : cmd S unit :=
  i ← kg_plic_claim (s32 (kg_context tp));
  if i =? 0 then mret tt
  else
    c ← uart_lb 0;
    kg_uartputc c ;;
    kg_plic_complete (s32 (kg_context tp)) i ;;
    kg_uartputc 10.
End drivers.

(** ** The platform of a VM *)

(** [g_last] is the interrupt the hypervisor claimed for the guest; the devices
    are the physical PLIC and the serial port that is passed through. *)
Record guest (D U : Type) := mk_guest { g_last : Z; g_plic : D; g_uart : U }.
Arguments mk_guest {D U}. Arguments g_last {D U}. Arguments g_plic {D U}. Arguments g_uart {D U}.

(** What the data sheet says of the receiver. *)
Class UartRx (U : Type) {UD : UartDevice U} {UL : UartLaws U} : Prop := {
  uart_rbr_view u : dlab (view u) = false → view (uart_read 0 u).2 = view u;
  uart_rbr_byte u : dlab (view u) = false → 0 <= (uart_read 0 u).1 < 256
}.

Section platform.
Context {D U : Type} {P : PlicDevice D} {UD : UartDevice U} {UL : UartLaws U}.
Context (devs : list (option mmio_dev)) (vctx pctx : Z).
Implicit Type g : guest D U.

(** The traps of the guest's accesses to its PLIC page are emulated as
    TrapEntryTheorems.v shows; those to the serial port reach the device. *)
#[export] Instance vm_mmio : Mmio (guest D U) := {|
  plic_lw i g := match vplic_read devs vctx pctx (g_last g) (g_plic g) (4 * i) with
                 | Some x => Ok x g
                 | None => Panic "Bad PLIC access" g
                 end;
  plic_sw i v g := match vplic_write_ops devs vctx pctx (g_last g) (4 * i) (u32 v) with
                   | Some ops => Ok tt (mk_guest (if completes devs vctx (g_last g) (4 * i) (u32 v) then 0 else g_last g)
                                          (run_ops ops (g_plic g)) (g_uart g))
                   | None => Panic "Bad PLIC access" g
                   end;
  uart_lb r g := let '(v, u) := uart_read r (g_uart g) in Ok v (mk_guest (g_last g) (g_plic g) u);
  uart_sb r v := modify (λ g, mk_guest (g_last g) (g_plic g) (uart_write r (u8 v) (g_uart g)));
  uart_polls g := uart_busy (g_uart g)
|}.
End platform.
