(* ===== verification/KeygrabTheorems.v ===== *)
(** * KeygrabTheorems: the demonstration guest on the virtual platform *)

From S2P Require Import Prelude Layout Bits Memory Machine Plic Vcpu Vplic VplicSpec VplicTheorems Uart VmConfig Concrete Keygrab.

Section guest.
Context {D U : Type} {P : PlicDevice D} {UD : UartDevice U} {UL : UartLaws U}.
Context (devs : list (option mmio_dev)) (vctx pctx : Z).
Implicit Types (g : guest D U) (dev : mmio_dev) (u : U).
#[local] Existing Instance vm_mmio.

(** ** The serial port *)

Definition with_uart u g : guest D U := mk_guest (g_last g) (g_plic g) u.

Lemma kg_wait_thr_ok fuel g : (uart_busy (g_uart g) < fuel)%nat →
  ∃ u, kg_wait_thr (Mm := vm_mmio devs vctx pctx) fuel g = Ok tt (with_uart u g) ∧ thr_empty u ∧ view u = view (g_uart g).
Proof.
  revert g. induction fuel as [|fuel IH]; intros g Hf; [lia|]. cbn [kg_wait_thr].
  pose proof (uart_lsr_view (g_uart g)) as Hv. pose proof (uart_lsr_empty (g_uart g)) as He.
  pose proof (uart_lsr_busy (g_uart g)) as Hb. unfold truthy in *. unfold mbind, cmd_bind. cbn [uart_lb vm_mmio].
  destruct (uart_read LSR (g_uart g)) as [v u]; simpl in *.
  destruct (v .& LSR_THR_EMPTY =? 0); simpl in *.
  - destruct (IH (with_uart u g)) as (u' & Hr & Ht & Hv'); [specialize (Hb eq_refl); simpl; lia|].
    exists u'. unfold with_uart in Hr. rewrite Hr. split_and!; [done|done|]. simpl in *. congruence.
  - by exists u; auto.
Qed.

Lemma kg_uartputc_ok c g : dlab (view (g_uart g)) = false →
  ∃ u, kg_uartputc (Mm := vm_mmio devs vctx pctx) c g = Ok tt (with_uart u g) ∧
    dlab (view u) = false ∧ v_sent (view u) = v_sent (view (g_uart g)) ++ [u8 c].
Proof.
  intros Hd. unfold kg_uartputc. rewrite bind_gets. cbn [uart_polls vm_mmio].
  destruct (kg_wait_thr_ok (S (uart_busy (g_uart g))) g) as (u & Hr & Ht & Hv); [lia|].
  erewrite bind_ok by exact Hr. cbn [uart_sb vm_mmio]. rewrite modify_run. cbn [g_uart with_uart].
  eexists. split; [reflexivity|]. rewrite uart_write_view, Hv by done.
  destruct (view (g_uart g)) eqn:E. unfold view_write, THR. simpl Z.eqb. cbn iota. rewrite Hd. done.
Qed.

Lemma kg_init_uart_ok g :
  ∃ u, kg_init_uart (Mm := vm_mmio devs vctx pctx) g = Ok tt (with_uart u g) ∧
    view u = mk_view 1 7 3 0 3 0 (v_sent (view (g_uart g))).
Proof.
  destruct (init_uart_configures (mk_console (g_uart g) 0 0 ∅)) as (u & Hr & Hv). exists u. split; [|exact Hv].
  assert (E : set_uart u (mk_console (g_uart g) 0 0 ∅) = mk_console u 0 0 ∅) by done. rewrite E in Hr.
  unfold init_uart, W_REG in Hr. revert Hr. csimp. cbn [c_uart set_uart]. intros [= <-].
  unfold kg_init_uart. cbn [uart_sb vm_mmio]. csimp. done.
Qed.

(** ** The virtual PLIC *)

Lemma kg_context_ok tp : 0 <= tp < 2 → s32 (kg_context tp) = 2 * tp + 1.
Proof.
  intros Ht. unfold kg_context. rewrite Z.shiftl_mul_pow2 by lia. change (2 ^ 1) with 2.
  rewrite !u64_id by (rewrite ?u64_id by lia; lia). rewrite s32_id by lia. lia.
Qed.

Lemma decode_threshold ctx : 0 <= ctx <= 3 → decode (threshold_off ctx) = RThreshold ctx.
Proof.
  intros Hc. unfold decode, threshold_off. rewrite !(proj2 (Z.ltb_ge _ _)) by lia.
  replace (0x200000 + 0x1000 * ctx - 0x200000) with (ctx * 0x1000) by lia.
  rewrite Z.div_mul, Z.mod_mul by lia. simpl. by rewrite (proj2 (Z.leb_gt _ _)) by lia.
Qed.

Lemma decode_enable ctx : 0 <= ctx <= 3 → decode (0x2000 + 0x80 * ctx) = REnable ctx 0.
Proof.
  intros Hc. unfold decode. rewrite !(proj2 (Z.ltb_ge _ _)) by lia.
  rewrite (proj2 (Z.ltb_lt _ 0x200000)) by lia.
  replace (0x2000 + 0x80 * ctx - 0x2000) with (ctx * 0x80) by lia.
  by rewrite Z.div_mul, Z.mod_mul by lia.
Qed.

(** The bits of the enable word the guest writes back: its own one is set, the
    others are what it read. *)
Definition wanted (d : D) (i : Z) : bool :=
  (i =? KG_SERIAL_IRQ_NUM) || phys_enabled d pctx (virt_to_phys_irq devs i).

Lemma wanted_word d i : 0 <= i < 32 →
  Z.testbit (u32 (word_of 32 (λ i, phys_enabled d pctx (virt_to_phys_irq devs (0 * 32 + i)))
    .| u32 (1 .<< (KG_SERIAL_IRQ_NUM mod (4 * 8))))) i = wanted d i.
Proof.
  intros Hi. change (u32 (1 .<< (KG_SERIAL_IRQ_NUM mod (4 * 8)))) with (2 ^ 11).
  unfold u32, mask. rewrite Z.mod_pow2_bits_low, Z.lor_spec, testbit_word_of by lia.
  rewrite Z.pow2_bits_eqb, (proj2 (Z.ltb_lt _ _)), orb_comm, (Z.eqb_sym 11) by lia. done.
Qed.

(** The accesses of the start code to the physical PLIC, [d] being the PLIC. *)
Definition start_ops dev (d : D) : list plic_op :=
  PStore (priority_off (phys_irq dev)) 1 ::
  (i ← seqZ 0 32; enable_op pctx (virt_to_phys_irq devs i)
     (wanted (dev_store (priority_off (phys_irq dev)) 1 d) i)) ++
  [PStore (threshold_off pctx) 0].

Lemma kg_set_priority_ok dev g : live_irq devs dev → virt_irq dev = KG_SERIAL_IRQ_NUM →
  kg_plic_set_priority (Mm := vm_mmio devs vctx pctx) KG_SERIAL_IRQ_NUM 1 g =
  Ok tt (mk_guest (g_last g) (dev_store (priority_off (phys_irq dev)) 1 (g_plic g)) (g_uart g)).
Proof.
  intros Hl Hv. unfold kg_plic_set_priority. change ((KG_SERIAL_IRQ_NUM <? 1) || _) with false. cbn iota.
  cbn [plic_sw vm_mmio]. unfold vplic_write_ops, completes. change (decode (4 * KG_SERIAL_IRQ_NUM)) with (RPriority 11).
  cbn iota. assert (E : virt_to_phys_irq devs 11 = phys_irq dev).
  { destruct Hl as (Hd & Hu & _). change 11 with KG_SERIAL_IRQ_NUM. rewrite <- Hv. unfold virt_to_phys_irq.
    apply irq_loop_unique; [done|]. intros d' Hd'. by apply Hu. }
  rewrite E. destruct Hl as (_ & _ & Hp & _).
  assert (bad_source (phys_irq dev) = false) as -> by (unfold bad_source; lia). done.
Qed.

Lemma kg_set_enabled_ok g : 0 <= vctx <= 3 →
  kg_plic_set_enabled (Mm := vm_mmio devs vctx pctx) vctx KG_SERIAL_IRQ_NUM 1 g =
  Ok tt (mk_guest (g_last g)
    (run_ops (i ← seqZ 0 32; enable_op pctx (virt_to_phys_irq devs i) (wanted (g_plic g) i)) (g_plic g)) (g_uart g)).
Proof.
  intros Hc. unfold kg_plic_set_enabled. change ((KG_SERIAL_IRQ_NUM <? 1) || _) with false. cbn iota.
  assert ((vctx <? 0) || (15871 <? vctx) = false) as -> by lia.
  assert (E : 4 * (0x2000 / 4 + 1024 / (4 * 8) * vctx + KG_SERIAL_IRQ_NUM / (4 * 8)) = 0x2000 + 0x80 * vctx).
  { change (0x2000 / 4) with 0x800. change (1024 / (4 * 8)) with 32. change (KG_SERIAL_IRQ_NUM / (4 * 8)) with 0. lia. }
  unfold mbind at 1, cmd_bind. cbn [plic_lw plic_sw vm_mmio]. rewrite E. unfold vplic_read.
  rewrite decode_enable, Z.eqb_refl by done. simpl (1 =? 0). cbn iota.
  unfold vplic_write_ops, completes. rewrite decode_enable, Z.eqb_refl by done.
  do 3 f_equal. apply Forall_bind_ext, Forall_forall. intros i Hi%elem_of_seqZ.
  by rewrite wanted_word by lia.
Qed.

Lemma kg_set_threshold_ok g : 0 <= vctx <= 3 →
  kg_plic_set_threshold (Mm := vm_mmio devs vctx pctx) vctx 0 g =
  Ok tt (mk_guest (g_last g) (dev_store (threshold_off pctx) 0 (g_plic g)) (g_uart g)).
Proof.
  intros Hc. unfold kg_plic_set_threshold. assert ((vctx <? 0) || (15871 <? vctx) = false) as -> by lia.
  assert (E : 4 * (0x200000 / 4 + 0x1000 / 4 * vctx) = threshold_off vctx).
  { unfold threshold_off. change (0x200000 / 4) with 0x80000. change (0x1000 / 4) with 0x400. lia. }
  cbn [plic_sw vm_mmio]. rewrite E. unfold vplic_write_ops, completes.
  by rewrite decode_threshold, Z.eqb_refl by done.
Qed.

Lemma claim_word ctx : 4 * (0x200004 / 4 + 0x1000 / 4 * ctx) = claim_off ctx.
Proof. unfold claim_off. change (0x200004 / 4) with 0x80001. change (0x1000 / 4) with 0x400. lia. Qed.

Lemma kg_claim_ok g : 0 <= vctx <= 3 →
  kg_plic_claim (Mm := vm_mmio devs vctx pctx) vctx g = Ok (u32 (phys_to_virt_irq devs (s32 (g_last g)))) g.
Proof.
  intros Hc. unfold kg_plic_claim. assert ((vctx <? 0) || (15871 <? vctx) = false) as -> by lia.
  cbn [plic_lw vm_mmio]. rewrite claim_word. unfold vplic_read. by rewrite decode_claim, Z.eqb_refl by done.
Qed.

Lemma kg_complete_ok dev g : 0 <= vctx <= 3 → live_irq devs dev → g_last g = phys_irq dev →
  kg_plic_complete (Mm := vm_mmio devs vctx pctx) vctx (virt_irq dev) g =
  Ok tt (mk_guest 0 (dev_store (claim_off pctx) (phys_irq dev) (g_plic g)) (g_uart g)).
Proof.
  intros Hc Hl Hg. unfold kg_plic_complete. assert ((vctx <? 0) || (15871 <? vctx) = false) as -> by lia.
  cbn [plic_sw vm_mmio]. rewrite claim_word. unfold vplic_write_ops, completes.
  assert (u32 (virt_irq dev) = virt_irq dev) as -> by (apply u32_id; destruct Hl as (_ & _ & _ & ?); lia).
  rewrite decode_claim, Z.eqb_refl, live_phys, Hg, Z.eqb_refl by done. done.
Qed.

(** ** The guest *)

(** The start code of the keygrab guest, on a virtual PLIC of its VM, sets up its
    serial port (38400 baud, 8 bits, received-data interrupt), sends one D and
    makes exactly these accesses to the physical PLIC: priority 1 for the physical
    interrupt behind its serial line, the enable bits of the VM's own interrupts
    in the physical context of its hart, of which only the serial line's changes,
    and threshold 0 for that context. *)
Theorem keygrab_start_configures dev g tp : 0 <= tp < 2 → vctx = 2 * tp + 1 →
  live_irq devs dev → virt_irq dev = KG_SERIAL_IRQ_NUM →
  ∃ u, kg_start (Mm := vm_mmio devs vctx pctx) tp g =
         Ok tt (mk_guest (g_last g) (run_ops (start_ops dev (g_plic g)) (g_plic g)) u) ∧
    dlab (view u) = false ∧ v_sent (view u) = v_sent (view (g_uart g)) ++ [0x44].
Proof.
  intros Ht Hv Hl Hi. unfold kg_start. rewrite kg_context_ok, <- Hv by done.
  destruct (kg_init_uart_ok g) as (u & Hr & Hu). rewrite (bind_ok _ _ _ _ _ Hr).
  destruct (kg_uartputc_ok 0x44 (with_uart u g)) as (u' & Hr' & Hd & Hs); [by simpl; rewrite Hu|].
  rewrite (bind_ok _ _ _ _ _ Hr'), (bind_ok _ _ _ _ _ (kg_set_priority_ok dev _ Hl Hi)).
  assert (Hc : 0 <= vctx <= 3) by lia.
  rewrite (bind_ok _ _ _ _ _ (kg_set_enabled_ok _ Hc)), (kg_set_threshold_ok _ Hc).
  exists u'. split; [|split; [exact Hd|by rewrite Hs; simpl; rewrite Hu]].
  unfold start_ops, run_ops. cbn [foldl]. rewrite foldl_app. reflexivity.
Qed.

Context {UR : UartRx U}.

(** When the hypervisor has forwarded the serial interrupt, the guest's handler
    reads the byte the serial port received, sends it back followed by a newline,
    completes the physical interrupt in the context of its hart, which is its only
    access to the physical PLIC, and the claim is released. *)
Theorem keygrab_echoes dev g tp : 0 <= tp < 2 → vctx = 2 * tp + 1 → live_irq devs dev →
  g_last g = phys_irq dev → dlab (view (g_uart g)) = false →
  ∃ u, kg_trap (Mm := vm_mmio devs vctx pctx) tp g =
         Ok tt (mk_guest 0 (dev_store (claim_off pctx) (phys_irq dev) (g_plic g)) u) ∧
    dlab (view u) = false ∧
    v_sent (view u) = v_sent (view (g_uart g)) ++ [(uart_read 0 (g_uart g)).1; 10].
Proof.
  intros Ht Hv Hl Hg Hd. unfold kg_trap. rewrite kg_context_ok, <- Hv by done.
  assert (Hc : 0 <= vctx <= 3) by lia.
  rewrite (bind_ok _ _ _ _ _ (kg_claim_ok g Hc)), Hg, live_virt by done.
  rewrite (proj2 (Z.eqb_neq (virt_irq dev) 0)) by (destruct Hl as (_ & _ & _ & ?); lia).
  pose proof (uart_rbr_view _ Hd) as Hview. pose proof (uart_rbr_byte _ Hd) as Hbyte.
  unfold mbind at 1, cmd_bind. cbn [uart_lb vm_mmio]. destruct (uart_read 0 (g_uart g)) as [c u0]; simpl in Hview, Hbyte |- *.
  destruct (kg_uartputc_ok c (with_uart u0 g)) as (u1 & Hr1 & Hd1 & Hs1); [by simpl; rewrite Hview|].
  unfold with_uart in Hr1 at 1. rewrite (bind_ok _ _ _ _ _ Hr1).
  rewrite (bind_ok _ _ _ _ _ (kg_complete_ok dev (with_uart u1 (with_uart u0 g)) Hc Hl Hg)).
  destruct (kg_uartputc_ok 10 (mk_guest 0 (dev_store (claim_off pctx) (phys_irq dev) (g_plic g)) u1))
    as (u2 & Hr2 & Hd2 & Hs2); [done|].
  exists u2. split; [exact Hr2|]. split; [exact Hd2|]. rewrite Hs2. simpl in *.
  rewrite Hs1, Hview, u8_id by lia. by rewrite <- app_assoc.
Qed.
End guest.

(** ** Examples: a VM whose serial line 33 is the guest's line 11, guest hart 0 on
    physical hart 1 *)

Definition kg_serial_dev := mk_mmio_dev DTB_PCI_IO KG_SERIAL PAGE_SIZE (PTE_R .| PTE_W) 33 KG_SERIAL_IRQ_NUM.
Definition kg_devices : list (option mmio_dev) := dev_array [kg_serial_dev; emulated_plic].

Lemma kg_live : live_irq kg_devices kg_serial_dev.
Proof.
  split; [by left|]. split; [|done].
  assert (Hd : vm_devices kg_devices = [kg_serial_dev; emulated_plic]) by done.
  intros d d'. rewrite Hd, !elem_of_cons, !elem_of_nil. intros [->|[->|[]]] [->|[->|[]]]; by split.
Qed.

#[export] Instance sim_rx : UartRx sim_uart.
Proof. split; intros u _; simpl; [done|lia]. Qed.

Definition kg_guest (last : Z) (lcr : Z) : guest plic_regs sim_uart :=
  mk_guest last ∅ (mk_sim (mk_view 0 0 lcr 0 0 0 []) 1).

Lemma keygrab_start_configures_witness :
  match kg_start (Mm := vm_mmio kg_devices 1 3) 0 (kg_guest 0 0xff) with
  | Ok _ g => v_sent (view (g_uart g)) = [0x44] ∧ reg (priority_off 33) (g_plic g) = 1 ∧
              reg (enable_off 3 33) (g_plic g) = 2
  | _ => False
  end.
Proof.
  destruct (keygrab_start_configures kg_devices 1 3 kg_serial_dev (kg_guest 0 0xff) 0) as (u & E & _ & Hs);
    [lia|done|apply kg_live|done|]. rewrite E. cbn [g_uart g_plic g_last]. rewrite Hs. by vm_compute.
Defined.

Lemma keygrab_echoes_witness :
  match kg_trap (Mm := vm_mmio kg_devices 1 3) 0 (kg_guest 33 3) with
  | Ok _ g => v_sent (view (g_uart g)) = [0x41; 10] ∧ reg (claim_off 3) (g_plic g) = 33 ∧ g_last g = 0
  | _ => False
  end.
Proof.
  destruct (keygrab_echoes kg_devices 1 3 kg_serial_dev (kg_guest 33 3) 0) as (u & E & _ & Hs);
    [lia|done|apply kg_live|done|done|]. rewrite E. cbn [g_uart g_plic g_last]. rewrite Hs. by vm_compute.
Defined.
