(* ===== verification/KeygrabAsm.v ===== *)
(** * KeygrabAsm: guest/keygrab/core/main.S, instruction by instruction

    The start code, the idle loop and the trap handler of the demonstration guest
    on a hart of its VM, and a whole session: the guest starts, waits, and serves
    the interrupts the hypervisor forwards. *)

From S2P Require Import Prelude Layout Bits Memory Machine Asm GuestHart Plic Vcpu Vplic VplicSpec VplicTheorems Uart VmConfig Concrete Keygrab KeygrabTheorems.

Section code.
Context {S : Type} {Mm : Mmio S} (clobber : (nat → Z) → nat → Z).
(** The addresses the linker gives to the labels. *)
Context (sym_trap sym_suspend : Z).
Implicit Types (s : hart (gcpu S)) (d : S).
#[local] Abbreviation A := (cmd (hart (gcpu S))).
#[local] Abbreviation call_void := (call_void clobber).
#[local] Abbreviation call_c := (call_c clobber).

(** [lb rd, off(base)] of a register of the serial port. *)
Definition lb (rd : nat) (off : Z) (base : nat) : A unit :=
  p ← gets (λ s, u64 (rx base s + off));
  if (KG_SERIAL <=? p) && (p <? KG_SERIAL + 8)
  then v ← io (uart_lb (p - KG_SERIAL)); modify (wx rd (s8 v))
  else fault p.

(** An instruction of the idle loop: [wfi; j suspend]. *)
Definition keygrab_suspend : A unit := wait_loop sym_suspend.

(** [_start], which ends in the idle loop; the C functions convert their arguments
    to the types of their parameters.  The code is cut where the context of the last
    call has been computed into a0. *)
Definition keygrab_head : A unit :=
  mv tp a0 ;;
  la t1 sym_trap ;;
  csrw guest_bus stvec t1 ;;
  li sp 0x80100ff8 ;;
  li t1 1 ;;
  slli t1 t1 1 ;;
  csrs sstatus t1 ;;
  li t1 1 ;;
  slli t1 t1 9 ;;
  csrs sie t1 ;;
  call_void (λ _ _ _, kg_init_uart) ;;
  li a0 0x44 ;;
  call_void (λ c _ _, kg_uartputc (u8 c)) ;;
  li a0 KG_SERIAL_IRQ_NUM ;;
  li a1 1 ;;
  call_void (λ i p _, kg_plic_set_priority (s32 i) (u32 p)) ;;
  slli a0 tp 1 ;;
  addi a0 a0 1 ;;
  li a1 KG_SERIAL_IRQ_NUM ;;
  li a2 1 ;;
  call_void (λ c i e, kg_plic_set_enabled (s32 c) (s32 i) (s32 e)) ;;
  slli a0 tp 1 ;;
  addi a0 a0 1.
Definition keygrab_tail : A unit :=
  li a1 0 ;;
  call_void (λ c t _, kg_plic_set_threshold (s32 c) (u32 t)) ;;
  behind (modify (set_pc sym_suspend)).
Definition keygrab_start : A unit := keygrab_head ;; keygrab_tail.

(** [trap]; a uint32 result is sign-extended in a0. *)
Definition keygrab_trap : A unit :=
  slli a0 tp 1 ;;
  addi a0 a0 1 ;;
  call_c (λ c _ _, kg_plic_claim (s32 c)) s32 ;;
  claimed ← gets (rx a0);
  (if claimed =? 0 then mret tt
   else
     mv s1 a0 ;;
     li s0 KG_SERIAL ;;
     lb a0 0 s0 ;;
     call_void (λ c _ _, kg_uartputc (u8 c)) ;;
     slli a0 tp 1 ;;
     addi a0 a0 1 ;;
     mv a1 s1 ;;
     call_void (λ c i _, kg_plic_complete (s32 c) (u32 i)) ;;
     li a0 10 ;;
     call_void (λ c _ _, kg_uartputc (u8 c))) ;;
  guest_sret.

(** The hart takes an external interrupt if it may, and runs the code at stvec. *)
Definition keygrab_interrupt : A unit :=
  g ← gets hw;
  if takes IRQ_S_EXT g then
    behind (modify (trap_entry IRQ_S_EXT)) ;;
    pc ← gets (λ s, gpc (hw s));
    if pc =? sym_trap then keygrab_trap else fault pc
  else mret tt.

(** ** The code does what its calls do *)

(** What the start code leaves in the registers and CSRs; then the hart is in the
    idle loop. *)
Record armed (t : Z) s : Prop := {
  r_tp : xr s tp = t;
  r_sp : xr s sp = 0x80100ff8;
  r_stvec : gcsr (hw s) stvec = sym_trap;
  r_irq : takes IRQ_S_EXT (hw s) = true
}.
Definition ready (t : Z) s : Prop := armed t s ∧ in_loop sym_suspend (gpc (hw s)).

Lemma keygrab_start_calls s t d : xr s a0 = t → 0 <= t < 2 ^ 64 → 0 <= sym_trap < 2 ^ 64 →
  kg_start t (gw (hw s)) = Ok tt d → ∃ s', keygrab_start s = Ok tt s' ∧ ready t s' ∧ gw (hw s') = d.
Proof.
  intros Ea Ht Htr H. unfold kg_start in H.
  apply bind_ok_inv in H as ([] & d1 & Hrun & H). apply bind_ok_inv in H as ([] & d2 & Hrun0 & H).
  apply bind_ok_inv in H as ([] & d3 & Hrun1 & H). apply bind_ok_inv in H as ([] & d4 & Hrun2 & Hrun3).
  unfold keygrab_start, keygrab_head, keygrab_tail. asm_ops. destruct s as [f g]. cbn in Ea, Hrun. do 2 g_op. rewrite Ea, (u64_id t) by done. g_ops.
  g_call Hrun. g_ops. g_call1 Hrun0 0x44. g_ops. g_call2 Hrun1 KG_SERIAL_IRQ_NUM 1. g_ops.
  g_call3 Hrun2 (kg_context t) KG_SERIAL_IRQ_NUM 1. g_ops. g_call2 Hrun3 (kg_context t) 0.
  eexists. split; [reflexivity|]. split; [|done]. split; [|by left]. split; try done; cbn [xr hw gcsr gpc behind modify set_pc].
  - rewrite !(gcsr_set_ne _ _ stvec), gcsr_set_eq by done. by apply u64_id.
  - unfold takes. cbn [gcsr set_pc]. rewrite !gcsr_set_eq, (gcsr_set_ne sie), gcsr_set_eq by done. rewrite !Z.lor_spec.
    change (Z.testbit (u64 (u64 1 .<< 1)) SIE_BIT) with true.
    change (Z.testbit (u64 (u64 1 .<< 9)) IRQ_S_EXT) with true. by rewrite !orb_true_r.
Qed.

(** The value of a byte or word after the conversions of a load or a result. *)
Lemma u8_lb c : 0 <= c < 256 → u8 (u64 (s8 c)) = c.
Proof. intros Hc. unfold u8, u64, s8, sgn. simpl. dlia. Qed.
Lemma u32_result i : 0 <= i < 2 ^ 32 → u32 (u64 (s32 i)) = i.
Proof. intros Hi. unfold u32, u64, s32, sgn. simpl. dlia. Qed.
Lemma result_nonzero i : 0 < i < 2 ^ 32 → u64 (s32 i) ≠ 0.
Proof.
  intros Hi E. assert (H : u32 0 = i) by (rewrite <- E; apply u32_result; lia). change (u32 0) with 0 in H. lia.
Qed.

Lemma lb_seq {B} rd base (k : A B) v d s : rx base s = KG_SERIAL → uart_lb 0 (gw (hw s)) = Ok v d →
  (lb rd 0 base ;; k) s = k (wx rd (s8 v) (mk_hart (xr s) (mk_gcpu (gcsr (hw s)) (gpc (hw s)) d))).
Proof.
  intros Hb H. unfold lb. csimp. rewrite Hb. change (u64 (KG_SERIAL + 0)) with KG_SERIAL.
  change ((KG_SERIAL <=? KG_SERIAL) && _) with true. cbn iota. change (KG_SERIAL - KG_SERIAL) with 0.
  rewrite bind_bind. erewrite bind_ok by (apply io_ok; exact H). done.
Qed.

(** The handler when an interrupt was claimed: the calls it makes; it uses s0 and s1
    without saving them. *)
Lemma keygrab_trap_calls s t i d1 c d2 d3 d4 d5 : xr s tp = t → 0 < i < 2 ^ 32 → 0 <= c < 256 →
  kg_plic_claim (s32 (kg_context t)) (gw (hw s)) = Ok i d1 → uart_lb 0 d1 = Ok c d2 →
  kg_uartputc c d2 = Ok tt d3 → kg_plic_complete (s32 (kg_context t)) i d3 = Ok tt d4 →
  kg_uartputc 10 d4 = Ok tt d5 →
  ∃ f, f tp = t ∧ f sp = xr s sp ∧ f s0 = KG_SERIAL ∧ f s1 = u64 (s32 i) ∧ f a0 = 10 ∧
    keygrab_trap s = guest_sret (mk_hart (after_call clobber f) (mk_gcpu (gcsr (hw s)) (gpc (hw s)) d5)).
Proof.
  intros Et Hi Hc H1 H2 H3 H4 H5. destruct s as [f g]. cbn in Et, H1. subst t.
  rewrite <- (u8_lb c) in H3 by done. rewrite <- (u32_result i) in H4 by lia.
  unfold keygrab_trap. asm_ops. g_ops. g_call1 H1 (kg_context (f tp)).
  rewrite wx_hart by done.
  set (r1 := upd a0 _ _). assert (E1 : r1 tp = f tp) by done. assert (E2 : r1 sp = f sp) by done.
  assert (E3 : r1 a0 = u64 (s32 i)) by done. clearbody r1.
  rewrite bind_gets. rewrite rx_hart, E3 by done.
  rewrite (proj2 (Z.eqb_neq _ 0) (result_nonzero i Hi)). g_ops. rewrite E3, u64_u64.
  match goal with |- context [(lb a0 0 s0 ≫= ?k) ?x] => rewrite (lb_seq a0 s0 (k tt) c d2 x eq_refl H2) end.
  cbn [xr hw gcsr gpc]. rewrite wx_hart by done.
  g_ops. g_call1 H3 (u64 (s8 c)). g_ops.
  rewrite (u64_id (u64 _)) by apply u64_range.
  rewrite <- E1 in H4. g_call2 H4 (kg_context (r1 tp)) (u64 (s32 i)). g_ops. g_call1 H5 10.
  eexists. split_and!; cycle 5; [reflexivity|exact E1|exact E2|reflexivity|reflexivity|reflexivity].
Qed.
End code.

(** ** A session *)

Section session.
Context {D U : Type} {P : PlicDevice D} {UD : UartDevice U} {UL : UartLaws U} {UR : UartRx U}.
Context (devs : list (option mmio_dev)) (vctx pctx : Z) (clobber : (nat → Z) → nat → Z) (sym_trap sym_suspend : Z).
#[local] Existing Instance vm_mmio.
Implicit Types (s : hart (gcpu (guest D U))) (dev : mmio_dev).
#[local] Abbreviation A := (cmd (hart (gcpu (guest D U)))).
#[local] Abbreviation start := (keygrab_start (Mm := vm_mmio devs vctx pctx) clobber sym_trap sym_suspend).
#[local] Abbreviation interrupt := (keygrab_interrupt (Mm := vm_mmio devs vctx pctx) clobber sym_trap).
#[local] Abbreviation armed := (armed sym_trap).
#[local] Abbreviation ready := (ready sym_trap sym_suspend).
#[local] Abbreviation tail := (keygrab_tail (Mm := vm_mmio devs vctx pctx) clobber sym_suspend).

Definition platform s : guest D U := gw (hw s).
Definition on_platform (f : guest D U → guest D U) s : hart (gcpu (guest D U)) :=
  mk_hart (xr s) (mk_gcpu (gcsr (hw s)) (gpc (hw s)) (f (platform s))).
Definition printed s : list Z := v_sent (view (g_uart (platform s))).
(** The byte the serial port would give now. *)
Definition received s : Z := (uart_read 0 (g_uart (platform s))).1.

(** What happens while the guest runs: a turn of the idle loop; the PLIC changes
    and bytes arrive at the serial port; the hypervisor claims the interrupt of the
    serial line and forwards it. *)
Inductive event := Idle | Devices (p : D → D) (u : U → U) | Interrupt.
Definition event_ok (e : event) : Prop :=
  match e with Devices _ u => ∀ x, view (u x) = view x | _ => True end.

(** The result: the byte received with the interrupt. *)
Definition handle dev (e : event) : A (list Z) :=
  match e with
  | Idle => keygrab_suspend sym_suspend ;; mret []
  | Devices p u => modify (on_platform (λ g, mk_guest (g_last g) (p (g_plic g)) (u (g_uart g)))) ;; mret []
  | Interrupt =>
      c ← gets received;
      modify (on_platform (λ g, mk_guest (phys_irq dev) (g_plic g) (g_uart g))) ;;
      interrupt ;; mret [c]
  end.
Fixpoint serve dev (es : list event) : A (list Z) :=
  match es with
  | [] => mret []
  | e :: es' => b ← handle dev e; bs ← serve dev es'; mret (b ++ bs)
  end.

Definition is_interrupt (e : event) : bool := match e with Interrupt => true | _ => false end.
Definition echo (c : Z) : list Z := [c; 10].

(** A forwarded interrupt is echoed, and the guest goes on where it was; the registers
    it may use are as the last call left them. *)
Lemma interrupt_echoes dev s t : 0 <= t < 2 → vctx = 2 * t + 1 → live_irq devs dev → armed t s →
  g_last (platform s) = phys_irq dev → dlab (view (g_uart (platform s))) = false →
  ∃ s' f, interrupt s = Ok tt s' ∧ armed t s' ∧ gpc (hw s') = gpc (hw s) ∧ dlab (view (g_uart (platform s'))) = false ∧
    printed s' = printed s ++ echo (received s) ∧
    g_last (platform s') = 0 ∧ g_plic (platform s') = dev_store (claim_off pctx) (phys_irq dev) (g_plic (platform s)) ∧
    xr s' = after_call clobber f ∧ f s0 = KG_SERIAL ∧ f s1 = u64 (s32 (virt_irq dev)) ∧ f a0 = 10.
Proof.
  intros Ht Hv Hl Hr Hg Hd. destruct s as [f g]. destruct Hr as [Rt Rs Rv Ri]. cbn in Rt, Rs, Rv, Ri.
  unfold platform in Hg, Hd. cbn [hw] in Hg, Hd.
  destruct (keygrab_echoes devs vctx pctx dev (gw g) t Ht Hv Hl Hg Hd) as (u & E & Hd' & Hs).
  assert (Hc : 0 <= vctx <= 3) by lia.
  pose proof (kg_claim_ok devs vctx pctx (gw g) Hc) as H1. rewrite Hg, live_virt in H1 by done.
  pose proof Hl as (_ & _ & _ & Hvi).
  unfold kg_trap in E. apply bind_ok_inv in E as (i & d1 & E1 & E).
  rewrite kg_context_ok, <- Hv, H1 in E1 by done. injection E1 as <- <-.
  rewrite (proj2 (Z.eqb_neq (virt_irq dev) 0)) in E by lia.
  apply bind_ok_inv in E as (c & d2 & E2 & E). apply bind_ok_inv in E as ([] & d3 & E3 & E).
  apply bind_ok_inv in E as ([] & d4 & E4 & E5).
  assert (Ec : c = (uart_read 0 (g_uart (gw g))).1).
  { revert E2. cbn [uart_lb vm_mmio]. by destruct (uart_read 0 (g_uart (gw g))) as [v u']; intros [= -> _]. }
  assert (Hb : 0 <= c < 256) by (rewrite Ec; by apply uart_rbr_byte).
  assert (H1' : kg_plic_claim (Mm := vm_mmio devs vctx pctx) (s32 (kg_context t)) (gw g) = Ok (virt_irq dev) (gw g))
    by (rewrite kg_context_ok, <- Hv by done; exact H1).
  destruct (keygrab_trap_calls clobber (mk_hart f (trap_entry IRQ_S_EXT g)) t (virt_irq dev) (gw g) c d2 d3 d4 _
    Rt ltac:(lia) Hb H1' E2 E3 E4 E5) as (f' & F1 & F2 & F3 & F4 & F5 & Hrun).
  destruct (guest_sret_returns IRQ_S_EXT IRQ_S_EXT g (after_call clobber f') (mk_gcpu (gcsr (trap_entry IRQ_S_EXT g)) (gpc (trap_entry IRQ_S_EXT g))
    (mk_guest 0 (dev_store (claim_off pctx) (phys_irq dev) (g_plic (gw g))) u)) Ri eq_refl eq_refl eq_refl) as (g' & Hret & Ri' & Rp' & Rw & Rc).
  exists (mk_hart (after_call clobber f') g'), f'. split.
  - unfold keygrab_interrupt. rewrite bind_gets. cbn [hw]. rewrite Ri.
    unfold behind. rewrite (bind_ok _ _ _ tt (mk_hart f (trap_entry IRQ_S_EXT g))) by done.
    rewrite bind_gets. cbn [hw]. change (gpc (trap_entry IRQ_S_EXT g)) with (gcsr g stvec).
    rewrite Rv, Z.eqb_refl, Hrun. exact Hret.
  - unfold printed, received, platform. cbn [hw]. rewrite Rw. cbn. split.
    + split; cbn; [done|by rewrite F2|by rewrite Rc|done].
    + split_and!; done.
Qed.

(** What becomes of the physical PLIC: an interrupt is completed once. *)
Definition plic_after dev (d : D) (e : event) : D :=
  match e with Idle => d | Devices p _ => p d | Interrupt => dev_store (claim_off pctx) (phys_irq dev) d end.

(** The guest between two events: idle, with no interrupt it has not completed. *)
Record at_rest (t : Z) s : Prop := {
  ar_ready : ready t s;
  ar_last : g_last (platform s) = 0;
  ar_dlab : dlab (view (g_uart (platform s))) = false
}.

Lemma handle_ok dev e s t : 0 <= t < 2 → vctx = 2 * t + 1 → live_irq devs dev → event_ok e → at_rest t s →
  ∃ b s', handle dev e s = Ok b s' ∧ at_rest t s' ∧ g_plic (platform s') = plic_after dev (g_plic (platform s)) e ∧
    length b = (if is_interrupt e then 1 else 0)%nat ∧ printed s' = printed s ++ concat (echo <$> b).
Proof.
  intros Ht Hv Hl He [[Hr Hpc] Hg Hd]. destruct e as [|p u|]; cbn [handle plic_after].
  - destruct (wait_loop_run sym_suspend s Hpc) as (pc & Hpc' & Hrun). unfold keygrab_suspend.
    rewrite (bind_ok _ _ _ _ _ Hrun). eexists [], _. split; [reflexivity|]. destruct Hr. split; [split; [split; [by split|exact Hpc']|done|done]|].
    split_and!; [done|done|]. cbn. by rewrite app_nil_r.
  - eexists [], _. split; [reflexivity|]. destruct Hr. unfold on_platform, platform in *.
    split; [split; [split; [by split|exact Hpc]|exact Hg|]|]; unfold printed, platform; cbn [hw gw g_uart g_plic fmap list_fmap concat] in *; rewrite !He, ?app_nil_r; done.
  - set (s1 := on_platform (λ g, mk_guest (phys_irq dev) (g_plic g) (g_uart g)) s).
    destruct (interrupt_echoes dev s1 t) as (s' & f & E & Hr' & Hp' & Hd' & Hp & Hg' & Hpl & _); [done..|destruct Hr; by split|done|done|].
    exists [received s], s'. rewrite bind_gets, bind_modify, (bind_ok _ _ _ _ _ E). split; [done|].
    split; [split; [split; [done|by rewrite Hp']|done|done]|]. split_and!; [done|done|]. by rewrite Hp.
Qed.

Lemma serve_ok dev es s t : 0 <= t < 2 → vctx = 2 * t + 1 → live_irq devs dev → Forall event_ok es → at_rest t s →
  ∃ bs s', serve dev es s = Ok bs s' ∧ at_rest t s' ∧ g_plic (platform s') = foldl (plic_after dev) (g_plic (platform s)) es ∧
    length bs = length (filter is_interrupt es) ∧ printed s' = printed s ++ concat (echo <$> bs).
Proof.
  intros Ht Hv Hl Hes. revert s. induction Hes as [|e es He _ IH]; intros s Hr; cbn [serve foldl].
  - exists [], s. split_and!; [done..|]. cbn. by rewrite app_nil_r.
  - destruct (handle_ok dev e s t Ht Hv Hl He Hr) as (b & s1 & E & Hr1 & Hpl & Hb & Hp).
    destruct (IH s1 Hr1) as (bs & s2 & E' & Hr2 & Hpl' & Hbs & Hp').
    exists (b ++ bs), s2. rewrite (bind_ok _ _ _ _ _ E), (bind_ok _ _ _ _ _ E'). split_and!; [done|done|by rewrite Hpl', Hpl| |].
    + rewrite length_app, Hb, Hbs, filter_cons. destruct e; done.
    + by rewrite Hp', Hp, fmap_app, concat_app, app_assoc.
Qed.


(** The end of the start code, with context [c] in a0. *)
Lemma keygrab_tail_run s d : kg_plic_set_threshold (Mm := vm_mmio devs vctx pctx) (s32 (xr s a0)) 0 (platform s) = Ok tt d →
  ∃ s', tail s = Ok tt s' ∧ platform s' = d.
Proof.
  intros H. destruct s as [f g]. unfold keygrab_tail. asm_ops. g_ops. g_call2 H (f a0) 0. by eexists.
Qed.

(** C40: the handler does not save the registers it uses, and an interrupt that comes
    in the middle of the start code spoils it.  The code enables interrupts first, and
    the serial line with plic_set_enabled; take the point after that where a0 holds
    the context for plic_set_threshold.  Undisturbed, the code goes on to set threshold
    0 for the hart's context.  When an interrupt comes here, the handler returns to
    this point with s0 and s1 overwritten and every caller-saved register, a0 among
    them, as uartputc left it; the call is then made with that value, and if
    it is no context the threshold is never set. *)
Theorem keygrab_trap_spoils dev s t :
  0 <= t < 2 → vctx = 2 * t + 1 → live_irq devs dev → armed t s → xr s a0 = vctx →
  g_last (platform s) = phys_irq dev → dlab (view (g_uart (platform s))) = false →
  (∃ s1, tail s = Ok tt s1 ∧ g_plic (platform s1) = dev_store (threshold_off pctx) 0 (g_plic (platform s))) ∧
  ∃ s' f, interrupt s = Ok tt s' ∧ gpc (hw s') = gpc (hw s) ∧
    xr s' s0 = KG_SERIAL ∧ xr s' s1 = u64 (s32 (virt_irq dev)) ∧ f a0 = 10 ∧
    (∀ n, callee_saved n = false → xr s' n = clobber f n) ∧
    (¬ 0 <= s32 (clobber f a0) <= 15871 →
     ∃ s2, tail s' = Ok tt s2 ∧ g_plic (platform s2) = dev_store (claim_off pctx) (phys_irq dev) (g_plic (platform s))).
Proof.
  intros Ht Hv Hl Hr Ea Hg Hd. split.
  - pose proof (kg_set_threshold_ok devs vctx pctx (platform s) ltac:(lia)) as H. assert (E0 : s32 (xr s a0) = vctx) by (rewrite Ea; apply s32_id; lia).
    destruct (keygrab_tail_run s _ ltac:(rewrite E0; exact H)) as (s1' & E & Hp). exists s1'. split; [exact E|by rewrite Hp].
  - destruct (interrupt_echoes dev s t Ht Hv Hl Hr Hg Hd) as (s' & f & E & _ & Hpc & _ & _ & _ & Hpl & Hx & F0 & F1 & Fa).
    exists s', f. split_and!; [done|done|by rewrite Hx|by rewrite Hx|done| |].
    + intros n Hn. rewrite Hx. unfold after_call. by rewrite Hn.
    + intros Hc. assert (H : kg_plic_set_threshold (Mm := vm_mmio devs vctx pctx) (s32 (xr s' a0)) 0 (platform s') = Ok tt (platform s')).
      { rewrite Hx. change (after_call clobber f a0) with (clobber f a0). unfold kg_plic_set_threshold.
        assert ((s32 (clobber f a0) <? 0) || (15871 <? s32 (clobber f a0)) = true) as -> by lia. done. }
      destruct (keygrab_tail_run s' _ H) as (s2 & E2 & Hp2). exists s2. split; [exact E2|by rewrite Hp2].
Qed.
End session.

(** ** Examples: guest hart 0 on physical hart 1, as in KeygrabTheorems *)

Definition kg_hart (g : guest plic_regs sim_uart) : hart (gcpu (guest plic_regs sim_uart)) :=
  mk_hart (λ _, 0) (mk_gcpu (λ _, 0) 0x80100000 g).
(** A compiler that leaves a7 in every register it may use. *)
Definition kg_clobber (f : nat → Z) (n : nat) : Z := f 17%nat.


(** Hart 0 before its last call; a compiler that leaves -1 in every register it may use. *)
Definition kg_middle : hart (gcpu (guest plic_regs sim_uart)) :=
  mk_hart (upd a0 1 (upd sp 0x80100ff8 (λ _, 0)))
    (mk_gcpu (λ c, match c with stvec => 0x80100100 | sstatus => 2 | sie => 2 ^ 9 | _ => 0 end) 0x80100054
       (kg_guest 33 3)).
Definition kg_minus_one (f : nat → Z) (n : nat) : Z := 2 ^ 64 - 1.

Lemma keygrab_trap_spoils_witness :
  ∃ s' s2, keygrab_interrupt (Mm := vm_mmio kg_devices 1 3) kg_minus_one 0x80100100 kg_middle = Ok tt s' ∧
    xr kg_middle a0 = 1 ∧ xr s' a0 = 2 ^ 64 - 1 ∧
    keygrab_tail (Mm := vm_mmio kg_devices 1 3) kg_minus_one 0x80100060 s' = Ok tt s2 ∧
    g_plic (platform s2) !! threshold_off 3 = None.
Proof.
  destruct (keygrab_trap_spoils kg_devices 1 3 kg_minus_one 0x80100100 0x80100060 kg_serial_dev kg_middle 0)
    as (_ & s' & f & E & _ & _ & _ & _ & Hc & Ht); [lia|done|apply kg_live|by split|done|done|done|].
  destruct Ht as (s2 & E2 & Hp); [by vm_compute; intros []|]. exists s', s2.
  split; [exact E|]. split; [done|]. split; [by apply Hc|]. split; [exact E2|]. rewrite Hp. by vm_compute.
Defined.
