(* ===== verification/Printer.v ===== *)
(** * Printer: the guest of guest/printer

    core/main.S instruction by instruction: the start code prints the number of the
    hart and sets the timer, the trap handler does so again.  The devices are the
    stores the guest makes to its serial port; time advances by itself, and the
    timer's interrupt is pending while time is not below stimecmp (the Sstc
    extension). *)

From S2P Require Import Prelude Layout Memory Machine Asm GuestHart.

Definition PR_SERIAL := 0x10000000.

Section code.
Context (sym_trap sym_suspend : Z) (ret_addr : nat → Z).
(** The bytes stored, with their addresses, the last one at the end. *)
#[local] Abbreviation stores := (list (Z * Z)).
Implicit Types (s : hart (gcpu stores)).
#[local] Abbreviation A := (cmd (hart (gcpu stores))).

(** [sb rs, off(base)] *)
Definition sb (rs : nat) (off : Z) (base : nat) : A unit :=
  p ← gets (λ s, u64 (rx base s + off));
  v ← gets (rx rs);
  io (modify (λ l, l ++ [(p, u8 v)])).

(** [call f], the i-th of the program: ra gets the address of the next instruction. *)
Definition guest_call (i : nat) (f : A unit) : A unit := li ra (ret_addr i) ;; f.

Definition print_hartid : A unit :=
  li s0 PR_SERIAL ;;
  addi t1 tp 48 ;;
  sb t1 0 s0 ;;
  li t1 10 ;;
  sb t1 0 s0.

Definition set_timer : A unit :=
  mv t0 ra ;;
  csrr guest_bus a0 time ;;
  li t2 10000000 ;;
  add a0 a0 t2 ;;
  csrw guest_bus stimecmp a0 ;;
  mv ra t0.

(** An instruction of the idle loop: [wfi; j suspend]. *)
Definition printer_suspend : A unit := wait_loop sym_suspend.

Definition printer_start : A unit :=
  mv tp a0 ;;
  la t1 sym_trap ;;
  csrw guest_bus stvec t1 ;;
  li sp 0x80101000 ;;
  guest_call 0 print_hartid ;;
  guest_call 1 set_timer ;;
  csrr guest_bus t1 sstatus ;;
  ori t1 t1 2 ;;
  csrw guest_bus sstatus t1 ;;
  csrr guest_bus t1 sie ;;
  ori t1 t1 32 ;;
  csrw guest_bus sie t1 ;;
  behind (modify (set_pc sym_suspend)).

Definition printer_trap : A unit :=
  guest_call 2 print_hartid ;;
  guest_call 3 set_timer ;;
  guest_sret.

(** Time advances by [n]; the hart takes the timer's interrupt if it is pending and
    enabled, and runs the code at stvec; otherwise it executes an instruction of the
    idle loop, in which it must be.
    The result says whether there was an interrupt. *)
Definition pending (g : gcpu stores) : bool := gcsr g stimecmp <=? gcsr g time.
Definition printer_tick (n : Z) : A bool :=
  behind (modify (λ g, set_gcsr time (gcsr g time + n) g)) ;;
  g ← gets hw;
  if pending g && takes IRQ_S_TIMER g then
    behind (modify (trap_entry IRQ_S_TIMER)) ;;
    pc ← gets (λ s, gpc (hw s));
    if pc =? sym_trap then printer_trap ;; mret true else fault pc
  else printer_suspend ;; mret false.
Fixpoint printer_ticks (ns : list Z) : A nat :=
  match ns with
  | [] => mret O
  | n :: ns' => b ← printer_tick n; k ← printer_ticks ns'; mret ((if b : bool then 1 else 0) + k)%nat
  end.

(** ** The reference: an alarm clock *)

Definition PERIOD := 10000000.
Fixpoint alarms (now next : Z) (ns : list Z) : nat :=
  match ns with
  | [] => O
  | n :: ns' => if next <=? now + n then S (alarms (now + n) (now + n + PERIOD) ns') else alarms (now + n) next ns'
  end.
(** The time the clock is set to in the end. *)
Fixpoint next_alarm (now next : Z) (ns : list Z) : Z :=
  match ns with
  | [] => next
  | n :: ns' => next_alarm (now + n) (if next <=? now + n then now + n + PERIOD else next) ns'
  end.
Definition line (h : Z) : stores := [(PR_SERIAL, 48 + h); (PR_SERIAL, 10)].

(** ** Lemmas *)

Lemma sb_seq {B} rs base (k : A B) f g : base ≠ O → rs ≠ O →
  (sb rs 0 base ;; k) (mk_hart f g) =
  k (mk_hart f (mk_gcpu (gcsr g) (gpc g) (gw g ++ [(u64 (f base + 0), u8 (f rs))]))).
Proof. intros. unfold sb. csimp. unfold io. csimp. by rewrite !rx_hart. Qed.

Lemma lor_bit x m n : 0 <= n < 64 → Z.testbit m n = true → Z.testbit (u64 (x .| m)) n = true.
Proof. intros Hn Hm. unfold u64. by rewrite Z.mod_pow2_bits_low, Z.lor_spec, Hm, orb_true_r by lia. Qed.

(** print_hartid stores the digit and a newline and changes s0 and t1. *)
Lemma print_hartid_run {B} i (k : A B) f g h : f tp = h → 0 <= h < 10 →
  ∃ f', (guest_call i print_hartid ;; k) (mk_hart f g) =
      k (mk_hart f' (mk_gcpu (gcsr g) (gpc g) (gw g ++ line h))) ∧ f' tp = h ∧ f' sp = f sp.
Proof.
  intros Et Hh. unfold guest_call, print_hartid. asm_ops. g_ops.
  rewrite sb_seq by done. g_ops. rewrite sb_seq by done. eexists. split.
  - f_equal. f_equal. cbn [gcsr gpc gw]. rewrite <- app_assoc. do 2 f_equal. cbn -[u64 u8]. unfold line, PR_SERIAL.
    rewrite Et, (u64_id (h + 48)) by lia. rewrite (u8_id (h + 48)) by lia. rewrite (Z.add_comm h). reflexivity.
  - by split.
Qed.

(** set_timer sets the deadline and keeps ra. *)
Lemma set_timer_run {B} i (k : A B) f g : 0 <= gcsr g time → gcsr g time + PERIOD < 2 ^ 64 →
  ∃ f', (guest_call i set_timer ;; k) (mk_hart f g) = k (mk_hart f' (set_gcsr stimecmp (gcsr g time + PERIOD) g)) ∧
    f' tp = f tp ∧ f' sp = f sp ∧ f' ra = u64 (u64 (u64 (ret_addr i))).
Proof.
  unfold PERIOD. intros H0 H1. unfold guest_call, set_timer. asm_ops. g_ops. eexists. split.
  - f_equal. f_equal. f_equal. rewrite (u64_id (gcsr g time)) by lia. change (u64 10000000) with 10000000.
    rewrite u64_id by lia. reflexivity.
  - done.
Qed.

(** The guest in its idle loop, its next deadline being [next]. *)
Record waiting (h now next : Z) s : Prop := {
  p_tp : xr s tp = h;
  p_stvec : gcsr (hw s) stvec = sym_trap;
  p_irq : takes IRQ_S_TIMER (hw s) = true;
  p_pc : in_loop sym_suspend (gpc (hw s));
  p_time : gcsr (hw s) time = now;
  p_next : gcsr (hw s) stimecmp = next
}.
Definition printed s : stores := gw (hw s).

Lemma printer_start_run s h now : xr s a0 = h → 0 <= h < 10 → 0 <= sym_trap < 2 ^ 64 →
  gcsr (hw s) time = now → 0 <= now → now + PERIOD < 2 ^ 64 →
  ∃ s', printer_start s = Ok tt s' ∧ waiting h now (now + PERIOD) s' ∧ printed s' = printed s ++ line h.
Proof.
  intros Ea Hh Htr Et H0 H1. destruct s as [f g]. cbn in Ea, Et. unfold printer_start. asm_ops. g_op.
  rewrite Ea, (u64_id h) by lia. g_ops.
  match goal with |- context [(guest_call 0 print_hartid ≫= λ _, ?k) (mk_hart ?r ?x)] =>
    destruct (print_hartid_run 0 k r x h) as (f1 & -> & Et1 & Es1); [done|done|] end.
  match goal with |- context [(guest_call 1 set_timer ≫= λ _, ?k) (mk_hart ?r ?x)] =>
    destruct (set_timer_run 1 k r x) as (f2 & -> & Et2 & Es2 & _) end.
  1,2: cbn [gcsr]; rewrite gcsr_set_ne by done; lia.
  g_ops. eexists. split; [reflexivity|]. split; [split|]; cbn [hw xr set_pc gpc gcsr gw printed].
  - cbn. by rewrite Et2.
  - rewrite !(gcsr_set_ne _ _ stvec) by done. cbn [gcsr]. rewrite gcsr_set_eq. by apply u64_id.
  - unfold takes. cbn [gcsr set_pc]. rewrite (gcsr_set_ne sie), !gcsr_set_eq, !lor_bit by done. done.
  - by left.
  - rewrite !(gcsr_set_ne _ _ time) by done. cbn [gcsr]. by rewrite gcsr_set_ne.
  - rewrite !(gcsr_set_ne _ _ stimecmp), gcsr_set_eq, gcsr_set_ne by done. by rewrite Et.
  - done.
Qed.

(** A tick: the alarm clock rings or it does not. *)
Lemma printer_tick_run s h now next n : waiting h now next s → 0 <= h < 10 → 0 <= now → 0 <= n →
  now + n + PERIOD < 2 ^ 64 →
  ∃ s', printer_tick n s = Ok (next <=? now + n) s' ∧
    waiting h (now + n) (if next <=? now + n then now + n + PERIOD else next) s' ∧
    printed s' = printed s ++ (if next <=? now + n then line h else []).
Proof.
  intros Hw Hh H0 Hn H1. destruct s as [f g]. destruct Hw as [Et Ev Ei Ep En Ex]. cbn in Et, Ev, Ei, Ep, En, Ex.
  unfold printer_tick. set (g1 := set_gcsr time (gcsr g time + n) g).
  rewrite (bind_ok _ _ _ tt (mk_hart f g1)) by done. rewrite bind_gets. cbn [hw].
  assert (Hp : pending g1 = (next <=? now + n)).
  { unfold pending, g1. by rewrite gcsr_set_eq, gcsr_set_ne, En, Ex by done. }
  assert (Hi : takes IRQ_S_TIMER g1 = true) by (unfold takes, g1; rewrite !gcsr_set_ne by done; exact Ei).
  rewrite Hp, Hi, andb_true_r. destruct (next <=? now + n) eqn:E.
  - rewrite (bind_ok _ _ _ tt (mk_hart f (trap_entry IRQ_S_TIMER g1))) by done. rewrite bind_gets. cbn [hw].
    assert (Hpc : gpc (trap_entry IRQ_S_TIMER g1) = sym_trap).
    { cbn [trap_entry gpc set_pc]. unfold g1. by rewrite gcsr_set_ne. }
    rewrite Hpc, Z.eqb_refl. unfold printer_trap. rewrite !bind_bind.
    match goal with |- context [(guest_call 2 print_hartid ≫= λ _, ?k) (mk_hart ?r ?x)] =>
      destruct (print_hartid_run 2 k r x h) as (f1 & -> & Et1 & Es1); [done|done|] end.
    rewrite !bind_bind. set (g2 := mk_gcpu _ _ _).
    assert (Etime : gcsr g2 time = now + n).
    { unfold g2, g1. cbn [gcsr trap_entry set_pc]. by rewrite !(gcsr_set_ne _ _ time), gcsr_set_eq, En by done. }
    match goal with |- context [(guest_call 3 set_timer ≫= λ _, ?k) (mk_hart ?r ?x)] =>
      destruct (set_timer_run 3 k r x) as (f2 & -> & Et2 & Es2 & _); [lia|lia|] end.
    rewrite Etime. set (g3 := set_gcsr stimecmp _ g2).
    destruct (guest_sret_returns IRQ_S_TIMER IRQ_S_TIMER g1 f2 g3 Hi) as (g' & Hret & Hi' & Hp' & Hw' & Hc);
      [unfold g3; by rewrite gcsr_set_ne..|]. rewrite (bind_ok _ _ _ _ _ Hret).
    exists (mk_hart f2 g'). split; [done|]. split; [split|]; cbn [hw xr].
    + by rewrite Et2, Et1.
    + rewrite Hc by done. unfold g3, g2, g1. rewrite gcsr_set_ne by done. cbn [gcsr trap_entry set_pc].
      by rewrite !(gcsr_set_ne _ _ stvec) by done.
    + done.
    + by rewrite Hp'.
    + rewrite Hc by done. unfold g3. by rewrite gcsr_set_ne.
    + rewrite Hc by done. unfold g3. by rewrite gcsr_set_eq.
    + unfold printed. cbn [hw]. by rewrite Hw'.
  - destruct (wait_loop_run sym_suspend (mk_hart f g1) Ep) as (pc & Hpc & Hrun). unfold printer_suspend.
    rewrite (bind_ok _ _ _ _ _ Hrun). eexists. split; [done|]. split; [split|]; try done; cbn [hw xr set_pc gpc gcsr].
    + unfold g1. by rewrite gcsr_set_eq, En.
    + unfold printed. cbn. by rewrite app_nil_r.
Qed.

Lemma printer_ticks_run ns s h now next : waiting h now next s → 0 <= h < 10 → 0 <= now →
  Forall (λ n, 0 <= n) ns → now + foldr Z.add 0 ns + PERIOD < 2 ^ 64 →
  ∃ s', printer_ticks ns s = Ok (alarms now next ns) s' ∧
    waiting h (now + foldr Z.add 0 ns) (next_alarm now next ns) s' ∧ printed s' = printed s ++ concat (replicate (alarms now next ns) (line h)).
Proof.
  intros Hw Hh H0 Hns. revert s now next Hw H0. induction Hns as [|n ns Hn Hns IH]; intros s now next Hw H0 H1;
    cbn [printer_ticks alarms next_alarm foldr] in *.
  - exists s. split; [done|]. rewrite Z.add_0_r. split; [done|]. cbn. by rewrite app_nil_r.
  - assert (0 <= foldr Z.add 0 ns) by (clear -Hns; induction Hns; cbn; lia).
    destruct (printer_tick_run s h now next n Hw Hh H0 Hn) as (s1 & E & Hw1 & Hp1); [lia|].
    destruct (IH s1 _ _ Hw1) as (s2 & E2 & Hw2 & Hp2); [lia|lia|]. exists s2. rewrite <- Z.add_assoc in Hw2.
    rewrite (bind_ok _ _ _ _ _ E), (bind_ok _ _ _ _ _ E2).
    destruct (next <=? now + n); cbn [Nat.add replicate concat]; (split; [done|]); (split; [done|]); rewrite Hp2, Hp1, <- app_assoc; done.
Qed.

(** The alarm rings at most once in a period. *)
Lemma alarms_rate ns now next : Forall (λ n, 0 <= n) ns →
  PERIOD * Z.of_nat (alarms now next ns) <= PERIOD + (now + foldr Z.add 0 ns - next) ∨ alarms now next ns = O.
Proof.
  intros Hns. revert now next. induction Hns as [|n ns Hn Hns IH]; intros now next; cbn [alarms foldr]; [by right|].
  assert (0 <= foldr Z.add 0 ns) by (clear -Hns; induction Hns; cbn; lia).
  destruct (Z.leb_spec next (now + n)).
  - left. destruct (IH (now + n) (now + n + PERIOD)) as [H'|H']; unfold PERIOD in *; lia.
  - destruct (IH (now + n) next) as [H'|H']; [left|by right]. lia.
Qed.

(** C35: the printer guest, from its first instruction: it prints its hart's number
    and enters its idle loop; then, however time advances, it prints the number again
    exactly when an alarm clock would ring that is set to ten million ticks after the
    start and after each ring; so it prints at most once in ten million ticks, and
    nothing else reaches its serial port.  At the end, and so after every interrupt
    and every instruction of the loop, the hart is in the idle loop with its trap
    vector, its interrupt enables and the timer set. *)
Theorem printer_session s h now ns :
  xr s a0 = h → 0 <= h < 10 → 0 <= sym_trap < 2 ^ 64 → gcsr (hw s) time = now → 0 <= now →
  Forall (λ n, 0 <= n) ns → now + foldr Z.add 0 ns + PERIOD < 2 ^ 64 →
  let k := alarms now (now + PERIOD) ns in
  ∃ s', (printer_start ;; printer_ticks ns) s = Ok k s' ∧
    waiting h (now + foldr Z.add 0 ns) (next_alarm now (now + PERIOD) ns) s' ∧
    printed s' = printed s ++ concat (replicate (S k) (line h)) ∧
    PERIOD * Z.of_nat k <= foldr Z.add 0 ns.
Proof.
  intros Ea Hh Htr Et H0 Hns H1 k. assert (0 <= foldr Z.add 0 ns) by (clear -Hns; induction Hns; cbn; lia).
  destruct (printer_start_run s h now) as (s1 & E1 & Hw & Hp1); [done..|lia|].
  destruct (printer_ticks_run ns s1 h now (now + PERIOD) Hw Hh H0 Hns H1) as (s2 & E2 & Hw2 & Hp2).
  exists s2. rewrite (bind_ok _ _ _ _ _ E1). split; [exact E2|]. split; [exact Hw2|]. split.
  - cbn [replicate concat]. by rewrite Hp2, Hp1, <- app_assoc.
  - unfold k. destruct (alarms_rate ns now (now + PERIOD) Hns) as [H'|H']; unfold PERIOD in *; lia.
Qed.
End code.

(** Hart 1 of a VM: two interrupts in 25 million ticks. *)
Lemma printer_session_witness :
  let s := mk_hart (upd a0 1 (λ _, 0)) (mk_gcpu (λ _, 0) 0x80100000 []) in
  ∃ s', (printer_start 0x80100080 0x80100050 (λ _, 0) ;;
         printer_ticks 0x80100080 0x80100050 (λ _, 0) [4000000; 7000000; 14000000]) s = Ok 2%nat s' ∧
    in_loop 0x80100050 (gpc (hw s')) ∧ gcsr (hw s') stimecmp = 35000000 ∧ printed s' = line 1 ++ line 1 ++ line 1.
Proof.
  destruct (printer_session 0x80100080 0x80100050 (λ _, 0) (mk_hart (upd a0 1 (λ _, 0)) (mk_gcpu (λ _, 0) 0x80100000 []))
    1 0 [4000000; 7000000; 14000000]) as (s' & E & Hw & Hp & _);
    [done|lia|lia|done|lia|by repeat constructor|cbn; unfold PERIOD; lia|].
  exists s'. split; [exact E|]. split; [apply Hw|]. split; [by rewrite (p_next _ _ _ _ _ _ Hw)|exact Hp].
Defined.
