(* ===== verification/Pci.v ===== *)
(** * Pci: the PCI set-up of driver/pci.c

    The configuration space is a device: [PciBus] is the interface the driver uses,
    stores of 16 and 32 bits to physical addresses. *)

From S2P Require Import Prelude Layout.

Class PciBus (X : Type) := {
  pci_store16 : Z → Z → X → X;
  pci_store32 : Z → Z → X → X
}.

Section ops.
Context {X : Type} {PB : PciBus X}.

(** The driver's [pci_serial]: the configuration space of the serial card. *)
Definition pci_serial_dev : Z := DTB_PCI + 0x8000.

(** [command] is the low half of [pci_dev[1]]. *)
Definition enable_io_access (pci_dev : Z) : cmd X unit :=
  modify (pci_store16 (pci_dev + 4 * 1) 0x1).

(** [pci_dev[4] = offset | 1;] *)
Definition set_io_base (pci_dev offset : Z) : cmd X unit :=
  modify (pci_store32 (pci_dev + 4 * 4) (u32 (offset .| 1))).

Definition init_pci : cmd X unit :=
  enable_io_access pci_serial_dev ;;
  set_io_base pci_serial_dev 0.
End ops.
