(* ===== verification/Main.v ===== *)
(** * Main: the boot sequence, core/main.c

    The whole machine is the world the hypervisor's own code runs on, the serial
    console and the PCI bus.  [main] is given whole, and in the parts its barriers
    make of it, which is how System.v interleaves the harts. *)

From S2P Require Import Prelude Layout Bits Memory Machine Lock Kmem Cpu Vmem Plic Vcpu VmRun Uart Printf Pci.

Record machine (D U X : Type) := mk_machine {
  m_world : world D;
  m_console : console U;
  m_pci : X
}.
Arguments mk_machine {D U X}. Arguments m_world {D U X}.
Arguments m_console {D U X}. Arguments m_pci {D U X}.

Section main.
Context {D U X : Type} {L : Linker} {UD : UartDevice U} {UL : UartLaws U} {PB : PciBus X}.
Implicit Type s : machine D U X.
#[local] Abbreviation M := (cmd (machine D U X)).

(** ** Commands of one part of the machine *)

(** Run [c] on the part [get s]; [put] stores the part back. *)
Definition part {S A} (get : machine D U X → S) (put : S → machine D U X → machine D U X)
    (c : cmd S A) : M A := λ s,
  match c (get s) with
  | Ok a x => Ok a (put x s)
  | Panic m x => Panic m (put x s)
  | Fault p x => Fault p (put x s)
  | Hang x => Hang (put x s)
  end.
Definition set_world w s : machine D U X := mk_machine w (m_console s) (m_pci s).
Definition set_console c s : machine D U X := mk_machine (m_world s) c (m_pci s).
Definition set_pci x s : machine D U X := mk_machine (m_world s) (m_console s) x.
Definition on_world {A} : cmd (world D) A → M A := part m_world set_world.
Definition on_console {A} : cmd (console U) A → M A := part m_console set_console.
Definition on_pci {A} : cmd X A → M A := part m_pci set_pci.

(** ** main *)

(** The address of the string literal of the boot message. *)
Context (msg : Z).

Definition main_init (hartid : Z) : M unit :=
  whenM (hartid =? 0) (
    on_world init_kmem ;;
    on_console init_uart ;;
    on_console (printf msg []) ;;
    on_pci init_pci).

Definition main_vmem : M unit :=
  on_world (pgtable ← init_vmem; init_hart pgtable).

(** [cpu_mapped = 1] *)
Definition set_cpu_mapped (x : Z) (w : world D) : world D :=
  mk_world (w_mem w) (w_kmem w) (w_cpus w) x (w_config w) (w_vcpus w)
    (w_csr w) (w_plic w) (w_hart w) (w_tp w).
Definition main_mapped (hartid : Z) : M unit :=
  whenM (hartid =? 0) (on_world (modify (set_cpu_mapped 1))).

(** [wait] is [wait_barrier(&bar)], [wait_boot] and [wait_vm] the barriers of
    vm_run; main ends where the guest is entered. *)
Definition main (wait wait_boot wait_vm : cmd (world D) unit) (hartid : Z) : M unit :=
  main_init hartid ;;
  on_world wait ;;
  main_vmem ;;
  on_world wait ;;
  main_mapped hartid ;;
  on_world wait ;;
  on_world (vm_run wait_boot wait_vm hartid).

(** ** Lemmas *)

Lemma part_ok {S A} get put (c : cmd S A) s a x : c (get s) = Ok a x → part get put c s = Ok a (put x s).
Proof. unfold part. by intros ->. Qed.
End main.
