(* ===== verification/System.v ===== *)
(** * System: the harts together

    A transition system of the whole machine: every hart runs [main] part by part,
    enters its guest, and from then on executes guest code that the MMU confines
    and the hypervisor's trap code.  The parts of [main] between two barriers, and
    the handling of one trap, are single steps; their order is arbitrary but for
    the barriers.  Nothing is assumed of the PLIC, so a trap is also one during
    which other harts use it. *)

From S2P Require Import Prelude Layout Bits Memory Machine Asm Lock Kmem Cpu Linkerscript Vmem PageTable VmemSpec Sv39 Plic Vcpu Vplic Trap VmRun VmRunSpec VmRunTheorems TrapEntry Uart Printf Pci Main.

#[export] Instance byte_dec : EqDecision Init.Byte.byte := Byte.byte_eq_dec.

(** Where a hart is: before a part of main, before vm_enter, in the guest, or
    stopped by a panic after [k] parts. *)
Inductive phase :=
| PInit | PVmem | PMapped | PCheck | PSetup | PStart (i : Z) | PEnter | PGuest | PPanic (k : nat).

(** The number of parts a hart has behind it. *)
Definition rank (p : phase) : nat :=
  match p with
  | PInit => 0 | PVmem => 1 | PMapped => 2 | PCheck => 3 | PSetup => 4
  | PStart _ => 5 | PEnter => 6 | PGuest => 7 | PPanic k => k
  end.

(** The CSRs a guest can change, and the ones the hardware sets on a trap. *)
Definition guest_csrs : list csr :=
  [vsstatus; vsip; vsie; vstvec; vsscratch; vsepc; vscause; vstval; vsatp; vstimecmp; time].
Definition trap_csrs : list csr := [sepc; scause; htval; htinst; sstatus; hstatus; time].

Definition csr_change (h : Z) (qs : list csr) (cs cs' : gmap (Z * csr) Z) : Prop :=
  ∀ h' q, cs' !! (h', q) ≠ cs !! (h', q) → h' = h ∧ q ∈ qs.

(** Memory changes only where the tree at [r] lets the guest write. *)
Definition guest_writes (m m' : ram) (r : Z) : Prop :=
  (∀ p, is_Some (m' !! p) ↔ is_Some (m !! p)) ∧
  ∀ p, m' !! p ≠ m !! p → ∃ gpa, hw_translate m true r AWrite gpa = Some p.

Section system.
Context {D U X : Type} {P : PlicDevice D} {L : Linker} {UD : UartDevice U} {UL : UartLaws U} {PB : PciBus X}.
Context (msg : Z).
#[local] Abbreviation M := (cmd (machine D U X)).

Record system := mk_system {
  sy_machine : machine D U X;
  sy_xr : Z → nat → Z;
  sy_phase : Z → phase
}.
Implicit Type σ : system.

Definition sy_world σ : world D := m_world (sy_machine σ).

(** The machine with hart [h] running; [tp] holds its number. *)
Definition on_hart (h : Z) (w : world D) : world D :=
  mk_world (w_mem w) (w_kmem w) (w_cpus w) (w_cpu_mapped w) (w_config w) (w_vcpus w)
    (w_csr w) (w_plic w) h h.
Definition hart_of (h : Z) σ : hart (world D) := mk_hart (sy_xr σ h) (on_hart h (sy_world σ)).

Definition upd_hart {A} (h : Z) (a : A) (f : Z → A) : Z → A := λ h', if h' =? h then a else f h'.

(** The part of main a hart runs next, and where that takes it. *)
Definition segment (p : phase) (h : Z) : option (M phase) :=
  match p with
  | PInit => Some (main_init msg h ;; mret PVmem)
  | PVmem => Some (main_vmem ;; mret PMapped)
  | PMapped => Some (main_mapped h ;; mret PCheck)
  | PCheck => Some (on_world (vm_check h) ;; mret PSetup)
  | PSetup => Some (i ← on_world get_vcpu; on_world (vm_setup i) ;; mret (PStart i))
  | PStart i => Some (on_world (vm_start i) ;; mret PEnter)
  | _ => None
  end.

(** The barrier in front of a part: all harts have come as far; the last one is
    the VM's own. *)
Definition may_pass (h : Z) σ : Prop :=
  ∀ h', 0 <= h' < DTB_NR_CPUS →
    (5 <= rank (sy_phase σ h) → ∃ k, config_loop (w_config (sy_world σ)) 0 h = Some k ∧
       config_loop (w_config (sy_world σ)) 0 h' = Some k)%nat →
    (rank (sy_phase σ h) <= rank (sy_phase σ h'))%nat.

(** Hart [h] running [p] with the machine as it is. *)
Definition run_segment {A} (h : Z) σ (f : M A) : outcome (machine D U X) A :=
  f (set_world (on_hart h (sy_world σ)) (sy_machine σ)).

(** The system after hart [h] left machine [m], its registers [xs] and its place [p]. *)
Definition after (h : Z) m xs p σ : system :=
  mk_system m (upd_hart h xs (sy_xr σ)) (upd_hart h p (sy_phase σ)).
Definition after_world (h : Z) w xs p σ : system := after h (set_world w (sy_machine σ)) xs p σ.

(** The trapped hart: the hardware has written its trap CSRs. *)
Definition trapped (h : Z) (cs : gmap (Z * csr) Z) σ : hart (world D) :=
  mk_hart (sy_xr σ h) (set_csr cs (on_hart h (sy_world σ))).

Inductive step (h : Z) : system → system → Prop :=
| S_boot σ f p m : segment (sy_phase σ h) h = Some f → may_pass h σ →
    run_segment h σ f = Ok p m → step h σ (after h m (sy_xr σ h) p σ)
| S_boot_panic σ f e m : segment (sy_phase σ h) h = Some f → may_pass h σ →
    run_segment h σ f = Panic e m → step h σ (after h m (sy_xr σ h) (PPanic (rank (sy_phase σ h))) σ)
| S_enter σ pc s : sy_phase σ h = PEnter → vm_enter (hart_of h σ) = Ok pc s →
    step h σ (after_world h (hw s) (xr s) PGuest σ)
| S_guest σ xs m cs : sy_phase σ h = PGuest →
    (∀ n, (0 < n < 32)%nat → 0 <= xs n < 2 ^ 64) →
    guest_writes (w_mem (sy_world σ)) m (hgatp_root (csr_of h hgatp (sy_world σ))) →
    csr_change h guest_csrs (w_csr (sy_world σ)) cs →
    step h σ (after_world h (set_csr cs (set_mem m (sy_world σ))) xs PGuest σ)
| S_trap σ cs clobber pc s : sy_phase σ h = PGuest →
    csr_change h trap_csrs (w_csr (sy_world σ)) cs → 0 <= default 0 (cs !! (h, scause)) < 2 ^ 64 →
    hstrapvec clobber (trapped h cs σ) = Ok pc s → step h σ (after_world h (hw s) (xr s) PGuest σ)
| S_trap_panic σ cs clobber e s : sy_phase σ h = PGuest →
    csr_change h trap_csrs (w_csr (sy_world σ)) cs → 0 <= default 0 (cs !! (h, scause)) < 2 ^ 64 →
    hstrapvec clobber (trapped h cs σ) = Panic e s → step h σ (after_world h (hw s) (xr s) (PPanic 7) σ).

(** One step of some hart, or of the PLIC. *)
Inductive sys_step : system → system → Prop :=
| Y_hart h σ σ' : 0 <= h < DTB_NR_CPUS → step h σ σ' → sys_step σ σ'
| Y_plic σ d : sys_step σ (mk_system (set_world (set_plic d (sy_world σ)) (sy_machine σ)) (sy_xr σ) (sy_phase σ)).
End system.
