(* ===== verification/Deployment.v ===== *)
(** * Deployment: which harts run which VM

    What the theorems on the whole machine assume of the configuration the image
    was built with: it passes the check of vm_run.c, its VMs are well formed and
    apart, and memory suffices.  A VM may have several harts; the first of them
    builds its address space. *)

From S2P Require Import Prelude Layout Bits Memory Machine Lock Kmem Linkerscript Vmem PageTable Vcpu VmRun VmRunSpec KernelSpace VmRunTheorems CpuConfig.

(** The configuration after init_vm_barriers. *)
Definition barred (cs : list vm_config) : list vm_config :=
  (λ c, set_bar (init_barrier (bar c) (count_set_bits (cpu_affinity c))) c) <$> cs.

(** The addresses of the root table of [c]. *)
Definition in_root (c : vm_config) (p : Z) : Prop := root_of c <= p < root_of c + PAGE_SIZE * 4.

Definition is_hart (h : Z) : Prop := 0 <= h < DTB_NR_CPUS.

(** A deployment: the configuration the image was built with, and for each hart
    the index of its VM and the VM (with its barrier set up); the devices of each
    VM; [boot_msg] is the address of the boot message. *)
Class Deployment := {
  vm_table : list vm_config;
  vm_slot : Z → nat;
  vm_of : Z → vm_config;
  slot_devs : nat → list mmio_dev;
  boot_msg : Z
}.

Section deployment.
Context {dp : Deployment}.
Definition devs_of (h : Z) : list mmio_dev := slot_devs (vm_slot h).
(** The number hart [h] has in its VM, and the first hart of that VM, which
    builds its address space. *)
Definition vhart (h : Z) : Z := popcount (Z.to_nat h) (cpu_affinity (vm_of h)).
Definition lead (h : Z) : Z := if decide (vm_slot 0 = vm_slot h) then 0 else h.
(** The number of harts of its VM. *)
Definition vm_harts : Z := if decide (vm_slot 0 = vm_slot 1) then 2 else 1.
(** The pages hart [h] takes at most for the address space of its VM. *)
Definition vm_share {L : Linker} (h : Z) : nat := if decide (lead h = h) then vm_need (vm_of h) (devs_of h) else 0.
End deployment.

(** The configuration gives each hart one VM, which may have several harts; no two
    VMs share memory or devices, and there is enough memory for the tables. *)
Class DeploymentOk {L : Linker} (dp : Deployment) : Prop := {
  co_loop h : is_hart h → config_loop vm_table 0 h = Some (vm_slot h);
  co_conf h : is_hart h → barred vm_table !! vm_slot h = Some (vm_of h);
  co_ok h : is_hart h → vm_ok (vm_of h) (devs_of h);
  co_static c : c ∈ vm_table → bar c = mk_barrier 0 0 0 0 ∧ 0 <= cpu_affinity c < 2 ^ DTB_NR_CPUS;
  co_check : check_loop [] vm_table = false ∧ count_cpus vm_table 0 = DTB_NR_CPUS;
  co_roots h h' : is_hart h → is_hart h' → vm_slot h ≠ vm_slot h' → ∀ p, in_root (vm_of h) p → ¬ in_root (vm_of h') p;
  co_fixed h h' p : is_hart h → is_hart h' → fixed_pa (vm_of h) (devs_of h) p →
    p < KVA2PA sym_dynamic ∧ ¬ in_root (vm_of h') p ∧
    (vm_slot h ≠ vm_slot h' → ¬ fixed_pa (vm_of h') (devs_of h') p);
  co_need : (2 * S kernel_need + vm_share 0%Z + vm_share 1%Z <= length all_pages)%nat;
  co_vcpus : 0 <= sym_vcpus ∧ sym_vcpus + VCPU_SIZE * DTB_NR_CPUS < 2 ^ 64
}.

Section harts.
Context {L : Linker} {dp : Deployment} `{!DeploymentOk dp}.

Lemma is_hart_cases h : is_hart h → h = 0 ∨ h = 1.
Proof. unfold is_hart, DTB_NR_CPUS. lia. Qed.

Lemma lead_hart h : is_hart h → is_hart (lead h).
Proof. intros Hh. unfold lead. by case_decide. Qed.
Lemma lead_slot h : vm_slot (lead h) = vm_slot h.
Proof. unfold lead. by case_decide. Qed.
Lemma lead_lead h : lead (lead h) = lead h.
Proof. unfold lead at 1. rewrite lead_slot. unfold lead. by case_decide. Qed.
Lemma lead_same h h' : is_hart h → is_hart h' → vm_slot h = vm_slot h' → lead h = lead h'.
Proof.
  intros Hh Hh' E. unfold lead. rewrite E. case_decide as Hd; [done|]. rewrite <- E in Hd.
  destruct (is_hart_cases h Hh) as [->| ->]; [done|]. destruct (is_hart_cases h' Hh') as [->| ->]; [|done]. by rewrite E in Hd.
Qed.
Lemma lead_apart h h' : is_hart h → is_hart h' → lead h = h → lead h' = h' → h ≠ h' → vm_slot h ≠ vm_slot h'.
Proof. intros Hh Hh' E E' Hne Es. apply Hne. rewrite <- E, <- E'. by apply lead_same. Qed.

Lemma same_vm h h' : is_hart h → is_hart h' → vm_slot h = vm_slot h' → vm_of h = vm_of h'.
Proof. intros Hh Hh' E. pose proof (co_conf h Hh) as H. rewrite E, (co_conf h' Hh') in H. congruence. Qed.
Lemma lead_vm h : is_hart h → vm_of (lead h) = vm_of h.
Proof. intros Hh. apply same_vm; [by apply lead_hart|done|apply lead_slot]. Qed.
Lemma lead_devs h : devs_of (lead h) = devs_of h.
Proof. unfold devs_of. by rewrite lead_slot. Qed.

(** The affinity of a hart's VM contains it. *)
Lemma affinity_bit h : is_hart h → ∃ c, vm_table !! vm_slot h = Some c ∧
  cpu_affinity (vm_of h) = cpu_affinity c ∧ Z.testbit (cpu_affinity c) h = true.
Proof.
  intros Hh. pose proof (co_loop h Hh) as Hl. pose proof (co_conf h Hh) as Hc.
  apply config_loop_spec in Hl as (j & c & Ej & Hj & Ht & _); [|unfold is_hart, DTB_NR_CPUS in Hh; lia].
  cbn in Ej. subst j. exists c. split; [done|]. split; [|done].
  unfold barred in Hc. rewrite list_lookup_fmap, Hj in Hc. by injection Hc as <-.
Qed.

(** Two VMs have no hart in common. *)
Lemma affinity_apart c h k : vm_table !! k = Some c → is_hart h → Z.testbit (cpu_affinity c) h = true → vm_slot h = k.
Proof.
  intros Hk Hh Ht. destruct (affinity_bit h Hh) as (c' & Hc' & _ & Ht'). destruct (decide (vm_slot h = k)) as [|Hne]; [done|].
  destruct co_check as [Hck _]. apply check_loop_false in Hck as [_ Hdis].
  pose proof (vms_disjoint_lookup _ _ _ _ _ Hdis Hc' Hk Hne) as Hz.
  assert (Hb : Z.testbit (cpu_affinity c' .& cpu_affinity c) h = false) by (rewrite Hz; apply Z.bits_0).
  by rewrite Z.land_spec, Ht, Ht' in Hb.
Qed.

(** The first hart of a VM is its virtual hart 0. *)
Lemma vhart_lead h : is_hart h → vhart h = 0 ↔ lead h = h.
Proof.
  intros Hh. destruct (is_hart_cases h Hh) as [->| ->]; [by unfold lead; case_decide|].
  assert (H0 : is_hart 0) by by vm_compute. destruct (affinity_bit 0 H0) as (c0 & Hc0 & _ & Ht0).
  destruct (affinity_bit 1 Hh) as (c1 & Hc1 & E1 & Ht1).
  unfold vhart, lead. rewrite E1. change (popcount (Z.to_nat 1) (cpu_affinity c1)) with (Z.b2z (Z.testbit (cpu_affinity c1) 0)).
  case_decide as Hd.
  - rewrite Hd, Hc1 in Hc0. injection Hc0 as ->. by rewrite Ht0.
  - destruct (Z.testbit (cpu_affinity c1) 0) eqn:Hb; [|done]. by rewrite (affinity_apart c1 0 _ Hc1 H0 Hb) in Hd.
Qed.

(** The barrier of a VM, once it is set up, is one for its harts. *)
Lemma vm_barrier h : is_hart h → bar (vm_of h) = mk_barrier vm_harts vm_harts 0 0.
Proof.
  intros Hh. destruct (affinity_bit h Hh) as (c & Hc & _ & Ht). pose proof (co_conf h Hh) as Hb.
  unfold barred in Hb. rewrite list_lookup_fmap, Hc in Hb. injection Hb as <-.
  destruct (co_static c (list_elem_of_lookup_2 _ _ _ Hc)) as [Eb Ha]. cbn [bar set_bar]. rewrite Eb.
  assert (En : count_set_bits (cpu_affinity c) = vm_harts); [|by rewrite En].
  assert (H0 : is_hart 0) by (by vm_compute). assert (H1 : is_hart 1) by (by vm_compute).
  pose proof (affinity_apart c 0 _ Hc H0) as A0. pose proof (affinity_apart c 1 _ Hc H1) as A1.
  assert (B : vm_slot 0 = vm_slot 1 → Z.testbit (cpu_affinity c) 0 = true ∧ Z.testbit (cpu_affinity c) 1 = true).
  { intros E. destruct (affinity_bit 0 H0) as (c0 & Hc0 & _ & ?), (affinity_bit 1 H1) as (c1 & Hc1 & _ & ?).
    destruct (is_hart_cases h Hh) as [->| ->]; [rewrite E in Hc0, Hc|rewrite E in Hc0]; by simplify_eq. }
  change (2 ^ DTB_NR_CPUS) with 4 in Ha. unfold vm_harts.
  assert (Hcase : cpu_affinity c = 0 ∨ cpu_affinity c = 1 ∨ cpu_affinity c = 2 ∨ cpu_affinity c = 3) by lia.
  destruct Hcase as [E|[E|[E|E]]]; rewrite E in *; clear Ha.
  - destruct (is_hart_cases h Hh) as [->| ->]; done.
  - case_decide as Hd; [by destruct (B Hd)|by vm_compute].
  - case_decide as Hd; [by destruct (B Hd)|by vm_compute].
  - case_decide as Hd; [by vm_compute|]. destruct Hd. by rewrite (A0 eq_refl), (A1 eq_refl).
Qed.

Lemma vhart_range h : is_hart h → 0 <= vhart h < DTB_NR_CPUS.
Proof. intros Hh. unfold vhart. pose proof (popcount_range (Z.to_nat h) (cpu_affinity (vm_of h))). unfold is_hart in Hh. lia. Qed.

Lemma roots_apart h h' : is_hart h → is_hart h' → vm_slot h ≠ vm_slot h' →
  root_of (vm_of h) + PAGE_SIZE * 4 <= root_of (vm_of h') ∨ root_of (vm_of h') + PAGE_SIZE * 4 <= root_of (vm_of h).
Proof.
  intros Hh Hh' Hne. pose proof (co_roots h h' Hh Hh' Hne) as H. unfold in_root, PAGE_SIZE in *.
  pose proof (H (root_of (vm_of h))). pose proof (H (root_of (vm_of h'))). lia.
Qed.
End harts.
