(* ===== verification/SystemInv.v ===== *)
(** * SystemInv: the invariant of the whole machine

    What holds between any two steps of System.v, for a configuration as
    Deployment.v describes it, and that every step keeps it. *)

From S2P Require Import Prelude Layout Bits Memory Machine Asm Lock Kmem Cpu Linkerscript Vmem PageTable VmemSpec Sv39 Plic Vcpu Vplic Trap VmRun VmRunSpec Regions KernelSpace VplicSpec VmRunTheorems VplicTheorems TrapTheorems TrapEntry TrapEntryTheorems Uart Printf PrintfTheorems Pci Main System Deployment.

Section invariant.
Context {D U X : Type} {P : PlicDevice D} {L : Linker} {UD : UartDevice U} {UL : UartLaws U} {PB : PciBus X}.
Context `{!ImageOk L}.
Context {dp : Deployment} `{!DeploymentOk dp}.
#[local] Abbreviation sys := (system (D:=D) (U:=U) (X:=X)).
Implicit Types (σ : sys) (w : world D) (tabs : gmap Z tab) (fl pg : list Z) (h : Z).

(** ** One hart's part *)

Record kernel_side h w tabs : Prop := {
  ks_tree : ∃ x, valid_address x = true ∧ root_ptr tabs x (KPA2PA x) 0 ∧
    (∀ v, 0 <= v < vpn_bound false →
       pt_look (w_mem w) 2 (KPA2PA x) v = regions_entry (kernel_regions (cpu_addr h)) v) ∧
    w_csr w !! (h, satp) = Some ((KPA2PA x .>> 12) .| ATP_MODE_SV39);
  ks_cpu : w_cpus w !! Z.to_nat h = Some h;
  ks_stvec : w_csr w !! (h, stvec) = Some ((sym_hstrapvec .& ~64 TVEC_MODE) .| TVEC_MODE_DIRECT)
}.

(** The address space of the VM of hart [h]; [pg] are its RAM pages. *)
Record vm_space h w tabs pg : Prop := {
  gs_root : root_ptr tabs (vm_pgtable (vm_of h)) (root_of (vm_of h)) 1;
  gs_look v : 0 <= v < vpn_bound true →
    pt_look (w_mem w) 2 (root_of (vm_of h)) v = guest_entry (vm_of h) (devs_of h) pg v;
  gs_pages : Forall (λ x, valid_address x = true) pg
}.

(** What holds of hart [h] at [p], with registers [xs]. *)
Record hart_inv h w xs p tabs : Prop := {
  hi_kernel : (1 < rank p)%nat → kernel_side h w tabs;
  hi_scratch : (4 < rank p)%nat → scratch_ok h w;
  hi_vcpu : (rank p = 5 ∨ rank p = 6)%nat → w_vcpus w !! Z.to_nat h = Some (fresh_vcpu (vm_slot h) (vhart h));
  hi_start i : p = PStart i → i = h;
  hi_ready : p = PEnter → guest_ready h (vm_of h) (vm_slot h) (vhart h) w;
  hi_hgatp : (5 < rank p)%nat → hgatp_root (csr_of h hgatp w) = root_of (vm_of h);
  hi_running : p = PGuest → ∃ v, in_guest (mk_hart xs (on_hart h w)) v (vm_of h) tabs ∧ conf v = Some (vm_slot h);
  hi_panic k : p = PPanic k → k = 7%nat
}.

(** What holds of the VM of hart [h] at [p]: the first hart has built its address
    space, with the RAM pages [pg], once it is past vm_setup. *)
Record vm_inv h w p tabs pg : Prop := {
  vi_before : lead h = h → (rank p <= 4)%nat → has_bytes (w_mem w) (root_of (vm_of h)) (PAGE_SIZE * 4) ∧ pg = [];
  vi_space : lead h = h → (4 < rank p)%nat → vm_space h w tabs pg;
  vi_other : lead h ≠ h → pg = []
}.

(** What another hart's step leaves to hart [h]. *)
Record spared h w tabs w' tabs' : Prop := {
  sp_tabs : tabs ⊆ tabs';
  sp_look r b v : is_root tabs r b → 0 <= v < vpn_bound b → pt_look (w_mem w') 2 r v = pt_look (w_mem w) 2 r v;
  sp_csr q : w_csr w' !! (h, q) = w_csr w !! (h, q);
  sp_vcpu : w_vcpus w' !! Z.to_nat h = w_vcpus w !! Z.to_nat h;
  sp_cpu : w_cpus w' !! Z.to_nat h = w_cpus w !! Z.to_nat h
}.

Lemma root_ptr_sub tabs tabs' q r x4 : tabs ⊆ tabs' → root_ptr tabs q r x4 → root_ptr tabs' q r x4.
Proof. intros Hs [Hr Hk]. split; [|exact Hk]. by eapply lookup_weaken. Qed.

Lemma kernel_side_spared h w tabs w' tabs' : spared h w tabs w' tabs' →
  kernel_side h w tabs → kernel_side h w' tabs'.
Proof.
  intros S [(x & Hx & Hr & Hl & Hs) Hc Ht]. split; [|by rewrite (sp_cpu _ _ _ _ _ S)|by rewrite (sp_csr _ _ _ _ _ S)].
  exists x. split; [done|]. split; [eapply root_ptr_sub; [apply S|exact Hr]|].
  split; [|by rewrite (sp_csr _ _ _ _ _ S)]. intros v Hv.
  rewrite (sp_look _ _ _ _ _ S (KPA2PA x) false); [by apply Hl|apply Hr|done].
Qed.

Lemma vm_space_spared h w tabs w' tabs' pg : spared h w tabs w' tabs' →
  vm_space h w tabs pg → vm_space h w' tabs' pg.
Proof.
  intros S [Hr Hl Hp]. split; [eapply root_ptr_sub; [apply S|exact Hr]| |done].
  intros v Hv. rewrite (sp_look _ _ _ _ _ S _ true); [by apply Hl|apply Hr|done].
Qed.

Lemma vm_inv_spared h w tabs w' tabs' p pg : spared h w tabs w' tabs' →
  (lead h = h → (rank p <= 4)%nat → has_bytes (w_mem w') (root_of (vm_of h)) (PAGE_SIZE * 4)) →
  vm_inv h w p tabs pg → vm_inv h w' p tabs' pg.
Proof.
  intros S Hb [H1 H2 H3]. split; [| |done].
  - intros E Hr. split; [by apply Hb|by apply H1].
  - intros E Hr. eapply vm_space_spared; [exact S|by apply H2].
Qed.

Lemma in_guest_spared h w tabs w' tabs' xs v c : spared h w tabs w' tabs' → pt_inv (w_mem w') tabs' →
  w_config w' = w_config w → w_cpu_mapped w' = w_cpu_mapped w →
  in_guest (mk_hart xs (on_hart h w)) v c tabs → in_guest (mk_hart xs (on_hart h w')) v c tabs'.
Proof.
  intros S Hpt Ec Em [[[Hc Hv Hk Hvh Hrs Hl] _ Hroot] Hsc Hx Hw Hvc]. split; [|by unfold scratch_ok in *; cbn in *; rewrite (sp_csr _ _ _ _ _ S)|done..].
  split; [|exact Hpt|eapply root_ptr_sub; [apply S|exact Hroot]]. split; [|by cbn in *; rewrite (sp_vcpu _ _ _ _ _ S)|by cbn in *; rewrite Ec|done..].
  destruct Hc as (H1 & H2 & H3). cbn in *. split; [by cbn; rewrite Em|]. split; [done|]. cbn. by rewrite (sp_cpu _ _ _ _ _ S).
Qed.

(** Another hart's step keeps [hart_inv]; the shared variables may only change
    while this hart is booting. *)
Lemma hart_inv_spared h w tabs w' tabs' xs p : spared h w tabs w' tabs' → pt_inv (w_mem w') tabs' →
  (p = PGuest → w_config w' = w_config w ∧ w_cpu_mapped w' = w_cpu_mapped w) →
  hart_inv h w xs p tabs → hart_inv h w' xs p tabs'.
Proof.
  intros S Hpt Hsh [H2 H3 H4 H5 Hre H6 H7 H8]. split; [|..|done].
  - intros Hr. eapply kernel_side_spared; [exact S|by apply H2].
  - intros Hr. unfold scratch_ok. rewrite (sp_csr _ _ _ _ _ S). by apply H3.
  - intros Hr. rewrite (sp_vcpu _ _ _ _ _ S). by apply H4.
  - done.
  - intros Hp. assert (E : ∀ q, csr_of h q w' = csr_of h q w) by (intros q; unfold csr_of; by rewrite (sp_csr _ _ _ _ _ S)).
    destruct (Hre Hp) as [? ? ? ? ? ? ? Hvs ? ? Hvc]. split; rewrite ?E, ?(sp_vcpu _ _ _ _ _ S); try done.
    eapply Forall_impl; [exact Hvs|]. intros q. by rewrite E.
  - intros Hr. unfold csr_of. rewrite (sp_csr _ _ _ _ _ S). by apply H6.
  - intros Hp. destruct (H7 Hp) as (v & Hv & Hk). destruct (Hsh Hp). exists v. split; [|done].
    by eapply in_guest_spared.
Qed.

(** ** The whole *)

Record shared σ : Prop := {
  sh_ranks h h' : is_hart h → is_hart h' → (rank (sy_phase σ h) <= 3)%nat →
    (rank (sy_phase σ h') <= S (rank (sy_phase σ h)))%nat;
  sh_lead h : is_hart h → (5 < rank (sy_phase σ h))%nat → (4 < rank (sy_phase σ (lead h)))%nat;
  sh_mapped : w_cpu_mapped (sy_world σ) = if decide (rank (sy_phase σ 0) <= 2)%nat then 0 else 1;
  sh_config : w_config (sy_world σ) = if decide (rank (sy_phase σ 0) <= 3)%nat then vm_table else barred vm_table;
  sh_cpus : length (w_cpus (sy_world σ)) = 2%nat;
  sh_vcpus : length (w_vcpus (sy_world σ)) = 2%nat
}.

(** Before hart 0 ran init_kmem. *)
Definition boot_text : list Z := [66; 111; 111; 116; 105; 110; 103; 33; 10].
Record early (m : machine D U X) : Prop := {
  e_kmem : kmem_lk (w_kmem (m_world m)) = 0 ∧ freelist (w_kmem (m_world m)) = 0;
  e_ram : ram_ok (w_mem (m_world m));
  e_roots h : is_hart h → has_bytes (w_mem (m_world m)) (root_of (vm_of h)) (PAGE_SIZE * 4);
  e_locks : uart_lk (m_console m) = 0 ∧ printf_lk (m_console m) = 0;
  e_text : boot_msg ≠ 0 ∧ text_at (c_mem (m_console m)) boot_msg (boot_text ++ [0])
}.

(** The free pages the rest of the boot of hart [h] at [p] takes at most. *)
Definition need_left h p : nat :=
  (if decide (rank p <= 1)%nat then S kernel_need else 0) +
  (if decide (rank p <= 4)%nat then vm_share h else 0).

Record late σ tabs fl (pages : Z → list Z) : Prop := {
  l_mem : ∃ data, data ≡ₚ pages 0 ++ pages 1 ∧ mem_inv (sy_world σ) tabs fl data;
  l_len : (need_left 0 (sy_phase σ 0) + need_left 1 (sy_phase σ 1) <= length fl)%nat;
  l_tabs u j : tabs !! u = Some j → (∃ y, valid_address y = true ∧ u = KPA2PA y) ∨
    ∃ h, is_hart h ∧ lead h = h ∧ (4 < rank (sy_phase σ h))%nat ∧ u = root_of (vm_of h) ∧ tsize j = PAGE_SIZE * 4;
  l_hart h : is_hart h → hart_inv h (sy_world σ) (sy_xr σ h) (sy_phase σ h) tabs;
  l_vm h : is_hart h → vm_inv h (sy_world σ) (sy_phase σ h) tabs (pages h)
}.

Definition inv σ : Prop := shared σ ∧
  if decide (rank (sy_phase σ 0) = 0)%nat then early (sy_machine σ) ∧ (∀ h, is_hart h → sy_phase σ h = PInit ∨ sy_phase σ h = PVmem)
  else ∃ tabs fl pages, late σ tabs fl pages.

Lemma upd_hart_eq {A} h (a : A) f : upd_hart h a f h = a.
Proof. unfold upd_hart. by rewrite Z.eqb_refl. Qed.
Lemma upd_hart_ne {A} h h' (a : A) f : h' ≠ h → upd_hart h a f h' = f h'.
Proof. intros. unfold upd_hart. by rewrite (proj2 (Z.eqb_neq _ _)). Qed.

Lemma mem_inv_perm w tabs fl data data' : data ≡ₚ data' → mem_inv w tabs fl data → mem_inv w tabs fl data'.
Proof.
  intros Hp [H1 H2 H3 H4 H5]. split; [done|done| | |by rewrite <- Hp].
  - intros x t i Hx. apply H3. by rewrite Hp.
  - by rewrite <- Hp.
Qed.

(** The address space of the VM of any hart, once it is built. *)
Lemma late_space h σ tabs fl pages : is_hart h → late σ tabs fl pages → (4 < rank (sy_phase σ (lead h)))%nat →
  vm_space h (sy_world σ) tabs (pages (lead h)).
Proof.
  intros Hh Hl Hr. pose proof (vi_space _ _ _ _ _ (l_vm _ _ _ _ Hl (lead h) (lead_hart h Hh)) (lead_lead h) Hr) as [H1 H2 H3].
  rewrite (lead_vm h Hh) in H1, H2. rewrite lead_devs in H2. by split.
Qed.

(** The step of hart [h], whatever it is: what has to be shown for the new state. *)
Lemma late_step h σ m xs p tabs fl pages tabs' fl' pg :
  let w := sy_world σ in let w' := m_world m in let pages' := upd_hart h pg pages in
  is_hart h → late σ tabs fl pages → (rank (sy_phase σ h) <= rank p)%nat →
  (∀ h', is_hart h' → h' ≠ h → spared h' w tabs w' tabs' ∧
     (sy_phase σ h' = PGuest → w_config w' = w_config w ∧ w_cpu_mapped w' = w_cpu_mapped w) ∧
     (lead h' = h' → (rank (sy_phase σ h') <= 4)%nat → has_bytes (w_mem w') (root_of (vm_of h')) (PAGE_SIZE * 4))) →
  (∃ data, data ≡ₚ pages' 0 ++ pages' 1 ∧ mem_inv w' tabs' fl' data) →
  (length fl + need_left h p <= length fl' + need_left h (sy_phase σ h))%nat →
  (∀ u j, tabs' !! u = Some j → tabs !! u = Some j ∨ (∃ y, valid_address y = true ∧ u = KPA2PA y) ∨
     lead h = h ∧ (4 < rank p)%nat ∧ u = root_of (vm_of h) ∧ tsize j = PAGE_SIZE * 4) →
  hart_inv h w' xs p tabs' → vm_inv h w' p tabs' pg →
  late (after h m xs p σ) tabs' fl' pages'.
Proof.
  intros w w' pages' Hh [Hm Hl Ht Hi Hv] Hr Hsp Hm' Hl' Ht' Hi' Hv'. split.
  - exact Hm'.
  - cbn [after sy_phase]. destruct (is_hart_cases h Hh) as [->| ->]; rewrite upd_hart_eq, upd_hart_ne by lia; lia.
  - intros u j Hu. cbn [after sy_phase]. destruct (Ht' u j Hu) as [Hu'|[Hy|Hy]]; [|by left|].
    + destruct (Ht u j Hu') as [?|(h' & Hh' & El & Hr' & ?)]; [by left|]. right. exists h'. split; [done|]. split; [done|].
      split; [|done]. destruct (decide (h' = h)) as [->|]; [rewrite upd_hart_eq; lia|by rewrite upd_hart_ne].
    + right. exists h. by rewrite upd_hart_eq.
  - intros h' Hh'. cbn [after sy_world sy_xr sy_phase sy_machine]. destruct (decide (h' = h)) as [->|Hne].
    + by rewrite !upd_hart_eq.
    + rewrite !upd_hart_ne by done. destruct (Hsp h' Hh' Hne) as (Hs & Hg & _).
      eapply hart_inv_spared; [exact Hs| |exact Hg|by apply Hi].
      destruct Hm' as (? & _ & Hm'). apply Hm'.
  - intros h' Hh'. cbn [after sy_world sy_xr sy_phase sy_machine]. destruct (decide (h' = h)) as [->|Hne].
    + unfold pages'. by rewrite !upd_hart_eq.
    + unfold pages'. rewrite !upd_hart_ne by done. destruct (Hsp h' Hh' Hne) as (Hs & _ & Hb).
      eapply vm_inv_spared; [exact Hs|exact Hb|by apply Hv].
Qed.

(** A step that leaves memory and the other harts alone. *)
Record quiet_for h w w' : Prop := {
  qf_mem : w_mem w' = w_mem w ∧ w_kmem w' = w_kmem w;
  qf_csr h' q : h' ≠ h → w_csr w' !! (h', q) = w_csr w !! (h', q);
  qf_vcpu i : i ≠ Z.to_nat h → w_vcpus w' !! i = w_vcpus w !! i;
  qf_cpu i : i ≠ Z.to_nat h → w_cpus w' !! i = w_cpus w !! i
}.

Lemma is_hart_nat h h' : is_hart h → is_hart h' → h' ≠ h → Z.to_nat h' ≠ Z.to_nat h.
Proof. unfold is_hart. lia. Qed.

Lemma quiet_spared h h' w w' tabs : is_hart h → is_hart h' → h' ≠ h → quiet_for h w w' → spared h' w tabs w' tabs.
Proof.
  intros Hh Hh' Hne [[Em _] Hc Hv Hp]. pose proof (is_hart_nat _ _ Hh Hh' Hne).
  split; [done|by intros; rewrite Em|by intros; apply Hc|by apply Hv|by apply Hp].
Qed.

(** The step need not build the VM's address space. *)
Definition builds h (p p' : phase) : Prop := lead h = h ∧ (rank p <= 4)%nat ∧ (4 < rank p')%nat.

Lemma vm_inv_quiet h w w' p p' tabs pg : w_mem w' = w_mem w → (rank p <= rank p')%nat → ¬ builds h p p' →
  vm_inv h w p tabs pg → vm_inv h w' p' tabs pg.
Proof.
  intros Em Hr Hn [H1 H2 H3]. split; [| |done].
  - intros E Hr'. rewrite Em. apply H1; [done|lia].
  - intros E Hr'. destruct (H2 E) as [? ? ?]; [|split; [done|by rewrite Em|done]].
    destruct (decide (rank p <= 4)%nat); [|lia]. by destruct Hn.
Qed.

(** Whatever hart moves, the pages of the VMs are the same when its own are. *)
Lemma pages_same h (pages : Z → list Z) : is_hart h →
  upd_hart h (pages h) pages 0 ++ upd_hart h (pages h) pages 1 = pages 0 ++ pages 1.
Proof. intros Hh. destruct (is_hart_cases h Hh) as [->| ->]; by rewrite upd_hart_eq, upd_hart_ne by lia. Qed.

Lemma late_quiet h σ m xs p tabs fl pages :
  let w := sy_world σ in let w' := m_world m in
  is_hart h → late σ tabs fl pages → (rank (sy_phase σ h) <= rank p)%nat → quiet_for h w w' →
  (∀ h', is_hart h' → h' ≠ h → sy_phase σ h' = PGuest →
     w_config w' = w_config w ∧ w_cpu_mapped w' = w_cpu_mapped w) →
  (need_left h p <= need_left h (sy_phase σ h))%nat → ¬ builds h (sy_phase σ h) p →
  hart_inv h w' xs p tabs →
  ∃ pages', late (after h m xs p σ) tabs fl pages'.
Proof.
  intros w w' Hh Hl Hr Hq Hg Hn Hb Hi. exists (upd_hart h (pages h) pages).
  destruct (qf_mem _ _ _ Hq) as [Em Ek]. destruct (l_mem _ _ _ _ Hl) as (data & Hd & Hmi).
  apply (late_step h σ m xs p tabs fl pages); [done|done|done| | |lia|auto|done|].
  - intros h' Hh' Hne. split; [by apply (quiet_spared h)|]. split; [by apply Hg|].
    intros El Hr'. fold w'. rewrite Em. by apply (vi_before _ _ _ _ _ (l_vm _ _ _ _ Hl h' Hh')).
  - exists data. rewrite pages_same by done. split; [done|by eapply mem_inv_same].
  - eapply (vm_inv_quiet h w w'); [exact Em|exact Hr|exact Hb|by apply Hl].
Qed.

(** Own facts that a step does not touch. *)
Lemma kernel_side_same h w w' tabs : w_mem w' = w_mem w → w_cpus w' = w_cpus w →
  w_csr w' !! (h, satp) = w_csr w !! (h, satp) → w_csr w' !! (h, stvec) = w_csr w !! (h, stvec) →
  kernel_side h w tabs → kernel_side h w' tabs.
Proof. intros Em Ec E1 E2 [H1 H2 H3]. split; [by rewrite Em, E1|by rewrite Ec|by rewrite E2]. Qed.

(** ** init_vmem and init_hart *)

Lemma init_hart_run w x : w_cpu_mapped w = 0 → is_hart (w_tp w) → w_hart w = w_tp w →
  length (w_cpus w) = 2%nat →
  ∃ cs, let h := w_tp w in
    init_hart x w = Ok tt (set_csr cs (set_cpus (<[Z.to_nat h := h]> (w_cpus w)) w)) ∧
    cs !! (h, satp) = Some ((KPA2PA x .>> 12) .| ATP_MODE_SV39) ∧
    cs !! (h, stvec) = Some ((sym_hstrapvec .& ~64 TVEC_MODE) .| TVEC_MODE_DIRECT) ∧
    ∀ h' q, h' ≠ h → cs !! (h', q) = w_csr w !! (h', q).
Proof.
  intros Hm Hh Eh Hl. unfold init_hart. erewrite bind_ok by by apply mycpu_boot. rewrite bind_gets.
  destruct image_offsets as (t & et & ro & ero & d & ed & cs & dy & O).
  destruct (of_eq _ _ _ _ _ _ _ _ O) as (_ & _ & _ & _ & _ & _ & E & _).
  pose proof (of_order _ _ _ _ _ _ _ _ O) as Ho.
  assert (Hi : cpu_index (cpu_addr (w_tp w)) w = Some (Z.to_nat (w_tp w))).
  { unfold is_hart, DTB_NR_CPUS in Hh. unfold cpu_index.
    rewrite (cpu_addr_off _ _ _ _ _ _ _ _ O _ Hh), E. change CPU_SIZE with 0x3000.
    rewrite (proj2 (Z.eqb_neq _ _)) by (unfold VAS_KERNEL, VAS_CPU_STRUCT; lia).
    replace (VAS_KERNEL + (cs + w_tp w * 0x3000) - (VAS_KERNEL + cs)) with (w_tp w * 0x3000) by lia.
    rewrite Z.mod_mul, Z.div_mul, (proj2 (Z.leb_le _ _)) by lia. done. }
  rewrite (bind_ok _ _ w tt (set_cpus (<[Z.to_nat (w_tp w) := w_tp w]> (w_cpus w)) w)).
  2:{ unfold store_hartid. rewrite Hi, Hl. unfold is_hart, DTB_NR_CPUS in Hh.
      by rewrite (proj2 (Nat.ltb_lt _ _)) by lia. }
  set (w1 := set_cpus _ w). rewrite <- (set_csr_id w1). unfold CSRC. rewrite CSRS_seq, bind_bind.
  erewrite bind_ok by reflexivity. rewrite CSRW_seq, CSRW_seq, CSRW_last. eexists. split; [reflexivity|].
  change (w_hart w1) with (w_hart w). rewrite Eh. split_and!.
  - by rewrite lookup_insert_eq.
  - by rewrite lookup_insert_ne, lookup_insert_eq by congruence.
  - intros h' q Hne. by rewrite !lookup_insert_ne by congruence.
Qed.

(** The root table of a VM that is not built yet lies outside every table. *)
Lemma root_unused h σ tabs fl pages p : late σ tabs fl pages → is_hart h → lead h = h →
  (rank (sy_phase σ h) <= 4)%nat → in_root (vm_of h) p →
  p < KVA2PA sym_dynamic ∧ ∀ u j, tabs !! u = Some j → ¬ (u <= p < u + tsize j).
Proof.
  intros Hl Hh El Hr Hp. destruct (vm_root _ _ (co_ok h Hh)) as (_ & _ & Hd & _).
  unfold in_root in Hp. split; [lia|]. intros u j Hu Hin.
  destruct (l_tabs _ _ _ _ Hl u j Hu) as [(y & Hy & ->)|(h' & Hh' & El' & Hr' & -> & Ht)].
  - destruct (valid_address_pa y Hy) as (_ & ? & _). lia.
  - apply (co_roots h' h Hh' Hh ltac:(apply lead_apart; try done; intros ->; lia) p); unfold in_root; lia.
Qed.

(** The harts a hart may leave behind when it goes on to [p]: none by more than one
    part before the last barrier, and not the first hart of its VM before vm_setup. *)
Definition passes h σ p : Prop :=
  (∀ h', is_hart h' → (rank (sy_phase σ h') <= 3)%nat → (rank p <= S (rank (sy_phase σ h')))%nat) ∧
  ((5 < rank p)%nat → (4 < rank (sy_phase σ (lead h)))%nat).

Lemma shared_step h σ m p xs : is_hart h → shared σ → (rank (sy_phase σ h) <= rank p)%nat → passes h σ p →
  w_cpu_mapped (m_world m) = (if decide (rank (upd_hart h p (sy_phase σ) 0) <= 2)%nat then 0 else 1) →
  w_config (m_world m) = (if decide (rank (upd_hart h p (sy_phase σ) 0) <= 3)%nat then vm_table else barred vm_table) →
  length (w_cpus (m_world m)) = 2%nat → length (w_vcpus (m_world m)) = 2%nat →
  shared (after h m xs p σ).
Proof.
  intros Hh Hs Hr [Hpass Hlead] Hm Hc Hcl Hvl. split; [| |exact Hm|exact Hc|exact Hcl|exact Hvl]; cbn [after sy_phase].
  - intros h1 h2 H1 H2.
    destruct (decide (h1 = h)) as [->|Hn1], (decide (h2 = h)) as [->|Hn2]; rewrite ?upd_hart_eq, ?upd_hart_ne by done.
    + lia.
    + pose proof (sh_ranks _ Hs h h2 Hh H2). lia.
    + intros Hle. by apply Hpass.
    + by apply Hs.
  - intros h1 H1 H5. assert (H : (4 < rank (sy_phase σ (lead h1)))%nat).
    { destruct (decide (h1 = h)) as [->|]; [rewrite upd_hart_eq in H5; by apply Hlead|].
      rewrite upd_hart_ne in H5 by done. by apply (sh_lead _ Hs). }
    destruct (decide (lead h1 = h)) as [E|]; [rewrite E, upd_hart_eq; rewrite E in H; lia|by rewrite upd_hart_ne].
Qed.

(** After the configuration check the variables have their final values. *)
Lemma booted_shared h σ : is_hart h → shared σ → (4 < rank (sy_phase σ h))%nat →
  w_cpu_mapped (sy_world σ) = 1 ∧ w_config (sy_world σ) = barred vm_table.
Proof.
  intros Hh Hs Hr. assert (H : (4 <= rank (sy_phase σ 0))%nat).
  { destruct (decide (rank (sy_phase σ 0) <= 3)%nat) as [H|]; [|lia].
    pose proof (sh_ranks _ Hs 0 h ltac:(by vm_compute) Hh H). lia. }
  rewrite (sh_mapped _ Hs), (sh_config _ Hs), !decide_False by lia. done.
Qed.

(** The barrier in front of a part gives what [shared_step] asks for. *)
Lemma pass_rank h σ p : is_hart h → shared σ → may_pass h σ → rank p = S (rank (sy_phase σ h)) → passes h σ p.
Proof.
  intros Hh Hs Hpass Hr. split.
  - intros h' Hh' Hle. pose proof (sh_ranks _ Hs h' h Hh' Hh Hle). specialize (Hpass h' Hh'). lia.
  - intros H5. specialize (Hpass (lead h) (lead_hart h Hh)). enough (rank (sy_phase σ h) <= rank (sy_phase σ (lead h)))%nat by lia.
    apply Hpass. intros _. rewrite (proj2 (booted_shared h σ Hh Hs ltac:(lia))). unfold barred. rewrite !config_loop_set_bar.
    exists (vm_slot h). split; [by apply co_loop|]. rewrite <- (lead_slot h). by apply co_loop, lead_hart.
Qed.

Lemma run_on_world {A B} h σ (c : cmd (world D) A) (k : A → cmd (machine D U X) B) a w :
  c (on_hart h (sy_world σ)) = Ok a w →
  run_segment h σ (x ← on_world c; k x) = k a (set_world w (sy_machine σ)).
Proof.
  intros E. unfold run_segment. rewrite (bind_ok _ _ _ a (set_world w (sy_machine σ))); [done|].
  unfold on_world, part. cbn [m_world set_world]. by rewrite E.
Qed.

(** There are enough free pages for every hart. *)
Lemma need_fits h σ tabs fl pages : is_hart h → late σ tabs fl pages → (need_left h (sy_phase σ h) <= length fl)%nat.
Proof. intros Hh Hl. pose proof (l_len _ _ _ _ Hl). destruct (is_hart_cases h Hh) as [->| ->]; lia. Qed.

(** A step that keeps what lies outside all tables keeps the root tables that are
    not built yet. *)
Lemma roots_kept h σ tabs fl pages m : late σ tabs fl pages → is_hart h → lead h = h → (rank (sy_phase σ h) <= 4)%nat →
  (∀ p, p < KVA2PA sym_dynamic → in_root (vm_of h) p →
     (∀ u j, tabs !! u = Some j → ¬ (u <= p < u + tsize j)) → m !! p = w_mem (sy_world σ) !! p) →
  has_bytes m (root_of (vm_of h)) (PAGE_SIZE * 4).
Proof.
  intros Hl Hh El Hr Hm p Hin. destruct (root_unused h σ tabs fl pages p Hl Hh El Hr Hin) as [Hlo Hun].
  rewrite (Hm p Hlo Hin Hun). by apply (vi_before _ _ _ _ _ (l_vm _ _ _ _ Hl h Hh) El Hr).
Qed.

Lemma seg_vmem h σ tabs fl pages : is_hart h → shared σ → late σ tabs fl pages → sy_phase σ h = PVmem →
  ∃ w tabs' fl' pages', run_segment h σ (main_vmem ;; mret PMapped) = Ok PMapped (set_world w (sy_machine σ)) ∧
    late (after h (set_world w (sy_machine σ)) (sy_xr σ h) PMapped σ) tabs' fl' pages' ∧
    w_cpu_mapped w = w_cpu_mapped (sy_world σ) ∧ w_config w = w_config (sy_world σ) ∧
    length (w_cpus w) = 2%nat ∧ w_vcpus w = w_vcpus (sy_world σ).
Proof.
  intros Hh Hs Hl Hp. set (w0 := on_hart h (sy_world σ)).
  destruct (l_mem _ _ _ _ Hl) as (data & Hd & Hmi).
  assert (Hmi0 : mem_inv w0 tabs fl data) by by apply (mem_inv_same (sy_world σ)).
  assert (Hm0 : w_cpu_mapped w0 = 0).
  { cbn. rewrite (sh_mapped _ Hs), decide_True; [done|].
    pose proof (sh_ranks _ Hs h 0 Hh ltac:(by vm_compute)) as H. rewrite Hp in H. cbn [rank] in H. lia. }
  assert (Hn : need_left h PVmem = (S kernel_need + vm_share h)%nat) by done.
  pose proof (need_fits h σ tabs fl pages Hh Hl) as Hle. rewrite Hp in Hle.
  destruct (init_vmem_run w0 tabs fl data Hmi0 Hm0 Hh ltac:(lia)) as (x & w1 & tabs' & fl' & Hrun & B).
  destruct (kb_only _ _ _ _ _ _ _ _ _ B) as (m1 & k1 & E1).
  destruct (init_hart_run w1 x) as (cs & Hih & Hsatp & Hstvec & Hcs); [by rewrite E1|by rewrite E1|by rewrite E1|
    rewrite E1; apply Hs|].
  assert (Et : w_tp w1 = h) by by rewrite E1. rewrite Et in *.
  set (w2 := set_csr cs (set_cpus (<[Z.to_nat h := h]> (w_cpus w1)) w1)) in *.
  assert (Hhl : (Z.to_nat h < length (w_cpus w1))%nat).
  { rewrite E1. cbn. rewrite (sh_cpus _ Hs). unfold is_hart, DTB_NR_CPUS in Hh. lia. }
  assert (E2 : w_config w2 = w_config (sy_world σ) ∧ w_cpu_mapped w2 = w_cpu_mapped (sy_world σ) ∧
    w_vcpus w2 = w_vcpus (sy_world σ) ∧ w_cpus w2 = <[Z.to_nat h := h]> (w_cpus (sy_world σ)))
    by (unfold w2; by rewrite E1).
  destruct E2 as (Eco & Ema & Evc & Ecp).
  exists w2, tabs', fl', (upd_hart h (pages h) pages). split.
  { apply (run_on_world h σ (pgtable ← init_vmem; init_hart pgtable) (λ _, mret PMapped) tt).
    erewrite bind_ok by exact Hrun. exact Hih. }
  assert (Hroots : ∀ h', is_hart h' → lead h' = h' → (rank (sy_phase σ h') <= 4)%nat →
    has_bytes (w_mem w2) (root_of (vm_of h')) (PAGE_SIZE * 4)).
  { intros h' Hh' El Hr'. apply (roots_kept h' σ tabs fl pages); try done. intros p Hlo _ Hun.
    by apply (kb_static _ _ _ _ _ _ _ _ _ B). }
  split; [|rewrite Ecp, length_insert; split_and!; [done|done|apply Hs|done]].
  apply (late_step h σ _ _ _ tabs fl pages); [done|done|by rewrite Hp; cbn; lia|..]; cbn [m_world set_world].
  - intros h' Hh' Hne. pose proof (is_hart_nat _ _ Hh Hh' Hne). split; [|split; [done|by apply Hroots]].
    split; [apply B|intros r b v Hr Hv; apply (kb_other _ _ _ _ _ _ _ _ _ B r b v Hr Hv)| |by rewrite Evc|].
    + intros q. cbn [w_csr set_csr w2]. rewrite Hcs by done. by rewrite E1.
    + by rewrite Ecp, list_lookup_insert_ne by done.
  - exists data. rewrite pages_same by done. split; [done|]. eapply mem_inv_same; [..|apply B]; done.
  - destruct (kb_fl _ _ _ _ _ _ _ _ _ B) as (used & -> & Hu). rewrite Hp, Hn.
    assert (need_left h PMapped = vm_share h) as -> by done. cbn [length]. rewrite length_app. lia.
  - intros u j Hu. destruct (kb_new _ _ _ _ _ _ _ _ _ B u j Hu) as [?|?]; [by left|by right; left].
  - split; try (cbn [rank]; lia); try done.
    + intros _. split; [|by apply list_lookup_insert_eq|exact Hstvec].
      exists x. split; [|split; [apply B|split; [|exact Hsatp]]].
      * destruct (kb_fl _ _ _ _ _ _ _ _ _ B) as (used & -> & _). eapply mi_valid; [exact Hmi|by left].
      * intros v Hv. apply (kb_look _ _ _ _ _ _ _ _ _ B v Hv).
  - pose proof (l_vm _ _ _ _ Hl h Hh) as Hv. rewrite Hp in Hv. split; [|by cbn; lia|apply Hv].
    intros El _. split; [apply Hroots; [done|done|by rewrite Hp; cbn; lia]|]. apply Hv; [done|cbn; lia].
Qed.

(** ** cpu_mapped and the configuration check *)

(** A booting hart that only moves on. *)
Lemma hart_inv_moves h w w' xs p p' tabs : hart_inv h w xs p tabs →
  (p, p') = (PMapped, PCheck) ∨ (p, p') = (PCheck, PSetup) →
  w_mem w' = w_mem w → w_cpus w' = w_cpus w → w_csr w' = w_csr w → hart_inv h w' xs p' tabs.
Proof.
  intros [H2 _ _ _ _ _ _ _] Hp Em Ec Es.
  assert (Hb : (1 < rank p)%nat) by (destruct Hp as [[= -> ->]|[= -> ->]]; cbn; lia).
  assert (Hr : (rank p' <= 4)%nat) by (destruct Hp as [[= -> ->]|[= -> ->]]; cbn; lia).
  split; try lia; try (by destruct Hp as [[= -> ->]|[= -> ->]]).
  intros _. eapply kernel_side_same; [exact Em|exact Ec|by rewrite Es..|apply H2; lia].
Qed.

(** The two parts only hart 0 executes. *)
Lemma late_moves h σ w p' tabs fl pages : is_hart h → shared σ → late σ tabs fl pages →
  (sy_phase σ h, p') = (PMapped, PCheck) ∨ (sy_phase σ h, p') = (PCheck, PSetup) →
  w_mem w = w_mem (sy_world σ) → w_kmem w = w_kmem (sy_world σ) → w_cpus w = w_cpus (sy_world σ) →
  w_csr w = w_csr (sy_world σ) → w_vcpus w = w_vcpus (sy_world σ) →
  ∃ pages', late (after h (set_world w (sy_machine σ)) (sy_xr σ h) p' σ) tabs fl pages'.
Proof.
  intros Hh Hs Hl Hp Em Ek Ec Es Ev.
  assert (Hr : rank p' = S (rank (sy_phase σ h)) ∧ (rank (sy_phase σ h) <= 3)%nat ∧
    (need_left h p' <= need_left h (sy_phase σ h))%nat).
  { destruct Hp as [[= -> ->]|[= -> ->]]; cbn [rank]; split_and!; try lia; done. }
  destruct Hr as (Hr & H3 & Hn).
  apply (late_quiet h σ _ _ _ tabs fl pages); [done|done|lia| | |done|by intros (_ & _ & ?); lia|].
  - split; cbn [m_world set_world]; [done|by rewrite Es|by rewrite Ev|by rewrite Ec].
  - intros h' Hh' _ Hg. pose proof (sh_ranks _ Hs h h' Hh Hh' H3) as H. rewrite Hg in H. cbn [rank] in H. lia.
  - eapply hart_inv_moves; [by apply Hl|exact Hp|exact Em|exact Ec|exact Es].
Qed.

Lemma seg_mapped h σ tabs fl pages : is_hart h → shared σ → late σ tabs fl pages → sy_phase σ h = PMapped →
  ∃ w pages', run_segment h σ (main_mapped h ;; mret PCheck) = Ok PCheck (set_world w (sy_machine σ)) ∧
    late (after h (set_world w (sy_machine σ)) (sy_xr σ h) PCheck σ) tabs fl pages' ∧
    w_cpu_mapped w = (if h =? 0 then 1 else w_cpu_mapped (sy_world σ)) ∧ w_config w = w_config (sy_world σ) ∧
    w_cpus w = w_cpus (sy_world σ) ∧ w_vcpus w = w_vcpus (sy_world σ).
Proof.
  intros Hh Hs Hl Hp.
  exists (if h =? 0 then set_cpu_mapped 1 (on_hart h (sy_world σ)) else on_hart h (sy_world σ)).
  destruct (late_moves h σ (if h =? 0 then set_cpu_mapped 1 (on_hart h (sy_world σ)) else on_hart h (sy_world σ))
    PCheck tabs fl pages Hh Hs Hl) as (pages' & Hl'); [by left; rewrite Hp|by destruct (h =? 0)..|].
  exists pages'. split; [|by destruct (h =? 0)]. unfold run_segment, main_mapped. by destruct (h =? 0).
Qed.

Lemma check_runs w : w_config w = vm_table →
  (init_vm_barriers ;; check_cpu_configuration) w = Ok tt (set_config (barred vm_table) w).
Proof.
  intros Ec. unfold init_vm_barriers. rewrite bind_modify. rewrite Ec. fold (barred vm_table).
  unfold check_cpu_configuration. csimp. cbn [w_config set_config]. destruct (co_check) as [H1 H2].
  unfold barred. rewrite (check_loop_set_bar (λ c, init_barrier (bar c) (count_set_bits (cpu_affinity c))) []).
  by rewrite count_cpus_set_bar, H1, H2.
Qed.

Lemma seg_check h σ tabs fl pages : is_hart h → shared σ → late σ tabs fl pages → sy_phase σ h = PCheck →
  ∃ w pages', run_segment h σ (on_world (vm_check h) ;; mret PSetup) = Ok PSetup (set_world w (sy_machine σ)) ∧
    late (after h (set_world w (sy_machine σ)) (sy_xr σ h) PSetup σ) tabs fl pages' ∧
    w_cpu_mapped w = w_cpu_mapped (sy_world σ) ∧
    w_config w = (if h =? 0 then barred vm_table else w_config (sy_world σ)) ∧
    w_cpus w = w_cpus (sy_world σ) ∧ w_vcpus w = w_vcpus (sy_world σ).
Proof.
  intros Hh Hs Hl Hp.
  exists (if h =? 0 then set_config (barred vm_table) (on_hart h (sy_world σ)) else on_hart h (sy_world σ)).
  destruct (late_moves h σ (if h =? 0 then set_config (barred vm_table) (on_hart h (sy_world σ)) else on_hart h (sy_world σ))
    PSetup tabs fl pages Hh Hs Hl) as (pages' & Hl'); [by right; rewrite Hp|by destruct (h =? 0)..|].
  exists pages'. split; [|by destruct (h =? 0)].
  apply (run_on_world h σ (vm_check h) (λ _, mret PSetup) tt). unfold vm_check.
  destruct (Z.eqb_spec h 0) as [->|]; [|done]. cbn [whenM]. apply check_runs.
  cbn [on_hart w_config]. rewrite (sh_config _ Hs). by rewrite Hp, decide_True by (cbn; lia).
Qed.

(** ** vm_setup *)

Lemma setup_memory h σ tabs fl pages data : is_hart h → lead h = h → late σ tabs fl pages → sy_phase σ h = PSetup →
  mem_inv (sy_world σ) tabs fl data → vm_memory_ok (on_hart h (sy_world σ)) tabs fl data (vm_of h) (devs_of h).
Proof.
  intros Hh El Hl Hp Hmi. split; [by apply (mem_inv_same (sy_world σ))|].
  split; [apply (vi_before _ _ _ _ _ (l_vm _ _ _ _ Hl h Hh) El); rewrite Hp; cbn; lia|]. split.
  - intros u j Hu. destruct (vm_root _ _ (co_ok h Hh)) as (_ & _ & Hd & _).
    destruct (l_tabs _ _ _ _ Hl u j Hu) as [(y & Hy & ->)|(h' & Hh' & El' & Hr & -> & ->)].
    + destruct (valid_address_pa y Hy) as (_ & ? & _). lia.
    + apply roots_apart; [done|done|]. apply lead_apart; try done. intros ->. rewrite Hp in Hr. cbn in Hr. lia.
  - pose proof (need_fits h σ tabs fl pages Hh Hl) as Hlen.
    assert (Hn : need_left h PSetup = vm_need (vm_of h) (devs_of h)) by (unfold need_left, vm_share; by rewrite (decide_True _ _ El)).
    rewrite Hp in Hlen. lia.
Qed.

(** What every hart brings to vm_setup. *)
Lemma setup_ready h σ tabs fl pages : is_hart h → shared σ → may_pass h σ → late σ tabs fl pages → sy_phase σ h = PSetup →
  let w := on_hart h (sy_world σ) in
  kernel_side h (sy_world σ) tabs ∧ cpu_ready w ∧ config_loop (w_config w) 0 h = Some (vm_slot h) ∧
  w_config w !! vm_slot h = Some (vm_of h) ∧ ∃ v, w_vcpus w !! Z.to_nat h = Some v.
Proof.
  intros Hh Hs Hpass Hl Hp w.
  assert (H04 : (4 <= rank (sy_phase σ 0))%nat).
  { specialize (Hpass 0 ltac:(by vm_compute)). rewrite Hp in Hpass. cbn [rank] in Hpass. lia. }
  pose proof (hi_kernel _ _ _ _ _ (l_hart _ _ _ _ Hl h Hh)) as Hks. rewrite Hp in Hks. specialize (Hks ltac:(cbn; lia)).
  assert (Eco : w_config w = barred vm_table) by (cbn; by rewrite (sh_config _ Hs), decide_False by lia).
  split; [done|]. split; [|rewrite Eco; split_and!].
  - split; [|split; [exact Hh|apply (ks_cpu _ _ _ Hks)]]. cbn. rewrite (sh_mapped _ Hs), decide_False by lia. done.
  - unfold barred. rewrite config_loop_set_bar. by apply co_loop.
  - by apply co_conf.
  - apply lookup_lt_is_Some_2. cbn. rewrite (sh_vcpus _ Hs). unfold is_hart, DTB_NR_CPUS in Hh. lia.
Qed.

(** The result of vm_setup of hart [h]. *)
Definition set_up_by h σ : Prop := ∃ w tabs' fl' pages',
  run_segment h σ (i ← on_world get_vcpu; on_world (vm_setup i) ;; mret (PStart i)) =
    Ok (PStart h) (set_world w (sy_machine σ)) ∧
  late (after h (set_world w (sy_machine σ)) (sy_xr σ h) (PStart h) σ) tabs' fl' pages' ∧
  w_cpu_mapped w = w_cpu_mapped (sy_world σ) ∧ w_config w = w_config (sy_world σ) ∧
  w_cpus w = w_cpus (sy_world σ) ∧ length (w_vcpus w) = 2%nat.

Lemma setup_segment h σ w : cpu_ready (on_hart h (sy_world σ)) → vm_setup h (on_hart h (sy_world σ)) = Ok tt w →
  run_segment h σ (i ← on_world get_vcpu; on_world (vm_setup i) ;; mret (PStart i)) =
    Ok (PStart h) (set_world w (sy_machine σ)).
Proof.
  intros Hr Hrun. rewrite (run_on_world h σ get_vcpu _ h (on_hart h (sy_world σ))) by by apply get_hartid_ready.
  erewrite bind_ok; [reflexivity|]. unfold on_world, part. cbn [m_world set_world]. by rewrite Hrun.
Qed.

(** The hart after vm_setup. *)
Lemma hart_inv_set_up h w xs tabs : kernel_side h w tabs → w_csr w !! (h, sscratch) = Some (regs_addr h) →
  w_vcpus w !! Z.to_nat h = Some (fresh_vcpu (vm_slot h) (vhart h)) → hart_inv h w xs (PStart h) tabs.
Proof. intros Hk Hs Hv. split; try (cbn [rank]; lia); try done. by intros i [= ->]. Qed.

(** The first hart of a VM builds its address space. *)
Lemma seg_setup_first h σ tabs fl pages : is_hart h → shared σ → may_pass h σ → late σ tabs fl pages →
  sy_phase σ h = PSetup → lead h = h → set_up_by h σ.
Proof.
  intros Hh Hs Hpass Hl Hp El. set (w0 := on_hart h (sy_world σ)).
  destruct (setup_ready h σ tabs fl pages Hh Hs Hpass Hl Hp) as (Hks & Hready & Hlp & Hcf & v0 & Hv0).
  destruct (l_mem _ _ _ _ Hl) as (data & Hd & Hmi). pose proof (proj2 (vhart_lead h Hh) El) as Evh.
  destruct (vm_setup_run w0 tabs fl data (vm_slot h) (vm_of h) (devs_of h) v0) as (w' & tabs' & fl' & pg & Hrun & Su);
    [exact Hready|exact Hv0|exact Hlp|exact Hcf|exact Evh|by apply co_ok|by eapply setup_memory|].
  destruct Su as [(w1 & Em1 & B) Evc Ecs Ecf _ [Ecp Ema] _].
  change (w_mem w0) with (w_mem (sy_world σ)) in Em1. change (w_hart w0) with h in *.
  pose proof (l_vm _ _ _ _ Hl h Hh) as Hvm.
  assert (Hpg : pages h = []) by (apply (vi_before _ _ _ _ _ Hvm El); rewrite Hp; cbn; lia).
  exists w', tabs', fl', (upd_hart h pg pages). split; [by apply setup_segment|].
  split; [|split_and!; [done|done|done|rewrite Evc, length_insert; apply Hs]].
  apply (late_step h σ _ _ _ tabs fl pages); [done|done|by rewrite Hp; cbn; lia|..]; cbn [m_world set_world].
  - intros h' Hh' Hne. pose proof (is_hart_nat _ _ Hh Hh' Hne). split; [|split; [done|]].
    + split; [apply B|intros r b v Hr Hv; rewrite <- Em1; apply (vb_other _ _ _ _ _ _ _ _ _ _ B r b v Hr Hv)| | |by rewrite Ecp].
      * intros q. rewrite Ecs. by rewrite lookup_insert_ne by congruence.
      * by rewrite Evc, list_lookup_insert_ne by done.
    + intros El' Hr'. apply (roots_kept h' σ tabs fl pages); try done. intros q Hlo Hin Hun.
      rewrite (vb_static _ _ _ _ _ _ _ _ _ _ B q Hlo); [by rewrite Em1| |exact Hun].
      apply (co_roots h' h); try done. by apply lead_apart.
  - exists (reverse pg ++ data). split; [|apply B]. rewrite Hd, reverse_Permutation.
    destruct (is_hart_cases h Hh) as [->| ->]; rewrite upd_hart_eq, upd_hart_ne, Hpg by lia; [done|].
    rewrite app_nil_r. apply Permutation_app_comm.
  - destruct (vb_fl _ _ _ _ _ _ _ _ _ _ B) as (used & -> & _ & Hu). rewrite Hp.
    assert (need_left h PSetup = vm_need (vm_of h) (devs_of h)) as -> by (unfold need_left, vm_share; by rewrite (decide_True _ _ El)).
    assert (need_left h (PStart h) = 0%nat) as -> by done. rewrite length_app. lia.
  - intros u j Hu. destruct (vb_new _ _ _ _ _ _ _ _ _ _ B u j Hu) as [?|[?|?]]; [by left| |by right; left].
    right. right. split; [done|]. split; [cbn; lia|done].
  - apply hart_inv_set_up.
    + destruct Hks as [(x & Hx & Hr & Hlk & Hsa) Hc Hst].
      split; [|by rewrite Ecp|rewrite Ecs; by rewrite lookup_insert_ne by congruence].
      exists x. split; [done|]. split; [eapply root_ptr_sub; [apply B|exact Hr]|].
      split; [|rewrite Ecs; by rewrite lookup_insert_ne by congruence].
      intros v Hv. rewrite (vb_other _ _ _ _ _ _ _ _ _ _ B _ false v) by (done || apply Hr).
      rewrite Em1. by apply Hlk.
    + rewrite Ecs. apply lookup_insert_eq.
    + rewrite Evc, Evh. apply list_lookup_insert_eq. by eapply lookup_lt_Some.
  - split; [by cbn; lia| |done]. intros _ _. split; [apply B|apply B|by eapply built_pages_valid].
Qed.

(** The others only prepare their virtual CPUs. *)
Lemma seg_setup_next h σ tabs fl pages : is_hart h → shared σ → may_pass h σ → late σ tabs fl pages →
  sy_phase σ h = PSetup → lead h ≠ h → set_up_by h σ.
Proof.
  intros Hh Hs Hpass Hl Hp El. set (w0 := on_hart h (sy_world σ)).
  destruct (setup_ready h σ tabs fl pages Hh Hs Hpass Hl Hp) as (Hks & Hready & Hlp & Hcf & v0 & Hv0).
  assert (Evh : vhart h ≠ 0) by (by rewrite vhart_lead).
  pose proof (vm_setup_next w0 (vm_slot h) (vm_of h) v0 Hready Hv0 Hlp Hcf Evh) as Hrun.
  change (w_hart w0) with h in *. match type of Hrun with _ = Ok _ ?x => set (w' := x) in * end.
  destruct (late_quiet h σ (set_world w' (sy_machine σ)) (sy_xr σ h) (PStart h) tabs fl pages) as (pages' & Hl');
    [done|done|by rewrite Hp; cbn; lia| |done| |by intros [? _]| |]; cbn [m_world set_world].
  - split; [done| | |done].
    + intros h' q Hne. unfold w'. cbn. by rewrite lookup_insert_ne by congruence.
    + intros i Hne. unfold w'. cbn. by rewrite list_lookup_insert_ne by done.
  - rewrite Hp. assert (need_left h (PStart h) = 0%nat) as -> by done. lia.
  - apply hart_inv_set_up.
    + eapply (kernel_side_same h (sy_world σ)); [done|done| | |exact Hks]; unfold w'; cbn; by rewrite lookup_insert_ne by congruence.
    + unfold w'. cbn. apply lookup_insert_eq.
    + unfold w'. cbn. apply list_lookup_insert_eq. by eapply lookup_lt_Some.
  - exists w', tabs, fl, pages'. split; [by apply setup_segment|]. split; [exact Hl'|].
    split_and!; [done|done|done|]. unfold w'. cbn. rewrite length_insert. apply Hs.
Qed.

Lemma seg_setup h σ tabs fl pages : is_hart h → shared σ → may_pass h σ → late σ tabs fl pages →
  sy_phase σ h = PSetup → set_up_by h σ.
Proof.
  intros. destruct (decide (lead h = h)); [by eapply seg_setup_first|by eapply seg_setup_next].
Qed.
End invariant.
