(* ===== verification/SystemSteps.v ===== *)
(** * SystemSteps: every step keeps the invariant

    The remaining steps of System.v - the boot of hart 0, the start of a guest,
    guest code and traps - and the invariance of [inv] under all of them. *)

From S2P Require Import Prelude Layout Bits Memory Machine Asm Lock Kmem Cpu Linkerscript Vmem PageTable VmemSpec Sv39 Plic Vcpu Vplic Trap VmRun VmRunSpec Regions KernelSpace VplicSpec VmRunTheorems VplicTheorems TrapTheorems TrapEntry TrapEntryTheorems TrapShared Uart Printf PrintfTheorems Pci Main System Deployment SystemInv.

(** Membership in a concrete list. *)
Ltac in_list := apply (bool_decide_unpack _); vm_compute; exact I.

Section steps.
Context {D U X : Type} {P : PlicDevice D} {L : Linker} {UD : UartDevice U} {UL : UartLaws U} {PB : PciBus X}.
Context `{!ImageOk L} {dp : Deployment} `{!DeploymentOk dp}.
#[local] Abbreviation sys := (system (D:=D) (U:=U) (X:=X)).
Implicit Types (σ : sys) (w : world D) (tabs : gmap Z tab) (fl pg : list Z) (h : Z).

(** ** Starting the guest *)

(** vm_start, as far as hart [h] and its VM go. *)
Lemma start_hart h w xs tabs : is_hart h → w_config w = barred vm_table → hart_inv h w xs (PStart h) tabs →
  ∃ cs, vm_start h (on_hart h w) = Ok tt (set_csr cs (on_hart h w)) ∧
    (∀ h' q, h' ≠ h → cs !! (h', q) = w_csr w !! (h', q)) ∧ hart_inv h (set_csr cs (on_hart h w)) xs PEnter tabs.
Proof.
  intros Hh Eco [Hk Hg Hv _ _ _ _ _].
  specialize (Hk ltac:(cbn; lia)). specialize (Hg ltac:(cbn; lia)). specialize (Hv ltac:(by left)).
  destruct (vm_start_run (on_hart h w) (vm_slot h) (vhart h) (vm_of h) (devs_of h)) as (cs & Hrun & Hgr & Hcs & E1 & E2 & E3).
  - by apply co_ok.
  - apply Hh.
  - change (w_config (on_hart h w)) with (w_config w). rewrite Eco. by apply co_conf.
  - change (csr_of h sscratch w = regs_addr h). unfold csr_of. by rewrite Hg.
  - exact Hv.
  - change (w_hart (on_hart h w)) with h in *. exists cs. split; [exact Hrun|]. split; [exact Hcs|].
    split; try (cbn [rank]; lia); try done.
    + intros _. by eapply kernel_side_same; [..|exact Hk].
    + intros _. unfold scratch_ok. cbn [w_csr set_csr]. by rewrite E1.
    + intros _. apply (proj1 (gd_hgatp _ _ _ _ _ Hgr)).
Qed.

Lemma seg_start h σ tabs fl pages : is_hart h → shared σ → late σ tabs fl pages → sy_phase σ h = PStart h →
  ∃ w pages', run_segment h σ (on_world (vm_start h) ;; mret PEnter) = Ok PEnter (set_world w (sy_machine σ)) ∧
    late (after h (set_world w (sy_machine σ)) (sy_xr σ h) PEnter σ) tabs fl pages' ∧
    w_cpu_mapped w = w_cpu_mapped (sy_world σ) ∧ w_config w = w_config (sy_world σ) ∧
    w_cpus w = w_cpus (sy_world σ) ∧ w_vcpus w = w_vcpus (sy_world σ).
Proof.
  intros Hh Hs Hl Hp. destruct (booted_shared h σ Hh Hs) as [_ Eco]; [rewrite Hp; cbn; lia|].
  pose proof (l_hart _ _ _ _ Hl h Hh) as Hi. rewrite Hp in Hi.
  destruct (start_hart h _ _ _ Hh Eco Hi) as (cs & Hrun & Hcs & Hi').
  destruct (late_quiet h σ (set_world (set_csr cs (on_hart h (sy_world σ))) (sy_machine σ)) (sy_xr σ h) PEnter tabs fl pages)
    as (pages' & Hl'); [done|done|by rewrite Hp; cbn; lia| |done|by rewrite Hp|by rewrite Hp; intros (_ & H & _); cbn in H; lia|exact Hi'|].
  - split; cbn [m_world set_world]; [done|exact Hcs|done|done].
  - exists (set_csr cs (on_hart h (sy_world σ))), pages'. split; [|done].
    by apply (run_on_world h σ (vm_start h) (λ _, mret PEnter) tt).
Qed.

Lemma fresh_running h w : is_hart h → w_cpu_mapped w = 1 → w_config w = barred vm_table →
  w_cpus w !! Z.to_nat h = Some h → w_vcpus w !! Z.to_nat h = Some (fresh_vcpu (vm_slot h) (vhart h)) →
  running (on_hart h w) (fresh_vcpu (vm_slot h) (vhart h)) (vm_of h).
Proof.
  intros Hh Em Ec Hc Hv. split; [|done| |by apply vhart_range|done|done].
  - split; [by cbn; rewrite Em|done].
  - cbn. rewrite Ec. by apply co_conf.
Qed.

Lemma fresh_words k n : 0 <= n < 2 ^ 64 → words (regs (fresh_vcpu k n)).
Proof. intros Hn. apply Forall_insert; [|lia]. apply Forall_insert; [|done]. apply Forall_replicate. lia. Qed.

(** vm_enter. *)
Lemma enter_hart h w xs tabs : is_hart h → w_cpu_mapped w = 1 → w_config w = barred vm_table →
  hart_inv h w xs PEnter tabs → pt_inv (w_mem w) tabs → root_ptr tabs (vm_pgtable (vm_of h)) (root_of (vm_of h)) 1 →
  ∃ s, vm_enter (mk_hart xs (on_hart h w)) = Ok (csr_of h sepc w) s ∧ hw s = on_hart h w ∧
    (∀ n, (0 < n < 32)%nat → xr s n = get_reg (Z.of_nat n) (fresh_vcpu (vm_slot h) (vhart h))) ∧
    guest_ready h (vm_of h) (vm_slot h) (vhart h) w ∧ hart_inv h (on_hart h w) (xr s) PGuest tabs.
Proof.
  intros Hh Em Eco [Hk Hsc Hv _ Hrd Hhg _ _] Hpt Hroot.
  specialize (Hk ltac:(cbn; lia)). specialize (Hsc ltac:(cbn; lia)). specialize (Hv ltac:(by right)).
  specialize (Hhg ltac:(cbn; lia)). destruct co_vcpus as [V0 V1].
  pose proof (fresh_running h w Hh Em Eco (ks_cpu _ _ _ Hk) Hv) as Hr.
  assert (Hfw : words (regs (fresh_vcpu (vm_slot h) (vhart h))))
    by (apply fresh_words; pose proof (vhart_range h Hh); unfold DTB_NR_CPUS in *; lia).
  destruct (vm_enter_run h (fresh_vcpu (vm_slot h) (vhart h)) (mk_hart xs (on_hart h w))) as (s & Hrun & Ew & Hx);
    [by apply (running_attached _ _ _ Hr)|exact Hsc|exact Hfw|].
  exists s. split; [done|]. split; [done|]. split; [done|]. split; [by apply Hrd|].
  split; try (cbn [rank]; lia); try done.
  - intros _. by eapply kernel_side_same; [..|exact Hk].
  - intros _. exists (fresh_vcpu (vm_slot h) (vhart h)). split; [|done].
    split; [split; [exact Hr|exact Hpt|exact Hroot]|exact Hsc| |exact Hfw|by apply co_vcpus].
    intros n Hn. cbn [xr]. rewrite Hx by done. apply get_reg_word; [exact Hfw|done|lia].
Qed.

Lemma step_enter h σ tabs fl pages : is_hart h → shared σ → late σ tabs fl pages → sy_phase σ h = PEnter →
  ∃ s pages', vm_enter (hart_of h σ) = Ok (csr_of h sepc (sy_world σ)) s ∧ hw s = on_hart h (sy_world σ) ∧
    (∀ n, (0 < n < 32)%nat → xr s n = get_reg (Z.of_nat n) (fresh_vcpu (vm_slot h) (vhart h))) ∧
    guest_ready h (vm_of h) (vm_slot h) (vhart h) (sy_world σ) ∧ late (after_world h (hw s) (xr s) PGuest σ) tabs fl pages'.
Proof.
  intros Hh Hs Hl Hp. destruct (booted_shared h σ Hh Hs) as [Em Eco]; [rewrite Hp; cbn; lia|].
  pose proof (l_hart _ _ _ _ Hl h Hh) as Hi. rewrite Hp in Hi. destruct (l_mem _ _ _ _ Hl) as (data & _ & Hmi).
  pose proof (late_space h σ tabs fl pages Hh Hl (sh_lead _ Hs h Hh ltac:(rewrite Hp; cbn; lia))) as Hg.
  destruct (enter_hart h _ _ _ Hh Em Eco Hi (mi_pt _ _ _ _ Hmi) (gs_root _ _ _ _ Hg)) as (s & Hrun & Ew & Hx & Hrd & Hi').
  destruct (late_quiet h σ (set_world (hw s) (sy_machine σ)) (xr s) PGuest tabs fl pages)
    as (pages' & Hl'); [done|done|by rewrite Hp; cbn; lia|by rewrite Ew; split|by rewrite Ew|by rewrite Hp|by rewrite Hp; intros (_ & H & _); cbn in H; lia|by rewrite Ew|].
  by exists s, pages'.
Qed.

(** ** Guest code *)

(** The physical bytes the guest of hart [h] can reach. *)
Definition reach h pg (p : Z) : Prop := ∃ a gpa, guest_translation (vm_of h) (devs_of h) pg a gpa = Some p.

Lemma vm_space_translates h w tabs pg a gpa : pt_inv (w_mem w) tabs → vm_space h w tabs pg →
  hw_translate (w_mem w) true (root_of (vm_of h)) a gpa = guest_translation (vm_of h) (devs_of h) pg a gpa.
Proof.
  intros Hpt Hg. rewrite guest_translation_vpn. rewrite <- (gs_look _ _ _ _ Hg) by apply vpn_range.
  eapply hw_translate_look; [exact Hpt|]. apply (proj1 (gs_root _ _ _ _ Hg)).
Qed.

Lemma pages_sub σ tabs fl pages data h x : late σ tabs fl pages → data ≡ₚ pages 0 ++ pages 1 →
  is_hart h → x ∈ pages h → x ∈ data.
Proof.
  intros Hl Hd Hh Hx. rewrite Hd, elem_of_app. unfold is_hart, DTB_NR_CPUS in Hh.
  destruct (decide (h = 0)) as [->|]; [by left|]. right. by replace 1 with h by lia.
Qed.

(** What a guest can reach is its own: neither a table nor a free page. *)
Lemma reach_own h σ tabs fl pages p : is_hart h → late σ tabs fl pages → (4 < rank (sy_phase σ (lead h)))%nat →
  reach h (pages (lead h)) p →
  (∀ u j, tabs !! u = Some j → ¬ (u <= p < u + tsize j)) ∧
  (∀ x, x ∈ fl → ¬ (KPA2PA x <= p < KPA2PA x + PAGE_SIZE)).
Proof.
  intros Hh Hl Hr (a & gpa & Ht). destruct (l_mem _ _ _ _ Hl) as (data & Hd & Hmi).
  pose proof (gs_pages _ _ _ _ (late_space h σ tabs fl pages Hh Hl Hr)) as Hpg.
  destruct (guest_translation_cases _ _ _ _ _ _ (co_ok h Hh) Hpg Ht) as [(x & Hx & Hin)|Hf].
  - pose proof (pages_sub _ _ _ _ _ _ _ Hl Hd (lead_hart h Hh) Hx) as Hxd. split.
    + intros u j Hu Hp. destruct (mi_free _ _ _ _ Hmi x u j ltac:(apply elem_of_app; by right) Hu); lia.
    + intros y Hy Hp. rewrite Forall_forall in Hpg.
      destruct (pages_disjoint x y) as [?|?]; [by apply Hpg|eapply mi_valid; [exact Hmi|apply elem_of_app; by left]| |lia|lia].
      intros ->. pose proof (mi_nodup _ _ _ _ Hmi) as (_ & Hn & _)%NoDup_app. by apply (Hn y).
  - destruct (co_fixed h h p Hh Hh Hf) as [Hlo _]. split.
    + intros u j Hu Hp. destruct (l_tabs _ _ _ _ Hl u j Hu) as [(y & Hy & ->)|(h' & Hh' & _ & _ & -> & Et)].
      * destruct (valid_address_pa y Hy) as (_ & ? & _). lia.
      * destruct (co_fixed h h' p Hh Hh' Hf) as (_ & Hnr & _). apply Hnr. unfold in_root. lia.
    + intros x Hx Hp. assert (Hv : valid_address x = true) by (eapply mi_valid; [exact Hmi|apply elem_of_app; by left]).
      destruct (valid_address_pa x Hv) as (_ & ? & _). lia.
Qed.

Lemma mem_inv_write w tabs fl data m : mem_inv w tabs fl data →
  (∀ p, is_Some (m !! p) ↔ is_Some (w_mem w !! p)) →
  (∀ p, m !! p ≠ w_mem w !! p → (∀ u j, tabs !! u = Some j → ¬ (u <= p < u + tsize j)) ∧
     (∀ x, x ∈ fl → ¬ (KPA2PA x <= p < KPA2PA x + PAGE_SIZE))) →
  agree_tabs tabs (w_mem w) m ∧ mem_inv (set_mem m w) tabs fl data.
Proof.
  intros Hmi Hdom Hch.
  assert (Hag : agree_tabs tabs (w_mem w) m).
  { intros u j a Hu Ha. destruct (decide (m !! a = w_mem w !! a)) as [->|Hne]; [done|].
    destruct (Hch a Hne) as [Hn _]. by destruct (Hn u j Hu). }
  split; [exact Hag|]. destruct Hmi as [(Hlk & Hfl & Hnd & Hram) Hpt Hfr Hn Hd].
  split; [|by eapply pt_inv_frame|done..]. split; [done|]. split; [|split; [done|]].
  - eapply is_freelist_frame; [exact Hfl|]. intros x Hx a Ha.
    destruct (decide (m !! a = w_mem w !! a)) as [E|Hne]; [done|].
    destruct (Hch a Hne) as [_ Hf]. destruct (Hf x Hx). unfold PAGE_SIZE. lia.
  - intros x Hx a Ha. apply Hdom. by apply (Hram x Hx).
Qed.

(** The CSRs the hypervisor relies on while a guest runs. *)
Definition kept_csrs : list csr := [satp; stvec; sscratch; hgatp].

Lemma hart_inv_csrs h w xs tabs xs' cs : hart_inv h w xs PGuest tabs →
  (∀ q, q ∈ kept_csrs → cs !! (h, q) = w_csr w !! (h, q)) →
  (∀ n, (0 < n < 32)%nat → 0 <= xs' n < 2 ^ 64) →
  hart_inv h (set_csr cs w) xs' PGuest tabs.
Proof.
  intros [Hk Hsc _ _ _ Hhg Hr _] Hq Hx. split; try (cbn [rank]; lia); try done.
  - intros _. eapply (kernel_side_same h w); [done|done|apply Hq; in_list|apply Hq; in_list|apply Hk; cbn; lia].
  - intros _. unfold scratch_ok. cbn [w_csr set_csr]. rewrite Hq by in_list. apply Hsc. cbn. lia.
  - intros _. unfold csr_of. cbn [w_csr set_csr]. rewrite Hq by in_list. apply Hhg. cbn. lia.
  - intros _. destruct (Hr eq_refl) as (v & [[[? ? ? ? ? ?] ? ?] Hs _ Hw Hvc] & Hc). exists v. split; [|done].
    split; [split; [by split|done|done]| |exact Hx|done|done].
    unfold scratch_ok. cbn in *. rewrite Hq by in_list. exact Hs.
Qed.

Lemma kept_change h qs cs cs' : csr_change h qs cs cs' → Forall (λ q, q ∉ qs) kept_csrs →
  ∀ q, q ∈ kept_csrs → cs' !! (h, q) = cs !! (h, q).
Proof.
  intros Hc Hk q Hq. rewrite Forall_forall in Hk.
  destruct (decide (cs' !! (h, q) = cs !! (h, q))) as [|Hne]; [done|]. destruct (Hc h q Hne) as [_ Hin].
  by destruct (Hk q Hq).
Qed.
Lemma other_change h qs cs cs' h' q : csr_change h qs cs cs' → h' ≠ h → cs' !! (h', q) = cs !! (h', q).
Proof.
  intros Hc Hne. destruct (decide (cs' !! (h', q) = cs !! (h', q))) as [|Hn]; [done|]. by destruct (Hc h' q Hn).
Qed.
Lemma guest_keeps : Forall (λ q, q ∉ guest_csrs) kept_csrs.
Proof. apply (bool_decide_unpack _). by vm_compute. Qed.
Lemma trap_keeps : Forall (λ q, q ∉ trap_csrs) kept_csrs.
Proof. apply (bool_decide_unpack _). by vm_compute. Qed.

Lemma step_guest h σ tabs fl pages xs m cs : is_hart h → shared σ → late σ tabs fl pages →
  sy_phase σ h = PGuest → (∀ n, (0 < n < 32)%nat → 0 <= xs n < 2 ^ 64) →
  guest_writes (w_mem (sy_world σ)) m (hgatp_root (csr_of h hgatp (sy_world σ))) →
  csr_change h guest_csrs (w_csr (sy_world σ)) cs →
  ∃ pages', late (after_world h (set_csr cs (set_mem m (sy_world σ))) xs PGuest σ) tabs fl pages' ∧
    (∀ p, m !! p ≠ w_mem (sy_world σ) !! p → reach h (pages (lead h)) p) ∧ (∀ h', pages' h' = pages h').
Proof.
  intros Hh Hs Hl Hp Hx [Hdom Hw] Hcs. pose proof (l_hart _ _ _ _ Hl h Hh) as Hi. rewrite Hp in Hi.
  pose proof (sh_lead _ Hs h Hh ltac:(rewrite Hp; cbn; lia)) as Hld.
  pose proof (late_space h σ tabs fl pages Hh Hl Hld) as Hg.
  pose proof (hi_kernel _ _ _ _ _ Hi ltac:(cbn; lia)) as Hk.
  pose proof (hi_hgatp _ _ _ _ _ Hi ltac:(cbn; lia)) as Ehg. rewrite Ehg in Hw.
  destruct (l_mem _ _ _ _ Hl) as (data & Hd & Hmi).
  assert (Hre : ∀ p, m !! p ≠ w_mem (sy_world σ) !! p → reach h (pages (lead h)) p).
  { intros p Hne. destruct (Hw p Hne) as (gpa & Ht). exists AWrite, gpa.
    rewrite <- Ht. symmetry. eapply vm_space_translates; [apply Hmi|exact Hg]. }
  destruct (mem_inv_write (sy_world σ) tabs fl data m Hmi Hdom) as [Hag Hmi'].
  { intros p Hne. eapply reach_own; [exact Hh|exact Hl|exact Hld|by apply Hre]. }
  set (w' := set_csr cs (set_mem m (sy_world σ))).
  assert (Hlk : ∀ r b v', is_root tabs r b → 0 <= v' < vpn_bound b →
    pt_look (w_mem w') 2 r v' = pt_look (w_mem (sy_world σ)) 2 r v').
  { intros r b v' Hr Hv. eapply pt_look_frame; [apply Hmi|exact Hag|by apply root_path]. }
  assert (Hbytes : ∀ h', is_hart h' → lead h' = h' → (rank (sy_phase σ h') <= 4)%nat →
    has_bytes (w_mem w') (root_of (vm_of h')) (PAGE_SIZE * 4)).
  { intros h' Hh' El Hr a Ha. apply Hdom. by apply (vi_before _ _ _ _ _ (l_vm _ _ _ _ Hl h' Hh') El Hr). }
  exists (upd_hart h (pages h) pages). split; [|split; [exact Hre|]].
  2:{ intros h'. destruct (decide (h' = h)) as [->|]; [by rewrite upd_hart_eq|by rewrite upd_hart_ne]. }
  apply (late_step h σ _ _ _ tabs fl pages); [done|done|by rewrite Hp| | |by rewrite Hp|auto| |];
    cbn [m_world set_world]; fold w'.
  - intros h' Hh' Hne. split; [|split; [done|by apply Hbytes]].
    split; [done|exact Hlk| |done|done]. intros q. by eapply other_change.
  - exists data. rewrite pages_same by done. split; [done|by eapply (mem_inv_same (set_mem m (sy_world σ)))].
  - apply (hart_inv_csrs h (set_mem m (sy_world σ)) (sy_xr σ h)); [|exact (kept_change _ _ _ _ Hcs guest_keeps)|exact Hx].
    apply (hart_inv_spared h (sy_world σ) tabs); [by split|apply Hmi'|done|exact Hi].
  - pose proof (l_vm _ _ _ _ Hl h Hh) as [_ Hv3 Hv4]. rewrite Hp in Hv3.
    split; [by intros _ H; cbn in H; lia| |exact Hv4]. intros El Hr. destruct (Hv3 El Hr) as [Ha Hb Hc].
    split; [exact Ha| |exact Hc]. intros v Hv. rewrite (Hlk _ true); [by apply Hb|apply Ha|done].
Qed.

(** ** Traps *)

Lemma in_guest_on_hart h xs w v c tabs : w_hart w = h → in_guest (mk_hart xs w) v c tabs →
  in_guest (mk_hart xs (on_hart h w)) v c tabs.
Proof. intros <- [[[(? & ? & ?) ? ? ? ? ?] ? ?] ? ? ? ?]. split; [split; [by split|done|done]|done..]. Qed.

(** What a handled trap of hart [h] leaves of the world [w]. *)
Record trap_frame h w w' : Prop := {
  tf_mem : w_mem w' = w_mem w ∧ w_kmem w' = w_kmem w;
  tf_config : w_config w' = w_config w ∧ w_cpu_mapped w' = w_cpu_mapped w ∧ w_cpus w' = w_cpus w;
  tf_len : length (w_vcpus w') = length (w_vcpus w);
  tf_vcpus i : i ≠ Z.to_nat h → w_vcpus w' !! i = w_vcpus w !! i;
  tf_csr h' q : h' ≠ h → w_csr w' !! (h', q) = w_csr w !! (h', q);
  tf_kept q : q ∈ kept_csrs → w_csr w' !! (h, q) = w_csr w !! (h, q)
}.

Lemma frame_quiet h w w' : trap_frame h w w' → quiet_for h w w'.
Proof. intros [Hm (_ & _ & Hc) _ Hv Hq _]. split; [done|done|done|by intros; rewrite Hc]. Qed.

Lemma kernel_side_frame h w w' tabs : trap_frame h w w' → kernel_side h w tabs → kernel_side h w' tabs.
Proof.
  intros F. apply kernel_side_same; [apply F|apply (tf_config _ _ _ F)|apply (tf_kept _ _ _ F); in_list..].
Qed.
Lemma scratch_frame h w w' : trap_frame h w w' → scratch_ok h w → scratch_ok h w'.
Proof. intros F H. unfold scratch_ok. rewrite (tf_kept _ _ _ F); [exact H|in_list]. Qed.

(** The frame of the saved registers and of the handler's effect. *)
Lemma entry_frame h w v rs cs : csr_change h trap_csrs (w_csr w) cs →
  trap_frame h w (with_regs h v rs (set_csr cs (on_hart h w))).
Proof.
  intros Hc. split; [done|done|by cbn; rewrite length_insert| | |].
  - intros i Hi. cbn. by rewrite list_lookup_insert_ne.
  - intros h' q Hne. by eapply other_change.
  - exact (kept_change _ _ _ _ Hc trap_keeps).
Qed.
Lemma effect_frame h w v c w' v' : w_hart w = h → trap_kept w v c w' v' → trap_frame h w w'.
Proof.
  intros <- [Hl _ Hn _ _ Hc _]. destruct (le_cpus _ _ Hl).
  split; [by split; apply Hl|by split; [apply Hl|]|exact Hn|apply Hl| |].
  - intros h' q Hne. by apply Hc.
  - intros q Hq. apply Hc. intros _. unfold kept_csrs in Hq. rewrite !elem_of_cons in Hq.
    by destruct Hq as [->|[->|[->|[->|[]%not_elem_of_nil]]]].
Qed.
Lemma frame_trans h w1 w2 w3 : trap_frame h w1 w2 → trap_frame h w2 w3 → trap_frame h w1 w3.
Proof.
  intros [[? ?] (? & ? & ?) ? A1 B1 C1] [[? ?] (? & ? & ?) ? A2 B2 C2].
  split; [split; congruence|split_and!; congruence|congruence|..].
  - intros i Hi. by rewrite A2, A1.
  - intros h' q Hq. by rewrite B2, B1.
  - intros q Hq. by rewrite C2, C1.
Qed.

(** A trap, as far as hart [h] goes. *)
Lemma trap_hart h w xs tabs cs clobber : hart_inv h w xs PGuest tabs →
  csr_change h trap_csrs (w_csr w) cs → 0 <= default 0 (cs !! (h, scause)) < 2 ^ 64 →
  match hstrapvec clobber (mk_hart xs (set_csr cs (on_hart h w))) with
  | Ok _ s => hart_inv h (hw s) (xr s) PGuest tabs ∧ trap_frame h w (hw s)
  | Panic _ s => hart_inv h (hw s) (xr s) (PPanic 7) tabs ∧ trap_frame h w (hw s)
  | _ => False
  end.
Proof.
  intros Hi Hcs Hca. set (s0 := mk_hart xs (set_csr cs (on_hart h w))).
  destruct (hi_running _ _ _ _ _ Hi eq_refl) as (v & Hin & Hcv).
  assert (Hin' : in_guest s0 v (vm_of h) tabs).
  { destruct Hin as [[[? ? ? ? ? ?] ? ?] Hsc Hx Hw Hvc]. split; [split; [by split|done|done]| |exact Hx|done|done].
    unfold scratch_ok. cbn in *. rewrite (kept_change _ _ _ _ Hcs trap_keeps); [exact Hsc|in_list]. }
  destruct (trap_round_shared clobber s0 v (vm_of h) tabs Hin' Hca) as (rs & _ & H).
  cbv zeta in H.
  change (w_hart (hw s0)) with h in *. change (hw s0) with (set_csr cs (on_hart h w)) in *.
  pose proof (entry_frame h w v rs cs Hcs) as F1.
  set (w1 := with_regs h v rs _) in *. destruct (handler _ w1) as [[] w2|e w2| |]; [|..|done|done].
  - destruct H as (s & v2 & -> & <- & He & Hin2).
    pose proof (frame_trans _ _ _ _ F1 (effect_frame h w1 _ _ _ _ eq_refl He)) as F. split; [|exact F].
    split; try (cbn [rank]; lia); try done.
    + intros _. eapply kernel_side_frame; [exact F|apply (hi_kernel _ _ _ _ _ Hi); cbn; lia].
    + intros _. eapply scratch_frame; [exact F|apply (hi_scratch _ _ _ _ _ Hi); cbn; lia].
    + intros _. unfold csr_of. rewrite (tf_kept _ _ _ F) by in_list. apply (hi_hgatp _ _ _ _ _ Hi). cbn. lia.
    + intros _. exists v2. split; [|by rewrite (proj1 (tk_conf _ _ _ _ _ He))].
      apply in_guest_on_hart; [apply (le_hart _ _ (tk_local _ _ _ _ _ He))|]. by destruct s.
  - destruct H as (s & -> & ->). split; [|exact F1]. split; try (cbn [rank]; lia); try done.
    + intros _. eapply kernel_side_frame; [exact F1|apply (hi_kernel _ _ _ _ _ Hi); cbn; lia].
    + intros _. eapply scratch_frame; [exact F1|apply (hi_scratch _ _ _ _ _ Hi); cbn; lia].
    + intros _. unfold csr_of. rewrite (tf_kept _ _ _ F1) by in_list. apply (hi_hgatp _ _ _ _ _ Hi). cbn. lia.
    + by intros k [= ->].
Qed.

(** What it leaves of the whole machine. *)
Lemma late_frame h σ tabs fl pages w xs p : is_hart h → late σ tabs fl pages → sy_phase σ h = PGuest → rank p = 7%nat →
  trap_frame h (sy_world σ) w → hart_inv h w xs p tabs → ∃ pages', late (after_world h w xs p σ) tabs fl pages'.
Proof.
  intros Hh Hl Hp Hr F Hi. assert (Hn : ∀ q, rank q = 7%nat → need_left h q = 0%nat)
    by (intros q Hq; unfold need_left; by rewrite Hq).
  apply (late_quiet h σ _ _ _ tabs fl pages); [done|done|by rewrite Hp, Hr|by apply frame_quiet| |by rewrite !Hn by by rewrite ?Hp|by rewrite Hp; intros (_ & H' & _); cbn in H'; lia|exact Hi].
  intros h' _ _ _. split; apply (tf_config _ _ _ F).
Qed.

Lemma step_trap h σ tabs fl pages cs clobber : is_hart h → late σ tabs fl pages →
  sy_phase σ h = PGuest → csr_change h trap_csrs (w_csr (sy_world σ)) cs →
  0 <= default 0 (cs !! (h, scause)) < 2 ^ 64 →
  match hstrapvec clobber (trapped h cs σ) with
  | Ok _ s => (∃ pages', late (after_world h (hw s) (xr s) PGuest σ) tabs fl pages') ∧
      trap_frame h (sy_world σ) (hw s)
  | Panic _ s => (∃ pages', late (after_world h (hw s) (xr s) (PPanic 7) σ) tabs fl pages') ∧
      trap_frame h (sy_world σ) (hw s)
  | _ => False
  end.
Proof.
  intros Hh Hl Hp Hcs Hca. pose proof (l_hart _ _ _ _ Hl h Hh) as Hi. rewrite Hp in Hi.
  pose proof (trap_hart h _ _ _ cs clobber Hi Hcs Hca) as H. unfold trapped.
  destruct (hstrapvec clobber _) as [pc s|e s| |]; [..|done|done]; destruct H as [Hi' F]; (split; [by eapply late_frame|exact F]).
Qed.

(** ** The boot of hart 0 *)

Lemma lits_render mem l : Forall (λ c, 0 < c < 256 ∧ c ≠ 37) l → renders mem (Lit <$> l) [] l [].
Proof. induction 1 as [|c l [??] _ IH]; cbn; [apply R_end|by apply R_lit]. Qed.

Lemma boot_console (c : console U) : uart_lk c = 0 → printf_lk c = 0 → boot_msg ≠ 0 →
  text_at (c_mem c) boot_msg (boot_text ++ [0]) →
  ∃ c1 c2, init_uart c = Ok tt c1 ∧ printf boot_msg [] c1 = Ok tt c2 ∧ sent c2 = sent c ++ boot_text.
Proof.
  intros Hu Hp Hm Ht. destruct (init_uart_configures c) as (u & Hr & Hv).
  assert (Hlit : renders (c_mem (set_uart u c)) (Lit <$> boot_text) [] boot_text []).
  { apply lits_render. repeat (apply Forall_cons; split; [lia|]). constructor. }
  destruct (printf_runs boot_msg (Lit <$> boot_text) [] boot_text [] (set_uart u c)) as (c2 & Hr2 & Hs & _).
  - split; [exact Hu|]. cbn [c_uart set_uart]. by rewrite Hv.
  - exact Hp.
  - exact Hm.
  - exact Ht.
  - by eapply printf_loop_items.
  - exists (set_uart u c), c2. split; [exact Hr|]. split; [exact Hr2|]. rewrite Hs. unfold sent at 1.
    cbn [c_uart set_uart]. by rewrite Hv.
Qed.

(** A hart that has not reached init_vmem yet. *)
Lemma hart_inv_first h w xs p tabs : (rank p <= 1)%nat → (∀ k, p ≠ PPanic k) → hart_inv h w xs p tabs.
Proof. intros Hr Hp. split; try lia; try done; intros; subst; cbn in Hr; try lia. by destruct (Hp k). Qed.

Lemma seg_init_boot σ : shared σ → early (sy_machine σ) → sy_phase σ 0 = PInit →
  (rank (sy_phase σ 1) <= 1)%nat → (∀ k, sy_phase σ 1 ≠ PPanic k) →
  ∃ m, run_segment 0 σ (main_init boot_msg 0 ;; mret PVmem) = Ok PVmem m ∧
    late (after 0 m (sy_xr σ 0) PVmem σ) ∅ all_pages (λ _, []) ∧
    sent (m_console m) = sent (m_console (sy_machine σ)) ++ boot_text ∧
    w_cpu_mapped (m_world m) = w_cpu_mapped (sy_world σ) ∧ w_config (m_world m) = w_config (sy_world σ) ∧
    w_cpus (m_world m) = w_cpus (sy_world σ) ∧ w_vcpus (m_world m) = w_vcpus (sy_world σ).
Proof.
  intros Hs [[Hlk Hfl] Hram Hroots [Hul Hpl] [Hmsg Htxt]] Hp H1 Hn1. set (w0 := on_hart 0 (sy_world σ)).
  destruct (init_kmem_ok w0 Hlk Hfl Hram) as (w1 & Hrun & Hk & (m1 & k1 & E1) & Hbk).
  destruct (boot_console (m_console (sy_machine σ)) Hul Hpl Hmsg Htxt) as (c1 & c2 & Hu & Hpr & Hsent).
  exists (mk_machine w1 c2 (pci_store32 (pci_serial_dev + 4 * 4) (u32 (0 .| 1))
            (pci_store16 (pci_serial_dev + 4 * 1) 1 (m_pci (sy_machine σ))))).
  split.
  { unfold run_segment, main_init. cbn [whenM Z.eqb]. rewrite !bind_bind.
    erewrite bind_ok by (apply part_ok; exact Hrun). rewrite bind_bind.
    erewrite bind_ok by (apply part_ok; exact Hu). rewrite bind_bind.
    erewrite bind_ok by (apply part_ok; exact Hpr). reflexivity. }
  split; [|by cbn [m_console m_world]; rewrite E1].
  assert (Hb : ∀ h, is_hart h → has_bytes (w_mem w1) (root_of (vm_of h)) (PAGE_SIZE * 4))
    by (intros h Hh; by apply Hbk, Hroots).
  split; cbn [after sy_phase sy_xr].
  - exists []. split; [done|]. split; [exact Hk| | |rewrite app_nil_r; apply Hk|constructor].
    + split; intros; by rewrite lookup_empty in *.
    + intros x t i _ Ht. by rewrite lookup_empty in Ht.
  - change (upd_hart 0 PVmem (sy_phase σ) 0) with PVmem.
    change (upd_hart 0 PVmem (sy_phase σ) 1) with (sy_phase σ 1). pose proof co_need as Hn.
    assert (Hb1 : (need_left 1 (sy_phase σ 1) = S kernel_need + vm_share 1%Z)%nat)
      by (unfold need_left; by rewrite !decide_True by lia).
    assert (Hb0 : (need_left 0 PVmem = S kernel_need + vm_share 0%Z)%nat) by done. lia.
  - intros u j Hu'. by rewrite lookup_empty in Hu'.
  - intros h Hh. destruct (is_hart_cases h Hh) as [->| ->]; apply hart_inv_first; done || (cbn; lia).
  - intros h Hh. split; [|intros _ Hr; exfalso|done].
    + intros _ _. split; [by apply Hb|done].
    + destruct (is_hart_cases h Hh) as [->| ->]; unfold upd_hart in Hr; cbn in Hr; lia.
Qed.
End steps.
