(* ===== verification/SystemTheorems.v ===== *)
(** * SystemTheorems: the machine never leaves its invariant

    From power-on to guests running side by side: the boot goes through, every
    reachable state satisfies the invariant, and the guests stay apart. *)

From S2P Require Import Prelude Layout Bits Memory Machine Asm Lock Kmem Cpu Linkerscript Vmem PageTable VmemSpec Sv39 Plic Vcpu Vplic Trap VmRun VmRunSpec Regions KernelSpace VplicSpec VmConfig Concrete KernelTheorems Sboot SbootTheorems VmRunTheorems VplicTheorems TrapTheorems TrapEntry TrapEntryTheorems Uart Printf PrintfTheorems Pci Main System Deployment SystemInv SystemSteps.

Section theorems.
Context {D U X : Type} {P : PlicDevice D} {L : Linker} {UD : UartDevice U} {UL : UartLaws U} {PB : PciBus X}.
Context `{!ImageOk L} {dp : Deployment} `{!DeploymentOk dp}.
#[local] Abbreviation sys := (system (D:=D) (U:=U) (X:=X)).
Implicit Types (σ : sys) (w : world D) (tabs : gmap Z tab) (fl pg : list Z) (h : Z).

(** ** Invariance *)

Lemma inv_late_intro σ tabs fl pages : shared σ → (rank (sy_phase σ 0) ≠ 0)%nat → late σ tabs fl pages → inv σ.
Proof. intros Hs Hr Hl. split; [done|]. rewrite decide_False by done. by exists tabs, fl, pages. Qed.

Lemma inv_late σ : inv σ → (rank (sy_phase σ 0) ≠ 0)%nat → ∃ tabs fl pages, late σ tabs fl pages.
Proof. intros [_ H] Hr. by rewrite decide_False in H by done. Qed.

Lemma rank0_after h p σ : (rank (sy_phase σ 0) ≠ 0)%nat → (rank (sy_phase σ h) <= rank p)%nat →
  (rank (upd_hart h p (sy_phase σ) 0) ≠ 0)%nat.
Proof. intros H0 Hr. unfold upd_hart. destruct (Z.eqb_spec 0 h) as [<-|]; lia. Qed.

(** The shared variables a step does not change. *)
Lemma shared_same h σ (m : machine D U X) p xs : is_hart h → shared σ → (rank (sy_phase σ h) <= rank p)%nat →
  passes h σ p → w_cpu_mapped (m_world m) = w_cpu_mapped (sy_world σ) → w_config (m_world m) = w_config (sy_world σ) →
  (h = 0 → (rank p <= 2)%nat ∨ (3 < rank (sy_phase σ 0))%nat) →
  length (w_cpus (m_world m)) = 2%nat → length (w_vcpus (m_world m)) = 2%nat →
  shared (after h m xs p σ).
Proof.
  intros Hh Hs Hr Hp Em Ec H0 Hcl Hvl. apply shared_step; try done.
  - rewrite Em, (sh_mapped _ Hs). unfold upd_hart. destruct (Z.eqb_spec 0 h) as [<-|]; [|done].
    specialize (H0 eq_refl). repeat case_decide; lia.
  - rewrite Ec, (sh_config _ Hs). unfold upd_hart. destruct (Z.eqb_spec 0 h) as [<-|]; [|done].
    specialize (H0 eq_refl). repeat case_decide; try done; lia.
Qed.

Ltac next_inv Ep Hrun Hl' :=
  eexists _, _; split; [exact Hrun|]; split; [done|];
  eapply inv_late_intro; [|by apply rank0_after; [|rewrite Ep; cbn; lia]|exact Hl'].

(** A part of main before which the memory was set up. *)
Lemma inv_segment_late h σ f : inv σ → is_hart h → segment boot_msg (sy_phase σ h) h = Some f → may_pass h σ →
  (rank (sy_phase σ 0) ≠ 0)%nat →
  ∃ p m, run_segment h σ f = Ok p m ∧ rank p = S (rank (sy_phase σ h)) ∧ inv (after h m (sy_xr σ h) p σ).
Proof.
  intros Hinv Hh Hf Hpass H0. destruct (inv_late σ Hinv H0) as (tabs & fl & pages & Hl). pose proof (proj1 Hinv) as Hs.
  pose proof (hi_start _ _ _ _ _ (l_hart _ _ _ _ Hl h Hh)) as Hi.
  destruct (sy_phase σ h) as [| | | | |i| | |k] eqn:Ep; try done; injection Hf as <-;
    pose proof (pass_rank h σ) as Hpr; rewrite Ep in Hpr.
  - assert (Hn : h ≠ 0) by (by intros ->; rewrite Ep in H0).
    destruct (late_quiet h σ (set_world (on_hart h (sy_world σ)) (sy_machine σ)) (sy_xr σ h) PVmem tabs fl pages)
      as (pages' & Hl'); [done|done|by rewrite Ep; cbn; lia|by split|done|by rewrite Ep|by intros (_ & _ & H'); cbn in H'; lia| |].
    + by apply hart_inv_first; [cbn; lia|].
    + eexists PVmem, _. split; [unfold run_segment, main_init; by rewrite (proj2 (Z.eqb_neq _ _) Hn)|]. split; [done|].
      eapply inv_late_intro; [|by apply rank0_after; [|rewrite Ep; cbn; lia]|exact Hl'].
      apply shared_same; try done; [by rewrite Ep; cbn; lia|by apply Hpr|apply Hs|apply Hs].
  - destruct (seg_vmem h σ tabs fl pages Hh Hs Hl Ep) as (w & tabs' & fl' & pages' & Hrun & Hl' & E1 & E2 & E3 & E4).
    next_inv Ep Hrun Hl'.
    apply shared_same; try done; [by rewrite Ep; cbn; lia|by apply Hpr|by left|cbn; rewrite E4; apply Hs].
  - destruct (seg_mapped h σ tabs fl pages Hh Hs Hl Ep) as (w & pages' & Hrun & Hl' & E1 & E2 & E3 & E4).
    next_inv Ep Hrun Hl'.
    apply shared_step; try done; [by rewrite Ep; cbn; lia|by apply Hpr| | |cbn; rewrite E3; apply Hs|cbn; rewrite E4; apply Hs].
    + cbn [m_world set_world]. rewrite E1, (sh_mapped _ Hs). unfold upd_hart. rewrite Z.eqb_sym. by destruct (Z.eqb_spec 0 h) as [<-|].
    + cbn [m_world set_world]. rewrite E2, (sh_config _ Hs). unfold upd_hart. destruct (Z.eqb_spec 0 h) as [<-|]; [|done].
      by rewrite Ep.
  - destruct (seg_check h σ tabs fl pages Hh Hs Hl Ep) as (w & pages' & Hrun & Hl' & E1 & E2 & E3 & E4).
    next_inv Ep Hrun Hl'.
    apply shared_step; try done; [by rewrite Ep; cbn; lia|by apply Hpr| | |cbn; rewrite E3; apply Hs|cbn; rewrite E4; apply Hs].
    + cbn [m_world set_world]. rewrite E1, (sh_mapped _ Hs). unfold upd_hart. destruct (Z.eqb_spec 0 h) as [<-|]; [|done].
      by rewrite Ep.
    + cbn [m_world set_world]. rewrite E2, (sh_config _ Hs). unfold upd_hart. rewrite Z.eqb_sym. by destruct (Z.eqb_spec 0 h) as [<-|].
  - destruct (seg_setup h σ tabs fl pages Hh Hs Hpass Hl Ep) as (w & tabs' & fl' & pages' & Hrun & Hl' & E1 & E2 & E3 & E4).
    next_inv Ep Hrun Hl'.
    apply shared_same; try done; [by rewrite Ep; cbn; lia|by apply Hpr| |cbn; rewrite E3; apply Hs].
    intros ->. right. rewrite Ep. cbn. lia.
  - assert (Eih : i = h) by by apply Hi. subst i.
    destruct (seg_start h σ tabs fl pages Hh Hs Hl Ep) as (w & pages' & Hrun & Hl' & E1 & E2 & E3 & E4).
    next_inv Ep Hrun Hl'.
    apply shared_same; try done; [by rewrite Ep; cbn; lia|by apply Hpr| |cbn; rewrite E3; apply Hs|cbn; rewrite E4; apply Hs].
    intros ->. right. rewrite Ep. cbn. lia.
Qed.

(** Before that. *)
Lemma inv_segment_early h σ f : inv σ → is_hart h → segment boot_msg (sy_phase σ h) h = Some f → may_pass h σ →
  rank (sy_phase σ 0) = 0%nat →
  ∃ p m, run_segment h σ f = Ok p m ∧ rank p = S (rank (sy_phase σ h)) ∧ inv (after h m (sy_xr σ h) p σ).
Proof.
  intros [Hs H] Hh Hf Hpass E0. rewrite decide_True in H by done. destruct H as [He Hph].
  assert (Ep : sy_phase σ h = PInit).
  { destruct (Hph h Hh) as [?|Hv]; [done|]. specialize (Hpass 0 ltac:(by vm_compute)).
    rewrite Hv in Hpass. cbn [rank] in Hpass. lia. }
  pose proof (pass_rank h σ PVmem Hh Hs Hpass) as Hpr. rewrite Ep in Hf, Hpr |- *. injection Hf as <-.
  specialize (Hpr eq_refl). destruct (is_hart_cases h Hh) as [->| ->].
  - destruct (seg_init_boot σ Hs He Ep) as (m & Hrun & Hl & _ & E1 & E2 & E3 & E4).
    + by destruct (Hph 1 ltac:(by vm_compute)) as [-> | ->]; cbn; lia.
    + intros k. by destruct (Hph 1 ltac:(by vm_compute)) as [-> | ->].
    + exists PVmem, m. split; [exact Hrun|]. split; [done|]. eapply inv_late_intro; [|done|exact Hl].
      apply shared_same; try done; [by rewrite Ep; cbn; lia|by left; cbn; lia|rewrite E3; apply Hs|rewrite E4; apply Hs].
  - eexists PVmem, _. split; [reflexivity|]. split; [done|]. split.
    + apply shared_same; try done; [by rewrite Ep; cbn; lia|apply Hs|apply Hs].
    + cbn [after sy_phase sy_machine]. change (upd_hart 1 PVmem (sy_phase σ) 0) with (sy_phase σ 0).
      rewrite decide_True by done. split; [by destruct He; split|]. intros h' Hh'. unfold upd_hart.
      destruct (h' =? 1); [by right|by apply Hph].
Qed.

Lemma inv_segment h σ f : inv σ → is_hart h → segment boot_msg (sy_phase σ h) h = Some f → may_pass h σ →
  ∃ p m, run_segment h σ f = Ok p m ∧ rank p = S (rank (sy_phase σ h)) ∧ inv (after h m (sy_xr σ h) p σ).
Proof.
  intros Hinv Hh Hf Hpass. destruct (decide (rank (sy_phase σ 0) = 0%nat));
    [by apply inv_segment_early|by apply inv_segment_late].
Qed.

(** A hart beyond the barriers proves that hart 0 is past init_kmem. *)
Lemma inv_running_late h σ : inv σ → is_hart h → (4 < rank (sy_phase σ h))%nat →
  ∃ tabs fl pages, late σ tabs fl pages.
Proof.
  intros Hinv Hh Hr. apply inv_late; [done|]. intros E.
  pose proof (sh_ranks _ (proj1 Hinv) 0 h ltac:(by vm_compute) Hh). lia.
Qed.

(** The steps of a hart that has left main. *)
Lemma inv_after_late h σ m xs p tabs fl pages : inv σ → is_hart h → (5 < rank (sy_phase σ h) <= rank p)%nat →
  late (after h m xs p σ) tabs fl pages →
  w_cpu_mapped (m_world m) = w_cpu_mapped (sy_world σ) → w_config (m_world m) = w_config (sy_world σ) →
  length (w_cpus (m_world m)) = 2%nat → length (w_vcpus (m_world m)) = 2%nat →
  inv (after h m xs p σ).
Proof.
  intros Hinv Hh Hr Hl E1 E2 Hc Hv. pose proof (proj1 Hinv) as Hs.
  assert (H0 : (4 <= rank (sy_phase σ 0))%nat).
  { destruct (decide (rank (sy_phase σ 0) <= 3)%nat) as [H|]; [|lia].
    pose proof (sh_ranks _ Hs 0 h ltac:(by vm_compute) Hh H). lia. }
  eapply inv_late_intro; [|apply rank0_after; lia|exact Hl].
  apply shared_same; try done; [lia|split|].
  - intros h' Hh' H3. pose proof (sh_ranks _ Hs h' h Hh' Hh H3). lia.
  - intros _. apply (sh_lead _ Hs); [done|lia].
  - intros ->. right. lia.
Qed.

Lemma inv_trap h σ cs clobber : inv σ → is_hart h → sy_phase σ h = PGuest →
  csr_change h trap_csrs (w_csr (sy_world σ)) cs → 0 <= default 0 (cs !! (h, scause)) < 2 ^ 64 →
  match hstrapvec clobber (trapped h cs σ) with
  | Ok _ s => inv (after_world h (hw s) (xr s) PGuest σ) ∧ trap_frame h (sy_world σ) (hw s)
  | Panic _ s => inv (after_world h (hw s) (xr s) (PPanic 7) σ) ∧ trap_frame h (sy_world σ) (hw s)
  | _ => False
  end.
Proof.
  intros Hinv Hh Hp Hcs Hca. destruct (inv_running_late h σ Hinv Hh ltac:(rewrite Hp; cbn; lia)) as (tabs & fl & pages & Hl).
  pose proof (proj1 Hinv) as Hs. pose proof (step_trap h σ tabs fl pages cs clobber Hh Hl Hp Hcs Hca) as H.
  destruct (hstrapvec clobber _) as [pc s|e s| |]; [..|done|done]; destruct H as [(pages' & Hl') F];
    (split; [|exact F]); destruct (tf_config _ _ _ F) as (E1 & E2 & E3); pose proof (tf_len _ _ _ F) as E4;
    (eapply inv_after_late; [done|done|by rewrite Hp; cbn; lia|exact Hl'|done|done|cbn; rewrite E3; apply Hs|cbn; rewrite E4; apply Hs]).
Qed.

Lemma inv_guest h σ xs m cs : inv σ → is_hart h → sy_phase σ h = PGuest →
  (∀ n, (0 < n < 32)%nat → 0 <= xs n < 2 ^ 64) →
  guest_writes (w_mem (sy_world σ)) m (hgatp_root (csr_of h hgatp (sy_world σ))) →
  csr_change h guest_csrs (w_csr (sy_world σ)) cs →
  inv (after_world h (set_csr cs (set_mem m (sy_world σ))) xs PGuest σ).
Proof.
  intros Hinv Hh Hp Hx Hw Hcs. destruct (inv_running_late h σ Hinv Hh ltac:(rewrite Hp; cbn; lia)) as (tabs & fl & pages & Hl).
  pose proof (proj1 Hinv) as Hs. destruct (step_guest h σ tabs fl pages xs m cs Hh Hs Hl Hp Hx Hw Hcs) as (pages' & Hl' & _).
  eapply inv_after_late; [done|done|by rewrite Hp; cbn; lia|exact Hl'|done|done|apply Hs|apply Hs].
Qed.

Lemma inv_enter h σ : inv σ → is_hart h → sy_phase σ h = PEnter →
  ∃ pc s, vm_enter (hart_of h σ) = Ok pc s ∧ inv (after_world h (hw s) (xr s) PGuest σ).
Proof.
  intros Hinv Hh Hp. destruct (inv_running_late h σ Hinv Hh ltac:(rewrite Hp; cbn; lia)) as (tabs & fl & pages & Hl).
  pose proof (proj1 Hinv) as Hs. destruct (step_enter h σ tabs fl pages Hh Hs Hl Hp) as (s & pages' & Hr & Ew & _ & _ & Hl').
  eexists _, s. split; [exact Hr|].
  eapply inv_after_late; [done|done|by rewrite Hp; cbn; lia|exact Hl'|by rewrite Ew|by rewrite Ew|by rewrite Ew; apply Hs|by rewrite Ew; apply Hs].
Qed.

Lemma hart_inv_plic h w xs p tabs d : hart_inv h w xs p tabs → hart_inv h (set_plic d w) xs p tabs.
Proof.
  intros [H2 H3 H4 H5 Hre H6 H7 H8]. split; [|done|done|done| |done| |done].
  - intros Hr. eapply (kernel_side_same h w); [done..|by apply H2].
  - intros Hp. destruct (Hre Hp). by split.
  - intros Hp. destruct (H7 Hp) as (v & [[[? ? ? ? ? ?] ? ?] ? ? ? ?] & Hc). exists v. split; [|done].
    split; [split; [by split|done|done]|done..].
Qed.

Lemma inv_plic σ d : inv σ →
  inv (mk_system (set_world (set_plic d (sy_world σ)) (sy_machine σ)) (sy_xr σ) (sy_phase σ)).
Proof.
  intros [[H1 Hld H2 H3 H4 H5] H]. split; [by split|]. cbn [sy_phase sy_machine].
  destruct (decide (rank (sy_phase σ 0) = 0%nat)).
  - destruct H as [[? ? ? ? ?] ?]. by split; [split|].
  - destruct H as (tabs & fl & pages & [(data & Hd & Hmi) Hl Ht Hh Hv]). exists tabs, fl, pages.
    split; [|done|done|intros h Hh'; by apply hart_inv_plic, Hh|].
    + exists data. split; [done|]. by apply (mem_inv_same (sy_world σ)).
    + intros h Hh'. destruct (Hv h Hh') as [H6 H7 H8]. split; [done| |done]. intros El Hr. by destruct (H7 El Hr).
Qed.

Lemma inv_step σ σ' : inv σ → sys_step boot_msg σ σ' → inv σ'.
Proof.
  intros Hinv Hst. revert Hinv. destruct Hst as [h σ σ' Hh Hst|σ d]; [|apply inv_plic].
  destruct Hst; intros Hinv.
  - destruct (inv_segment h σ f Hinv Hh) as (p' & m' & Hr & _ & Hi); [done|done|]. congruence.
  - destruct (inv_segment h σ f Hinv Hh) as (p' & m' & Hr & _ & Hi); [done|done|]. congruence.
  - destruct (inv_enter h σ Hinv Hh) as (pc' & s' & Hr & Hi); [done|]. congruence.
  - by apply inv_guest.
  - pose proof (inv_trap h σ cs clobber Hinv Hh) as H'. specialize (H' ltac:(done) ltac:(done) ltac:(done)).
    match goal with E : hstrapvec _ _ = _ |- _ => rewrite E in H' end. apply H'.
  - pose proof (inv_trap h σ cs clobber Hinv Hh) as H'. specialize (H' ltac:(done) ltac:(done) ltac:(done)).
    match goal with E : hstrapvec _ _ = _ |- _ => rewrite E in H' end. apply H'.
Qed.

(** ** Reachable states *)

(** The machine as the assembly boot code hands it to main. *)
Record initial σ : Prop := {
  in_phase h : is_hart h → sy_phase σ h = PInit;
  in_early : early (sy_machine σ);
  in_mapped : w_cpu_mapped (sy_world σ) = 0;
  in_config : w_config (sy_world σ) = vm_table;
  in_len : length (w_cpus (sy_world σ)) = 2%nat ∧ length (w_vcpus (sy_world σ)) = 2%nat
}.

Definition reachable σ : Prop := ∃ σ0, initial σ0 ∧ rtc (sys_step boot_msg) σ0 σ.

Lemma initial_inv σ : initial σ → inv σ.
Proof.
  intros [Hp He Hm Hc [H1 H2]]. assert (E : sy_phase σ 0 = PInit) by (apply Hp; by vm_compute). split.
  - split; [| |by rewrite Hm, E|by rewrite Hc, E|done|done].
    + intros h h' Hh Hh'. rewrite !Hp by done. cbn. lia.
    + intros h Hh. rewrite Hp by done. cbn. lia.
  - rewrite E. split; [done|]. intros h Hh. left. by apply Hp.
Qed.

Lemma reachable_inv σ : reachable σ → inv σ.
Proof.
  intros (σ0 & Hi & Hr). apply initial_inv in Hi. induction Hr as [|x y z Hst _ IH]; [done|].
  apply IH. by eapply inv_step.
Qed.

(** The translation of the guest of hart [h]. *)
Definition guest_pa h σ (a : access) (gpa : Z) : option Z :=
  hw_translate (w_mem (sy_world σ)) true (hgatp_root (csr_of h hgatp (sy_world σ))) a gpa.

(** No byte is reachable from the guests of two VMs. *)
Lemma reach_apart h h' σ tabs fl pages p : is_hart h → is_hart h' → vm_slot h ≠ vm_slot h' → late σ tabs fl pages →
  (4 < rank (sy_phase σ (lead h)))%nat → (4 < rank (sy_phase σ (lead h')))%nat →
  reach h (pages (lead h)) p → ¬ reach h' (pages (lead h')) p.
Proof.
  intros Hh Hh' Hne Hl Hr Hr' (a & gpa & Ht) (a' & gpa' & Ht'). destruct (l_mem _ _ _ _ Hl) as (data & Hd & Hmi).
  pose proof (gs_pages _ _ _ _ (late_space h σ tabs fl pages Hh Hl Hr)) as Hpg.
  pose proof (gs_pages _ _ _ _ (late_space h' σ tabs fl pages Hh' Hl Hr')) as Hpg'.
  destruct (guest_translation_cases _ _ _ _ _ _ (co_ok h Hh) Hpg Ht) as [(x & Hx & Hin)|Hf],
    (guest_translation_cases _ _ _ _ _ _ (co_ok h' Hh') Hpg' Ht') as [(y & Hy & Hin')|Hf'];
    rewrite Forall_forall in Hpg, Hpg'.
  - destruct (pages_disjoint x y (Hpg x Hx) (Hpg' y Hy)); [|lia|lia]. intros ->.
    pose proof (mi_nodup _ _ _ _ Hmi) as (_ & _ & Hn)%NoDup_app. rewrite Hd in Hn.
    assert (Hnl : lead h ≠ lead h') by (intros E; by rewrite <- (lead_slot h), E, lead_slot in Hne).
    apply NoDup_app in Hn as (_ & Hn & _).
    destruct (is_hart_cases _ (lead_hart h Hh)) as [E|E], (is_hart_cases _ (lead_hart h' Hh')) as [E'|E'];
      rewrite E, E' in *; try done; [by apply (Hn y Hx)|by apply (Hn y Hy)].
  - destruct (valid_address_pa x (Hpg x Hx)) as (_ & ? & _). destruct (co_fixed h' h p Hh' Hh Hf') as [? _]. lia.
  - destruct (valid_address_pa y (Hpg' y Hy)) as (_ & ? & _). destruct (co_fixed h h' p Hh Hh' Hf) as [? _]. lia.
  - destruct (co_fixed h h' p Hh Hh' Hf) as (_ & _ & H). by apply H.
Qed.

(** What the MMU does for the guest of a hart. *)
Lemma late_translates h σ tabs fl pages a gpa : shared σ → late σ tabs fl pages → is_hart h →
  (5 < rank (sy_phase σ h))%nat →
  guest_pa h σ a gpa = guest_translation (vm_of h) (devs_of h) (pages (lead h)) a gpa.
Proof.
  intros Hs Hl Hh Hr. unfold guest_pa. rewrite (hi_hgatp _ _ _ _ _ (l_hart _ _ _ _ Hl h Hh)) by lia.
  destruct (l_mem _ _ _ _ Hl) as (data & _ & Hmi). eapply vm_space_translates; [apply Hmi|].
  apply (late_space h σ tabs fl); [done|done|by apply (sh_lead _ Hs)].
Qed.

Lemma inv_translates h σ : inv σ → is_hart h → (5 < rank (sy_phase σ h))%nat →
  ∃ tabs fl pages, late σ tabs fl pages ∧ ∀ a gpa, guest_pa h σ a gpa =
    guest_translation (vm_of h) (devs_of h) (pages (lead h)) a gpa.
Proof.
  intros Hinv Hh Hr. destruct (inv_running_late h σ Hinv Hh ltac:(lia)) as (tabs & fl & pages & Hl).
  exists tabs, fl, pages. split; [exact Hl|]. intros a gpa. by eapply late_translates; [apply Hinv|..].
Qed.

(** A guest reaches no byte of a root table. *)
Lemma reach_no_root h h' σ tabs fl pages p : shared σ → is_hart h → is_hart h' → late σ tabs fl pages →
  (5 < rank (sy_phase σ h))%nat → (5 < rank (sy_phase σ h'))%nat →
  reach h (pages (lead h)) p → ¬ in_root (vm_of h') p.
Proof.
  intros Hs Hh Hh' Hl Hr Hr' Hre Hin.
  destruct (reach_own h σ tabs fl pages p Hh Hl (sh_lead _ Hs h Hh Hr) Hre) as [Hn _].
  destruct (gs_root _ _ _ _ (late_space h' σ tabs fl pages Hh' Hl (sh_lead _ Hs h' Hh' Hr'))) as [Hrt _].
  eapply Hn; [exact Hrt|]. unfold in_root, PAGE_SIZE, tsize, nidx, PTE_SIZE in *. cbn. lia.
Qed.

Lemma inv_isolated σ h h' : inv σ → is_hart h → is_hart h' →
  (5 < rank (sy_phase σ h))%nat → (5 < rank (sy_phase σ h'))%nat →
  ∀ a gpa, if decide (vm_slot h = vm_slot h') then guest_pa h σ a gpa = guest_pa h' σ a gpa else
    ∀ p, guest_pa h σ a gpa = Some p →
      (∀ a' gpa', guest_pa h' σ a' gpa' ≠ Some p) ∧ ¬ in_root (vm_of h) p ∧ ¬ in_root (vm_of h') p.
Proof.
  intros Hrch Hh Hh' Hr Hr' a gpa. pose proof (proj1 Hrch) as Hs.
  destruct (inv_translates h σ Hrch Hh Hr) as (tabs & fl & pages & Hl & Htr).
  pose proof (λ a gpa, late_translates h' σ tabs fl pages a gpa Hs Hl Hh' Hr') as Htr'. case_decide as Hd.
  - rewrite Htr, Htr', (same_vm h h' Hh Hh' Hd), (lead_same h h' Hh Hh' Hd). unfold devs_of. by rewrite Hd.
  - intros p Ht. assert (Hre : reach h (pages (lead h)) p) by (exists a, gpa; by rewrite <- Htr).
    split; [|split; [by apply (reach_no_root h h σ tabs fl pages)|by apply (reach_no_root h h' σ tabs fl pages)]].
    intros a' gpa' Ht'. apply (reach_apart h h' σ tabs fl pages p); try done; [by apply (sh_lead _ Hs)..|].
    exists a', gpa'. by rewrite <- Htr'.
Qed.

(** Isolation, for all time.  In every state the machine can reach from
    power-on - whatever the guests execute, whatever traps and interrupts happen
    and in whatever order the harts move - no physical byte can be reached by
    the guests of two VMs, and none that a guest can reach lies in the root
    table of any VM; the harts of one VM translate every address alike. *)
Theorem guests_isolated_always σ h h' : reachable σ → is_hart h → is_hart h' →
  (5 < rank (sy_phase σ h))%nat → (5 < rank (sy_phase σ h'))%nat →
  ∀ a gpa, if decide (vm_slot h = vm_slot h') then guest_pa h σ a gpa = guest_pa h' σ a gpa else
    ∀ p, guest_pa h σ a gpa = Some p →
      (∀ a' gpa', guest_pa h' σ a' gpa' ≠ Some p) ∧ ¬ in_root (vm_of h) p ∧ ¬ in_root (vm_of h') p.
Proof. intros Hr. by apply inv_isolated, reachable_inv. Qed.

(** ** What one hart's guest and its traps leave of the others *)

(** What belongs to hart [h] alone, and the address space of its guest, are as
    before. *)
Record own_kept h σ σ' : Prop := {
  ut_translation a gpa : guest_pa h σ' a gpa = guest_pa h σ a gpa;
  ut_xr : sy_xr σ' h = sy_xr σ h;
  ut_phase : sy_phase σ' h = sy_phase σ h;
  ut_vcpu : w_vcpus (sy_world σ') !! Z.to_nat h = w_vcpus (sy_world σ) !! Z.to_nat h;
  ut_csr q : csr_of h q (sy_world σ') = csr_of h q (sy_world σ)
}.
(** And so is the memory its guest sees. *)
Record untouched h σ σ' : Prop := {
  ut_own : own_kept h σ σ';
  ut_memory a gpa p : guest_pa h σ a gpa = Some p → w_mem (sy_world σ') !! p = w_mem (sy_world σ) !! p
}.

Lemma own_kept_trans h σ1 σ2 σ3 : own_kept h σ1 σ2 → own_kept h σ2 σ3 → own_kept h σ1 σ3.
Proof.
  intros [A1 A3 A4 A5 A6] [B1 B3 B4 B5 B6]. split; [|congruence..|].
  - intros a gpa. by rewrite B1, A1.
  - intros q. by rewrite B6, A6.
Qed.
Lemma untouched_trans h σ1 σ2 σ3 : untouched h σ1 σ2 → untouched h σ2 σ3 → untouched h σ1 σ3.
Proof.
  intros [A1 A2] [B1 B2]. split; [by eapply own_kept_trans|].
  intros a gpa p Hp. rewrite (B2 a gpa) by (by rewrite (ut_translation _ _ _ A1)). by eapply A2.
Qed.

Lemma frame_untouched h h' σ w xs p : is_hart h → is_hart h' → h ≠ h' → trap_frame h (sy_world σ) w →
  untouched h' σ (after_world h w xs p σ).
Proof.
  intros Hh Hh' Hne F. assert (Ec : ∀ q, csr_of h' q w = csr_of h' q (sy_world σ))
    by (intros q; unfold csr_of; by rewrite (tf_csr _ _ _ F)).
  split; [split|]; cbn [after_world after sy_world sy_machine m_world set_world sy_xr sy_phase].
  - intros a gpa. unfold guest_pa. cbn [after_world after sy_world sy_machine m_world set_world].
    by rewrite (proj1 (tf_mem _ _ _ F)), Ec.
  - by rewrite upd_hart_ne.
  - by rewrite upd_hart_ne.
  - apply (tf_vcpus _ _ _ F). by apply is_hart_nat.
  - exact Ec.
  - intros a gpa q _. by rewrite (proj1 (tf_mem _ _ _ F)).
Qed.

Section guest_step.
Context (h : Z) σ (xs : nat → Z) (m : ram) (cs : gmap (Z * csr) Z).
Context (Hinv : inv σ) (Hh : is_hart h) (Hp : sy_phase σ h = PGuest)
  (Hx : ∀ n, (0 < n < 32)%nat → 0 <= xs n < 2 ^ 64)
  (Hw : guest_writes (w_mem (sy_world σ)) m (hgatp_root (csr_of h hgatp (sy_world σ))))
  (Hcs : csr_change h guest_csrs (w_csr (sy_world σ)) cs).
#[local] Abbreviation σ' := (after_world h (set_csr cs (set_mem m (sy_world σ))) xs PGuest σ).

(** Guest code changes no translation. *)
Lemma guest_kept h' a gpa : is_hart h' → (5 < rank (sy_phase σ h'))%nat → guest_pa h' σ' a gpa = guest_pa h' σ a gpa.
Proof.
  intros Hh' Hr. destruct (inv_translates h' σ Hinv Hh' Hr) as (tabs & fl & pages & Hl & Htr). rewrite Htr.
  destruct (step_guest h σ tabs fl pages xs m cs Hh (proj1 Hinv) Hl Hp Hx Hw Hcs) as (pages' & Hl' & _ & Epg).
  assert (Hr' : (5 < rank (sy_phase σ' h'))%nat).
  { cbn [after_world after sy_phase]. unfold upd_hart. destruct (h' =? h); [cbn; lia|done]. }
  rewrite <- Epg. eapply late_translates; [|exact Hl'|done|exact Hr'].
  apply (inv_guest h σ xs m cs); done.
Qed.

Lemma guest_own_kept h' : is_hart h' → h ≠ h' → (5 < rank (sy_phase σ h'))%nat → own_kept h' σ σ'.
Proof.
  intros Hh' Hne Hr. split; [intros a gpa; by apply guest_kept|..];
    cbn [after_world after sy_world sy_machine m_world set_world sy_xr sy_phase].
  - by rewrite upd_hart_ne.
  - by rewrite upd_hart_ne.
  - done.
  - intros q. unfold csr_of. cbn [w_csr set_csr]. by rewrite (other_change _ _ _ _ _ _ Hcs).
Qed.

Lemma guest_untouched h' : is_hart h' → vm_slot h ≠ vm_slot h' → (5 < rank (sy_phase σ h'))%nat → untouched h' σ σ'.
Proof.
  intros Hh' Hne Hr. split; [apply guest_own_kept; [done| |done]; by intros ->|].
  destruct (inv_translates h' σ Hinv Hh' Hr) as (tabs & fl & pages & Hl & Htr). pose proof (proj1 Hinv) as Hs.
  destruct (step_guest h σ tabs fl pages xs m cs Hh Hs Hl Hp Hx Hw Hcs) as (pages' & _ & Hre & _).
  intros a gpa p Hpa. cbn [after_world after sy_world sy_machine m_world set_world w_mem set_csr set_mem].
  destruct (decide (m !! p = w_mem (sy_world σ) !! p)) as [|Hn]; [done|].
  destruct (reach_apart h h' σ tabs fl pages p Hh Hh' Hne Hl) as []; [| |by apply Hre|].
  - apply (sh_lead _ Hs h Hh). rewrite Hp. cbn. lia.
  - by apply (sh_lead _ Hs).
  - exists a, gpa. by rewrite <- Htr.
Qed.
End guest_step.

(** The steps of the harts in [Q] and of the PLIC. *)
Inductive by_harts (Q : Z → Prop) : sys → sys → Prop :=
| E_hart k σ σ' : is_hart k → Q k → step boot_msg k σ σ' → by_harts Q σ σ'
| E_plic σ d : by_harts Q σ (mk_system (set_world (set_plic d (sy_world σ)) (sy_machine σ)) (sy_xr σ) (sy_phase σ)).

(** Those of the other harts, and of the harts of other VMs. *)
Definition elsewhere h : sys → sys → Prop := by_harts (λ k, k ≠ h).
Definition outside h : sys → sys → Prop := by_harts (λ k, vm_slot k ≠ vm_slot h).

Lemma by_harts_step Q σ σ' : by_harts Q σ σ' → sys_step boot_msg σ σ'.
Proof. intros [k ? ? Hk _ Hst|? d]; [by eapply Y_hart|apply Y_plic]. Qed.

(** All guests have been started. *)
Definition all_started σ : Prop := ∀ k, is_hart k → (rank (sy_phase σ k) = 7)%nat.

Lemma started_after k σ w xs p : all_started σ → rank p = 7%nat → all_started (after_world k w xs p σ).
Proof. intros Hall Hp j Hj. cbn [after_world after sy_phase]. unfold upd_hart. destruct (j =? k); [done|by apply Hall]. Qed.

(** A step of hart [k] once the guests run: guest code or a trap. *)
Lemma started_cases k σ σ' : inv σ → all_started σ → is_hart k → step boot_msg k σ σ' →
  (∃ xs m cs, σ' = after_world k (set_csr cs (set_mem m (sy_world σ))) xs PGuest σ ∧ sy_phase σ k = PGuest ∧
     (∀ n, (0 < n < 32)%nat → 0 <= xs n < 2 ^ 64) ∧
     guest_writes (w_mem (sy_world σ)) m (hgatp_root (csr_of k hgatp (sy_world σ))) ∧
     csr_change k guest_csrs (w_csr (sy_world σ)) cs) ∨
  (∃ w xs p, σ' = after_world k w xs p σ ∧ rank p = 7%nat ∧ trap_frame k (sy_world σ) w).
Proof.
  intros Hinv Hall Hk Hst. pose proof (Hall k Hk) as Hr.
  destruct Hst as [σ f p m Hf _ _|σ f e m Hf _ _|σ pc s Hp _|σ xs m cs Hp Hx Hw Hcs|σ cs cl pc s Hp Hcs Hca Hv|σ cs cl e s Hp Hcs Hca Hv].
  - destruct (sy_phase σ k); try done; cbn in Hr; try lia.
  - destruct (sy_phase σ k); try done; cbn in Hr; try lia.
  - rewrite Hp in Hr. cbn in Hr. lia.
  - left. by exists xs, m, cs.
  - right. pose proof (inv_trap k σ cs cl Hinv Hk Hp Hcs Hca) as H. rewrite Hv in H.
    exists (hw s), (xr s), PGuest. split; [done|]. split; [done|apply H].
  - right. pose proof (inv_trap k σ cs cl Hinv Hk Hp Hcs Hca) as H. rewrite Hv in H.
    exists (hw s), (xr s), (PPanic 7). split; [done|]. split; [done|apply H].
Qed.

Lemma by_harts_kept Q h σ σ' : inv σ → all_started σ → is_hart h → (∀ k, Q k → k ≠ h) → by_harts Q σ σ' →
  own_kept h σ σ' ∧ all_started σ' ∧ ((∀ k, Q k → vm_slot k ≠ vm_slot h) → untouched h σ σ').
Proof.
  intros Hinv Hall Hh HQ He. revert Hinv Hall. destruct He as [k σ σ' Hk Hq Hst|σ d]; [|done].
  intros Hinv Hall. assert (Hr : (5 < rank (sy_phase σ h))%nat) by (rewrite Hall by done; lia).
  destruct (started_cases k σ σ' Hinv Hall Hk Hst) as [(xs & m & cs & -> & Hp & Hx & Hw & Hcs)|(w & xs & p & -> & Hp & F)].
  - split; [apply guest_own_kept; auto|]. split; [by apply started_after|]. intros Hne. apply guest_untouched; auto.
  - assert (Hu : untouched h σ (after_world k w xs p σ)) by (apply frame_untouched; auto).
    split; [apply Hu|]. split; [by apply started_after|done].
Qed.

Lemma inv_integrity σ σ' h : inv σ → all_started σ → is_hart h →
  (rtc (elsewhere h) σ σ' → own_kept h σ σ') ∧ (rtc (outside h) σ σ' → untouched h σ σ').
Proof.
  intros Hrch Hall Hh. split; intros Hr; induction Hr as [σ|σ1 σ2 σ3 He _ IH]; [by split| |by split|].
  - destruct (by_harts_kept _ h σ1 σ2 Hrch Hall Hh (λ k H, H) He) as (Hu & Hall2 & _).
    eapply own_kept_trans; [exact Hu|]. apply IH; [|exact Hall2]. eapply inv_step; [exact Hrch|]. by eapply by_harts_step.
  - destruct (by_harts_kept (λ k, vm_slot k ≠ vm_slot h) h σ1 σ2 Hrch Hall Hh) as (_ & Hall2 & Hu); [by intros k Hk ->|exact He|].
    eapply untouched_trans; [by apply Hu|]. apply IH; [|exact Hall2]. eapply inv_step; [exact Hrch|]. by eapply by_harts_step.
Qed.

(** Integrity, for all time.  Once the guests run, no sequence of steps of the
    other harts - their guests' code, their traps, even their panics - and of the
    PLIC changes what belongs to hart [h]: its registers, its virtual CPU, its
    control and status registers and the address translation of its guest; and if
    they are harts of other VMs, every byte its guest's addresses translate to
    stays as it is too. *)
Theorem guest_integrity σ σ' h : reachable σ → all_started σ → is_hart h →
  (rtc (elsewhere h) σ σ' → own_kept h σ σ') ∧ (rtc (outside h) σ σ' → untouched h σ σ').
Proof. intros Hr. by apply inv_integrity, reachable_inv. Qed.

(** ** Memory and translations once the guests run *)

Lemma frame_kept h h' σ w xs p : trap_frame h (sy_world σ) w → ∀ a gpa,
  guest_pa h' (after_world h w xs p σ) a gpa = guest_pa h' σ a gpa.
Proof.
  intros F a gpa. unfold guest_pa, csr_of. cbn [after_world after sy_world sy_machine m_world set_world].
  rewrite (proj1 (tf_mem _ _ _ F)). destruct (decide (h' = h)) as [->|].
  - by rewrite (tf_kept _ _ _ F) by in_list.
  - by rewrite (tf_csr _ _ _ F).
Qed.

Lemma started_step σ σ' : inv σ → all_started σ → sys_step boot_msg σ σ' → all_started σ' ∧
  (∀ h, is_hart h → ∀ a gpa, guest_pa h σ' a gpa = guest_pa h σ a gpa) ∧
  ∀ p, w_mem (sy_world σ') !! p ≠ w_mem (sy_world σ) !! p → ∃ h gpa, is_hart h ∧ guest_pa h σ AWrite gpa = Some p.
Proof.
  intros Hinv Hall He. revert Hinv Hall. destruct He as [k σ σ' Hk Hst|σ d]; [|by intros; split_and!].
  intros Hinv Hall.
  destruct (started_cases k σ σ' Hinv Hall Hk Hst) as [(xs & m & cs & -> & Hp & Hx & Hw & Hcs)|(w & xs & p & -> & Hp & F)];
    (split; [by apply started_after|]); split.
  - intros h Hh a gpa. apply guest_kept; try done. rewrite (Hall h Hh). lia.
  - intros p Hne. destruct Hw as [_ Hw]. destruct (Hw p Hne) as (gpa & Ht). by exists k, gpa.
  - intros h Hh. by apply frame_kept.
  - intros q Hne. by destruct Hne; cbn; rewrite (proj1 (tf_mem _ _ _ F)).
Qed.

(** The hypervisor's own translation on hart [h]. *)
Definition kernel_pa h σ (a : access) (va : Z) : option Z :=
  mmu (w_mem (sy_world σ)) (satp_root (on_hart h (sy_world σ))) a va.

Lemma inv_kernel h σ a va : inv σ → is_hart h → (4 < rank (sy_phase σ h))%nat →
  kernel_pa h σ a va = address_map (kernel_regions (cpu_addr h)) a va.
Proof.
  intros Hinv Hh Hr. destruct (inv_running_late h σ Hinv Hh Hr) as (tabs & fl & pages & Hl).
  destruct (hi_kernel _ _ _ _ _ (l_hart _ _ _ _ Hl h Hh) ltac:(lia)) as [(x & Hx & [Hroot _] & Hlk & Hsa) _ _].
  unfold kernel_pa. rewrite (satp_root_init _ x Hx) by (unfold csr_of; cbn [on_hart w_csr w_hart]; by rewrite Hsa).
  destruct (l_mem _ _ _ _ Hl) as (data & _ & Hmi).
  apply (kernel_look_translation _ _ _ tabs); [done|apply Hmi|done|done].
Qed.

(** Below the dynamic region a guest reaches what its configuration names. *)
Lemma inv_reach_fixed h σ a gpa p : inv σ → is_hart h → (5 < rank (sy_phase σ h))%nat →
  guest_pa h σ a gpa = Some p → p < KVA2PA sym_dynamic → fixed_pa (vm_of h) (devs_of h) p.
Proof.
  intros Hinv Hh Hr Ht Hp. destruct (inv_translates h σ Hinv Hh Hr) as (tabs & fl & pages & Hl & Htr).
  rewrite Htr in Ht. pose proof (gs_pages _ _ _ _ (late_space h σ tabs fl pages Hh Hl (sh_lead _ (proj1 Hinv) h Hh Hr))) as Hpg.
  destruct (guest_translation_cases _ _ _ _ _ _ (co_ok h Hh) Hpg Ht) as [(x & Hx & Hin)|Hf]; [|done].
  rewrite Forall_forall in Hpg. destruct (valid_address_pa x (Hpg x Hx)) as (_ & ? & _). lia.
Qed.

Lemma confined σ σ' : inv σ → all_started σ → rtc (sys_step boot_msg) σ σ' →
  inv σ' ∧ all_started σ' ∧ (∀ h, is_hart h → ∀ a gpa, guest_pa h σ' a gpa = guest_pa h σ a gpa) ∧
  ∀ p, (∀ h gpa, is_hart h → guest_pa h σ AWrite gpa ≠ Some p) →
    w_mem (sy_world σ') !! p = w_mem (sy_world σ) !! p.
Proof.
  intros Hinv Hall Hr. induction Hr as [σ|σ1 σ2 σ3 Hst _ IH]; [done|].
  destruct (started_step σ1 σ2 Hinv Hall Hst) as (Hall2 & Htr & Hm).
  destruct IH as (Hi & Ha & IH1 & IH2); [by eapply inv_step|exact Hall2|]. split; [done|]. split; [done|]. split.
  - intros h Hh a gpa. by rewrite IH1, Htr.
  - intros p Hp. rewrite IH2 by (intros h gpa Hh; rewrite Htr by done; by apply Hp).
    destruct (decide (w_mem (sy_world σ2) !! p = w_mem (sy_world σ1) !! p)) as [|Hn]; [done|].
    destruct (Hm p Hn) as (h & gpa & Hh & Ht). by destruct (Hp h gpa Hh).
Qed.

(** The bytes of the hypervisor's variables and stacks: .data, less the root tables,
    and the array of [struct cpu].  Trap code and handlers write them; they are
    fields of [world], and the bytes of RAM at their addresses mean nothing. *)
Definition variables (p : Z) : Prop :=
  (KVA2PA sym_data <= p < KVA2PA sym_edata ∨
   KVA2PA sym_cpu_structs <= p < KVA2PA sym_cpu_structs + DTB_NR_CPUS * CPU_SIZE) ∧
  ∀ h, is_hart h → ¬ in_root (vm_of h) p.

(** Translations and memory are kept from [σ] to [σ']: the translation of every guest;
    every hart's own translation, which is the one init_vmem builds; what no guest
    reaches, which is all of the hypervisor's image but the images and devices of the
    configuration; and the bytes of RAM above the firmware that are no variables and
    that no guest may write. *)
Definition memory_kept σ σ' : Prop :=
  (∀ h, is_hart h → ∀ a gpa, guest_pa h σ' a gpa = guest_pa h σ a gpa) ∧
  (∀ h, is_hart h → ∀ a va, kernel_pa h σ' a va = address_map (kernel_regions (cpu_addr h)) a va) ∧
  (∀ p, p < KVA2PA sym_dynamic → (∀ h, is_hart h → ¬ fixed_pa (vm_of h) (devs_of h) p) →
     ∀ h, is_hart h → ∀ a gpa, guest_pa h σ' a gpa ≠ Some p) ∧
  ∀ p, DTB_MEMORY + FIRMWARE_SIZE <= p < DTB_MEMORY_END → ¬ variables p →
    (∀ h gpa, is_hart h → guest_pa h σ AWrite gpa ≠ Some p) →
    w_mem (sy_world σ') !! p = w_mem (sy_world σ) !! p.

Lemma inv_confined σ σ' : inv σ → all_started σ → rtc (sys_step boot_msg) σ σ' → memory_kept σ σ'.
Proof.
  intros Hrch Hall Hr. destruct (confined σ σ' Hrch Hall Hr) as (Hi & Ha & Ht & Hm).
  split; [done|]. split; [intros h Hh a va; apply inv_kernel; [done|done|rewrite Ha by done; lia]|].
  split; [|intros p _ _; by apply Hm]. intros p Hp Hf h Hh a gpa Hpa. apply (Hf h Hh).
  apply (inv_reach_fixed h σ' a gpa p); [done|done|rewrite Ha by done; lia|exact Hpa|done].
Qed.

(** The hypervisor's memory is its own.  From the moment the guests run, for
    ever and under every interleaving: the address translation of every guest
    stays as it is; every hart's own translation is the address space init_vmem
    built; no guest reaches a byte of the hypervisor's code, data, stacks or root
    tables; and the bytes that no guest may write keep their values, the
    hypervisor's own variables and stacks excepted, which its traps write. *)
Theorem guests_confined σ σ' : reachable σ → all_started σ → rtc (sys_step boot_msg) σ σ' → memory_kept σ σ'.
Proof. intros Hr. by apply inv_confined, reachable_inv. Qed.

(** ** Nothing goes wrong, and the boot goes through *)

(** The registers of a virtual CPU that has not run. *)
Lemma fresh_regs k v n : (0 < n < 32)%nat →
  get_reg (Z.of_nat n) (fresh_vcpu k v) = if (n =? 10)%nat then v else if (n =? 11)%nat then 0xff else 0.
Proof. intros Hn. unfold get_reg. rewrite Nat2Z.id. do 32 (destruct n as [|n]; [try lia; done|]). lia. Qed.

Lemma inv_safe σ h : inv σ → is_hart h →
  (∀ f, segment boot_msg (sy_phase σ h) h = Some f → may_pass h σ → ∃ p m, run_segment h σ f = Ok p m) ∧
  (sy_phase σ h = PEnter → ∃ s, vm_enter (hart_of h σ) = Ok (entry (vm_of h)) s ∧
     ∀ n, (0 < n < 32)%nat → xr s n = if (n =? 10)%nat then vhart h else if (n =? 11)%nat then 0xff else 0) ∧
  (sy_phase σ h = PGuest → ∀ cs clobber, csr_change h trap_csrs (w_csr (sy_world σ)) cs →
     0 <= default 0 (cs !! (h, scause)) < 2 ^ 64 →
     match hstrapvec clobber (trapped h cs σ) with Ok _ _ | Panic _ _ => True | _ => False end).
Proof.
  intros Hrch Hh. split; [|split].
  - intros f Hf Hp. destruct (inv_segment h σ f Hrch Hh Hf Hp) as (p & m & Hr & _). by exists p, m.
  - intros Hp. destruct (inv_running_late h σ Hrch Hh ltac:(rewrite Hp; cbn; lia)) as (tabs & fl & pages & Hl).
    destruct (step_enter h σ tabs fl pages Hh (proj1 Hrch) Hl Hp) as (s & pages' & Hr & _ & Hx & Hg & _).
    exists s. rewrite (gd_sepc _ _ _ _ _ Hg) in Hr. split; [exact Hr|]. intros n Hn. rewrite Hx by done. by apply fresh_regs.
  - intros Hp cs cl Hcs Hca. pose proof (inv_trap h σ cs cl Hrch Hh Hp Hcs Hca) as H.
    by destruct (hstrapvec _ _).
Qed.

(** The hypervisor is safe in every reachable state: the next part of main of
    a hart that may pass its barrier runs to its end without a panic, a fault or
    an endless loop; a guest starts at its entry point with a0 holding its
    virtual hart number, a1 the marker 0xff and every other register 0; and
    whatever the hardware reports when a guest traps, the trap code comes back
    to the guest or panics, but never faults or hangs. *)
Theorem hypervisor_safe σ h : reachable σ → is_hart h →
  (∀ f, segment boot_msg (sy_phase σ h) h = Some f → may_pass h σ → ∃ p m, run_segment h σ f = Ok p m) ∧
  (sy_phase σ h = PEnter → ∃ s, vm_enter (hart_of h σ) = Ok (entry (vm_of h)) s ∧
     ∀ n, (0 < n < 32)%nat → xr s n = if (n =? 10)%nat then vhart h else if (n =? 11)%nat then 0xff else 0) ∧
  (sy_phase σ h = PGuest → ∀ cs clobber, csr_change h trap_csrs (w_csr (sy_world σ)) cs →
     0 <= default 0 (cs !! (h, scause)) < 2 ^ 64 →
     match hstrapvec clobber (trapped h cs σ) with Ok _ _ | Panic _ _ => True | _ => False end).
Proof. intros Hr. by apply inv_safe, reachable_inv. Qed.

Lemma inv_rank σ h : inv σ → is_hart h → (rank (sy_phase σ h) <= 7)%nat ∧
  ((rank (sy_phase σ h) < 7)%nat → ∀ k, sy_phase σ h ≠ PPanic k).
Proof.
  intros [Hs H] Hh. destruct (decide (rank (sy_phase σ 0) = 0%nat)).
  - destruct H as [_ H]. destruct (H h Hh) as [-> | ->]; (split; [cbn; lia|done]).
  - destruct H as (tabs & fl & pages & Hl). pose proof (hi_panic _ _ _ _ _ (l_hart _ _ _ _ Hl h Hh)) as Hp.
    destruct (sy_phase σ h) as [| | | | |i| | |k]; try (split; [cbn; lia|done]).
    rewrite (Hp k eq_refl). split; cbn; lia.
Qed.

(** A hart that is not ahead of the others can move. *)
Lemma least_moves h σ : inv σ → is_hart h → (rank (sy_phase σ h) < 7)%nat →
  (∀ k, is_hart k → (rank (sy_phase σ h) <= rank (sy_phase σ k))%nat) →
  ∃ m xs p, step boot_msg h σ (after h m xs p σ) ∧ rank p = S (rank (sy_phase σ h)).
Proof.
  intros Hinv Hh Hr Hle. pose proof (proj2 (inv_rank σ h Hinv Hh) Hr) as Hnp.
  assert (Hpass : may_pass h σ) by (intros k Hk _; by apply Hle).
  destruct (sy_phase σ h) as [| | | | |i| | |k] eqn:Ep; try (by destruct (Hnp k)); cbn in Hr; try lia;
    try (match goal with |- context [rank ?q] => 
      destruct (inv_segment h σ _ Hinv Hh ltac:(rewrite Ep; reflexivity) Hpass) as (p & m & Hrun & Erk & _);
      exists m, (sy_xr σ h), p; split; [eapply S_boot; [rewrite Ep; reflexivity|exact Hpass|exact Hrun]|by rewrite Ep in Erk] end).
  destruct (inv_enter h σ Hinv Hh Ep) as (pc & s & Hrun & _).
  exists (set_world (hw s) (sy_machine σ)), (xr s), PGuest. split; [by eapply S_enter|done].
Qed.

Lemma boot_step σ : inv σ → ¬ all_started σ → ∃ h m xs p, is_hart h ∧ step boot_msg h σ (after h m xs p σ) ∧
  rank p = S (rank (sy_phase σ h)).
Proof.
  intros Hinv Hn. assert (H0 : is_hart 0) by (by vm_compute). assert (H1 : is_hart 1) by (by vm_compute).
  pose proof (proj1 (inv_rank σ 0 Hinv H0)). pose proof (proj1 (inv_rank σ 1 Hinv H1)).
  assert (Hlt : (rank (sy_phase σ 0) < 7 ∨ rank (sy_phase σ 1) < 7)%nat).
  { destruct (decide (rank (sy_phase σ 0) < 7)%nat); [by left|].
    destruct (decide (rank (sy_phase σ 1) < 7)%nat); [by right|]. destruct Hn.
    intros k Hk. destruct (is_hart_cases k Hk) as [->| ->]; lia. }
  destruct (decide (rank (sy_phase σ 0) <= rank (sy_phase σ 1))%nat).
  - destruct (least_moves 0 σ Hinv H0) as (m & xs & p & ?); [lia| |by exists 0, m, xs, p].
    intros k Hk. destruct (is_hart_cases k Hk) as [->| ->]; lia.
  - destruct (least_moves 1 σ Hinv H1) as (m & xs & p & ?); [lia| |by exists 1, m, xs, p].
    intros k Hk. destruct (is_hart_cases k Hk) as [->| ->]; lia.
Qed.

(** The parts of main the harts still have before them. *)
Definition parts_left σ : nat := (14 - (rank (sy_phase σ 0) + rank (sy_phase σ 1)))%nat.

Lemma boot_runs σ : reachable σ →
  ∃ σ', nsteps (sys_step boot_msg) (parts_left σ) σ σ' ∧ all_started σ' ∧ reachable σ'.
Proof.
  intros (σ0 & Hi0 & Hr0). assert (Hinv : inv σ) by (apply reachable_inv; by exists σ0).
  remember (parts_left σ) as n eqn:En. revert σ Hr0 Hinv En. induction n as [|n IH]; intros σ Hr0 Hinv En.
  - exists σ. split; [constructor|]. split; [|by exists σ0]. intros k Hk. unfold parts_left in En.
    pose proof (proj1 (inv_rank σ 0 Hinv ltac:(by vm_compute))).
    pose proof (proj1 (inv_rank σ 1 Hinv ltac:(by vm_compute))).
    destruct (is_hart_cases k Hk) as [->| ->]; lia.
  - destruct (boot_step σ Hinv) as (h & m & xs & p & Hh & Hst & Hrk).
    { intros Hall. unfold parts_left in En. rewrite !Hall in En by (by vm_compute). done. }
    assert (Hss : sys_step boot_msg σ (after h m xs p σ)) by (by eapply Y_hart).
    destruct (IH (after h m xs p σ)) as (σ' & Hn & Hall & Hre).
    + by eapply rtc_r.
    + by eapply inv_step.
    + unfold parts_left in *. cbn [after sy_phase]. unfold upd_hart.
      destruct (is_hart_cases h Hh) as [->| ->]; cbn [Z.eqb Pos.eqb]; lia.
    + exists σ'. split; [by econstructor|done].
Qed.

(** The boot cannot get stuck, given barriers that open once every hart has
    arrived: from every reachable state, however far each hart has come, at most
    [parts_left] further steps, 14 from power-on, bring every hart into its
    guest. *)
Theorem boot_completes σ : reachable σ →
  ∃ σ', nsteps (sys_step boot_msg) (parts_left σ) σ σ' ∧ all_started σ' ∧ reachable σ'.
Proof. apply boot_runs. Qed.
End theorems.

(** ** The theorems at work: the repository's two VMs *)

Definition demo_bar (c : vm_config) : vm_config :=
  set_bar (init_barrier (bar c) (count_set_bits (cpu_affinity c))) c.

#[export] Instance demo_deployment : Deployment := {|
  vm_table := demo_config;
  vm_slot := Z.to_nat;
  vm_of h := demo_bar (if h =? 0 then demo_vm0 else demo_vm1);
  slot_devs k := if (k =? 0)%nat then devs0 else devs1;
  boot_msg := 4096
|}.

Lemma demo_vm_ok c ds : vm_ok c ds → vm_ok (demo_bar c) ds.
Proof. by intros []. Qed.

Lemma demo_fixed h p : is_hart h → fixed_pa (vm_of h) (devs_of h) p →
  (h = 0 ∧ (0x80110 <= p / 4096 < 0x80118 ∨ p / 4096 = 0x10000 ∨ p / 4096 = 0x10001)) ∨
  (h = 1 ∧ (0x80120 <= p / 4096 < 0x80128 ∨ p / 4096 = 0x3000 ∨ p / 4096 = 0x10002)).
Proof.
  intros Hh Hf. destruct (is_hart_cases h Hh) as [->| ->].
  - left. split; [done|]. by apply demo_fixed0.
  - right. split; [done|]. by apply demo_fixed1.
Qed.

Lemma demo_root_range h p : is_hart h → in_root (vm_of h) p →
  0x80180000 + 0x4000 * h <= p < 0x80184000 + 0x4000 * h.
Proof.
  intros Hh. unfold in_root. destruct (is_hart_cases h Hh) as [->| ->].
  - replace (root_of (vm_of 0)) with 0x80180000 by by vm_compute. unfold PAGE_SIZE. lia.
  - replace (root_of (vm_of 1)) with 0x80184000 by by vm_compute. unfold PAGE_SIZE. lia.
Qed.

#[export] Instance demo_deployment_ok : DeploymentOk demo_deployment.
Proof.
  split.
  - intros h Hh. by destruct (is_hart_cases h Hh) as [->| ->].
  - intros h Hh. by destruct (is_hart_cases h Hh) as [->| ->].
  - intros h Hh. destruct (is_hart_cases h Hh) as [->| ->]; apply demo_vm_ok; [exact demo_ok0|exact demo_ok1].
  - intros c Hc. change demo_config with [demo_vm0; demo_vm1] in Hc.
    apply elem_of_cons in Hc as [->| ->%list_elem_of_singleton]; by vm_compute.
  - done.
  - intros h h' Hh Hh' Hne p Hp Hp'. apply demo_root_range in Hp, Hp'; [|done..]. cbn in Hne.
    unfold is_hart, DTB_NR_CPUS in *. lia.
  - intros h h' p Hh Hh' Hf. apply demo_fixed in Hf; [|done].
    replace (KVA2PA sym_dynamic) with 0x80200000 by by vm_compute.
    split; [revert Hf; clear; intros; dlia|]. split.
    + intros Hp. apply demo_root_range in Hp; [|done]. unfold is_hart, DTB_NR_CPUS in *.
      revert Hf Hp Hh'. clear. intros. dlia.
    + intros Hne Hf'. apply demo_fixed in Hf'; [|done]. cbn in Hne. lia.
  - apply demo_enough. pose proof demo_need as [H0 H1].
    change (vm_share 0) with (vm_need demo_vm0 devs0). change (vm_share 1) with (vm_need demo_vm1 devs1).
    unfold kernel_need. lia.
  - by vm_compute.
Qed.

#[export] Instance null_pci : PciBus unit := {| pci_store16 _ _ x := x; pci_store32 _ _ x := x |}.

Definition demo_system : Type := system (D:=plic_regs) (U:=sim_uart) (X:=unit).

(** The machine at power-on, with memory all zero. *)
Lemma zero_initial {dp : Deployment} : boot_msg = 4096 →
  (∀ h, is_hart h → 0x80000000 <= root_of (vm_of h) <= 0x8fff0000) → ∃ σ : demo_system, initial σ.
Proof.
  intros Hm0 Hroot. destruct zero_ram as [m Hm]. pose proof (zeroed_has_bytes _ _ _ Hm) as Hb.
  set (w := mk_world m (mk_kmem 0 0) [0; 0] 0 vm_table (replicate 2 (mk_vcpu 0 0 None [])) ∅ (∅ : plic_regs) 0 0).
  exists (mk_system (mk_machine w (sim_console (boot_text ++ [0])) tt) (λ _ _, 0) (λ _, PInit)).
  split; [done| |done|done|done]. split.
  - done.
  - eapply has_bytes_sub; [exact Hb|by vm_compute|by vm_compute].
  - intros h Hh. pose proof (Hroot h Hh). eapply has_bytes_sub; [exact Hb|unfold DTB_MEMORY; lia|].
    unfold PAGE_SIZE, DTB_MEMORY_SIZE, DTB_MEMORY. lia.
  - done.
  - rewrite Hm0. by vm_compute.
Qed.

Lemma demo_initial : ∃ σ : demo_system, initial σ.
Proof. apply zero_initial; [done|]. intros h Hh. destruct (is_hart_cases h Hh) as [->| ->]; by vm_compute. Qed.

Lemma demo_started : ∃ σ : demo_system, reachable σ ∧ all_started σ.
Proof.
  destruct demo_initial as (σ0 & Hi). destruct (boot_runs σ0) as (σ & _ & Ha & Hr); [by exists σ0|]. by exists σ.
Qed.

(** *** One VM on both harts *)

Definition smp_vm : vm_config :=
  mk_vm_config 3 (image_base demo_vm0) (image_end demo_vm0) (memory_base demo_vm0) (memory_size demo_vm0)
    (entry demo_vm0) (devices demo_vm0) (bar demo_vm0) (vm_pgtable demo_vm0).

Definition smp_deployment : Deployment := {|
  vm_table := [smp_vm];
  vm_slot _ := 0%nat;
  vm_of _ := demo_bar smp_vm;
  slot_devs _ := devs0;
  boot_msg := 4096
|}.

Lemma smp_vm_ok : vm_ok (demo_bar smp_vm) devs0.
Proof. by destruct demo_ok0. Qed.

Lemma smp_deployment_ok : DeploymentOk smp_deployment.
Proof.
  split.
  - intros h Hh. by destruct (is_hart_cases h Hh) as [->| ->].
  - done.
  - intros h Hh. exact smp_vm_ok.
  - intros c ->%list_elem_of_singleton. by vm_compute.
  - by vm_compute.
  - done.
  - intros h h' p Hh Hh' Hf. change (fixed_pa demo_vm0 devs0 p) in Hf. apply demo_fixed0 in Hf.
    replace (KVA2PA sym_dynamic) with 0x80200000 by by vm_compute.
    split; [revert Hf; clear; intros; dlia|]. split; [|done]. intros Hp.
    change (in_root (demo_bar demo_vm0) p) in Hp. apply (demo_root_range 0) in Hp; [|by vm_compute].
    revert Hf Hp. clear. intros. dlia.
  - apply demo_enough. pose proof demo_need as [H0 H1].
    change (@vm_share smp_deployment _ 0) with (vm_need demo_vm0 devs0). change (@vm_share smp_deployment _ 1) with 0%nat.
    unfold kernel_need. lia.
  - by vm_compute.
Qed.

Lemma smp_started : ∃ σ : demo_system, reachable (dp := smp_deployment) σ ∧ all_started σ.
Proof.
  destruct (zero_initial (dp := smp_deployment)) as (σ0 & Hi); [done|intros h Hh; by vm_compute|].
  destruct (boot_runs (dp := smp_deployment) (DeploymentOk0 := smp_deployment_ok) σ0) as (σ & _ & Ha & Hr); [by exists σ0|].
  by exists σ.
Qed.

(** *** Witnesses *)

Lemma guests_isolated_always_witness :
  (∃ σ : demo_system, all_started σ ∧
     ∀ a gpa p, guest_pa 0 σ a gpa = Some p → ∀ a' gpa', guest_pa 1 σ a' gpa' ≠ Some p) ∧
  ∃ σ : demo_system, all_started σ ∧ ∀ a gpa, guest_pa 0 σ a gpa = guest_pa 1 σ a gpa.
Proof.
  split.
  - destruct demo_started as (σ & Hr & Ha). exists σ. split; [exact Ha|]. intros a gpa p Hp.
    pose proof (Ha 0 ltac:(by vm_compute)) as E0. pose proof (Ha 1 ltac:(by vm_compute)) as E1.
    apply (guests_isolated_always σ 0 1 Hr ltac:(by vm_compute) ltac:(by vm_compute) ltac:(lia) ltac:(lia) a gpa p Hp).
  - destruct smp_started as (σ & Hr & Ha). exists σ. split; [exact Ha|]. intros a gpa.
    pose proof (Ha 0 ltac:(by vm_compute)) as E0. pose proof (Ha 1 ltac:(by vm_compute)) as E1.
    exact (guests_isolated_always (DeploymentOk0 := smp_deployment_ok) σ 0 1 Hr ltac:(by vm_compute) ltac:(by vm_compute)
      ltac:(lia) ltac:(lia) a gpa).
Defined.

Lemma guest_integrity_witness : ∃ σ : demo_system, all_started σ ∧
  ∀ σ', rtc (outside 0) σ σ' → untouched 0 σ σ'.
Proof.
  destruct demo_started as (σ & Hr & Ha). exists σ. split; [exact Ha|]. intros σ' He.
  apply (guest_integrity σ σ' 0 Hr Ha); [by vm_compute|exact He].
Defined.

Lemma hypervisor_safe_witness : ∃ (σ : demo_system) p m, sy_phase σ 0 = PInit ∧
  run_segment 0 σ (main_init boot_msg 0 ;; mret PVmem) = Ok p m.
Proof.
  destruct demo_initial as (σ & Hi). pose proof (in_phase _ Hi) as Hp.
  destruct (hypervisor_safe σ 0) as [Hs _]; [by exists σ|by vm_compute|].
  destruct (Hs (main_init boot_msg 0 ;; mret PVmem)) as (p & m & H).
  - by rewrite Hp by (by vm_compute).
  - intros h' Hh' _. rewrite !Hp by (done || by vm_compute). cbn. lia.
  - exists σ, p, m. split; [by apply Hp; vm_compute|exact H].
Defined.

Lemma boot_completes_witness : ∃ σ σ' : demo_system, initial σ ∧ parts_left σ = 14%nat ∧
  nsteps (sys_step boot_msg) 14 σ σ' ∧ all_started σ'.
Proof.
  destruct demo_initial as (σ & Hi). pose proof (in_phase _ Hi) as Hp.
  assert (E : parts_left σ = 14%nat) by (unfold parts_left; by rewrite !Hp by (by vm_compute)).
  destruct (boot_completes σ) as (σ' & Hn & Ha & _); [by exists σ|]. rewrite E in Hn. by exists σ, σ'.
Defined.

Lemma guests_confined_witness : ∃ σ : demo_system, all_started σ ∧
  ∀ σ', rtc (sys_step boot_msg) σ σ' → (∀ a gpa, guest_pa 1 σ' a gpa = guest_pa 1 σ a gpa) ∧
    kernel_pa 0 σ' AExec sym_text = address_map (kernel_regions (cpu_addr 0)) AExec sym_text.
Proof.
  destruct demo_started as (σ & Hr & Ha). exists σ. split; [exact Ha|]. intros σ' He.
  destruct (guests_confined σ σ' Hr Ha He) as (H & Hk & _). split; [by apply H; vm_compute|by apply Hk; vm_compute].
Defined.
