(* ===== verification/SystemFine.v ===== *)
(** * SystemFine: the whole machine, with page tables built access by access

    System.v lets a hart run a part of main in one step.  Two parts do not run at one
    stroke on the machine: in init_vmem and in init_hs_pgtable the harts share the
    allocator, and other harts, guests included, go on meanwhile.  Here a hart that
    has to build a table takes up the program of VmemProg, executes it one access at
    a time, and then runs the rest of its part. *)

From S2P Require Import Prelude Layout Bits Memory Machine Asm Lock Kmem Cpu Linkerscript Vmem PageTable VmemSpec Sv39 Plic Vcpu Vplic Trap VmRun VmemProg VmRunSpec Regions KernelSpace VplicSpec KmemConc VmemConc VmemMerge KernelTheorems VmRunTheorems VmemConcTheorems VplicTheorems TrapTheorems TrapEntry TrapEntryTheorems TrapShared Uart Printf PrintfTheorems Pci Main System Deployment SystemInv SystemSteps SystemTheorems.

Section fine.
Context {D U X : Type} {P : PlicDevice D} {L : Linker} {UD : UartDevice U} {UL : UartLaws U} {PB : PciBus X}.
Context {dp : Deployment}.
#[local] Abbreviation sys := (system (D:=D) (U:=U) (X:=X)).
#[local] Abbreviation M := (cmd (machine D U X)).

(** What comes before the first access in the parts that build tables (nothing in
    main, [vcpu = get_vcpu(); init_vcpu(vcpu); if (vcpu->vhartid == 0)] in vm_run);
    the result is the program. *)
Definition build_begin (p : phase) : option (M (prog Z)) :=
  match p with
  | PVmem => Some (on_world (cpu ← mycpu; mret (init_vmem_acc cpu)))
  | PSetup => Some (on_world (
      i ← get_vcpu;
      init_vcpu i ;;
      v ← vcpu_get i;
      c ← config_get (conf v);
      mret (if vhartid v =? 0 then init_hs_pgtable_acc c ;; mret i else mret i)))
  | _ => None
  end.
(** And after the last, with the result of the program: [init_hart(pgtable)] in main,
    nothing in vm_run. *)
Definition build_end (p : phase) (x : Z) : M phase :=
  match p with
  | PVmem => on_world (init_hart x) ;; mret PMapped
  | _ => mret (PStart x)
  end.

(** A command on the world inside a longer one. *)
Lemma bind_same {A B} (c c' : M A) (f f' : A → M B) m : c m = c' m → (∀ a m', f a m' = f' a m') → (c ≫= f) m = (c' ≫= f') m.
Proof. intros H Hf. unfold mbind, cmd_bind. rewrite H. destruct (c' m); [apply Hf|reflexivity..]. Qed.
Lemma on_world_eq {A} (c c' : cmd (world D) A) (m : machine D U X) : c (m_world m) = c' (m_world m) → on_world c m = on_world c' m.
Proof. unfold on_world, Main.part. by intros ->. Qed.
Lemma on_world_bind {A B C} (c : cmd (world D) A) (f : A → cmd (world D) B) (k : B → M C) m :
  (on_world (c ≫= f) ≫= k) m = (on_world c ≫= λ a, on_world (f a) ≫= k) m.
Proof. unfold on_world, Main.part, mbind, cmd_bind. destruct m as [w u x]. cbn [m_world]. destruct (c w); reflexivity. Qed.
Lemma on_world_ok {A B} (c : cmd (world D) A) (f : A → M B) a (m : machine D U X) :
  c (m_world m) = Ok a (m_world m) → (on_world c ≫= f) m = f a m.
Proof. intros H. unfold on_world, Main.part, mbind, cmd_bind. rewrite H. by destruct m. Qed.

Lemma build_vmem m :
  (main_vmem ;; mret PMapped : M phase) m =
  (on_world (cpu ← mycpu; mret (init_vmem_acc cpu)) ≫= λ q, on_world (run q) ≫= λ x, on_world (init_hart x) ;; mret PMapped) m.
Proof.
  assert (Hc : ∃ cpu, mycpu (m_world m) = Ok cpu (m_world m)) by (unfold mycpu; destruct (truthy _); by eexists).
  destruct Hc as [cpu Hc]. rewrite (on_world_ok _ _ (init_vmem_acc cpu)) by (rewrite (bind_ok _ _ _ _ _ Hc); reflexivity).
  unfold main_vmem. rewrite on_world_bind. apply bind_same; [|reflexivity].
  apply on_world_eq. symmetry. exact (init_vmem_runs cpu _ Hc).
Qed.
Lemma build_setup m :
  (i ← on_world get_vcpu; on_world (vm_setup i) ;; mret (PStart i) : M phase) m =
  (on_world (
      i ← get_vcpu;
      init_vcpu i ;;
      v ← vcpu_get i;
      c ← config_get (conf v);
      mret (if vhartid v =? 0 then init_hs_pgtable_acc c ;; mret i else mret i)) ≫=
    λ q, on_world (run q) ≫= λ x, mret (PStart x)) m.
Proof.
  rewrite on_world_bind. apply bind_same; [reflexivity|]. intros i m1. unfold vm_setup.
  rewrite !on_world_bind. apply bind_same; [reflexivity|]. intros _ m2.
  rewrite !on_world_bind. apply bind_same; [reflexivity|]. intros v m3.
  rewrite !on_world_bind. apply bind_same; [reflexivity|]. intros c m4.
  rewrite (on_world_ok (mret _) _ (if vhartid v =? 0 then init_hs_pgtable_acc c ;; mret i else mret i)) by reflexivity.
  unfold whenM. destruct (vhartid v =? 0).
  - etransitivity; [|symmetry; apply bind_same; [apply on_world_eq, run_seq|reflexivity]]. rewrite on_world_bind.
    apply bind_same; [apply on_world_eq; symmetry; apply init_hs_pgtable_runs|].
    intros _ m5. symmetry. exact (on_world_ok (mret i) (λ x, mret (PStart x)) i m5 eq_refl).
  - rewrite (on_world_ok (mret tt) _ tt) by reflexivity. symmetry. exact (on_world_ok (run (mret i)) (λ x, mret (PStart x)) i m4 eq_refl).
Qed.

(** The three together, with the program run at one stroke, are the part of main, on
    every machine and whatever the outcome. *)
Lemma build_parts p h f g m : segment boot_msg p h = Some f → build_begin p = Some g →
  f m = (q ← g; x ← on_world (run q); build_end p x) m.
Proof.
  intros Hf Hg. destruct p; cbn [segment build_begin build_end] in *; try discriminate Hg;
    apply (inj Some) in Hf as <-; apply (inj Some) in Hg as <-; [exact (build_vmem m)|exact (build_setup m)].
Qed.

(** The machine, and for each hart that builds a table its place in the program. *)
Record fine := mk_fine { fi_sys : sys; fi_build : Z → option client }.
Implicit Types (φ : fine) (σ : sys).

Definition with_memory (w : world D) σ : sys := mk_system (set_world w (sy_machine σ)) (sy_xr σ) (sy_phase σ).

Inductive fine_step : fine → fine → Prop :=
| F_begin h σ b f q m : is_hart h → b h = None → build_begin (sy_phase σ h) = Some f → may_pass h σ →
    run_segment h σ f = Ok q m →
    fine_step (mk_fine σ b)
      (mk_fine (after h m (sy_xr σ h) (sy_phase σ h) σ) (upd_hart h (Some (mk_client (mk_thread Idle []) q)) b))
| F_access h σ b c c' w : is_hart h → b h = Some c → client_access c (sy_world σ) = Ok c' w →
    fine_step (mk_fine σ b) (mk_fine (with_memory w σ) (upd_hart h (Some c') b))
| F_end h σ b t x p m : is_hart h → b h = Some (mk_client t (Ret x)) → pc t = Idle →
    run_segment h σ (build_end (sy_phase σ h) x) = Ok p m →
    fine_step (mk_fine σ b) (mk_fine (after h m (sy_xr σ h) p σ) (upd_hart h None b))
| F_hart h σ b σ' : is_hart h → b h = None → build_begin (sy_phase σ h) = None → step boot_msg h σ σ' →
    fine_step (mk_fine σ b) (mk_fine σ' b)
| F_plic σ b d : fine_step (mk_fine σ b) (mk_fine (with_memory (set_plic d (sy_world σ)) σ) b).
End fine.
Arguments fine D U X : clear implicits.
