(* ===== verification/SystemFineInv.v ===== *)
(** * SystemFineInv: the invariant while page tables are being built

    While harts build tables, the invariant of SystemInv holds of a machine on which
    they have not begun ([ghost]), and [busy] relates the real one to it: what the
    harts have done so far is what each does alone.  Every step of a hart that does
    not build, and every access of one that does, keeps it. *)

From S2P Require Import Prelude Layout Bits Memory Machine Asm Lock Kmem Cpu Linkerscript Vmem PageTable VmemSpec Sv39 Plic Vcpu Vplic Trap VmRun VmemProg VmRunSpec Regions KernelSpace VplicSpec KmemConc VmemConc VmemMerge KernelTheorems VmRunTheorems VmemConcTheorems VplicTheorems TrapTheorems TrapEntry TrapEntryTheorems TrapShared Uart Printf PrintfTheorems Pci Main System Deployment SystemInv SystemSteps SystemTheorems SystemFine.

Section invariant.
Context {D U X : Type} {P : PlicDevice D} {L : Linker} {UD : UartDevice U} {UL : UartLaws U} {PB : PciBus X}.
Context `{!ImageOk L} {dp : Deployment} `{!DeploymentOk dp}.
#[local] Abbreviation sys := (system (D:=D) (U:=U) (X:=X)).
Implicit Types (σ : sys) (φ : fine D U X) (w : world D) (tabs : gmap Z tab) (fl pg : list Z) (h : Z) (m : ram) (k : kmem_state).

(** ** The machine before the tables that are being built

    While harts build tables, the invariant holds of a machine on which they have not
    begun: the same machine with another memory and free list. *)

Definition lend m k w : world D := set_kmem k (set_mem m w).
Definition ghost m k σ : sys := with_memory (lend m k (sy_world σ)) σ.

Lemma lend_only m k w w' : mem_only w w' → lend m k w' = lend m k w.
Proof. by intros (m' & k' & ->). Qed.
Lemma lend_id w : lend (w_mem w) (w_kmem w) w = w.
Proof. by destruct w. Qed.
Lemma lend_of w w' : mem_only w w' → lend (w_mem w') (w_kmem w') w = w'.
Proof. intros (m' & k' & ->). by destruct w. Qed.
Lemma ghost_id σ : ghost (w_mem (sy_world σ)) (w_kmem (sy_world σ)) σ = σ.
Proof. unfold ghost, with_memory. rewrite lend_id. destruct σ as [[? ? ?] ? ?]. done. Qed.

(** The free pages of a state. *)
Lemma late_all σ tabs fl pages all : late σ tabs fl pages → kmem_inv (sy_world σ) all → fl = all.
Proof.
  intros Hl Hk. destruct (l_mem _ _ _ _ Hl) as (data & _ & Hmi).
  eapply freelist_det; [apply (mi_kmem _ _ _ _ Hmi)|apply Hk].
Qed.
Lemma table_not_free σ tabs fl pages u i a : late σ tabs fl pages → tabs !! u = Some i → u <= a < u + tsize i → ¬ in_pages fl a.
Proof.
  intros Hl Hu Ha (x & Hx & Hxa). destruct (l_mem _ _ _ _ Hl) as (data & _ & Hmi). unfold in_page in Hxa.
  destruct (mi_free _ _ _ _ Hmi x u i ltac:(apply elem_of_app; by left) Hu); lia.
Qed.
Lemma root_not_free σ tabs fl pages h a : late σ tabs fl pages → is_hart h → in_root (vm_of h) a → ¬ in_pages fl a.
Proof.
  intros Hl Hh Ha (x & Hx & Hxa). destruct (l_mem _ _ _ _ Hl) as (data & _ & Hmi).
  destruct (vm_root _ _ (co_ok h Hh)) as (_ & _ & Hd & _). unfold in_root in Ha.
  assert (Hv : valid_address x = true) by (eapply mi_valid; [exact Hmi|apply elem_of_app; by left]).
  destruct (valid_address_pa x Hv) as (_ & ? & _). unfold in_page in Hxa. lia.
Qed.

(** Another memory with the same tables is as good. *)
Lemma spared_lend h w m k tabs : pt_inv (w_mem w) tabs → agree_tabs tabs (w_mem w) m → spared h w tabs (lend m k w) tabs.
Proof.
  intros Hpt Hag. split; [done| |done|done|done]. intros r b v Hr Hv.
  eapply pt_look_frame; [exact Hpt|exact Hag|by apply root_path].
Qed.

(** The free list in another order, and anything in the free pages. *)
Lemma inv_amend σ m k all xs : inv σ → (rank (sy_phase σ 0) ≠ 0)%nat → kmem_inv (sy_world σ) all →
  kmem_inv (lend m k (sy_world σ)) xs → xs ≡ₚ all → (∀ a, ¬ in_pages all a → m !! a = w_mem (sy_world σ) !! a) →
  inv (ghost m k σ).
Proof.
  intros Hinv H0 Hk Hk' E Hm. destruct (inv_late σ Hinv H0) as (tabs & fl & pages & Hl).
  assert (fl = all) as -> by by eapply late_all. destruct (l_mem _ _ _ _ Hl) as (data & Hd & Hmi).
  assert (Hag : agree_tabs tabs (w_mem (sy_world σ)) m).
  { intros u i a Hu Ha. symmetry. apply Hm. by eapply table_not_free. }
  assert (Hpt : pt_inv m tabs) by (eapply pt_inv_frame; [apply Hmi|exact Hag]).
  apply (inv_late_intro _ tabs xs pages); [|exact H0|].
  - destruct Hinv as [[? ? ? ? ? ?] _]. by split.
  - split; [|rewrite E; apply Hl|apply Hl| |].
    + exists data. split; [done|]. split; [exact Hk'|exact Hpt| |rewrite E; apply Hmi|apply Hmi].
      intros x t i Hx. apply (mi_free _ _ _ _ Hmi). by rewrite <- E.
    + intros h Hh. apply (hart_inv_spared h (sy_world σ) tabs); [|exact Hpt|done|by apply Hl].
      apply spared_lend; [apply Hmi|exact Hag].
    + intros h Hh. apply (vm_inv_spared h (sy_world σ) tabs); [apply spared_lend; [apply Hmi|exact Hag]| |by apply Hl].
      intros El Hr a Ha. change (w_mem (sy_world (ghost m k σ))) with m. rewrite Hm.
      * by apply (vi_before _ _ _ _ _ (l_vm _ _ _ _ Hl h Hh) El Hr).
      * by eapply root_not_free.
Qed.

(** ** Harts at work *)

(** What a hart that has begun has to do. *)
Definition setup_job h : job :=
  if decide (lead h = h)
  then mk_job (init_hs_pgtable_acc (vm_of h) ;; mret h) (root_of (vm_of h)) (PAGE_SIZE * 4) (vm_need (vm_of h) (devs_of h))
  else mk_job (mret h) 0 0 0.
Definition job_of φ h : job :=
  match fi_build φ h, sy_phase (fi_sys φ) h with
  | Some _, PVmem => vmem_job h
  | Some _, PSetup => setup_job h
  | _, _ => idle_job
  end.
Definition jobs φ : list job := [job_of φ 0; job_of φ 1].
Definition clients φ : list client := [default idle_client (fi_build φ 0); default idle_client (fi_build φ 1)].

Lemma hart_index (A : Type) (f : Z → A) i x : [f 0; f 1] !! i = Some x → ∃ h, is_hart h ∧ i = Z.to_nat h ∧ x = f h.
Proof. destruct i as [|[|i]]; [intros [= <-]; by exists 0|intros [= <-]; by exists 1|done]. Qed.
Lemma hart_lookup (A : Type) (f : Z → A) h : is_hart h → [f 0; f 1] !! Z.to_nat h = Some (f h).
Proof. intros Hh. by destruct (is_hart_cases h Hh) as [->| ->]. Qed.
Lemma hart_insert (A : Type) (f g : Z → A) h x : is_hart h → g h = x → (∀ h', h' ≠ h → g h' = f h') →
  [g 0; g 1] = <[Z.to_nat h := x]> [f 0; f 1].
Proof.
  intros Hh Hx Hg. destruct (is_hart_cases h Hh) as [->| ->]; [rewrite <- Hx, (Hg 1) by done|rewrite <- Hx, (Hg 0) by done]; done.
Qed.
Lemma hart_nat_inj h h' : is_hart h → is_hart h' → Z.to_nat h ≠ Z.to_nat h' → h ≠ h'.
Proof. congruence. Qed.

Lemma jb_prog_mk q x s n : jb_prog (mk_job q x s n) = q.
Proof. done. Qed.
Lemma setup_job_lead h : lead h = h → setup_job h =
  mk_job (init_hs_pgtable_acc (vm_of h) ;; mret h) (root_of (vm_of h)) (PAGE_SIZE * 4) (vm_need (vm_of h) (devs_of h)).
Proof. intros E. unfold setup_job. by rewrite decide_True. Qed.
Lemma setup_job_next h : lead h ≠ h → setup_job h = mk_job (mret h) 0 0 0.
Proof. intros E. unfold setup_job. by rewrite decide_False. Qed.

(** The root table a hart works in is that of its VM, which it has to build. *)
Lemma job_static φ h a : static (job_of φ h) a → in_root (vm_of h) a ∧ lead h = h ∧ sy_phase (fi_sys φ) h = PSetup.
Proof.
  unfold job_of. destruct (fi_build φ h); [|by intros ?%idle_static].
  destruct (sy_phase (fi_sys φ) h); try (by intros ?%idle_static).
  destruct (decide (lead h = h)) as [E|E]; [|rewrite setup_job_next by done; unfold static; cbn; lia].
  by rewrite setup_job_lead by done.
Qed.

(** It has begun: the barrier was open and, in vm_run, its virtual CPU is prepared. *)
Record begun h σ : Prop := {
  bg_pass : may_pass h σ;
  bg_at : sy_phase σ h = PVmem ∨ sy_phase σ h = PSetup ∧
    w_vcpus (sy_world σ) !! Z.to_nat h = Some (fresh_vcpu (vm_slot h) (vhart h)) ∧
    w_csr (sy_world σ) !! (h, sscratch) = Some (regs_addr h)
}.

Lemma job_need φ h : (jb_need (job_of φ h) <= need_left h (sy_phase (fi_sys φ) h))%nat.
Proof.
  unfold job_of. destruct (fi_build φ h); [|cbn; lia]. unfold need_left.
  destruct (sy_phase (fi_sys φ) h); cbn [idle_job jb_need vmem_job]; try lia.
  - rewrite !decide_True by (cbn; lia). lia.
  - rewrite decide_False, decide_True by (cbn; lia). unfold vm_share, setup_job. by case_decide.
Qed.

Lemma setup_prog_run c h w : run (init_hs_pgtable_acc c ;; mret h) w = (init_hs_pgtable c ;; mret h) w.
Proof. apply (runs_bind _ _ _ (λ _, mret h)); [apply init_hs_pgtable_runs|done]. Qed.

(** What they do succeeds. *)
Lemma job_succeeds σ b h w0 tabs fl pages : let φ := mk_fine σ b in
  is_hart h → shared σ → late (ghost (w_mem w0) (w_kmem w0) σ) tabs fl pages → w0 = lend (w_mem w0) (w_kmem w0) (sy_world σ) →
  ∃ wb : world D, succeeds wb (VmemConc.part (job_of φ h) [] (w_mem w0)) (jb_prog (job_of φ h)) (jb_need (job_of φ h)).
Proof.
  intros φ Hh Hs Hl Ew. unfold job_of. cbn [φ fi_build fi_sys].
  assert (Hret : ∀ x m n, ∃ wb : world D, succeeds wb m (Ret x) n).
  { intros x m n. exists w0. intros w xs _ _ _. by exists x, w. }
  destruct (b h) as [c|]; [|apply Hret]. destruct (sy_phase σ h) eqn:Ep; try apply Hret.
  - exists (as_hart h w0). intros w xs Ho Hm Hn. cbn [vmem_job jb_prog jb_need] in *.
    assert (Hm0 : w_cpu_mapped w0 = 0).
    { rewrite Ew. cbn. rewrite (sh_mapped _ Hs), decide_True; [done|].
      pose proof (sh_ranks _ Hs h 0 Hh ltac:(by vm_compute)) as H. rewrite Ep in H. cbn [rank] in H. lia. }
    destruct (vmem_alone h w0 w xs Hh Hm0 Ho (mo_kmem _ _ _ Hm) Hn) as ([Hmi Hm1 Hh1 Hl1] & _ & E). rewrite E.
    destruct (init_vmem_run w ∅ xs [] Hmi Hm1 Hh1 Hl1) as (x & w' & _ & _ & Hr & _). by exists x, w'.
  - destruct (decide (lead h = h)) as [El|El]; [|rewrite setup_job_next by done; apply Hret].
    rewrite setup_job_lead by done. cbn [jb_prog jb_need]. exists w0. intros w xs _ Hm Hn.
    edestruct (root_alone w0 (vm_of h) (devs_of h)) as (w' & _ & _ & _ & Hr & _); [by apply co_ok| | | |exact Hm|exact Hn|].
    + done.
    + done.
    + apply (vi_before _ _ _ _ _ (l_vm _ _ _ _ Hl h Hh) El). cbn. rewrite Ep. cbn. lia.
    + exists h, w'. by rewrite setup_prog_run, (bind_ok _ _ _ _ _ Hr).
Qed.

Lemma building_jobs φ m k all : let σ := fi_sys φ in inv (ghost m k σ) → (rank (sy_phase σ 0) ≠ 0)%nat →
  kmem_inv (lend m k (sy_world σ)) all → jobs_ok (lend m k (sy_world σ)) all (jobs φ).
Proof.
  intros σ Hinv H0 Hk. destruct (inv_late _ Hinv H0) as (tabs & fl & pages & Hl).
  assert (fl = all) as -> by by eapply late_all. pose proof (proj1 Hinv) as Hs. split.
  - exact Hk.
  - intros i j (h & Hh & -> & ->)%hart_index. destruct φ as [σ' b]. cbn [fi_sys] in σ. subst σ.
    eapply (job_succeeds σ' b h (lend m k (sy_world σ'))); [exact Hh|by destruct Hs; split|exact Hl|done].
  - intros i j (h & Hh & -> & ->)%hart_index. pose proof (job_need φ h) as Hn. pose proof co_need as Hc.
    unfold need_left in Hn. fold σ in Hn.
    assert (Hv : (vm_share h <= vm_share 0%Z + vm_share 1%Z)%nat) by (destruct (is_hart_cases h Hh) as [->| ->]; lia).
    assert (Hq : (jb_need (job_of φ h) <= S kernel_need ∨ jb_need (job_of φ h) <= vm_share h)%nat).
    { unfold job_of. destruct (fi_build φ h); [|left; cbn; lia]. destruct (sy_phase (fi_sys φ) h); cbn [idle_job jb_need vmem_job]; try (left; first [apply Nat.le_refl|apply Nat.le_0_l]).
      right. unfold setup_job, vm_share. destruct (decide (lead h = h)); [apply Nat.le_refl|apply Nat.le_0_l]. }
    revert Hc Hv Hq. assert (Hp : (2 <= kernel_need)%nat) by (apply (bool_decide_unpack _); by vm_compute). revert Hp. generalize kernel_need. clear. lia.
  - intros i j a x (h & Hh & -> & ->)%hart_index (Hr & _)%job_static Hx Ha.
    eapply root_not_page; [by apply (co_ok h)|exact Hr|exact Hx|exact Ha].
  - intros i i' j j' a Hne (h & Hh & -> & ->)%hart_index (h' & Hh' & -> & ->)%hart_index (Hr & El & _)%job_static (Hr' & El' & _)%job_static.
    apply (co_roots h h' Hh Hh') with (2 := Hr) (3 := Hr'). apply lead_apart; try done. by apply hart_nat_inj.
  - pose proof (l_len _ _ _ _ Hl) as Hlen. pose proof (job_need φ 0) as H1. pose proof (job_need φ 1) as H2. fold σ in H1, H2.
    change (jb_need (job_of φ 0) + (jb_need (job_of φ 1) + 0) <= length all)%nat. cbn [ghost with_memory sy_phase] in Hlen. lia.
Qed.

(** While some harts build tables: [m] and [k] are the memory and the free list on
    which they have not begun, [all] its free pages. *)
Record busy φ m k all fl : Prop := {
  bz_inv : inv (ghost m k (fi_sys φ));
  bz_late : (rank (sy_phase (fi_sys φ) 0) ≠ 0)%nat;
  bz_kmem : kmem_inv (lend m k (sy_world (fi_sys φ))) all;
  bz_jinv : jinv (lend m k (sy_world (fi_sys φ))) all (jobs φ) (sy_world (fi_sys φ)) (clients φ) fl;
  bz_begun h c : is_hart h → fi_build φ h = Some c → begun h (fi_sys φ)
}.

Lemma busy_jobs φ m k all fl : busy φ m k all fl → jobs_ok (lend m k (sy_world (fi_sys φ))) all (jobs φ).
Proof. intros B. apply building_jobs; apply B. Qed.

(** When nobody does, the machine is one the invariant holds of. *)
Lemma busy_quiet φ m k all fl : busy φ m k all fl → (∀ h, is_hart h → fi_build φ h = None) → inv (fi_sys φ).
Proof.
  intros B Hn. set (σ := fi_sys φ). pose proof (bz_jinv _ _ _ _ _ B) as J. pose proof (ji_kinv _ _ _ _ _ _ J) as K.
  assert (E0 : fi_build φ 0 = None) by (apply Hn; by vm_compute). assert (E1 : fi_build φ 1 = None) by (apply Hn; by vm_compute).
  assert (Ec : clients φ = [idle_client; idle_client]) by (unfold clients; by rewrite E0, E1).
  assert (Ej : jobs φ = [idle_job; idle_job]) by (unfold jobs, job_of; by rewrite E0, E1).
  rewrite Ec in K. destruct K as [[Klk _] Kfl Kram Kpg _]. cbn in Klk. cbn [fmap list_fmap idle_client cl_thread mbind list_bind has flight pc own app] in Kpg.
  rewrite app_nil_r in Kpg. fold σ in Klk, Kfl, Kram.
  rewrite <- (ghost_id σ). change (inv (ghost (w_mem (sy_world σ)) (w_kmem (sy_world σ)) (ghost m k σ))).
  apply (inv_amend (ghost m k σ) _ _ all fl); [apply B|apply B|apply B| |exact Kpg|].
  - change (kmem_inv (lend (w_mem (sy_world σ)) (w_kmem (sy_world σ)) (sy_world σ)) fl). rewrite lend_id.
    split; [done|]. split; [exact Kfl|]. split; [rewrite Kpg; apply (bz_kmem _ _ _ _ _ B)|].
    intros x Hx. apply Kram. by rewrite <- Kpg.
  - intros a Ha. apply (ji_frame _ _ _ _ _ _ J a Ha). rewrite Ej. intros j Hj. rewrite !elem_of_cons in Hj.
    destruct Hj as [->|[->|[]%not_elem_of_nil]]; apply idle_static.
Qed.

(** The tables that are finished are the same in both memories. *)
Lemma busy_agree φ m k all fl tabs pages : busy φ m k all fl → late (ghost m k (fi_sys φ)) tabs all pages →
  agree_tabs tabs m (w_mem (sy_world (fi_sys φ))).
Proof.
  intros B Hl u i a Hu Ha. symmetry. apply (ji_frame _ _ _ _ _ _ (bz_jinv _ _ _ _ _ B)); [by eapply table_not_free|].
  intros j (n & (h & Hh & -> & ->)%hart_index)%list_elem_of_lookup (Hr & El & Ep)%job_static.
  destruct (root_unused h _ _ _ _ a Hl Hh El) as [_ Hu']; [cbn; rewrite Ep; cbn; lia|exact Hr|]. by apply (Hu' u i).
Qed.

Lemma lend_back m k w : lend (w_mem w) (w_kmem w) (lend m k w) = w.
Proof. exact (lend_id w). Qed.

Lemma busy_late φ m k all fl : busy φ m k all fl → ∃ tabs pages, late (ghost m k (fi_sys φ)) tabs all pages.
Proof.
  intros B. destruct (inv_late _ (bz_inv _ _ _ _ _ B) (bz_late _ _ _ _ _ B)) as (tabs & fl' & pages & Hl).
  exists tabs, pages. rewrite <- (late_all _ _ _ _ _ Hl (bz_kmem _ _ _ _ _ B)). exact Hl.
Qed.

(** So what holds of a hart on the one machine holds on the other. *)
Lemma busy_hart φ m k all fl tabs pages h xs p w' : busy φ m k all fl → late (ghost m k (fi_sys φ)) tabs all pages →
  let w := sy_world (fi_sys φ) in pt_inv (w_mem w) tabs ∧
  (hart_inv h (lend m k w) xs p tabs → hart_inv h w xs p tabs) ∧
  (w_mem w' = w_mem w → hart_inv h w' xs p tabs → hart_inv h (lend m k w') xs p tabs).
Proof.
  intros B Hl w. pose proof (busy_agree _ _ _ _ _ _ _ B Hl) as Hag. fold w in Hag.
  destruct (l_mem _ _ _ _ Hl) as (data & _ & Hmi). pose proof (mi_pt _ _ _ _ Hmi) as Hpt.
  assert (Hpt' : pt_inv (w_mem w) tabs) by (eapply pt_inv_frame; [exact Hpt|exact Hag]). split; [exact Hpt'|]. split.
  - intros Hi. rewrite <- (lend_back m k w). apply (hart_inv_spared h (lend m k w) tabs); [|by rewrite lend_back|done|exact Hi].
    by apply spared_lend.
  - intros Em Hi. apply (hart_inv_spared h w' tabs); [|exact Hpt|done|exact Hi]. apply spared_lend; [by rewrite Em|].
    intros u i a Hu Ha. rewrite Em. symmetry. by apply (Hag u i).
Qed.

(** ** Steps while tables are being built *)

Lemma clients_upd σ σ' b h c : is_hart h →
  clients (mk_fine σ' (upd_hart h c b)) = <[Z.to_nat h := default idle_client c]> (clients (mk_fine σ b)).
Proof.
  intros Hh. apply (hart_insert _ (λ h, default idle_client (b h)) (λ h', default idle_client (upd_hart h c b h'))); [done|by rewrite upd_hart_eq|].
  intros h' Hne. by rewrite upd_hart_ne.
Qed.
Lemma jobs_upd σ σ' b b' h : is_hart h → (∀ h', h' ≠ h → b' h' = b h' ∧ sy_phase σ' h' = sy_phase σ h') →
  jobs (mk_fine σ' b') = <[Z.to_nat h := job_of (mk_fine σ' b') h]> (jobs (mk_fine σ b)).
Proof.
  intros Hh Hs. apply (hart_insert _ (job_of (mk_fine σ b)) (job_of (mk_fine σ' b'))); [done|done|].
  intros h' Hne. unfold job_of. cbn [fi_build fi_sys]. by destruct (Hs h' Hne) as [-> ->].
Qed.
Lemma jobs_same σ σ' b b' h : is_hart h → (∀ h', h' ≠ h → b' h' = b h' ∧ sy_phase σ' h' = sy_phase σ h') →
  job_of (mk_fine σ' b') h = job_of (mk_fine σ b) h → jobs (mk_fine σ' b') = jobs (mk_fine σ b).
Proof. intros Hh Hs E. rewrite (jobs_upd σ σ' b b' h), E by done. apply list_insert_id. exact (hart_lookup _ (job_of _) h Hh). Qed.

(** An access to memory. *)
Lemma busy_access σ b h c c' w m k all fl : busy (mk_fine σ b) m k all fl → is_hart h → b h = Some c →
  client_access c (sy_world σ) = Ok c' w → ∃ fl', busy (mk_fine (with_memory w σ) (upd_hart h (Some c') b)) m k all fl'.
Proof.
  intros B Hh Hb Ha. pose proof (only_client_access c _ _ _ Ha) as Ho.
  assert (Hi : clients (mk_fine σ b) !! Z.to_nat h = Some c).
  { etransitivity; [exact (hart_lookup _ (λ h, default idle_client (b h)) h Hh)|]. cbn. by rewrite Hb. }
  destruct (jinv_step _ _ _ (busy_jobs _ _ _ _ _ B) _ _ _ _ _ (bz_jinv _ _ _ _ _ B) (V_access _ _ _ _ _ _ Hi Ha)) as (fl' & J).
  exists fl'. assert (Ej : jobs (mk_fine (with_memory w σ) (upd_hart h (Some c') b)) = jobs (mk_fine σ b)).
  { apply (jobs_same _ _ _ _ h Hh); [intros h' Hne; by rewrite upd_hart_ne|]. unfold job_of. cbn [fi_build fi_sys]. by rewrite upd_hart_eq, Hb. }
  assert (Eg : lend m k w = lend m k (sy_world σ)) by by apply lend_only. split; cbn [fi_sys].
  - unfold ghost. change (sy_world (with_memory w σ)) with w. rewrite Eg. apply B.
  - apply B.
  - change (sy_world (with_memory w σ)) with w. rewrite Eg. apply B.
  - change (sy_world (with_memory w σ)) with w. rewrite Eg, Ej, (clients_upd σ) by done. exact J.
  - intros h' c0 Hh' Hb'. cbn [fi_build] in Hb'. assert (Hs : ∃ c1, b h' = Some c1).
    { destruct (decide (h' = h)) as [->|Hne]; [by exists c|]. rewrite upd_hart_ne in Hb' by done. by exists c0. }
    destruct Hs as [c1 Hc1]. destruct (bz_begun _ _ _ _ _ B h' c1 Hh' Hc1) as [Hp Hat]. destruct Ho as (m' & k' & ->). by split.
Qed.

(** A step of a hart that builds nothing and leaves memory alone. *)
Lemma inv_quiet h σ w xs p : inv σ → is_hart h → (4 < rank (sy_phase σ h) <= rank p)%nat → passes h σ p →
  quiet_for h (sy_world σ) w → w_config w = w_config (sy_world σ) → w_cpu_mapped w = w_cpu_mapped (sy_world σ) →
  length (w_cpus w) = 2%nat → length (w_vcpus w) = 2%nat →
  (∀ tabs fl pages, late σ tabs fl pages → hart_inv h w xs p tabs) → inv (after_world h w xs p σ).
Proof.
  intros Hinv Hh [H4 Hr] Hp Hq Ec Em Hcl Hvl Hi. pose proof (proj1 Hinv) as Hs.
  destruct (inv_running_late h σ Hinv Hh H4) as (tabs & fl & pages & Hl).
  assert (Hn : ∀ q, (4 < rank q)%nat → need_left h q = 0%nat) by (intros q Hq'; unfold need_left; by rewrite !decide_False by lia).
  destruct (late_quiet h σ (set_world w (sy_machine σ)) xs p tabs fl pages) as (pages' & Hl');
    [done|done|done|exact Hq|done|by rewrite !Hn by lia|intros (_ & ? & _); lia|by eapply Hi|].
  assert (H0 : (4 <= rank (sy_phase σ 0))%nat).
  { destruct (decide (rank (sy_phase σ 0) <= 3)%nat) as [H|]; [|lia]. pose proof (sh_ranks _ Hs 0 h ltac:(by vm_compute) Hh H). lia. }
  eapply inv_late_intro; [|apply rank0_after; lia|exact Hl'].
  apply shared_same; try done. intros ->. right. lia.
Qed.

Lemma begun_moves h h' σ w xs p : h' ≠ h → begun h' σ → (rank (sy_phase σ h) <= rank p)%nat →
  w_config w = w_config (sy_world σ) → w_vcpus w !! Z.to_nat h' = w_vcpus (sy_world σ) !! Z.to_nat h' →
  w_csr w !! (h', sscratch) = w_csr (sy_world σ) !! (h', sscratch) → begun h' (after_world h w xs p σ).
Proof.
  intros Hne [Hp Hat] Hr Ec Ev Es. split.
  - intros h2 Hh2. cbn [after_world after sy_phase sy_world sy_machine m_world set_world]. rewrite upd_hart_ne, Ec by done. intros H5.
    specialize (Hp h2 Hh2 H5). destruct (decide (h2 = h)) as [->|]; [rewrite upd_hart_eq; lia|by rewrite upd_hart_ne].
  - cbn [after_world after sy_phase sy_world sy_machine m_world set_world]. by rewrite upd_hart_ne, Ev, Es by done.
Qed.

Lemma busy_move σ b h w xs p m k all fl : busy (mk_fine σ b) m k all fl → is_hart h → b h = None →
  (rank (sy_phase σ h) <= rank p)%nat → quiet_for h (sy_world σ) w → w_config w = w_config (sy_world σ) →
  inv (ghost m k (after_world h w xs p σ)) → busy (mk_fine (after_world h w xs p σ) b) m k all fl.
Proof.
  intros B Hh Hb Hr Hq Ec Hinv. destruct (qf_mem _ _ _ Hq) as [Em Ek]. split; cbn [fi_sys].
  - exact Hinv.
  - apply rank0_after; [apply (bz_late _ _ _ _ _ B)|exact Hr].
  - exact (bz_kmem _ _ _ _ _ B).
  - rewrite (jobs_same σ _ b b h Hh).
    + by apply (jinv_ext (lend m k (sy_world σ)) _ _ _ (sy_world σ)); [..|exact (bz_jinv _ _ _ _ _ B)].
    + intros h' Hne. cbn. by rewrite upd_hart_ne.
    + unfold job_of. cbn [fi_build]. by rewrite Hb.
  - intros h' c Hh' Hc. cbn [fi_build] in Hc. assert (Hne : h' ≠ h) by congruence.
    apply begun_moves; [done|by eapply (bz_begun _ _ _ _ _ B)|done|done| |by apply Hq].
    apply Hq. by apply is_hart_nat.
Qed.

(** Beside a hart that builds a table another one is before the next barrier, or in
    or after vm_start. *)
Lemma beside σ h h' q tabs fl pages : is_hart h → is_hart h' → begun h' σ → shared σ → late σ tabs fl pages →
  build_begin (D:=D) (U:=U) (X:=X) (sy_phase σ h) = None → sy_phase σ h = q →
  q = PMapped ∧ ¬ may_pass h σ ∨ (4 < rank q)%nat.
Proof.
  intros Hh Hh' [Hpass Hat] Hs Hl Hbb <-. pose proof (hi_panic _ _ _ _ _ (l_hart _ _ _ _ Hl h Hh)) as Hpn.
  specialize (Hpass h Hh). destruct Hat as [Ep|[Ep _]]; rewrite Ep in Hpass; cbn [rank] in Hpass; specialize (Hpass ltac:(lia)).
  - pose proof (sh_ranks _ Hs h' h Hh' Hh) as Hr. rewrite Ep in Hr. cbn [rank] in Hr. specialize (Hr ltac:(lia)).
    left. destruct (sy_phase σ h) as [| | | | | | | |n] eqn:E; cbn [rank] in *; try lia; try done.
    + split; [done|]. intros Hq. specialize (Hq h' Hh'). rewrite E, Ep in Hq. cbn [rank] in Hq. lia.
    + specialize (Hpn n eq_refl). lia.
  - right. destruct (sy_phase σ h) as [| | | | | | | |n] eqn:E; cbn [rank] in *; try lia; try done.
    rewrite (Hpn n eq_refl). lia.
Qed.

(** What a guest reaches lies in no root table, built or not. *)
Lemma reach_not_root h h' σ tabs fl pages p : is_hart h → is_hart h' → late σ tabs fl pages →
  (4 < rank (sy_phase σ (lead h)))%nat → reach h (pages (lead h)) p → ¬ in_root (vm_of h') p.
Proof.
  intros Hh Hh' Hl Hr (a & gpa & Ht). pose proof (gs_pages _ _ _ _ (late_space h σ tabs fl pages Hh Hl Hr)) as Hpg.
  destruct (guest_translation_cases _ _ _ _ _ _ (co_ok h Hh) Hpg Ht) as [(x & Hx & Hin)|Hf]; [|by apply (co_fixed h h' p Hh Hh' Hf)].
  rewrite Forall_forall in Hpg. destruct (valid_address_pa x (Hpg x Hx)) as (_ & ? & _).
  destruct (vm_root _ _ (co_ok h' Hh')) as (_ & _ & Hd & _). unfold in_root. lia.
Qed.

Section one.
Context (σ : sys) (b : Z → option client) (m : ram) (k : kmem_state) (all fl : list Z).
Context (B : busy (mk_fine σ b) m k all fl) (h : Z) (Hh : is_hart h) (Hb : b h = None) (H4 : (4 < rank (sy_phase σ h))%nat).

Lemma busy_shared : w_cpu_mapped (sy_world σ) = 1 ∧ w_config (sy_world σ) = barred vm_table ∧
  length (w_cpus (sy_world σ)) = 2%nat ∧ length (w_vcpus (sy_world σ)) = 2%nat.
Proof.
  pose proof (proj1 (bz_inv _ _ _ _ _ B)) as Hs. cbn [fi_sys] in Hs.
  destruct (booted_shared h _ Hh Hs) as [E1 E2]; [exact H4|]. split; [exact E1|]. split; [exact E2|].
  split; [exact (sh_cpus _ Hs)|exact (sh_vcpus _ Hs)].
Qed.

(** The step of a hart past vm_setup that leaves memory alone. *)
Lemma busy_beyond w xs p : (rank (sy_phase σ h) <= rank p)%nat → passes h (ghost m k σ) p → quiet_for h (sy_world σ) w →
  w_config w = w_config (sy_world σ) → w_cpu_mapped w = w_cpu_mapped (sy_world σ) → w_cpus w = w_cpus (sy_world σ) →
  length (w_vcpus w) = length (w_vcpus (sy_world σ)) →
  (∀ tabs, pt_inv (w_mem (sy_world σ)) tabs → root_ptr tabs (vm_pgtable (vm_of h)) (root_of (vm_of h)) 1 ∨ (rank (sy_phase σ h) <= 5)%nat →
     hart_inv h (sy_world σ) (sy_xr σ h) (sy_phase σ h) tabs → hart_inv h w xs p tabs) →
  busy (mk_fine (after_world h w xs p σ) b) m k all fl.
Proof.
  intros Hr Hp Hq Ec Em Ecp Evc Hi. destruct busy_shared as (_ & _ & Hcl & Hvl). apply busy_move; try done.
  change (inv (after_world h (lend m k w) xs p (ghost m k σ))). destruct (qf_mem _ _ _ Hq) as [Ewm _].
  apply inv_quiet; [apply (bz_inv _ _ _ _ _ B)|exact Hh|done|exact Hp| |exact Ec|exact Em|by rewrite <- Hcl, <- Ecp|by rewrite <- Hvl, <- Evc|].
  - destruct Hq as [_ H2 H3 H5]. by split.
  - intros tabs fl' pages Hl. assert (fl' = all) as -> by exact (late_all _ _ _ _ _ Hl (bz_kmem _ _ _ _ _ B)).
    destruct (busy_hart _ _ _ _ _ _ _ h xs p w B Hl) as (Hpt & _ & Hback). apply Hback; [exact Ewm|].
    destruct (busy_hart _ _ _ _ _ _ _ h (sy_xr σ h) (sy_phase σ h) w B Hl) as (_ & Hthere & _).
    apply Hi; [exact Hpt| |apply Hthere, (l_hart _ _ _ _ Hl h Hh)].
    destruct (decide (rank (sy_phase σ h) <= 5)%nat); [by right|left].
    apply (gs_root _ _ _ _ (late_space h _ _ _ _ Hh Hl (sh_lead _ (proj1 (bz_inv _ _ _ _ _ B)) h Hh ltac:(cbn; lia)))).
Qed.

Lemma passes_on p : (5 < rank (sy_phase σ h))%nat → (rank (sy_phase σ h) <= rank p)%nat → passes h (ghost m k σ) p.
Proof.
  intros H5 Hr. pose proof (proj1 (bz_inv _ _ _ _ _ B)) as Hs. split.
  - intros h' Hh' H3. pose proof (sh_ranks _ Hs h' h Hh' Hh H3). cbn in *. lia.
  - intros _. by apply (sh_lead _ Hs).
Qed.

Lemma busy_real : ∃ tabs, pt_inv (w_mem (sy_world σ)) tabs ∧ hart_inv h (sy_world σ) (sy_xr σ h) (sy_phase σ h) tabs ∧
  ((5 < rank (sy_phase σ h))%nat → root_ptr tabs (vm_pgtable (vm_of h)) (root_of (vm_of h)) 1).
Proof.
  destruct (busy_late _ _ _ _ _ B) as (tabs & pages & Hl). exists tabs.
  destruct (busy_hart _ _ _ _ _ _ _ h (sy_xr σ h) (sy_phase σ h) (sy_world σ) B Hl) as (Hpt & Hthere & _).
  split; [exact Hpt|]. split; [apply Hthere, (l_hart _ _ _ _ Hl h Hh)|]. intros H5.
  apply (gs_root _ _ _ _ (late_space h _ _ _ _ Hh Hl (sh_lead _ (proj1 (bz_inv _ _ _ _ _ B)) h Hh H5))).
Qed.

(** vm_start *)
Lemma busy_start i : sy_phase σ h = PStart i → may_pass h σ →
  ∃ w, run_segment h σ (on_world (vm_start i) ;; mret PEnter) = Ok PEnter (set_world w (sy_machine σ)) ∧
    busy (mk_fine (after_world h w (sy_xr σ h) PEnter σ) b) m k all fl.
Proof.
  intros Ep Hpass. destruct busy_shared as (Em & Ec & _). destruct busy_real as (tabs & _ & Hi & _).
  assert (i = h) as -> by by apply (hi_start _ _ _ _ _ Hi). rewrite Ep in Hi.
  destruct (start_hart h _ _ _ Hh Ec Hi) as (cs & Hrun & Hcs & _). exists (set_csr cs (on_hart h (sy_world σ))).
  split; [by apply (run_on_world h σ (vm_start h) (λ _, mret PEnter) tt)|].
  apply busy_beyond; try done.
  - rewrite Ep. cbn. lia.
  - apply pass_rank; [done|apply (bz_inv _ _ _ _ _ B)|exact Hpass|]. cbn. by rewrite Ep.
  - intros tabs' _ _ Hi'. rewrite Ep in Hi'. destruct (start_hart h _ _ _ Hh Ec Hi') as (cs' & Hrun' & _ & H).
    rewrite Hrun in Hrun'. by injection Hrun' as ->.
Qed.

(** vm_enter *)
Lemma busy_enter : sy_phase σ h = PEnter → ∃ s, vm_enter (hart_of h σ) = Ok (csr_of h sepc (sy_world σ)) s ∧
  (∀ n, (0 < n < 32)%nat → xr s n = get_reg (Z.of_nat n) (fresh_vcpu (vm_slot h) (vhart h))) ∧
  guest_ready h (vm_of h) (vm_slot h) (vhart h) (sy_world σ) ∧
  busy (mk_fine (after_world h (hw s) (xr s) PGuest σ) b) m k all fl.
Proof.
  intros Ep. destruct busy_shared as (Em & Ec & _). destruct busy_real as (tabs & Hpt & Hi & Hr). rewrite Ep in Hi, Hr.
  destruct (enter_hart h _ _ _ Hh Em Ec Hi Hpt (Hr ltac:(cbn; lia))) as (s & Hrun & Ew & Hx & Hrd & _).
  exists s. split; [exact Hrun|]. split; [exact Hx|]. split; [exact Hrd|]. rewrite Ew. apply busy_beyond; try done.
  - rewrite Ep. cbn. lia.
  - apply passes_on; rewrite Ep; cbn; lia.
  - intros tabs' Hpt' [Hr'|Hr'] Hi'; [|rewrite Ep in Hr'; cbn in Hr'; lia]. rewrite Ep in Hi'.
    destruct (enter_hart h _ _ _ Hh Em Ec Hi' Hpt' Hr') as (s' & Hrun' & _ & _ & _ & H). rewrite Hrun in Hrun'. by injection Hrun' as ->.
Qed.

(** Traps *)
Lemma busy_trap cs clobber : sy_phase σ h = PGuest → csr_change h trap_csrs (w_csr (sy_world σ)) cs →
  0 <= default 0 (cs !! (h, scause)) < 2 ^ 64 →
  match hstrapvec clobber (trapped h cs σ) with
  | Ok _ s => busy (mk_fine (after_world h (hw s) (xr s) PGuest σ) b) m k all fl
  | Panic _ s => busy (mk_fine (after_world h (hw s) (xr s) (PPanic 7) σ) b) m k all fl
  | _ => False
  end.
Proof.
  intros Ep Hcs Hca. destruct busy_real as (tabs & _ & Hi & _). rewrite Ep in Hi.
  pose proof (trap_hart h _ _ _ cs clobber Hi Hcs Hca) as H.
  assert (Hall : ∀ tabs', hart_inv h (sy_world σ) (sy_xr σ h) (sy_phase σ h) tabs' → match hstrapvec clobber (trapped h cs σ) with
    | Ok _ s => hart_inv h (hw s) (xr s) PGuest tabs'
    | Panic _ s => hart_inv h (hw s) (xr s) (PPanic 7) tabs' | _ => True end).
  { intros tabs' Hi'. rewrite Ep in Hi'. pose proof (trap_hart h _ _ _ cs clobber Hi' Hcs Hca) as H'. unfold trapped.
    destruct (hstrapvec clobber _); [apply H'|apply H'|done|done]. }
  change (mk_hart (sy_xr σ h) (set_csr cs (on_hart h (sy_world σ)))) with (trapped h cs σ) in H.
  destruct (hstrapvec clobber (trapped h cs σ)) as [pc s|e s| |]; [..|done|done]; destruct H as [_ F];
    destruct (tf_config _ _ _ F) as (E1 & E2 & E3);
    (apply busy_beyond; [by rewrite Ep|apply passes_on; rewrite Ep; cbn; lia|by apply frame_quiet|done|done|done|apply F|auto]).
Qed.

(** The guest's translation, and what it reaches. *)
Lemma busy_guest_pa a gpa : (5 < rank (sy_phase σ h))%nat → guest_pa h σ a gpa = guest_pa h (ghost m k σ) a gpa.
Proof.
  intros H5. destruct (busy_late _ _ _ _ _ B) as (tabs & pages & Hl). unfold guest_pa.
  change (csr_of h hgatp (sy_world (ghost m k σ))) with (csr_of h hgatp (sy_world σ)).
  assert (E : hgatp_root (csr_of h hgatp (sy_world σ)) = root_of (vm_of h))
    by exact (hi_hgatp _ _ _ _ _ (l_hart _ _ _ _ Hl h Hh) H5). rewrite E.
  pose proof (proj1 (gs_root _ _ _ _ (late_space h _ _ _ _ Hh Hl (sh_lead _ (proj1 (bz_inv _ _ _ _ _ B)) h Hh H5)))) as Hr.
  pose proof (busy_agree _ _ _ _ _ _ _ B Hl) as Hag. destruct (l_mem _ _ _ _ Hl) as (data & _ & Hmi).
  pose proof (mi_pt _ _ _ _ Hmi) as Hpt. rewrite (hw_translate_look (sy_world σ) tabs), (hw_translate_look (sy_world (ghost m k σ)) tabs);
    [|exact Hpt|exact Hr|eapply pt_inv_frame; [exact Hpt|exact Hag]|exact Hr].
  f_equal. eapply pt_look_frame; [exact Hpt|exact Hag|]. apply root_path; [exact Hr|apply vpn_range].
Qed.

Lemma busy_reach a gpa p : (5 < rank (sy_phase σ h))%nat → guest_pa h σ a gpa = Some p →
  ¬ in_pages all p ∧ (∀ j, j ∈ jobs (mk_fine σ b) → ¬ static j p).
Proof.
  intros H5. rewrite busy_guest_pa by done. destruct (busy_late _ _ _ _ _ B) as (tabs & pages & Hl).
  pose proof (proj1 (bz_inv _ _ _ _ _ B)) as Hs. cbn [fi_sys] in Hl, Hs. rewrite (late_translates h _ tabs all pages a gpa Hs Hl Hh H5).
  intros Ht. assert (Hre : reach h (pages (lead h)) p) by by exists a, gpa. pose proof (sh_lead _ Hs h Hh H5) as Hld. split.
  - intros (x & Hx & Hxp). destruct (reach_own h _ _ _ _ p Hh Hl Hld Hre) as [_ Hf]. by apply (Hf x Hx).
  - intros j (n & (h' & Hh' & -> & ->)%hart_index)%list_elem_of_lookup (Hr & _)%job_static.
    by eapply (reach_not_root h h').
Qed.

(** The other memory after the guest wrote [m']. *)
Definition written m' : ram := filter (λ ab, m' !! ab.1 ≠ w_mem (sy_world σ) !! ab.1) m' ∪ m.
Lemma lookup_written m' a : (is_Some (m' !! a) ↔ is_Some (w_mem (sy_world σ) !! a)) →
  written m' !! a = if decide (m' !! a = w_mem (sy_world σ) !! a) then m !! a else m' !! a.
Proof.
  intros Hd. unfold written. rewrite lookup_union. destruct (decide _) as [E|E].
  - rewrite (proj2 (map_lookup_filter_None _ _ _)); [by destruct (m !! a)|]. right. intros x _ Hn. exact (Hn E).
  - destruct (m' !! a) as [x|] eqn:Ex.
    + rewrite (proj2 (map_lookup_filter_Some _ _ a x)); [by destruct (m !! a)|]. split; [done|]. cbn [fst]. by rewrite Ex.
    + destruct (w_mem (sy_world σ) !! a) as [y|] eqn:Ey; [|done]. destruct (proj2 Hd ltac:(by exists y)) as [? ?]. done.
Qed.

Lemma busy_guest xs m' cs : sy_phase σ h = PGuest → (∀ n, (0 < n < 32)%nat → 0 <= xs n < 2 ^ 64) →
  guest_writes (w_mem (sy_world σ)) m' (hgatp_root (csr_of h hgatp (sy_world σ))) →
  csr_change h guest_csrs (w_csr (sy_world σ)) cs →
  busy (mk_fine (after_world h (set_csr cs (set_mem m' (sy_world σ))) xs PGuest σ) b) (written m') k all fl.
Proof.
  intros Ep Hx [Hdom Hw] Hcs. assert (H5 : (5 < rank (sy_phase σ h))%nat) by (rewrite Ep; cbn; lia).
  pose proof (bz_jinv _ _ _ _ _ B) as J. cbn [fi_sys] in J.
  assert (Hch : ∀ a, m' !! a ≠ w_mem (sy_world σ) !! a → ¬ in_pages all a ∧ (∀ j, j ∈ jobs (mk_fine σ b) → ¬ static j a) ∧
    w_mem (sy_world σ) !! a = m !! a).
  { intros a Ha. destruct (Hw a Ha) as (gpa & Ht). destruct (busy_reach AWrite gpa a H5 Ht) as [H1 H2].
    split; [done|]. split; [done|]. by apply (ji_frame _ _ _ _ _ _ J a). }
  assert (Hin : ∀ a, in_pages all a ∨ (∃ j, j ∈ jobs (mk_fine σ b) ∧ static j a) →
    m' !! a = w_mem (sy_world σ) !! a ∧ written m' !! a = m !! a).
  { intros a Ha. rewrite (lookup_written m' a (Hdom a)). destruct (decide _) as [E|E]; [done|]. exfalso.
    destruct (Hch a E) as (H1 & H2 & _). destruct Ha as [Ha|(j & Hj & Ha)]; [done|by apply (H2 j Hj)]. }
  assert (Hgw : guest_writes m (written m') (hgatp_root (csr_of h hgatp (sy_world (ghost m k σ))))).
  { split; intros a; rewrite (lookup_written m' a (Hdom a)).
    - destruct (decide _) as [E|E]; [done|]. destruct (Hch a E) as (_ & _ & <-). apply Hdom.
    - destruct (decide _) as [E|E]; [done|]. intros _. destruct (Hw a E) as (gpa & Ht). exists gpa.
      rewrite <- Ht. symmetry. exact (busy_guest_pa AWrite gpa H5). }
  pose proof (inv_guest h (ghost m k σ) xs (written m') cs (bz_inv _ _ _ _ _ B) Hh Ep Hx Hgw Hcs) as Hinv. split; cbn [fi_sys].
  - exact Hinv.
  - apply rank0_after; [apply (bz_late _ _ _ _ _ B)|by rewrite Ep].
  - change (kmem_inv (lend (written m') k (sy_world σ)) all). destruct (bz_kmem _ _ _ _ _ B) as (K1 & K2 & K3 & K4).
    split; [exact K1|]. split; [|split; [exact K3|]].
    + eapply is_freelist_frame; [exact K2|]. intros x Hx' a Ha. symmetry. apply Hin. left. exists x. split; [done|]. unfold in_page, PAGE_SIZE. lia.
    + intros x Hx' a Ha. cbn. rewrite (proj2 (Hin a ltac:(left; by exists x))). by apply (K4 x Hx').
  - rewrite (jobs_same σ _ b b h Hh).
    + apply (jinv_ext (lend (written m') k (sy_world σ)) _ _ _ (set_mem m' (sy_world σ))); [done..|].
      apply (jinv_elsewhere (lend m k (sy_world σ))); [exact J|exact Hin|]. intros a H1 H2. cbn. rewrite (lookup_written m' a (Hdom a)).
      destruct (decide _) as [->|]; [|done]. by apply (ji_frame _ _ _ _ _ _ J a).
    + intros h' Hne. cbn. by rewrite upd_hart_ne.
    + unfold job_of. cbn [fi_build]. by rewrite Hb.
  - intros h' c Hh' Hc. cbn [fi_build] in Hc. assert (Hne : h' ≠ h) by congruence.
    apply begun_moves; [done|by eapply (bz_begun _ _ _ _ _ B)|by rewrite Ep|done|done|by eapply other_change].
Qed.
End one.

Lemma busy_beside σ b h h' c m k all fl : busy (mk_fine σ b) m k all fl → is_hart h' → b h' = Some c →
  is_hart h → build_begin (D:=D) (U:=U) (X:=X) (sy_phase σ h) = None →
  (4 < rank (sy_phase σ h))%nat ∨ sy_phase σ h = PMapped ∧ ¬ may_pass h σ.
Proof.
  intros B Hh' Hc Hh Hbb. destruct (busy_late _ _ _ _ _ B) as (tabs & pages & Hl). cbn [fi_sys] in Hl.
  pose proof (bz_begun _ _ _ _ _ B h' c Hh' Hc) as [Hp Hat].
  destruct (beside (ghost m k σ) h h' (sy_phase σ h) tabs all pages) as [[E Hn]|H]; [done|done|split; [exact Hp|exact Hat]|apply B|exact Hl|exact Hbb|done|by right|by left].
Qed.

(** A step of a hart beside those that build tables. *)
Lemma busy_hart_step σ b h h' c σ' m k all fl : busy (mk_fine σ b) m k all fl → is_hart h' → b h' = Some c →
  is_hart h → b h = None → build_begin (D:=D) (U:=U) (X:=X) (sy_phase σ h) = None → step boot_msg h σ σ' →
  ∃ m', busy (mk_fine σ' b) m' k all fl.
Proof.
  intros B Hh' Hc Hh Hb Hbb Hst. pose proof (busy_beside σ b h h' c m k all fl B Hh' Hc Hh Hbb) as H4.
  destruct H4 as [H4|[Ep Hn]].
  - inversion Hst as [? f p M Hs Hp Hr|? f e M Hs Hp Hr|? pcv s Ep Hr|? xs m' cs Ep Hx Hw Hcs|? cs clobber pcv s Ep Hcs Hca Hr|? cs clobber e s Ep Hcs Hca Hr]; subst.
    + destruct (sy_phase σ h) as [| | | | |i| | |] eqn:Ep; cbn in H4, Hs; try lia; try done. injection Hs as <-.
      destruct (busy_start σ b m k all fl B h Hh Hb ltac:(rewrite Ep; cbn; lia) i Ep Hp) as (w & Hr' & B'). rewrite Hr in Hr'. injection Hr' as -> ->. by exists m.
    + destruct (sy_phase σ h) as [| | | | |i| | |] eqn:Ep; cbn in H4, Hs; try lia; try done. injection Hs as <-.
      destruct (busy_start σ b m k all fl B h Hh Hb ltac:(rewrite Ep; cbn; lia) i Ep Hp) as (w & Hr' & B'). by rewrite Hr in Hr'.
    + destruct (busy_enter σ b m k all fl B h Hh Hb H4 Ep) as (s' & Hr' & _ & _ & B'). rewrite Hr in Hr'. injection Hr' as -> ->. by exists m.
    + eexists. by apply busy_guest.
    + pose proof (busy_trap σ b m k all fl B h Hh Hb H4 cs clobber Ep Hcs Hca) as H. rewrite Hr in H. by exists m.
    + pose proof (busy_trap σ b m k all fl B h Hh Hb H4 cs clobber Ep Hcs Hca) as H. rewrite Hr in H. by exists m.
  - inversion Hst; subst; try done; congruence.
Qed.

(** ** Begin *)

Lemma quiet_busy σ b : inv σ → (rank (sy_phase σ 0) ≠ 0)%nat → (∀ h, is_hart h → b h = None) →
  ∃ all, busy (mk_fine σ b) (w_mem (sy_world σ)) (w_kmem (sy_world σ)) all all.
Proof.
  intros Hinv H0 Hn. destruct (inv_late σ Hinv H0) as (tabs & all & pages & Hl). exists all.
  destruct (l_mem _ _ _ _ Hl) as (data & _ & Hmi). pose proof (mi_kmem _ _ _ _ Hmi) as Hk.
  assert (E0 : b 0 = None) by (apply Hn; by vm_compute). assert (E1 : b 1 = None) by (apply Hn; by vm_compute).
  assert (Hj : jobs_ok (sy_world σ) all (jobs (mk_fine σ b))).
  { pose proof (building_jobs (mk_fine σ b) (w_mem (sy_world σ)) (w_kmem (sy_world σ)) all) as H. cbn [fi_sys] in H.
    rewrite ghost_id, lend_id in H. by apply H. }
  pose proof (jinv_start _ _ _ Hj) as J.
  assert (Ej : jobs (mk_fine σ b) = [idle_job; idle_job]) by (unfold jobs, job_of; cbn [fi_build]; by rewrite E0, E1).
  assert (Ec : clients (mk_fine σ b) = start_clients (jobs (mk_fine σ b))) by (rewrite Ej; unfold clients; cbn [fi_build]; by rewrite E0, E1).
  rewrite <- Ec in J. split; cbn [fi_sys]; rewrite ?ghost_id, ?lend_id; [done|done|done|done|].
  intros h c Hh Hc. cbn [fi_build] in Hc. by rewrite Hn in Hc.
Qed.

(** The virtual CPU of hart [h], prepared. *)
Definition prepared h w : world D :=
  set_csr (<[(h, sscratch) := regs_addr h]> (w_csr w)) (set_vcpus (<[Z.to_nat h := fresh_vcpu (vm_slot h) (vhart h)]> (w_vcpus w)) w).
Definition setup_facts h w : Prop := cpu_ready w ∧ w_hart w = h ∧ config_loop (w_config w) 0 h = Some (vm_slot h) ∧
  w_config w !! vm_slot h = Some (vm_of h) ∧ ∃ v, w_vcpus w !! Z.to_nat h = Some v.

Lemma init_vcpu_prepares h w : setup_facts h w → init_vcpu h w = Ok tt (prepared h w).
Proof.
  intros (Hr & <- & Hlp & Hcf & v & Hv). pose proof Hr as (_ & Hh & _). unfold DTB_NR_CPUS in Hh.
  exact (init_vcpu_run w v (vm_slot (w_hart w)) (vm_of (w_hart w)) Hr ltac:(lia) Hv Hlp Hcf).
Qed.
Lemma prepared_vcpu h w : is_hart h → setup_facts h w → vcpu_get h (prepared h w) = Ok (fresh_vcpu (vm_slot h) (vhart h)) (prepared h w).
Proof.
  intros Hh (_ & _ & _ & _ & v & Hv). apply vcpu_get_ok; [apply Hh|]. apply list_lookup_insert_eq. by eapply lookup_lt_Some.
Qed.

Lemma begin_setup h σ : is_hart h → setup_facts h (on_hart h (sy_world σ)) → ∃ f,
  build_begin (D:=D) (U:=U) (X:=X) PSetup = Some f ∧
  run_segment h σ f = Ok (jb_prog (setup_job h)) (set_world (prepared h (on_hart h (sy_world σ))) (sy_machine σ)).
Proof.
  intros Hh Hf. eexists. split; [reflexivity|]. unfold run_segment, on_world, part. cbn [m_world set_world].
  pose proof Hf as (Hr & Eh & Hlp & Hcf & _).
  erewrite bind_ok by by apply get_hartid_ready. rewrite Eh. erewrite bind_ok by by apply init_vcpu_prepares.
  erewrite bind_ok by by apply prepared_vcpu. erewrite bind_ok by (apply (config_get_ok (vm_slot h) (vm_of h)); exact Hcf).
  cbn [fresh_vcpu vhartid].
  assert (E : (if vhart h =? 0 then init_hs_pgtable_acc (vm_of h) ;; mret h else mret h) = jb_prog (setup_job h)).
  { pose proof (vhart_lead h Hh) as Hv. destruct (decide (lead h = h)) as [E|E].
    - rewrite (setup_job_lead h E), jb_prog_mk, (proj2 (Z.eqb_eq _ _)) by (by apply Hv). reflexivity.
    - rewrite (setup_job_next h E), jb_prog_mk, (proj2 (Z.eqb_neq _ _)) by (by intros ?%Hv). reflexivity. }
  rewrite E. reflexivity.
Qed.
End invariant.
