(* ===== verification/SystemFineTheorems.v ===== *)
(** * SystemFineTheorems: the machine with page tables built access by access

    The last steps of SystemFine, the beginning and the end of a table, and what
    follows for every state the machine can reach. *)

From S2P Require Import Prelude Layout Bits Memory Machine Asm Lock Kmem Cpu Linkerscript Vmem PageTable VmemSpec Sv39 Plic Vcpu Vplic Trap VmRun VmemProg VmRunSpec Regions KernelSpace VplicSpec VmConfig Concrete KmemConc VmemConc VmemMerge KernelTheorems Sboot SbootTheorems VmRunTheorems VmemConcTheorems VplicTheorems TrapTheorems TrapEntry TrapEntryTheorems TrapShared Uart Printf PrintfTheorems Pci Main System Deployment SystemInv SystemSteps SystemTheorems SystemFine SystemFineInv.

Section steps.
Context {D U X : Type} {P : PlicDevice D} {L : Linker} {UD : UartDevice U} {UL : UartLaws U} {PB : PciBus X}.
Context `{!ImageOk L} {dp : Deployment} `{!DeploymentOk dp}.
#[local] Abbreviation sys := (system (D:=D) (U:=U) (X:=X)).
Implicit Types (σ : sys) (φ : fine D U X) (w : world D) (tabs : gmap Z tab) (fl pg : list Z) (h : Z) (m : ram) (k : kmem_state).

(** ** A hart begins to build *)

(** It stays where it is, and only its virtual CPU changes. *)
Lemma inv_prepare h σ w : inv σ → is_hart h → (rank (sy_phase σ 0) ≠ 0)%nat →
  (sy_phase σ h = PVmem ∧ w = on_hart h (sy_world σ)) ∨ (sy_phase σ h = PSetup ∧ w = prepared h (on_hart h (sy_world σ))) →
  inv (after_world h w (sy_xr σ h) (sy_phase σ h) σ).
Proof.
  intros Hinv Hh H0 Hw. destruct (inv_late σ Hinv H0) as (tabs & fl & pages & Hl). pose proof (proj1 Hinv) as Hs.
  assert (Hq : quiet_for h (sy_world σ) w).
  { destruct Hw as [[_ ->]|[_ ->]]; split; try done; cbn.
    - intros h' q Hne. by rewrite lookup_insert_ne by congruence.
    - intros i Hi. by rewrite list_lookup_insert_ne. }
  destruct (late_quiet h σ (set_world w (sy_machine σ)) (sy_xr σ h) (sy_phase σ h) tabs fl pages) as (pages' & Hl');
    [done|done|done|exact Hq| |done|intros (_ & ? & ?); lia| |].
  - intros _ _ _ _. by destruct Hw as [[_ ->]|[_ ->]].
  - pose proof (l_hart _ _ _ _ Hl h Hh) as Hi. destruct Hw as [[Ep ->]|[Ep ->]]; rewrite Ep in *.
    + by apply hart_inv_first; [cbn; lia|].
    + split; try (cbn [rank]; lia); try done. intros _.
      eapply (kernel_side_same h (sy_world σ)); [done|done| | |apply (hi_kernel _ _ _ _ _ Hi); cbn; lia]; cbn; by rewrite lookup_insert_ne.
  - eapply inv_late_intro; [|apply rank0_after; [done|lia]|exact Hl'].
    assert (Hp : (rank (sy_phase σ h) = 1 ∨ rank (sy_phase σ h) = 4)%nat) by (destruct Hw as [[-> _]|[-> _]]; cbn; lia).
    apply shared_same; try done.
    + split; [|lia]. intros h' Hh' H3. exact (sh_ranks _ Hs h' h Hh' Hh H3).
    + by destruct Hw as [[_ ->]|[_ ->]].
    + by destruct Hw as [[_ ->]|[_ ->]].
    + intros ->. lia.
    + destruct Hw as [[_ ->]|[_ ->]]; apply Hs.
    + destruct Hw as [[_ ->]|[_ ->]]; cbn; rewrite ?length_insert; apply Hs.
Qed.

Lemma may_pass_stay h h' σ w xs : w_config w = w_config (sy_world σ) → may_pass h' σ →
  may_pass h' (after_world h w xs (sy_phase σ h) σ).
Proof.
  intros Ec Hp. assert (E : ∀ h2, upd_hart h (sy_phase σ h) (sy_phase σ) h2 = sy_phase σ h2).
  { intros h2. destruct (decide (h2 = h)) as [->|]; [by rewrite upd_hart_eq|by rewrite upd_hart_ne]. }
  intros h2 Hh2. cbn [after_world after sy_phase sy_world sy_machine m_world set_world]. rewrite !E, Ec. by apply Hp.
Qed.

Lemma busy_begun σ b h w j m k all fl : busy (mk_fine σ b) m k all fl → is_hart h → b h = None → may_pass h σ →
  (sy_phase σ h = PVmem ∧ w = on_hart h (sy_world σ) ∧ j = vmem_job h) ∨
  (sy_phase σ h = PSetup ∧ w = prepared h (on_hart h (sy_world σ)) ∧ j = setup_job h ∧ ∃ v, w_vcpus (sy_world σ) !! Z.to_nat h = Some v) →
  busy (mk_fine (after_world h w (sy_xr σ h) (sy_phase σ h) σ) (upd_hart h (Some (start_client j)) b)) m k all fl.
Proof.
  intros B Hh Hb Hpass Hw. set (σ' := after_world h w (sy_xr σ h) (sy_phase σ h) σ). set (b' := upd_hart h (Some (start_client j)) b).
  assert (Ew : w_mem w = w_mem (sy_world σ) ∧ w_kmem w = w_kmem (sy_world σ) ∧ w_config w = w_config (sy_world σ))
    by by destruct Hw as [(_ & -> & _)|(_ & -> & _)].
  destruct Ew as (Em & Ek & Ec).
  assert (Hinv : inv (ghost m k σ')).
  { apply (inv_prepare h (ghost m k σ) (lend m k w)); [apply (bz_inv _ _ _ _ _ B)|exact Hh|apply (bz_late _ _ _ _ _ B)|].
    destruct Hw as [(Ep & -> & _)|(Ep & -> & _)]; [left|right]; by split. }
  assert (H0 : (rank (sy_phase σ' 0) ≠ 0)%nat) by (apply rank0_after; [apply (bz_late _ _ _ _ _ B)|done]).
  assert (Hk : kmem_inv (lend m k (sy_world σ')) all) by exact (bz_kmem _ _ _ _ _ B).
  assert (Eph : sy_phase σ' h = sy_phase σ h) by (cbn; by rewrite upd_hart_eq).
  assert (Ej : job_of (mk_fine σ' b') h = j).
  { unfold job_of. cbn [fi_build fi_sys]. unfold b'. rewrite upd_hart_eq, Eph. by destruct Hw as [(-> & _ & ->)|(-> & _ & -> & _)]. }
  assert (Ejs : jobs (mk_fine σ' b') = <[Z.to_nat h := j]> (jobs (mk_fine σ b))).
  { rewrite <- Ej. apply jobs_upd; [done|]. intros h' Hne. unfold b'. cbn. by rewrite !upd_hart_ne. }
  pose proof (building_jobs (mk_fine σ' b') m k all Hinv H0 Hk) as Hj. split; cbn [fi_sys]; [done|done|done| |].
  - rewrite Ejs. unfold b'. rewrite (clients_upd σ) by done.
    apply (jinv_ext (lend m k (sy_world σ)) _ _ _ (sy_world σ)); [done|exact Em|exact Ek|].
    apply jinv_begin; [apply (bz_jinv _ _ _ _ _ B)| | |].
    + etransitivity; [exact (hart_lookup _ (job_of (mk_fine σ b)) h Hh)|]. unfold job_of. cbn [fi_build]. by rewrite Hb.
    + etransitivity; [exact (hart_lookup _ (λ h, default idle_client (b h)) h Hh)|]. cbn. by rewrite Hb.
    + rewrite <- Ejs. destruct Hj as [K1 K2 K3 K4 K5 K6]. by split.
  - intros h' c Hh' Hc. cbn [fi_build] in Hc. unfold b' in Hc. destruct (decide (h' = h)) as [->|Hne].
    + split; [by apply may_pass_stay|]. rewrite Eph.
      destruct Hw as [(Ep & _)|(Ep & -> & _ & v & Hv)]; [by left|right]. split; [done|]. cbn. split; [|apply lookup_insert_eq].
      apply list_lookup_insert_eq. by eapply lookup_lt_Some.
    + rewrite upd_hart_ne in Hc by done. apply begun_moves; [done|by eapply (bz_begun _ _ _ _ _ B)|done|done|..].
      * destruct Hw as [(_ & -> & _)|(_ & -> & _)]; [done|]. cbn. by rewrite list_lookup_insert_ne by (by apply is_hart_nat).
      * destruct Hw as [(_ & -> & _)|(_ & -> & _)]; [done|]. cbn. by rewrite lookup_insert_ne by congruence.
Qed.

(** What the machine offers a hart in front of the two parts. *)
Lemma setup_given h σ : inv σ → (rank (sy_phase σ 0) ≠ 0)%nat → is_hart h → may_pass h σ → sy_phase σ h = PSetup →
  setup_facts h (on_hart h (sy_world σ)).
Proof.
  intros Hinv H0 Hh Hp Ep. destruct (inv_late σ Hinv H0) as (tabs & fl & pages & Hl).
  destruct (setup_ready h σ tabs fl pages Hh (proj1 Hinv) Hp Hl Ep) as (_ & H1 & H2 & H3 & H4). by split.
Qed.
Lemma vmem_given h σ : inv σ → is_hart h → sy_phase σ h = PVmem → w_cpu_mapped (sy_world σ) = 0.
Proof.
  intros [Hs _] Hh Ep. rewrite (sh_mapped _ Hs), decide_True; [done|].
  pose proof (sh_ranks _ Hs h 0 Hh ltac:(by vm_compute)) as H. rewrite Ep in H. cbn [rank] in H. lia.
Qed.

Lemma busy_begin σ b h f m k all fl : busy (mk_fine σ b) m k all fl → is_hart h → b h = None → may_pass h σ →
  build_begin (sy_phase σ h) = Some f →
  ∃ q w, run_segment h σ f = Ok q (set_world w (sy_machine σ)) ∧
    busy (mk_fine (after_world h w (sy_xr σ h) (sy_phase σ h) σ) (upd_hart h (Some (mk_client (mk_thread Idle []) q)) b)) m k all fl.
Proof.
  intros B Hh Hb Hp Hf. pose proof (bz_inv _ _ _ _ _ B) as Hinv. cbn [fi_sys] in Hinv.
  destruct (sy_phase σ h) eqn:Ep; try done.
  - pose proof (vmem_given h _ Hinv Hh Ep) as Hm. change (w_cpu_mapped (sy_world σ) = 0) in Hm. injection Hf as <-.
    exists (jb_prog (vmem_job h)), (on_hart h (sy_world σ)). split.
    + unfold vmem_job. rewrite jb_prog_mk. unfold run_segment, on_world, part. cbn [m_world set_world].
      by erewrite bind_ok by (by apply mycpu_boot).
    + rewrite <- Ep. apply (busy_begun σ b h _ (vmem_job h)); try done. by left.
  - pose proof (setup_given h _ Hinv (bz_late _ _ _ _ _ B) Hh Hp Ep) as Hfa. change (setup_facts h (on_hart h (sy_world σ))) in Hfa.
    destruct (begin_setup h σ Hh Hfa) as (f' & E & Hr). rewrite Hf in E. injection E as <-.
    exists (jb_prog (setup_job h)), (prepared h (on_hart h (sy_world σ))). split; [exact Hr|]. rewrite <- Ep.
    apply (busy_begun σ b h _ (setup_job h)); try done. right. destruct Hfa as (_ & _ & _ & _ & Hv). by split_and!.
Qed.

(** ** A hart has built its table *)

(** Commands that do not look at memory. *)
Definition lends {A} (c : cmd (world D) A) : Prop := ∀ m k w a w', c w = Ok a w' → c (lend m k w) = Ok a (lend m k w').
Lemma lends_bind {A B} (c : cmd (world D) A) (f : A → cmd (world D) B) : lends c → (∀ a, lends (f a)) → lends (c ≫= f).
Proof.
  intros Hc Hf m k w b w' (a & w1 & H1 & H2)%bind_ok_inv. rewrite (bind_ok _ _ _ _ _ (Hc m k _ _ _ H1)). by apply Hf.
Qed.
Lemma lends_CSRW q v : lends (CSRW q v).
Proof. by intros m k w a w' [= <- <-]. Qed.
Lemma lends_CSRR q : lends (CSRR q).
Proof. by intros m k w a w' [= <- <-]. Qed.
Lemma lends_init_hart x : lends (init_hart x).
Proof.
  unfold init_hart, CSRS, CSRC. repeat (apply lends_bind; [|intros ?]); try apply lends_CSRW; try apply lends_CSRR.
  - intros m k w r w'. unfold mycpu. cbn. by destruct (truthy _); intros [= <- <-].
  - by intros m k w r w' [= <- <-].
  - intros m k w r w'. unfold store_hartid.
    change (w_cpus (lend m k w)) with (w_cpus w). assert (E : ∀ p, cpu_index p (lend m k w) = cpu_index p w) by done. rewrite E.
    destruct (cpu_index _ w); [|done]. destruct (_ <? _)%nat; [|done]. by intros [= <- <-].
Qed.

(** What is left of [all] when a hart has taken its pages. *)
Lemma pages_rest φ m k all fl h c : busy φ m k all fl → is_hart h → fi_build φ h = Some c → pc (cl_thread c) = Idle →
  clients φ !! Z.to_nat h = Some c ∧ jobs φ !! Z.to_nat h = Some (job_of φ h) ∧ ∃ rest, own (cl_thread c) ++ rest ≡ₚ all.
Proof.
  intros B Hh Hc Ep. assert (Hi : clients φ !! Z.to_nat h = Some c).
  { etransitivity; [exact (hart_lookup _ (λ h, default idle_client (fi_build φ h)) h Hh)|]. cbn. by rewrite Hc. }
  split; [exact Hi|]. split; [exact (hart_lookup _ (job_of φ) h Hh)|].
  pose proof (ki_pages _ _ _ _ (ji_kinv _ _ _ _ _ _ (bz_jinv _ _ _ _ _ B))) as Hp.
  rewrite (has_split _ (Z.to_nat h) (cl_thread c)) in Hp by by rewrite list_lookup_fmap, Hi.
  unfold has at 1 in Hp. rewrite Ep in Hp. cbn [flight app] in Hp. eexists. rewrite <- Hp. apply Permutation_app_swap_app.
Qed.

(** The part of main as one stroke, on the machine on which the hart has not begun
    and the free list is in the right order, ends where the hart is. *)
Lemma end_vmem h σ x w1 wg : inv (ghost (w_mem wg) (w_kmem wg) σ) → is_hart h → may_pass h σ → sy_phase σ h = PVmem →
  mem_only (on_hart h (sy_world σ)) wg → run (init_vmem_acc (cpu_ptr h)) wg = Ok x w1 → mem_only wg w1 →
  ∃ w, run_segment h σ (build_end PVmem x) = Ok PMapped (set_world w (sy_machine σ)) ∧
    quiet_for h (sy_world σ) w ∧ w_config w = w_config (sy_world σ) ∧
    inv (ghost (w_mem w1) (w_kmem w1) (after_world h w (sy_xr σ h) PMapped σ)).
Proof.
  intros Hinv Hh Hp Ep Ho Hrun Ho1. pose proof (vmem_given h _ Hinv Hh Ep) as Hm. change (w_cpu_mapped (sy_world σ) = 0) in Hm.
  destruct (init_hart_run (on_hart h (sy_world σ)) x) as (cs & Hih & _ & _ & Hcs); [exact Hm|exact Hh|done|exact (sh_cpus _ (proj1 Hinv))|].
  cbv zeta in Hih. set (w := set_csr cs _) in Hih. exists w. split; [|split; [|split; [done|]]].
  - unfold build_end. exact (run_on_world h σ (init_hart x) (λ _, mret PMapped) tt w Hih).
  - split; [done|exact Hcs|done|]. intros i Hi. unfold w. cbn. by rewrite list_lookup_insert_ne.
  - assert (Eg : wg = lend (w_mem wg) (w_kmem wg) (on_hart h (sy_world σ))) by by rewrite lend_of.
    assert (E1 : w1 = lend (w_mem w1) (w_kmem w1) (on_hart h (sy_world σ))) by (rewrite lend_of; [done|by etransitivity]).
    destruct (inv_segment h (ghost (w_mem wg) (w_kmem wg) σ) (main_vmem ;; mret PMapped) Hinv Hh) as (p & M & Hr & _ & Hi); [cbn; by rewrite Ep|exact Hp|].
    assert (Hih1 : init_hart x w1 = Ok tt (lend (w_mem w1) (w_kmem w1) w)) by (rewrite E1 at 1; by apply lends_init_hart).
    assert (Hmc : mycpu wg = Ok (cpu_ptr h) wg) by (rewrite Eg; by apply mycpu_boot).
    unfold main_vmem in Hr. rewrite (run_on_world h _ (pgtable ← init_vmem; init_hart pgtable) (λ _, mret PMapped) tt (lend (w_mem w1) (w_kmem w1) w)) in Hr.
    + injection Hr as <- <-. exact Hi.
    + change (on_hart h (sy_world (ghost (w_mem wg) (w_kmem wg) σ))) with (lend (w_mem wg) (w_kmem wg) (on_hart h (sy_world σ))).
      rewrite <- Eg. rewrite (init_vmem_runs (cpu_ptr h) wg Hmc) in Hrun.
      by rewrite (bind_ok _ _ _ _ _ Hrun).
Qed.

Lemma prepared_id h w : w_vcpus w !! Z.to_nat h = Some (fresh_vcpu (vm_slot h) (vhart h)) →
  w_csr w !! (h, sscratch) = Some (regs_addr h) → prepared h w = w.
Proof. intros Hv Hs. unfold prepared. rewrite list_insert_id, insert_id by done. by destruct w. Qed.

Lemma end_setup h σ x w1 wg : inv (ghost (w_mem wg) (w_kmem wg) σ) → (rank (sy_phase σ 0) ≠ 0)%nat → is_hart h → begun h σ →
  sy_phase σ h = PSetup → mem_only (on_hart h (sy_world σ)) wg → run (jb_prog (setup_job h)) wg = Ok x w1 → mem_only wg w1 →
  run_segment h σ (build_end PSetup x) = Ok (PStart h) (set_world (on_hart h (sy_world σ)) (sy_machine σ)) ∧
    inv (ghost (w_mem w1) (w_kmem w1) (after_world h (on_hart h (sy_world σ)) (sy_xr σ h) (PStart h) σ)).
Proof.
  intros Hinv H0 Hh [Hp Hat] Ep Ho Hrun Ho1. destruct Hat as [?|(_ & Hv & Hsc)]; [congruence|].
  assert (Eg : wg = lend (w_mem wg) (w_kmem wg) (on_hart h (sy_world σ))) by by rewrite lend_of.
  assert (E1 : w1 = lend (w_mem w1) (w_kmem w1) (on_hart h (sy_world σ))) by (rewrite lend_of; [done|by etransitivity]).
  pose proof (setup_given h _ Hinv H0 Hh Hp Ep) as Hf.
  change (on_hart h (sy_world (ghost (w_mem wg) (w_kmem wg) σ))) with (lend (w_mem wg) (w_kmem wg) (on_hart h (sy_world σ))) in Hf.
  rewrite <- Eg in Hf. assert (Epr : prepared h wg = wg) by (apply prepared_id; rewrite Eg; done).
  assert (Hx : x = h ∧ vm_setup h wg = Ok tt w1).
  { pose proof (init_vcpu_prepares h wg Hf) as H1. pose proof (prepared_vcpu h wg Hh Hf) as H2. rewrite Epr in H1, H2.
    unfold vm_setup. rewrite (bind_ok _ _ _ _ _ H1), (bind_ok _ _ _ _ _ H2).
    erewrite bind_ok by (apply (config_get_ok (vm_slot h) (vm_of h)); apply Hf). cbn [fresh_vcpu vhartid].
    pose proof (vhart_lead h Hh) as Hvl. destruct (decide (lead h = h)) as [El|El].
    - rewrite (setup_job_lead h El), jb_prog_mk, setup_prog_run in Hrun. apply bind_ok_inv in Hrun as ([] & w2 & Hr & [= -> ->]).
      rewrite (proj2 (Z.eqb_eq _ _)) by by apply Hvl. by split.
    - rewrite (setup_job_next h El), jb_prog_mk in Hrun. injection Hrun as <- <-.
      rewrite (proj2 (Z.eqb_neq _ _)) by by intros ?%Hvl. by split. }
  destruct Hx as [-> Hset]. split; [done|].
  destruct (inv_segment h (ghost (w_mem wg) (w_kmem wg) σ) (i ← on_world get_vcpu; on_world (vm_setup i) ;; mret (PStart i)) Hinv Hh)
    as (p & M & Hr & _ & Hi); [cbn; by rewrite Ep|exact Hp|].
  rewrite (setup_segment h (ghost (w_mem wg) (w_kmem wg) σ) w1) in Hr.
  - injection Hr as <- <-. rewrite E1 in Hi. exact Hi.
  - change (cpu_ready (lend (w_mem wg) (w_kmem wg) (on_hart h (sy_world σ)))). rewrite <- Eg. apply Hf.
  - change (vm_setup h (lend (w_mem wg) (w_kmem wg) (on_hart h (sy_world σ))) = Ok tt w1). by rewrite <- Eg.
Qed.

Lemma busy_end σ b h c x m k all fl : busy (mk_fine σ b) m k all fl → is_hart h → b h = Some c → pc (cl_thread c) = Idle →
  cl_prog c = Ret x → ∃ p w m' k' all', run_segment h σ (build_end (sy_phase σ h) x) = Ok p (set_world w (sy_machine σ)) ∧
    rank p = S (rank (sy_phase σ h)) ∧
    busy (mk_fine (after_world h w (sy_xr σ h) p σ) (upd_hart h None b)) m' k' all' fl.
Proof.
  intros B Hh Hc Ep Eq. pose proof (bz_begun _ _ _ _ _ B h c Hh Hc) as Hbg. pose proof (bz_jinv _ _ _ _ _ B) as J.
  pose proof (busy_jobs _ _ _ _ _ B) as Hj. cbn [fi_sys] in Hbg, J, Hj.
  destruct (pages_rest _ _ _ _ _ h c B Hh Hc Ep) as (Hi & Hij & rest & Er).
  pose proof (bz_kmem _ _ _ _ _ B) as Hk. cbn [fi_sys] in Hk.
  set (o := own (cl_thread c)) in *. assert (Ep' : reverse o ++ rest ≡ₚ all) by by rewrite reverse_Permutation.
  destruct (reorder (on_hart h (lend m k (sy_world σ))) all (reverse o ++ rest) Hk Ep') as (wg & Hm & Ho).
  change (models wg (but_pages all (w_mem (lend m k (sy_world σ)))) (reverse o ++ rest)) in Hm.
  destruct (finished_run _ _ _ _ _ _ _ _ _ _ wg rest Hj J Hi Hij Ep Eq Er Hm) as (w1 & Hrun & Ho1 & Hk1 & Hst & Hfr).
  assert (Ho' : mem_only (on_hart h (sy_world σ)) wg) by (etransitivity; [|exact Ho]; by exists m, k).
  assert (Eg : wg = lend (w_mem wg) (w_kmem wg) (on_hart h (sy_world σ))) by by rewrite lend_of.
  assert (Hinv : inv (ghost (w_mem wg) (w_kmem wg) σ)).
  { apply (inv_amend (ghost m k σ) _ _ all (reverse o ++ rest)); [apply B|apply B|exact Hk| |exact Ep'|].
    - pose proof (mo_kmem _ _ _ Hm) as H. rewrite Eg in H. exact H.
    - intros a Ha. rewrite (mo_eq _ _ _ Hm); [|by rewrite (in_pages_perm _ _ _ Ep')]. by rewrite lookup_but_pages, decide_False. }
  assert (Hend : ∃ p w, run_segment h σ (build_end (sy_phase σ h) x) = Ok p (set_world w (sy_machine σ)) ∧
    rank p = S (rank (sy_phase σ h)) ∧ quiet_for h (sy_world σ) w ∧ w_config w = w_config (sy_world σ) ∧
    inv (ghost (w_mem w1) (w_kmem w1) (after_world h w (sy_xr σ h) p σ))).
  { destruct (bg_at _ _ Hbg) as [Eph|(Eph & _)].
    - assert (Ejo : job_of (mk_fine σ b) h = vmem_job h) by (unfold job_of; cbn [fi_build fi_sys]; by rewrite Hc, Eph).
      rewrite Ejo in Hrun. change (run (init_vmem_acc (cpu_ptr h)) wg = Ok x w1) in Hrun.
      destruct (end_vmem h σ x w1 wg Hinv Hh (bg_pass _ _ Hbg) Eph Ho' Hrun Ho1) as (w & Hr & Hq & Ec & Hi'). exists PMapped, w. rewrite Eph. by split_and!.
    - assert (Ejo : job_of (mk_fine σ b) h = setup_job h) by (unfold job_of; cbn [fi_build fi_sys]; by rewrite Hc, Eph).
      rewrite Ejo in Hrun. destruct (end_setup h σ x w1 wg Hinv (bz_late _ _ _ _ _ B) Hh Hbg Eph Ho' Hrun Ho1) as (Hr & Hi').
      exists (PStart h), (on_hart h (sy_world σ)). rewrite Eph. by split_and!. }
  destruct Hend as (p & w & Hr & Hrk & Hq & Ec & Hinv'). exists p, w, (w_mem w1), (w_kmem w1), rest.
  split; [exact Hr|]. split; [exact Hrk|]. destruct (qf_mem _ _ _ Hq) as [Em Ek]. split; cbn [fi_sys].
  - exact Hinv'.
  - apply rank0_after; [apply (bz_late _ _ _ _ _ B)|lia].
  - exact Hk1.
  - rewrite (jobs_upd σ _ b _ h Hh) by (intros h' Hne; cbn; by rewrite !upd_hart_ne).
    replace (job_of _ h) with idle_job by (unfold job_of; cbn [fi_build]; by rewrite upd_hart_eq).
    rewrite (clients_upd σ) by done. apply (jinv_ext w1 _ _ _ (sy_world σ)); [done|exact Em|exact Ek|].
    by apply (jinv_end (lend m k (sy_world σ)) w1 all rest _ _ _ _ _ c J Hi Ep Er).
  - intros h' c' Hh' Hc'. cbn [fi_build] in Hc'. destruct (decide (h' = h)) as [->|Hne]; [by rewrite upd_hart_eq in Hc'|].
    rewrite upd_hart_ne in Hc' by done. apply begun_moves; [done|by eapply (bz_begun _ _ _ _ _ B)|lia|done| |by apply Hq].
    apply Hq. by apply is_hart_nat.
Qed.

(** ** Invariance *)

Definition nobody φ : Prop := ∀ h, is_hart h → fi_build φ h = None.
Definition fine_inv φ : Prop := (nobody φ ∧ inv (fi_sys φ)) ∨ ∃ m k all fl, busy φ m k all fl.

Lemma somebody φ : nobody φ ∨ ∃ h c, is_hart h ∧ fi_build φ h = Some c.
Proof.
  destruct (fi_build φ 0) as [c|] eqn:E0; [right; by exists 0, c|]. destruct (fi_build φ 1) as [c|] eqn:E1; [right; by exists 1, c|].
  left. intros h Hh. by destruct (is_hart_cases h Hh) as [->| ->].
Qed.

(** Either nobody builds a table, or somebody does and the machine is busy. *)
Lemma fine_cases φ : fine_inv φ → (nobody φ ∧ inv (fi_sys φ)) ∨
  ∃ m k all fl h c, busy φ m k all fl ∧ is_hart h ∧ fi_build φ h = Some c.
Proof.
  intros [?|(m & k & all & fl & B)]; [by left|]. destruct (somebody φ) as [Hn|(h & c & Hh & Hc)].
  - left. split; [done|by eapply busy_quiet].
  - right. by exists m, k, all, fl, h, c.
Qed.

Lemma begin_late σ h f : is_hart h → may_pass h σ → build_begin (D:=D) (U:=U) (X:=X) (sy_phase σ h) = Some f →
  (rank (sy_phase σ 0) ≠ 0)%nat.
Proof.
  intros Hh Hp Hf. specialize (Hp 0 ltac:(by vm_compute)). destruct (sy_phase σ h); try done; cbn [rank] in Hp; lia.
Qed.

Lemma fine_begin_ok σ b h f : fine_inv (mk_fine σ b) → is_hart h → b h = None → may_pass h σ →
  build_begin (sy_phase σ h) = Some f →
  ∃ q w, run_segment h σ f = Ok q (set_world w (sy_machine σ)) ∧
    fine_inv (mk_fine (after_world h w (sy_xr σ h) (sy_phase σ h) σ) (upd_hart h (Some (mk_client (mk_thread Idle []) q)) b)).
Proof.
  intros I Hh Hb Hp Hf. assert (B : ∃ m k all fl, busy (mk_fine σ b) m k all fl).
  { destruct I as [[Hn Hinv]|?]; [|done]. destruct (quiet_busy σ b Hinv (begin_late σ h f Hh Hp Hf) Hn) as (all & B). by eexists _, _, _, _. }
  destruct B as (m & k & all & fl & B). destruct (busy_begin σ b h f m k all fl B Hh Hb Hp Hf) as (q & w & Hr & B').
  exists q, w. split; [exact Hr|]. right. by exists m, k, all, fl.
Qed.

Lemma busy_plic σ b d m k all fl : busy (mk_fine σ b) m k all fl →
  busy (mk_fine (with_memory (set_plic d (sy_world σ)) σ) b) m k all fl.
Proof.
  intros B. split; cbn [fi_sys].
  - exact (inv_plic (ghost m k σ) d (bz_inv _ _ _ _ _ B)).
  - apply (bz_late _ _ _ _ _ B).
  - exact (bz_kmem _ _ _ _ _ B).
  - exact (jinv_ext (lend m k (sy_world σ)) (lend m k (set_plic d (sy_world σ))) _ _ (sy_world σ) (set_plic d (sy_world σ)) _ _
      eq_refl eq_refl eq_refl (bz_jinv _ _ _ _ _ B)).
  - intros h c Hh Hc. destruct (bz_begun _ _ _ _ _ B h c Hh Hc) as [Hp Hat]. by split.
Qed.

Lemma fine_inv_step φ φ' : fine_inv φ → fine_step φ φ' → fine_inv φ'.
Proof.
  intros I Hst. destruct Hst as [h σ b f q m Hh Hb Hf Hp Hr|h σ b c c' w Hh Hb Ha|h σ b t x p m Hh Hb Ep Hr|h σ b σ' Hh Hb Hbb Hst|σ b d].
  - destruct (fine_begin_ok σ b h f I Hh Hb Hp Hf) as (q' & w & Hr' & I'). rewrite Hr in Hr'. by injection Hr' as -> ->.
  - destruct I as [[Hn _]|(m & k & all & fl & B)]; [specialize (Hn h Hh); cbn in Hn; congruence|].
    destruct (busy_access σ b h c c' w m k all fl B Hh Hb Ha) as (fl' & B'). right. by exists m, k, all, fl'.
  - destruct I as [[Hn _]|(m' & k & all & fl & B)]; [specialize (Hn h Hh); cbn in Hn; congruence|].
    destruct (busy_end σ b h _ x m' k all fl B Hh Hb Ep eq_refl) as (p' & w & m2 & k2 & all2 & Hr' & _ & B').
    rewrite Hr in Hr'. injection Hr' as -> ->. right. by exists m2, k2, all2, fl.
  - destruct (fine_cases _ I) as [[Hn Hinv]|(m & k & all & fl & h' & c & B & Hh' & Hc)].
    + left. split; [done|]. eapply inv_step; [exact Hinv|]. by eapply Y_hart.
    + destruct (busy_hart_step σ b h h' c σ' m k all fl B Hh' Hc Hh Hb Hbb Hst) as (m' & B'). right. by exists m', k, all, fl.
  - destruct I as [[Hn Hinv]|(m & k & all & fl & B)].
    + left. split; [done|]. exact (inv_plic σ d Hinv).
    + right. exists m, k, all, fl. by apply busy_plic.
Qed.

(** ** Reachable states *)

Definition fine_initial φ : Prop := initial (fi_sys φ) ∧ nobody φ.
Definition fine_reachable φ : Prop := ∃ φ0, fine_initial φ0 ∧ rtc fine_step φ0 φ.

Lemma fine_reachable_inv φ : fine_reachable φ → fine_inv φ.
Proof.
  intros (φ0 & [Hi Hn] & Hr). assert (I0 : fine_inv φ0) by (left; split; [done|by apply initial_inv]).
  clear Hi Hn. induction Hr as [|x y z Hst _ IH]; [done|]. apply IH. by eapply fine_inv_step.
Qed.

(** ** Isolation *)

(** What the guests reach, they reach on a machine the invariant holds of. *)
Lemma fine_ghost φ : fine_inv φ → ∃ σ, inv σ ∧ sy_phase σ = sy_phase (fi_sys φ) ∧
  ∀ h a gpa, is_hart h → (5 < rank (sy_phase (fi_sys φ) h))%nat → guest_pa h (fi_sys φ) a gpa = guest_pa h σ a gpa.
Proof.
  destruct φ as [σ b]. intros [[_ Hinv]|(m & k & all & fl & B)]; [by exists σ|].
  exists (ghost m k σ). split; [apply (bz_inv _ _ _ _ _ B)|]. split; [done|]. intros h a gpa Hh H5. by eapply busy_guest_pa.
Qed.

(** An access of a hart that builds a table leaves what the guests reach. *)
Lemma access_spares σ b h h' c c' w a gpa p : fine_inv (mk_fine σ b) → is_hart h → (5 < rank (sy_phase σ h))%nat →
  guest_pa h σ a gpa = Some p → is_hart h' → b h' = Some c → client_access c (sy_world σ) = Ok c' w →
  w_mem w !! p = w_mem (sy_world σ) !! p ∧ guest_pa h (with_memory w σ) a gpa = Some p.
Proof.
  intros I Hh H5 Hp Hh' Hc Ha.
  destruct I as [[Hn _]|(m & k & all & fl & B)]; [specialize (Hn h' Hh'); cbn in Hn; congruence|].
  destruct (busy_access σ b h' c c' w m k all fl B Hh' Hc Ha) as (fl' & B').
  destruct (busy_reach σ b m k all fl B h Hh a gpa p H5 Hp) as [H1 H2].
  assert (Hp' : guest_pa h (with_memory w σ) a gpa = Some p).
  { rewrite <- Hp. erewrite (busy_guest_pa (with_memory w σ)), (busy_guest_pa σ) by done.
    unfold ghost. change (sy_world (with_memory w σ)) with w. by rewrite (lend_only m k _ _ (only_client_access _ _ _ _ Ha)). }
  split; [|exact Hp']. destruct (busy_reach _ _ m k all fl' B' h Hh a gpa p H5 Hp') as [_ H2'].
  pose proof (ji_frame _ _ _ _ _ _ (bz_jinv _ _ _ _ _ B') p H1 H2') as E'.
  pose proof (ji_frame _ _ _ _ _ _ (bz_jinv _ _ _ _ _ B) p H1 H2) as E.
  change (w_mem w !! p = m !! p) in E'. change (w_mem (sy_world σ) !! p = m !! p) in E. congruence.
Qed.

(** C1: isolation, access by access.  In every state the machine can reach from
    power-on, when the harts build page tables one access at a time and interleaved
    with everything else, no byte that a guest reaches is reached by a guest of
    another VM or lies in the root table of any VM, and an access of a hart
    that is building a table changes neither such a byte nor the guest's
    translation; the harts of one VM translate every address alike. *)
Theorem fine_guests_isolated φ h h' a gpa : fine_reachable φ → is_hart h → is_hart h' →
  let σ := fi_sys φ in (5 < rank (sy_phase σ h))%nat →
  ((5 < rank (sy_phase σ h'))%nat → vm_slot h = vm_slot h' → guest_pa h σ a gpa = guest_pa h' σ a gpa) ∧
  ∀ p, guest_pa h σ a gpa = Some p → ¬ in_root (vm_of h') p ∧
    ((5 < rank (sy_phase σ h'))%nat → vm_slot h ≠ vm_slot h' → ∀ a' gpa', guest_pa h' σ a' gpa' ≠ Some p) ∧
    ∀ c c' w, fi_build φ h' = Some c → client_access c (sy_world σ) = Ok c' w →
      w_mem w !! p = w_mem (sy_world σ) !! p ∧ guest_pa h (with_memory w σ) a gpa = Some p.
Proof.
  intros Hr Hh Hh' σ H5. apply fine_reachable_inv in Hr. destruct (fine_ghost φ Hr) as (σg & Hinv & Eph & Hpa).
  assert (Hiso : ∀ h', is_hart h' → (5 < rank (sy_phase σ h'))%nat → _)
    by (intros h2 Hh2 H2; exact (inv_isolated σg h h2 Hinv Hh Hh2 ltac:(by rewrite Eph) ltac:(by rewrite Eph) a gpa)).
  split.
  - intros H5' Es. specialize (Hiso h' Hh' H5'). rewrite decide_True in Hiso by done. unfold σ. by rewrite !Hpa.
  - intros p Hp. split; [|split].
    + destruct (inv_translates h σg Hinv Hh ltac:(by rewrite Eph)) as (tabs & fl & pages & Hl & Htr).
      eapply (reach_not_root h h'); [done|done|exact Hl|apply (sh_lead _ (proj1 Hinv)); [done|by rewrite Eph]|].
      exists a, gpa. by rewrite <- Htr, <- Hpa.
    + intros H5' Hne. specialize (Hiso h' Hh' H5'). rewrite decide_False in Hiso by done.
      destruct (Hiso p) as (H1 & _); [by rewrite <- Hpa|]. intros a' gpa'. unfold σ. by rewrite Hpa.
    + intros c c' w Hc Ha. destruct φ as [σ0 b]. by eapply (access_spares σ0 b h h').
Qed.

(** ** Safety *)

(** What a hart that builds nothing does next. *)
Definition next_runs h σ : Prop :=
  (∀ f, build_begin (sy_phase σ h) = Some f → may_pass h σ → ∃ q s, run_segment h σ f = Ok q s) ∧
  (∀ f, build_begin (D:=D) (U:=U) (X:=X) (sy_phase σ h) = None → segment boot_msg (sy_phase σ h) h = Some f → may_pass h σ →
     ∃ p s, run_segment h σ f = Ok p s) ∧
  (sy_phase σ h = PEnter → ∃ s, vm_enter (hart_of h σ) = Ok (entry (vm_of h)) s ∧
     ∀ n, (0 < n < 32)%nat → xr s n = if (n =? 10)%nat then vhart h else if (n =? 11)%nat then 0xff else 0) ∧
  (sy_phase σ h = PGuest → ∀ cs clobber, csr_change h trap_csrs (w_csr (sy_world σ)) cs →
     0 <= default 0 (cs !! (h, scause)) < 2 ^ 64 →
     match hstrapvec clobber (trapped h cs σ) with Ok _ _ | Panic _ _ => True | _ => False end).
(** And one that builds a table. *)
Definition build_runs h σ (c : client) : Prop :=
  match client_access c (sy_world σ) with Ok _ _ => True | Hang _ => waits (sy_world σ) c | _ => False end ∧
  ∀ x, pc (cl_thread c) = Idle → cl_prog c = Ret x → ∃ p s, run_segment h σ (build_end (sy_phase σ h) x) = Ok p s.

Lemma busy_next σ b h h' c m k all fl : busy (mk_fine σ b) m k all fl → is_hart h' → b h' = Some c →
  is_hart h → b h = None → next_runs h σ.
Proof.
  intros B Hh' Hc Hh Hb. assert (I : fine_inv (mk_fine σ b)) by (right; by exists m, k, all, fl). split_and!.
  - intros f Hf Hp. destruct (fine_begin_ok σ b h f I Hh Hb Hp Hf) as (q & w & Hr & _). by exists q, (set_world w (sy_machine σ)).
  - intros f Hbb Hf Hp. destruct (busy_beside σ b h h' c m k all fl B Hh' Hc Hh Hbb) as [H4|[_ Hn]]; [|done].
    destruct (sy_phase σ h) as [| | | | |i| | |] eqn:Ep; cbn in H4, Hf; try lia; try done. injection Hf as <-.
    destruct (busy_start σ b m k all fl B h Hh Hb ltac:(rewrite Ep; cbn; lia) i Ep Hp) as (w & Hr & _). by eexists _, _.
  - intros Ep. destruct (busy_enter σ b m k all fl B h Hh Hb ltac:(rewrite Ep; cbn; lia) Ep) as (s & Hr & Hx & Hg & _).
    exists s. rewrite (gd_sepc _ _ _ _ _ Hg) in Hr. split; [exact Hr|]. intros n Hn. rewrite Hx by done. by apply fresh_regs.
  - intros Ep cs cl Hcs Hca. pose proof (busy_trap σ b m k all fl B h Hh Hb ltac:(rewrite Ep; cbn; lia) cs cl Ep Hcs Hca) as H.
    by destruct (hstrapvec _ _).
Qed.

Lemma fine_safe φ h : fine_inv φ → is_hart h →
  match fi_build φ h with Some c => build_runs h (fi_sys φ) c | None => next_runs h (fi_sys φ) end.
Proof.
  destruct φ as [σ b]. intros I Hh. cbn [fi_build fi_sys].
  destruct (fine_cases _ I) as [[Hn Hinv]|(m & k & all & fl & h' & c & B & Hh' & Hc)].
  - specialize (Hn h Hh). cbn in Hn. rewrite Hn. destruct (inv_safe σ h Hinv Hh) as (H1 & H2 & H3). split_and!; [|by intros ? _; apply H1|done|done].
    intros f Hf Hp. destruct (fine_begin_ok σ b h f I Hh Hn Hp Hf) as (q & w & Hr & _). by exists q, (set_world w (sy_machine σ)).
  - destruct (b h) as [c'|] eqn:Hb; [|by eapply busy_next]. split.
    + assert (Hi : clients (mk_fine σ b) !! Z.to_nat h = Some c').
      { etransitivity; [exact (hart_lookup _ (λ h, default idle_client (b h)) h Hh)|]. cbn. by rewrite Hb. }
      pose proof (good_access _ _ _ (busy_jobs _ _ _ _ _ B) _ _ _ _ _ (bz_jinv _ _ _ _ _ B) Hi) as G. unfold good in G. cbn [fi_sys] in G.
      by destruct (client_access c' (sy_world σ)).
    + intros x Ep Eq. destruct (busy_end σ b h c' x m k all fl B Hh Hb Ep Eq) as (p & w & _ & _ & _ & Hr & _). by exists p, (set_world w (sy_machine σ)).
Qed.

(** C4: the hypervisor is safe also when page tables are built one access at a time:
    in every reachable state the next access of a hart that builds a table succeeds,
    unless it waits for the allocator's lock while another hart holds it or has
    finished, and then the rest of its part runs; any other hart that may pass its
    barrier runs the beginning of such a part, or the whole of another, to its end
    without a panic, a fault or an endless loop; a guest starts at its entry point
    with its number in a0, the marker in a1 and every other register 0; and a trap
    comes back to the guest or panics. *)
Theorem fine_hypervisor_safe φ h : fine_reachable φ → is_hart h →
  match fi_build φ h with Some c => build_runs h (fi_sys φ) c | None => next_runs h (fi_sys φ) end.
Proof. intros Hr. by apply fine_safe, fine_reachable_inv. Qed.

(** ** The boot goes through *)

(** An access of some hart that builds a table. *)
Definition building φ φ' : Prop := ∃ h c c' w, is_hart h ∧ fi_build φ h = Some c ∧
  client_access c (sy_world (fi_sys φ)) = Ok c' w ∧
  φ' = mk_fine (with_memory w (fi_sys φ)) (upd_hart h (Some c') (fi_build φ)).
Definition all_built φ : Prop := ∀ h c, is_hart h → fi_build φ h = Some c → finished c.

Lemma client_at φ h c : is_hart h → fi_build φ h = Some c → clients φ !! Z.to_nat h = Some c.
Proof.
  intros Hh Hc. etransitivity; [exact (hart_lookup _ (λ h, default idle_client (fi_build φ h)) h Hh)|]. cbn. by rewrite Hc.
Qed.

Lemma clients_index φ i c : clients φ !! i = Some c → ∃ h, is_hart h ∧ i = Z.to_nat h ∧ c = default idle_client (fi_build φ h).
Proof. exact (hart_index _ (λ h, default idle_client (fi_build φ h)) i c). Qed.

Lemma building_step φ φ' : building φ φ' → fine_step φ φ'.
Proof. destruct φ as [σ b]. intros (h & c & c' & w & Hh & Hc & Ha & ->). by eapply F_access. Qed.

Lemma building_ends φ : fine_inv φ → sn building φ.
Proof.
  intros I. assert (Hcs : Acc (one_goes (D:=D)) (clients φ)).
  { apply one_goes_ends, Forall_lookup. intros i c (h & Hh & -> & ->)%clients_index.
    destruct (fi_build φ h) as [c|] eqn:Hb; [|by apply goes_ends]. cbn [default].
    destruct I as [[Hn _]|(m & k & all & fl & B)]; [by rewrite (Hn h Hh) in Hb|].
    destruct (client_job _ _ _ _ _ _ _ _ (bz_jinv _ _ _ _ _ B) (client_at φ h c Hh Hb)) as (j & _ & C).
    destruct c as [t q]. destruct (cj_pc _ _ _ _ C) as [Ep|(Hc & k' & Ek)]; [by apply goes_ends|].
    apply (goes_call k'); [intros; by apply goes_ends|exact Ek|]. cbn in *. by destruct (pc t). }
  clear I. remember (clients φ) as cs eqn:E. revert φ E. induction Hcs as [cs _ IH]. intros φ ->. constructor.
  intros φ' (h & c & c' & w & Hh & Hc & Ha & ->). eapply IH; [|reflexivity].
  exists (Z.to_nat h), c, c'. split; [by apply client_at|]. split; [by exists (sy_world (fi_sys φ)), w|].
  destruct φ as [σ b]. by apply (clients_upd σ).
Qed.

Lemma building_goes φ : fine_inv φ → all_built φ ∨ ∃ φ', building φ φ'.
Proof.
  intros I. destruct I as [[Hn _]|(m & k & all & fl & B)]; [left; intros h c Hh; by rewrite (Hn h Hh)|].
  destruct (all_or_one finished (clients φ) finished_dec) as [Hf|(i & c & Hi & Hnf)].
  - left. intros h c Hh Hc. rewrite Forall_lookup in Hf. eapply Hf. by apply client_at.
  - right. destruct (not_stuck _ _ _ (busy_jobs _ _ _ _ _ B) _ _ _ _ _ (bz_jinv _ _ _ _ _ B) Hi Hnf) as [s Hst].
    inversion Hst as [w1 cs1 i1 c1 c1' w1' Hi1 Ha E1 E2]; subst. apply clients_index in Hi1 as (h & Hh & -> & ->).
    destruct (fi_build φ h) as [c0|] eqn:Hb; [|done]. eexists. by exists h, c0, c1', w1'.
Qed.

(** The same harts build, in the same places. *)
Definition same_place φ φ' : Prop := sy_phase (fi_sys φ') = sy_phase (fi_sys φ) ∧
  ∀ h, is_hart h → is_Some (fi_build φ' h) ↔ is_Some (fi_build φ h).

Lemma all_build φ : fine_inv φ → ∃ φ', rtc building φ φ' ∧ same_place φ φ' ∧ all_built φ' ∧ fine_inv φ'.
Proof.
  intros I. pose proof (building_ends φ I) as Hs. induction Hs as [φ _ IH].
  destruct (building_goes φ I) as [Hd|(φ1 & Hb)]; [exists φ; split; [done|split; [done|by split]]|].
  pose proof (fine_inv_step _ _ I (building_step _ _ Hb)) as I1.
  destruct (IH φ1 Hb I1) as (φ2 & Hr & [Ep Hsm] & Hd & I2). exists φ2. split; [by eapply rtc_l|].
  split; [|by split]. destruct Hb as (h & c & c' & w & Hh & Hc & _ & ->). split; [exact Ep|]. intros h' Hh'. rewrite Hsm by done. cbn [fi_build].
  destruct (decide (h' = h)) as [->|]; [by rewrite upd_hart_eq, Hc|by rewrite upd_hart_ne].
Qed.

Lemma end_runs φ h t x : fine_inv φ → is_hart h → fi_build φ h = Some (mk_client t (Ret x)) → pc t = Idle →
  ∃ p s, run_segment h (fi_sys φ) (build_end (sy_phase (fi_sys φ) h) x) = Ok p s ∧ rank p = S (rank (sy_phase (fi_sys φ) h)).
Proof.
  destruct φ as [σ b]. intros I Hh Hc Ep. cbn [fi_build fi_sys] in *.
  destruct I as [[Hn _]|(m & k & all & fl & B)]; [specialize (Hn h Hh); cbn in Hn; congruence|].
  destruct (busy_end σ b h _ x m k all fl B Hh Hc Ep eq_refl) as (p & w & _ & _ & _ & Hr & Hrk & _). by eexists _, _.
Qed.
Lemma one_ends φ h c : fine_inv φ → is_hart h → fi_build φ h = Some c → finished c →
  ∃ σ' p, fine_step φ (mk_fine σ' (upd_hart h None (fi_build φ))) ∧ sy_phase σ' = upd_hart h p (sy_phase (fi_sys φ)) ∧
    rank p = S (rank (sy_phase (fi_sys φ) h)).
Proof.
  destruct c as [t q]. intros I Hh Hc [Ep [x Eq]]. cbn in Ep, Eq. subst q.
  destruct (end_runs φ h t x I Hh Hc Ep) as (p & m & Hr & Hrk). destruct φ as [σ b].
  eexists _, p. split; [by eapply F_end|]. by split.
Qed.

(** All the harts that build tables finish them. *)
Lemma drain φ : fine_inv φ → ∃ φ', rtc fine_step φ φ' ∧ nobody φ' ∧ fine_inv φ' ∧
  ∀ h, is_hart h → (rank (sy_phase (fi_sys φ) h) + (if fi_build φ h is Some _ then 1 else 0) <= rank (sy_phase (fi_sys φ') h))%nat.
Proof.
  intros I. destruct (all_build φ I) as (φ1 & Hr1 & [Ep Hsm] & Hd & I1).
  assert (Hone : ∀ ψ h, fine_inv ψ → is_hart h → all_built ψ → ∃ ψ', rtc fine_step ψ ψ' ∧ fine_inv ψ' ∧ all_built ψ' ∧
    fi_build ψ' h = None ∧ (∀ h', h' ≠ h → fi_build ψ' h' = fi_build ψ h' ∧ sy_phase (fi_sys ψ') h' = sy_phase (fi_sys ψ) h') ∧
    (rank (sy_phase (fi_sys ψ) h) + (if fi_build ψ h is Some _ then 1 else 0) <= rank (sy_phase (fi_sys ψ') h))%nat).
  { intros ψ h Iψ Hh Hb. destruct (fi_build ψ h) as [c|] eqn:Hc; [|exists ψ; split_and!; [done|done|done|done|done|lia]].
    destruct (one_ends ψ h c Iψ Hh Hc (Hb h c Hh Hc)) as (σ' & p & Hst & Eph & Hrk).
    eexists. split; [by eapply rtc_once|]. split; [by eapply fine_inv_step|]. cbn [fi_build fi_sys]. split.
    - intros h' c' Hh' Hc'. cbn [fi_build] in Hc'. destruct (decide (h' = h)) as [->|]; [by rewrite upd_hart_eq in Hc'|].
      rewrite upd_hart_ne in Hc' by done. by eapply Hb.
    - split; [apply upd_hart_eq|]. rewrite Eph, upd_hart_eq. split; [|lia]. intros h' Hne. by rewrite !upd_hart_ne. }
  destruct (Hone φ1 0 I1 ltac:(by vm_compute) Hd) as (φ2 & Hr2 & I2 & Hd2 & E2 & Ho2 & Hk2).
  destruct (Hone φ2 1 I2 ltac:(by vm_compute) Hd2) as (φ3 & Hr3 & I3 & _ & E3 & Ho3 & Hk3).
  destruct (Ho2 1 ltac:(lia)) as [Eb1 Ep1]. destruct (Ho3 0 ltac:(lia)) as [Eb0 Ep0].
  assert (Hif : ∀ h, is_hart h → (if fi_build φ1 h is Some _ then 1 else 0)%nat = (if fi_build φ h is Some _ then 1 else 0)%nat).
  { intros h Hh. specialize (Hsm h Hh). destruct (fi_build φ1 h), (fi_build φ h); try done; exfalso; [by destruct (proj1 Hsm ltac:(eauto))|by destruct (proj2 Hsm ltac:(eauto))]. }
  exists φ3. split; [etransitivity; [exact (rtc_subrel _ _ _ _ building_step Hr1)|by etransitivity]|]. split; [|split; [exact I3|]].
  - intros h Hh. destruct (is_hart_cases h Hh) as [->| ->]; [by rewrite Eb0|done].
  - intros h Hh. rewrite <- (Hif h Hh), <- Ep. destruct (is_hart_cases h Hh) as [->| ->]; [by rewrite Ep0|]. by rewrite <- Eb1, <- Ep1.
Qed.

Lemma quiet_inv φ : fine_inv φ → nobody φ → inv (fi_sys φ).
Proof.
  intros I Hn. destruct (fine_cases φ I) as [[_ ?]|(m & k & all & fl & h & c & _ & Hh & Hc)]; [done|]. by rewrite (Hn h Hh) in Hc.
Qed.

(** One part further. *)
Lemma quiet_step φ : fine_inv φ → nobody φ → ¬ all_started (fi_sys φ) →
  ∃ φ' h, rtc fine_step φ φ' ∧ fine_inv φ' ∧ nobody φ' ∧ is_hart h ∧
    (rank (sy_phase (fi_sys φ) h) < rank (sy_phase (fi_sys φ') h))%nat ∧
    ∀ h', is_hart h' → (rank (sy_phase (fi_sys φ) h') <= rank (sy_phase (fi_sys φ') h'))%nat.
Proof.
  destruct φ as [σ b]. intros I Hn Hna. pose proof (quiet_inv _ I Hn) as Hinv. cbn [fi_sys] in *.
  destruct (boot_step σ Hinv Hna) as (h & m & xs & p & Hh & Hst & Hrk). pose proof (Hn h Hh) as Hb. cbn in Hb.
  destruct (build_begin (D:=D) (U:=U) (X:=X) (sy_phase σ h)) as [f|] eqn:Hbb.
  - assert (Hp : may_pass h σ) by (inversion Hst; subst; try done; by match goal with E : sy_phase σ h = _ |- _ => rewrite E in Hbb end).
    destruct (fine_begin_ok σ b h f I Hh Hb Hp Hbb) as (q & w & Hr & I1). pose proof (F_begin h σ b f q _ Hh Hb Hbb Hp Hr) as Hs1.
    destruct (drain _ I1) as (φ' & Hr' & Hn' & I' & Hk). exists φ', h. cbn [fi_sys fi_build after_world after sy_phase] in Hk.
    assert (Est : ∀ h', upd_hart h (sy_phase σ h) (sy_phase σ) h' = sy_phase σ h').
    { intros h'. destruct (decide (h' = h)) as [->|]; [by rewrite upd_hart_eq|by rewrite upd_hart_ne]. }
    split; [by eapply rtc_l|]. split_and!; [done|done|done| |].
    + pose proof (Hk h Hh) as H. rewrite Est, upd_hart_eq in H. lia.
    + intros h' Hh'. pose proof (Hk h' Hh') as H. rewrite Est in H. lia.
  - exists (mk_fine (after h m xs p σ) b), h. assert (Hs1 : fine_step (mk_fine σ b) (mk_fine (after h m xs p σ) b)) by by eapply F_hart.
    split; [by apply rtc_once|]. split_and!; [by eapply fine_inv_step|done|done| |]; cbn [fi_sys after sy_phase].
    + rewrite upd_hart_eq. lia.
    + intros h' _. destruct (decide (h' = h)) as [->|]; [rewrite upd_hart_eq; lia|by rewrite upd_hart_ne].
Qed.

Lemma fine_boot φ : fine_inv φ → ∃ φ', rtc fine_step φ φ' ∧ nobody φ' ∧ all_started (fi_sys φ').
Proof.
  intros I. destruct (drain φ I) as (ψ & Hr & Hn & Iψ & _). clear I.
  enough (H : ∃ φ', rtc fine_step ψ φ' ∧ nobody φ' ∧ all_started (fi_sys φ')).
  { destruct H as (φ' & ? & ?). exists φ'. split; [by etransitivity|done]. }
  clear Hr φ. remember (parts_left (fi_sys ψ)) as n eqn:En. revert ψ Hn Iψ En. induction n as [n IH] using lt_wf_ind. intros ψ Hn Iψ ->.
  pose proof (quiet_inv ψ Iψ Hn) as Hinv. assert (H0 : is_hart 0) by (by vm_compute). assert (H1 : is_hart 1) by (by vm_compute).
  destruct (decide (rank (sy_phase (fi_sys ψ) 0) = 7 ∧ rank (sy_phase (fi_sys ψ) 1) = 7)%nat) as [[E0 E1]|Hne].
  { exists ψ. split; [done|]. split; [done|]. intros k Hk. by destruct (is_hart_cases k Hk) as [->| ->]. }
  destruct (quiet_step ψ Iψ Hn) as (φ' & h & Hr & I' & Hn' & Hh & Hlt & Hle).
  { intros Hall. apply Hne. by rewrite !Hall. }
  pose proof (proj1 (inv_rank _ 0 (quiet_inv _ I' Hn') H0)). pose proof (proj1 (inv_rank _ 1 (quiet_inv _ I' Hn') H1)).
  pose proof (Hle 0 H0). pose proof (Hle 1 H1).
  destruct (IH (parts_left (fi_sys φ')) ltac:(unfold parts_left; destruct (is_hart_cases h Hh) as [->| ->]; lia) φ' Hn' I' eq_refl)
    as (φ2 & Hr2 & ? & ?). exists φ2. split; [by etransitivity|done].
Qed.

(** With ideal barriers the boot goes through also when page tables are built one access at a time:
    in every reachable state the accesses to tables that can follow one another are
    finitely many, they stop only when every table that was begun is built, so that
    the allocator's lock causes no deadlock, and some continuation takes all harts
    into their guests. *)
Theorem fine_boot_completes φ : fine_reachable φ → sn building φ ∧ ((∀ φ', ¬ building φ φ') → all_built φ) ∧
  ∃ φ', rtc fine_step φ φ' ∧ nobody φ' ∧ all_started (fi_sys φ').
Proof.
  intros I%fine_reachable_inv. split; [by apply building_ends|]. split; [|by apply fine_boot].
  intros Hs. destruct (building_goes φ I) as [|(φ' & Hb)]; [done|by destruct (Hs φ')].
Qed.

(** ** Once the guests run *)

Lemma started_nobody φ : fine_inv φ → all_started (fi_sys φ) → nobody φ ∧ inv (fi_sys φ).
Proof.
  intros I Hall. destruct (fine_cases φ I) as [?|(m & k & all & fl & h & c & B & Hh & Hc)]; [done|]. specialize (Hall h Hh).
  destruct (bg_at _ _ (bz_begun _ _ _ _ _ B h c Hh Hc)) as [Ep|(Ep & _)]; by rewrite Ep in Hall.
Qed.
(** Nothing is left to build, and the machine is that of System.v. *)
Lemma started_fine_step φ φ' : nobody φ → all_started (fi_sys φ) → fine_step φ φ' →
  sys_step boot_msg (fi_sys φ) (fi_sys φ') ∧ nobody φ'.
Proof.
  intros Hn Hall Hst. destruct Hst as [h σ b f q m Hh Hb Hf|h σ b c c' w Hh Hb|h σ b t x p m Hh Hb|h σ b σ' Hh Hb Hbb Hst|σ b d]; cbn [fi_sys] in *.
  - specialize (Hall h Hh). by destruct (sy_phase σ h).
  - specialize (Hn h Hh). cbn in Hn. congruence.
  - specialize (Hn h Hh). cbn in Hn. congruence.
  - split; [by eapply Y_hart|done].
  - split; [apply Y_plic|done].
Qed.
Lemma started_fine_rtc φ φ' : nobody φ → inv (fi_sys φ) → all_started (fi_sys φ) → rtc fine_step φ φ' →
  rtc (sys_step boot_msg) (fi_sys φ) (fi_sys φ').
Proof.
  intros Hn Hinv Hall Hr. induction Hr as [|φ1 φ2 φ3 Hst _ IH]; [done|]. destruct (started_fine_step _ _ Hn Hall Hst) as [Hs Hn2].
  eapply rtc_l; [exact Hs|]. apply IH; [done|by eapply inv_step|by apply (started_step (fi_sys φ1))].
Qed.

(** C2: integrity, for all time.  Once the guests run, with tables that were built
    access by access, no sequence of steps of the other harts - their guests' code,
    their traps, even their panics - and of the PLIC changes what belongs to hart
    [h]: its registers, its virtual CPU, its control and status registers and the
    address translation of its guest; and if they are harts of other VMs, every byte
    its guest's addresses translate to stays as it is too. *)
Theorem fine_guest_integrity φ σ' h : fine_reachable φ → all_started (fi_sys φ) → is_hart h →
  (rtc (elsewhere h) (fi_sys φ) σ' → own_kept h (fi_sys φ) σ') ∧ (rtc (outside h) (fi_sys φ) σ' → untouched h (fi_sys φ) σ').
Proof. intros I%fine_reachable_inv Hall Hh. apply inv_integrity; [by apply started_nobody|done|done]. Qed.

(** C3: guests are confined.  From the moment the guests run, with tables that were
    built access by access, for ever and under every interleaving: the address
    translation of every guest stays as it is; every hart's own translation is the
    address space init_vmem builds; no guest reaches a byte below the dynamic region
    (the hypervisor's code, data, stacks and root tables) outside the images and devices
    of the configuration; and every byte of RAM above the firmware that no guest may
    write (code, constants and root tables among them) keeps its value, the
    hypervisor's own variables and stacks excepted, which its traps write. *)
Theorem fine_guests_confined φ φ' : fine_reachable φ → all_started (fi_sys φ) → rtc fine_step φ φ' →
  memory_kept (fi_sys φ) (fi_sys φ').
Proof.
  intros I%fine_reachable_inv Hall Hr. destruct (started_nobody φ I Hall) as [Hn Hinv]. apply inv_confined; [done|done|].
  by apply started_fine_rtc.
Qed.
End steps.

(** ** The theorems at work: the repository's two VMs *)

Definition idle_machine {D U X} (σ : system (D:=D) (U:=U) (X:=X)) : fine D U X := mk_fine σ (λ _, None).

Lemma demo_power_on : ∃ σ : demo_system, initial σ ∧ fine_reachable (idle_machine σ).
Proof. destruct demo_initial as (σ & Hi). exists σ. split; [done|]. exists (idle_machine σ). by split. Qed.

Lemma demo_fine_started : ∃ φ : fine plic_regs sim_uart unit, fine_reachable φ ∧ all_started (fi_sys φ).
Proof.
  destruct demo_power_on as (σ & _ & Hr). destruct (fine_boot _ (fine_reachable_inv _ Hr)) as (φ & Hr' & _ & Ha).
  exists φ. split; [|done]. destruct Hr as (φ0 & ? & ?). exists φ0. split; [done|by etransitivity].
Qed.

Lemma fine_guests_isolated_witness : ∃ φ : fine plic_regs sim_uart unit, all_started (fi_sys φ) ∧
  ∀ a gpa p, guest_pa 0 (fi_sys φ) a gpa = Some p → ∀ a' gpa', guest_pa 1 (fi_sys φ) a' gpa' ≠ Some p.
Proof.
  destruct demo_fine_started as (φ & Hr & Ha). exists φ. split; [exact Ha|]. intros a gpa p Hp.
  pose proof (Ha 0 ltac:(by vm_compute)) as E0. pose proof (Ha 1 ltac:(by vm_compute)) as E1.
  destruct (fine_guests_isolated φ 0 1 a gpa Hr ltac:(by vm_compute) ltac:(by vm_compute) ltac:(lia)) as [_ H].
  destruct (H p Hp) as (_ & H2 & _). apply (H2 ltac:(lia)). by vm_compute.
Defined.

Lemma fine_hypervisor_safe_witness : ∃ (σ : demo_system) p s, sy_phase σ 0 = PInit ∧
  run_segment 0 σ (main_init boot_msg 0 ;; mret PVmem) = Ok p s.
Proof.
  destruct demo_power_on as (σ & Hi & Hr). pose proof (in_phase _ Hi 0 ltac:(by vm_compute)) as Ep. exists σ.
  destruct (fine_hypervisor_safe (idle_machine σ) 0 Hr ltac:(by vm_compute)) as (_ & H & _). cbn [idle_machine fi_sys] in H. rewrite Ep in H.
  destruct (H _ eq_refl eq_refl) as (p & s & Hrun); [|by exists p, s].
  intros h' _ _. rewrite Ep. cbn. lia.
Defined.

Lemma fine_boot_completes_witness : ∃ φ φ' : fine plic_regs sim_uart unit, initial (fi_sys φ) ∧ rtc fine_step φ φ' ∧ all_started (fi_sys φ').
Proof.
  destruct demo_power_on as (σ & Hi & Hr). destruct (fine_boot_completes _ Hr) as (_ & _ & φ' & Hr' & _ & Ha).
  exists (idle_machine σ), φ'. by split_and!.
Defined.

Lemma fine_guest_integrity_witness : ∃ φ : fine plic_regs sim_uart unit, all_started (fi_sys φ) ∧
  ∀ σ', rtc (outside 0) (fi_sys φ) σ' → untouched 0 (fi_sys φ) σ'.
Proof.
  destruct demo_fine_started as (φ & Hr & Ha). exists φ. split; [exact Ha|]. intros σ'.
  apply (fine_guest_integrity φ σ' 0 Hr Ha). by vm_compute.
Defined.

Lemma fine_guests_confined_witness : ∃ φ : fine plic_regs sim_uart unit, all_started (fi_sys φ) ∧
  ∀ φ', rtc fine_step φ φ' → memory_kept (fi_sys φ) (fi_sys φ').
Proof.
  destruct demo_fine_started as (φ & Hr & Ha). exists φ. split; [exact Ha|]. intros φ' Hr'.
  exact (fine_guests_confined φ φ' Hr Ha Hr').
Defined.
