(* ===== verification/SystemBarriers.v ===== *)
(** * SystemBarriers: the machine with the barriers of lib/lock.c

    System.v and SystemFine.v let a hart pass a barrier when all its harts have come
    as far.  Here the harts execute wait_barrier itself, access by access, on the
    barrier of core/main.c (three calls), on that of core/vm_run.c and on the one of
    their VM, and build their page tables access by access too, all interleaved with
    everything else; and it is shown that the parts of main are executed only when
    SystemFine.v allows it. *)

From S2P Require Import Prelude Layout Bits Memory Machine VmemProg KmemConc VmemConc Asm Lock BarrierRounds Kmem Cpu Linkerscript Vmem Plic Vcpu VmRun VmRunSpec VmRunTheorems TrapEntry Uart Printf Pci Main System Deployment SystemInv SystemSteps SystemTheorems SystemFine SystemFineInv SystemFineTheorems VplicSpec KernelSpace Concrete KernelTheorems PrintfTheorems.

#[local] Abbreviation bar_pc := Barrier.bar_pc.
#[local] Abbreviation Acquire1 := Barrier.Acquire1.
#[local] Abbreviation Done := Barrier.Done.

(** The barrier in front of the part a hart runs next: [bar] of main.c, [bar] of
    vm_run.c, the VM's. *)
Inductive gate := NoGate | MainBar | RunBar | ConfBar.
Definition gate_at (p : phase) : gate :=
  match p with
  | PVmem | PMapped | PCheck => MainBar
  | PSetup => RunBar
  | PStart _ => ConfBar
  | _ => NoGate
  end.

Lemma bar_step_at i x ps p p' x' : ps !! i = Some p → Barrier.wait_barrier p x = Some (p', x') →
  Barrier.bar_step i (Barrier.mk_state x ps) = Barrier.mk_state x' (<[i := p']> ps).
Proof. intros Hi Hw. unfold Barrier.bar_step. cbn [Barrier.harts Barrier.b]. by rewrite Hi, Hw. Qed.

Section gated.
Context {D U X : Type} {P : PlicDevice D} {L : Linker} {UD : UartDevice U} {UL : UartLaws U} {PB : PciBus X}.
Context {dp : Deployment}.
#[local] Abbreviation sys := (system (D:=D) (U:=U) (X:=X)).

(** The machine, the barriers and the place of each hart in its call of
    wait_barrier.  The barrier of a VM is the [bar] field of its configuration,
    which nothing else reads after init_vm_barriers: [g_conf] holds the values of
    those that have been used. *)
Record gated := mk_gated {
  g_fine : fine D U X;
  g_main : barrier;
  g_run : barrier;
  g_conf : gmap nat barrier;
  g_pc : Z → bar_pc
}.
Implicit Types (γ : gated) (φ : fine D U X) (h : Z) (k : nat).
Definition g_sys γ : sys := fi_sys (g_fine γ).
Definition g_build γ : Z → option client := fi_build (g_fine γ).

(** [vcpu->conf] of hart [h], and the barrier of configuration [k]. *)
Definition conf_of h γ : option nat := (w_vcpus (sy_world (g_sys γ)) !! Z.to_nat h) ≫= conf.
Definition conf_bar k γ : option barrier :=
  match g_conf γ !! k with Some x => Some x | None => bar <$> w_config (sy_world (g_sys γ)) !! k end.

Definition get_bar h γ : option barrier :=
  match gate_at (sy_phase (g_sys γ) h) with
  | NoGate => None
  | MainBar => Some (g_main γ)
  | RunBar => Some (g_run γ)
  | ConfBar => conf_of h γ ≫= λ k, conf_bar k γ
  end.

(** Hart [h] at [pc] in its call, which has left its barrier as [x]. *)
Definition waited h (pc : bar_pc) (x : barrier) γ : gated :=
  let pcs := upd_hart h pc (g_pc γ) in
  match gate_at (sy_phase (g_sys γ) h) with
  | NoGate => γ
  | MainBar => mk_gated (g_fine γ) x (g_run γ) (g_conf γ) pcs
  | RunBar => mk_gated (g_fine γ) (g_main γ) x (g_conf γ) pcs
  | ConfBar => mk_gated (g_fine γ) (g_main γ) (g_run γ)
                 (match conf_of h γ with Some k => <[k := x]> (g_conf γ) | None => g_conf γ end) pcs
  end.
(** Hart [h] has run a part and is about to call wait_barrier. *)
Definition moved h φ γ : gated :=
  mk_gated φ (g_main γ) (g_run γ) (g_conf γ) (upd_hart h Acquire1 (g_pc γ)).
Definition with_fine φ γ : gated := mk_gated φ (g_main γ) (g_run γ) (g_conf γ) (g_pc γ).

(** Hart [h] is through with the barrier in front of its next part. *)
Definition open h γ : Prop := gate_at (sy_phase (g_sys γ) h) = NoGate ∨ g_pc γ h = Done.

Inductive gstep : gated → gated → Prop :=
| G_wait h γ x pc x' : is_hart h → get_bar h γ = Some x → Barrier.wait_barrier (g_pc γ h) x = Some (pc, x') →
    gstep γ (waited h pc x' γ)
| G_begin h γ f q m : is_hart h → g_build γ h = None → build_begin (sy_phase (g_sys γ) h) = Some f → open h γ →
    run_segment h (g_sys γ) f = Ok q m →
    gstep γ (with_fine (mk_fine (after h m (sy_xr (g_sys γ) h) (sy_phase (g_sys γ) h) (g_sys γ))
                          (upd_hart h (Some (mk_client (mk_thread Idle []) q)) (g_build γ))) γ)
| G_access h γ c c' w : is_hart h → g_build γ h = Some c → client_access c (sy_world (g_sys γ)) = Ok c' w →
    gstep γ (with_fine (mk_fine (with_memory w (g_sys γ)) (upd_hart h (Some c') (g_build γ))) γ)
| G_end h γ t x p m : is_hart h → g_build γ h = Some (mk_client t (Ret x)) → pc t = Idle →
    run_segment h (g_sys γ) (build_end (sy_phase (g_sys γ) h) x) = Ok p m →
    gstep γ (moved h (mk_fine (after h m (sy_xr (g_sys γ) h) p (g_sys γ)) (upd_hart h None (g_build γ))) γ)
| G_part h γ f p m : is_hart h → g_build γ h = None → build_begin (D:=D) (U:=U) (X:=X) (sy_phase (g_sys γ) h) = None →
    segment boot_msg (sy_phase (g_sys γ) h) h = Some f → open h γ → run_segment h (g_sys γ) f = Ok p m →
    gstep γ (moved h (mk_fine (after h m (sy_xr (g_sys γ) h) p (g_sys γ)) (g_build γ)) γ)
| G_panic h γ f e m : is_hart h → g_build γ h = None → build_begin (D:=D) (U:=U) (X:=X) (sy_phase (g_sys γ) h) = None →
    segment boot_msg (sy_phase (g_sys γ) h) h = Some f → open h γ → run_segment h (g_sys γ) f = Panic e m →
    gstep γ (moved h (mk_fine (after h m (sy_xr (g_sys γ) h) (PPanic (rank (sy_phase (g_sys γ) h))) (g_sys γ)) (g_build γ)) γ)
| G_guest h γ σ' : is_hart h → (5 < rank (sy_phase (g_sys γ) h))%nat → step boot_msg h (g_sys γ) σ' →
    gstep γ (with_fine (mk_fine σ' (g_build γ)) γ)
| G_plic γ d : gstep γ (with_fine (mk_fine (with_memory (set_plic d (sy_world (g_sys γ))) (g_sys γ)) (g_build γ)) γ).

(** The machine as it is handed to main, with the barriers as they were linked. *)
Definition ginitial γ : Prop :=
  fine_initial (g_fine γ) ∧ g_main γ = BARRIER_INITIALIZER DTB_NR_CPUS ∧ g_run γ = BARRIER_INITIALIZER DTB_NR_CPUS ∧
  g_conf γ = ∅ ∧ ∀ h, is_hart h → g_pc γ h = Acquire1.
Definition greachable γ : Prop := ∃ γ0, ginitial γ0 ∧ rtc gstep γ0 γ.

(** ** The calls of a barrier are rounds of it *)

(** A barrier in front of the parts [lo] to [hi]: where a hart with [r] parts behind
    it is in its calls of that barrier, and which call it is. *)
Definition place (lo hi r : nat) (pc : bar_pc) : bar_pc * Z :=
  if (r <? lo)%nat then (Acquire1, 1)
  else if (r <=? hi)%nat then (pc, Z.of_nat (r - lo) + 1) else (Done, Z.of_nat (hi - lo) + 1).
Definition place_of lo hi γ h : bar_pc * Z := place lo hi (rank (sy_phase (g_sys γ) h)) (g_pc γ h).
Definition gate_rounds (lo hi : nat) (x : barrier) γ : rounds :=
  mk_rounds (Barrier.mk_state x [(place_of lo hi γ 0).1; (place_of lo hi γ 1).1]) [(place_of lo hi γ 0).2; (place_of lo hi γ 1).2].
Definition in_rounds lo hi x γ : Prop := ∃ sched, gate_rounds lo hi x γ = run round_step sched (start 2).

(** Nobody passes the barrier before the other hart has come as far. *)
Lemma in_rounds_pass lo hi x γ h h' : in_rounds lo hi x γ → is_hart h → is_hart h' →
  (lo <= rank (sy_phase (g_sys γ) h) <= hi)%nat → g_pc γ h = Done →
  (rank (sy_phase (g_sys γ) h) <= rank (sy_phase (g_sys γ) h'))%nat.
Proof.
  intros (sched & E) Hh Hh' Hr Hd. destruct (decide (h = h')) as [->|Hne]; [done|].
  pose proof (rounds_in_step sched) as H. rewrite <- E in H. cbn [gate_rounds r_bar Barrier.harts calls] in H.
  assert (Hl : ∀ j, is_hart j → [(place_of lo hi γ 0).1; (place_of lo hi γ 1).1] !! Z.to_nat j = Some (place_of lo hi γ j).1 ∧
    [(place_of lo hi γ 0).2; (place_of lo hi γ 1).2] !! Z.to_nat j = Some (place_of lo hi γ j).2)
    by (intros j Hj; by destruct (is_hart_cases j Hj) as [->| ->]).
  destruct (Hl h Hh) as [A1 A2], (Hl h' Hh') as [B1 B2].
  specialize (H _ _ _ _ _ _ A1 B1 A2 B2 (is_hart_nat _ _ Hh' Hh Hne)). revert H. unfold place_of, place. rewrite Hd.
  rewrite (proj2 (Nat.ltb_ge _ _)), (proj2 (Nat.leb_le _ _)) by lia.
  destruct (Nat.ltb_spec (rank (sy_phase (g_sys γ) h')) lo); [|destruct (Nat.leb_spec (rank (sy_phase (g_sys γ) h')) hi)];
    cbn [fst snd]; unfold calls_left, calls_entered; rewrite decide_True by done; cbn [Barrier.entered]; [lia| |lia].
  destruct (Barrier.entered _); lia.
Qed.

(** What happens to the places when one hart moves. *)
Lemma gate_rounds_part lo hi x γ γ' h : is_hart h → in_rounds lo hi x γ → (lo <= hi)%nat →
  (∀ h', h' ≠ h → rank (sy_phase (g_sys γ') h') = rank (sy_phase (g_sys γ) h') ∧ g_pc γ' h' = g_pc γ h') →
  rank (sy_phase (g_sys γ') h) = S (rank (sy_phase (g_sys γ) h)) → g_pc γ' h = Acquire1 →
  ((lo <= rank (sy_phase (g_sys γ) h) <= hi)%nat → g_pc γ h = Done) → in_rounds lo hi x γ'.
Proof.
  intros Hh (sched & E) Hlh Ho Er Ep Hd.
  assert (Hp : ∀ h', h' ≠ h → place_of lo hi γ' h' = place_of lo hi γ h')
    by (intros h' Hne; unfold place_of; by destruct (Ho h' Hne) as [-> ->]).
  assert (Hc : place_of lo hi γ' h = place_of lo hi γ h ∨
    (place_of lo hi γ h).1 = Done ∧ place_of lo hi γ' h = (Acquire1, (place_of lo hi γ h).2 + 1)).
  { unfold place_of, place. rewrite Er, Ep. set (r := rank (sy_phase (g_sys γ) h)) in *.
    destruct (Nat.ltb_spec (S r) lo), (Nat.ltb_spec r lo), (Nat.leb_spec (S r) hi), (Nat.leb_spec r hi); try lia; try (by left).
    - left. f_equal. lia.
    - right. rewrite Hd by lia. split; [done|]. cbn [snd]. f_equal. lia.
    - left. rewrite Hd by lia. f_equal. lia. }
  destruct Hc as [Hc|[Hc1 Hc2]].
  - exists sched. rewrite <- E. unfold gate_rounds.
    destruct (is_hart_cases h Hh) as [->| ->]; rewrite Hc, Hp by lia; done.
  - exists (sched ++ [Z.to_nat h]). rewrite run_app, <- E. unfold gate_rounds.
    destruct (is_hart_cases h Hh) as [->| ->]; rewrite Hc2, Hp by lia; unfold run, round_step; cbn; rewrite Hc1; done.
Qed.

Lemma gate_rounds_wait lo hi x x' γ γ' h pc : is_hart h → in_rounds lo hi x γ →
  g_sys γ' = g_sys γ → g_pc γ' = upd_hart h pc (g_pc γ) → (lo <= rank (sy_phase (g_sys γ) h) <= hi)%nat →
  Barrier.wait_barrier (g_pc γ h) x = Some (pc, x') → in_rounds lo hi x' γ'.
Proof.
  intros Hh (sched & E) Es Ep Hr Hw. exists (sched ++ [Z.to_nat h]). rewrite run_app, <- E.
  assert (Hp : ∀ h', h' ≠ h → place_of lo hi γ' h' = place_of lo hi γ h')
    by (intros h' Hne; unfold place_of; by rewrite Es, Ep, upd_hart_ne).
  assert (Hc : ∃ n, place_of lo hi γ h = (g_pc γ h, n) ∧ place_of lo hi γ' h = (pc, n)).
  { unfold place_of, place. rewrite Es, Ep, upd_hart_eq, (proj2 (Nat.ltb_ge _ _)), (proj2 (Nat.leb_le _ _)) by lia. eauto. }
  destruct Hc as (n & Hc & Hc'). assert (Hn : g_pc γ h ≠ Done) by (by intros E'; rewrite E' in Hw).
  unfold run. cbn [foldl]. erewrite round_step_wait; [| |exact Hn].
  - unfold gate_rounds. cbn [r_bar calls].
    destruct (is_hart_cases h Hh) as [->| ->]; rewrite Hc, Hc', Hp by lia; cbn [fst snd];
      by erewrite bar_step_at by (exact Hw || reflexivity).
  - unfold gate_rounds. cbn. destruct (is_hart_cases h Hh) as [->| ->]; by rewrite Hc.
Qed.

(** A barrier at which no hart has moved. *)
Lemma in_rounds_same lo hi x γ γ' : (∀ h, is_hart h → place_of lo hi γ' h = place_of lo hi γ h) →
  in_rounds lo hi x γ → in_rounds lo hi x γ'.
Proof.
  intros Hp (sched & E). exists sched. rewrite <- E. unfold gate_rounds. by rewrite !Hp by (by vm_compute).
Qed.

Lemma place_idle lo hi r r' pc pc' : (r = r' ∧ r < lo ∨ hi < r ∧ hi < r')%nat → (lo <= hi)%nat →
  place lo hi r pc = place lo hi r' pc'.
Proof.
  intros Hr Hlh. unfold place. destruct (Nat.ltb_spec r lo), (Nat.ltb_spec r' lo); try lia; [done|].
  by rewrite !(proj2 (Nat.leb_gt _ _)) by lia.
Qed.

Lemma waited_fine h pc x γ : g_fine (waited h pc x γ) = g_fine γ.
Proof. unfold waited. by destruct (gate_at _). Qed.
Lemma waited_sys h pc x γ : g_sys (waited h pc x γ) = g_sys γ.
Proof. unfold g_sys. by rewrite waited_fine. Qed.
Lemma waited_pc h pc x γ : gate_at (sy_phase (g_sys γ) h) ≠ NoGate → g_pc (waited h pc x γ) = upd_hart h pc (g_pc γ).
Proof. unfold waited. by destruct (gate_at _). Qed.

(** A call of one barrier does not count for another one. *)
Lemma in_rounds_waited lo hi x γ h pc y : gate_at (sy_phase (g_sys γ) h) ≠ NoGate → (lo <= hi)%nat →
  (rank (sy_phase (g_sys γ) h) < lo ∨ hi < rank (sy_phase (g_sys γ) h))%nat →
  in_rounds lo hi x γ → in_rounds lo hi x (waited h pc y γ).
Proof.
  intros Hg Hlh Hr. apply in_rounds_same. intros h' Hh'. unfold place_of. rewrite waited_sys, waited_pc by done.
  destruct (decide (h' = h)) as [->|]; [|by rewrite upd_hart_ne]. apply place_idle; [lia|done].
Qed.

Context `{!ImageOk L} `{!DeploymentOk dp}.

(** ** The invariant *)

(** The barrier of the VM of hart 0. *)
Definition vm_bar γ : barrier := default (bar (vm_of 0)) (g_conf γ !! vm_slot 0).

Record ginv γ : Prop := {
  gi_reach : fine_reachable (g_fine γ);
  gi_done h : is_hart h → is_Some (g_build γ h) → g_pc γ h = Done;
  gi_main : in_rounds 1 3 (g_main γ) γ;
  gi_run : in_rounds 4 4 (g_run γ) γ;
  gi_conf : vm_slot 0 = vm_slot 1 → in_rounds 5 5 (vm_bar γ) γ
}.

Lemma ginitial_inv γ : ginitial γ → ginv γ.
Proof.
  intros ([Hi Hn] & Em & Er & Ec & Hp).
  assert (Hpl : ∀ lo hi h, (1 <= lo)%nat → is_hart h → place_of lo hi γ h = (Acquire1, 1)).
  { intros lo hi h Hlo Hh. unfold place_of, g_sys. rewrite (in_phase _ Hi h Hh). unfold place.
    by rewrite (proj2 (Nat.ltb_lt _ _)) by (cbn; lia). }
  assert (Hr : ∀ lo hi, (1 <= lo)%nat → in_rounds lo hi (mk_barrier 2 2 0 0) γ).
  { intros lo hi Hlo. exists []. unfold gate_rounds. by rewrite !Hpl by (lia || by vm_compute). }
  split.
  - by exists (g_fine γ).
  - intros h Hh. unfold g_build. rewrite (Hn h Hh). by intros [].
  - rewrite Em. apply Hr. lia.
  - rewrite Er. apply Hr. lia.
  - intros E. unfold vm_bar. rewrite Ec, lookup_empty. cbn [default from_option id].
    rewrite (vm_barrier 0) by (by vm_compute). unfold vm_harts. rewrite decide_True by done. apply Hr. lia.
Qed.

(** The invariant of SystemInv holds of a machine that differs in memory only. *)
Lemma ginv_ghost γ : ginv γ → ∃ m (s : kmem_state), inv (ghost m s (g_sys γ)).
Proof.
  intros G. destruct (fine_reachable_inv _ (gi_reach _ G)) as [[_ Hinv]|(m & k & all & fl & B)].
  - exists (w_mem (sy_world (g_sys γ))), (w_kmem (sy_world (g_sys γ))). by rewrite ghost_id.
  - exists m, k. apply B.
Qed.
Lemma ginv_config γ h : ginv γ → is_hart h → (4 < rank (sy_phase (g_sys γ) h))%nat → w_config (sy_world (g_sys γ)) = barred vm_table.
Proof.
  intros G Hh Hr. destruct (ginv_ghost γ G) as (m & k & Hinv). exact (proj2 (booted_shared h (ghost m k (g_sys γ)) Hh (proj1 Hinv) Hr)).
Qed.

(** A hart that is through with its barrier may pass it. *)
Lemma ginv_pass γ h : ginv γ → is_hart h → (rank (sy_phase (g_sys γ) h) <= 5)%nat →
  open h γ → (∀ k, sy_phase (g_sys γ) h ≠ PPanic k) → may_pass h (g_sys γ).
Proof.
  intros G Hh Hr Hd Hnp h' Hh' Hvm. unfold open in Hd. pose proof (ginv_config γ h G Hh) as Hcf.
  destruct (decide (h = h')) as [->|Hne]; [done|].
  destruct (sy_phase (g_sys γ) h) as [| | | | |i| | |k] eqn:Ep; cbn [rank] in Hr; try lia;
    try (by destruct (Hnp k)); [cbn; lia|..]; destruct Hd as [?|Hd]; try done.
  1-3: rewrite <- Ep; apply (in_rounds_pass 1 3 (g_main γ)); try done; [apply G|rewrite Ep; cbn; lia].
  - rewrite <- Ep. apply (in_rounds_pass 4 4 (g_run γ)); try done; [apply G|rewrite Ep; cbn; lia].
  - destruct Hvm as (k & Hk & Hk'); [cbn; lia|].
    rewrite Hcf in Hk, Hk' by (cbn; lia).
    unfold barred in Hk, Hk'. rewrite config_loop_set_bar, co_loop in Hk, Hk' by done.
    rewrite <- Ep. apply (in_rounds_pass 5 5 (vm_bar γ)); try done; [|rewrite Ep; cbn; lia].
    apply G. destruct (is_hart_cases h Hh) as [->| ->], (is_hart_cases h' Hh') as [->| ->]; congruence.
Qed.

(** The barrier a hart at vm_run's last wait uses. *)
Lemma ginv_conf γ h i : ginv γ → is_hart h → sy_phase (g_sys γ) h = PStart i →
  conf_of h γ = Some (vm_slot h) ∧ get_bar h γ = Some (default (bar (vm_of h)) (g_conf γ !! vm_slot h)).
Proof.
  intros G Hh Hp. destruct (ginv_ghost γ G) as (m & k & Hinv).
  destruct (inv_running_late h _ Hinv Hh ltac:(change (4 < rank (sy_phase (g_sys γ) h))%nat; rewrite Hp; cbn; lia)) as (tabs & fl & pages & Hl).
  assert (Hv := hi_vcpu _ _ _ _ _ (l_hart _ _ _ _ Hl h Hh)).
  change (w_vcpus (sy_world (ghost m k (g_sys γ)))) with (w_vcpus (sy_world (g_sys γ))) in Hv.
  change (sy_phase (ghost m k (g_sys γ)) h) with (sy_phase (g_sys γ) h) in Hv. rewrite Hp in Hv. specialize (Hv ltac:(by left)).
  assert (Hc : conf_of h γ = Some (vm_slot h)) by (unfold conf_of; by rewrite Hv). split; [done|].
  unfold get_bar. rewrite Hp. cbn [gate_at]. rewrite Hc. cbn [mbind option_bind]. unfold conf_bar.
  destruct (g_conf γ !! vm_slot h); [done|].
  by rewrite (ginv_config γ h G Hh ltac:(rewrite Hp; cbn; lia)), co_conf by done.
Qed.

Lemma ginv_vm_bar γ h i x : ginv γ → is_hart h → sy_phase (g_sys γ) h = PStart i → get_bar h γ = Some x →
  vm_slot 0 = vm_slot 1 → x = vm_bar γ.
Proof.
  intros G Hh Hp Hx E. rewrite (proj2 (ginv_conf γ h i G Hh Hp)) in Hx. injection Hx as <-. unfold vm_bar.
  assert (Es : vm_slot h = vm_slot 0) by (by destruct (is_hart_cases h Hh) as [->| ->]).
  by rewrite Es, (same_vm h 0 Hh ltac:(by vm_compute) Es).
Qed.

Lemma gstep_wait γ h x pc x' : ginv γ → is_hart h → get_bar h γ = Some x →
  Barrier.wait_barrier (g_pc γ h) x = Some (pc, x') → ginv (waited h pc x' γ).
Proof.
  intros G Hh Hx Hw. pose proof G as [Gr Gd Gm Gu Gc].
  assert (Hg : gate_at (sy_phase (g_sys γ) h) ≠ NoGate) by (by intros E; unfold get_bar in Hx; rewrite E in Hx).
  assert (Hother : ∀ lo hi y, (lo <= hi)%nat → (rank (sy_phase (g_sys γ) h) < lo ∨ hi < rank (sy_phase (g_sys γ) h))%nat →
    in_rounds lo hi y γ → in_rounds lo hi y (waited h pc x' γ)) by (intros; by apply in_rounds_waited).
  assert (Hown : ∀ lo hi, (lo <= rank (sy_phase (g_sys γ) h) <= hi)%nat → in_rounds lo hi x γ →
    in_rounds lo hi x' (waited h pc x' γ))
    by (intros lo hi Hr Hi; eapply gate_rounds_wait; [done|exact Hi|apply waited_sys|by apply waited_pc|done|exact Hw]).
  assert (Hd : ∀ h', is_hart h' → is_Some (g_build γ h') → upd_hart h pc (g_pc γ) h' = Done).
  { intros h' Hh' Hb. destruct (decide (h' = h)) as [->|]; [|rewrite upd_hart_ne by done; by apply Gd].
    by rewrite (Gd h Hh Hb) in Hw. }
  pose proof (ginv_conf γ h) as Hcf. pose proof (ginv_vm_bar γ h) as Hvb. unfold get_bar, waited in *.
  destruct (sy_phase (g_sys γ) h) as [| | | | |i| | |k] eqn:Ep; try done; cbn [gate_at rank] in *.
  1-3: injection Hx as <-; split; [done|exact Hd|apply Hown; [lia|done]|apply Hother; [lia|lia|done]|
    intros E; apply Hother; [lia|lia|by apply Gc]].
  - injection Hx as <-. split; [done|exact Hd|apply Hother; [lia|lia|done]|apply Hown; [lia|done]|
      intros E; apply Hother; [lia|lia|by apply Gc]].
  - destruct (Hcf i G Hh eq_refl) as [Ek _]. pose proof (Hvb i x G Hh eq_refl Hx) as Evm. rewrite Ek in *.
    split; [done|exact Hd|apply Hother; [lia|lia|done]|apply Hother; [lia|lia|done]|].
    intros E. assert (Es : vm_slot h = vm_slot 0) by (by destruct (is_hart_cases h Hh) as [->| ->]).
    unfold vm_bar. cbn [g_conf]. rewrite Es, lookup_insert_eq. rewrite Es in Hown. apply Hown; [lia|].
    rewrite (Evm E). by apply Gc.
Qed.

(** A part of main leads to the next. *)
Lemma segment_rank p h f q (m m' : machine D U X) : segment boot_msg p h = Some f → f m = Ok q m' → rank q = S (rank p).
Proof.
  intros Hf Hr. destruct p; cbn [segment] in Hf; try discriminate Hf; apply (inj Some) in Hf as <-.
  all: repeat (apply bind_ok_inv in Hr as (? & ? & _ & Hr)); by injection Hr as <- _.
Qed.

(** A part of main begins when SystemFine.v lets it, and runs to its end. *)
Lemma ginv_open γ h : ginv γ → is_hart h → open h γ →
  (∃ f, segment (D:=D) (U:=U) (X:=X) boot_msg (sy_phase (g_sys γ) h) h = Some f) → may_pass h (g_sys γ).
Proof.
  intros G Hh Hd [f Hf]. apply ginv_pass; try done; destruct (sy_phase (g_sys γ) h); try discriminate Hf; cbn; done || lia.
Qed.
Lemma begin_segment p h (f : cmd (machine D U X) (prog Z)) : build_begin p = Some f → ∃ g, segment (D:=D) (U:=U) (X:=X) boot_msg p h = Some g.
Proof. intros Hf. destruct p; cbn [segment build_begin] in *; try discriminate Hf; by eexists. Qed.
Lemma ginv_part γ h : ginv γ → is_hart h → g_build γ h = None → open h γ →
  (∀ f, build_begin (sy_phase (g_sys γ) h) = Some f → may_pass h (g_sys γ) ∧ ∃ q m, run_segment h (g_sys γ) f = Ok q m) ∧
  (∀ f, build_begin (D:=D) (U:=U) (X:=X) (sy_phase (g_sys γ) h) = None → segment boot_msg (sy_phase (g_sys γ) h) h = Some f →
     may_pass h (g_sys γ) ∧ ∃ p m, run_segment h (g_sys γ) f = Ok p m).
Proof.
  intros G Hh Hb Hd. pose proof (fine_safe _ h (fine_reachable_inv _ (gi_reach _ G)) Hh) as Hs.
  unfold g_build in Hb. rewrite Hb in Hs. destruct Hs as (H1 & H2 & _). split.
  - intros f Hf. assert (Hp : may_pass h (g_sys γ)) by (by apply ginv_open; [..|eapply begin_segment]). split; [done|by apply H1].
  - intros f Hn Hf. assert (Hp : may_pass h (g_sys γ)) by (apply ginv_open; [done..|by eexists]). split; [done|by apply H2].
Qed.

Lemma fine_reachable_step φ φ' : fine_reachable φ → fine_step φ φ' → fine_reachable φ'.
Proof. intros (φ0 & Hi & Hr) Hs. exists φ0. split; [done|]. by eapply rtc_r. Qed.

(** A hart comes to the end of a part. *)
Lemma ginv_moved γ h m p b : ginv γ → is_hart h → open h γ → (sy_phase (g_sys γ) h = PInit ∨ g_pc γ h = Done) →
  rank p = S (rank (sy_phase (g_sys γ) h)) → b h = None → (∀ h', h' ≠ h → b h' = g_build γ h') →
  let φ' := mk_fine (after h m (sy_xr (g_sys γ) h) p (g_sys γ)) b in fine_step (g_fine γ) φ' → ginv (moved h φ' γ).
Proof.
  intros G Hh Hd Hat Hk Hb Hbo φ' Hs.
  assert (Hp : ∀ lo hi x, (1 <= lo <= hi)%nat → in_rounds lo hi x γ → in_rounds lo hi x (moved h φ' γ)).
  { intros lo hi x Hlo Hi. eapply (gate_rounds_part lo hi x γ _ h); try done; [lia|..]; unfold g_sys; cbn [moved g_fine g_pc fi_sys after sy_phase φ'].
    - intros h' Hne. by rewrite !upd_hart_ne.
    - by rewrite upd_hart_eq.
    - by rewrite upd_hart_eq.
    - intros Hr. destruct Hat as [E|]; [|done]. unfold g_sys in E. rewrite E in Hr. cbn in Hr. lia. }
  pose proof G as [Gr Gd Gm Gu Gc].
  split; [by eapply fine_reachable_step| |apply Hp; [lia|done]..|intros E; apply Hp; [lia|by apply Gc]].
  intros h' Hh'. unfold g_build. cbn [moved g_fine fi_build g_pc φ']. destruct (decide (h' = h)) as [->|Hne].
  - rewrite Hb. by intros [].
  - rewrite Hbo, upd_hart_ne by done. by apply Gd.
Qed.

(** Guest code and traps happen behind all barriers. *)
Lemma step_behind h (σ σ' : sys) : (5 < rank (sy_phase σ h))%nat → is_hart h → step boot_msg h σ σ' →
  (5 < rank (sy_phase σ' h))%nat ∧ ∀ h', h' ≠ h → sy_phase σ' h' = sy_phase σ h'.
Proof.
  intros Hr Hh Hst.
  destruct Hst as [σ f p m Hf _ _|σ f e m Hf _ _|σ pc s Hp _|σ xs m cs Hp Hx Hw Hcs|σ cs cl pc s Hp Hcs Hca Hv|σ cs cl e s Hp Hcs Hca Hv];
    try (destruct (sy_phase σ h); try done; cbn in Hr; lia);
    (split; [cbn [after_world after sy_phase]; rewrite upd_hart_eq; cbn; lia|]);
    intros h' Hne; cbn [after_world after sy_phase]; by rewrite upd_hart_ne.
Qed.

Lemma ginv_behind γ φ' : ginv γ → fine_step (g_fine γ) φ' →
  (∀ h, is_hart h → sy_phase (fi_sys φ') h = sy_phase (g_sys γ) h ∨
     (5 < rank (sy_phase (g_sys γ) h))%nat ∧ (5 < rank (sy_phase (fi_sys φ') h))%nat) →
  (∀ h, is_hart h → is_Some (fi_build φ' h) → is_Some (g_build γ h) ∨ g_pc γ h = Done) → ginv (with_fine φ' γ).
Proof.
  intros [Gr Gd Gm Gu Gc] Hs Hp Hb.
  assert (H : ∀ lo hi x, (lo <= hi <= 5)%nat → in_rounds lo hi x γ → in_rounds lo hi x (with_fine φ' γ)).
  { intros lo hi x Hlh. apply in_rounds_same. intros h Hh. unfold place_of. change (g_sys (with_fine φ' γ)) with (fi_sys φ').
    cbn [with_fine g_pc]. destruct (Hp h Hh) as [->|[H1 H2]]; [done|]. apply place_idle; lia. }
  split; [by eapply fine_reachable_step| |apply H; [lia|done]..|intros E; apply H; [lia|by apply Gc]].
  intros h Hh Hsm. destruct (Hb h Hh Hsm) as [?|?]; [by apply Gd|done].
Qed.

Lemma begin_gate p (f : cmd (machine D U X) (prog Z)) : build_begin p = Some f → gate_at p ≠ NoGate ∧ p ≠ PInit.
Proof. intros Hf. by destruct p. Qed.

Lemma behind_idle γ h : ginv γ → is_hart h → (5 < rank (sy_phase (g_sys γ) h))%nat → g_build γ h = None.
Proof.
  intros G Hh Hk. destruct (g_build γ h) as [c|] eqn:Hb; [|done]. unfold g_build in Hb. unfold g_sys in Hk.
  destruct (fine_reachable_inv _ (gi_reach _ G)) as [[Hn _]|(m & k & all & fl & B)]; [by rewrite (Hn h Hh) in Hb|].
  destruct (bg_at _ _ (bz_begun _ _ _ _ _ B h c Hh Hb)) as [E|(E & _)]; rewrite E in Hk; cbn in Hk; lia.
Qed.

(** Every step keeps the invariant, and is a step of SystemFine.v or none at all. *)
Lemma gstep_inv γ γ' : ginv γ → gstep γ γ' →
  ginv γ' ∧ (g_fine γ' = g_fine γ ∨ fine_step (g_fine γ) (g_fine γ')).
Proof.
  intros G Hst. pose proof (fine_reachable_inv _ (gi_reach _ G)) as I. assert (Ef : g_fine γ = mk_fine (g_sys γ) (g_build γ)) by (unfold g_sys, g_build; by destruct (g_fine γ)).
  destruct Hst as [h γ x pc x' Hh Hx Hw|h γ f q m Hh Hb Hf Hd Hr|h γ c c' w Hh Hb Ha|h γ t x p m Hh Hb Ep Hr|
    h γ f p m Hh Hb Hn Hf Hd Hr|h γ f e m Hh Hb Hn Hf Hd Hr|h γ σ' Hh Hk Hst|γ d].
  - split; [by eapply gstep_wait|]. left. apply waited_fine.
  - destruct (proj1 (ginv_part γ h G Hh Hb Hd) f Hf) as [Hp _].
    assert (Hs : fine_step (g_fine γ) (mk_fine (after h m (sy_xr (g_sys γ) h) (sy_phase (g_sys γ) h) (g_sys γ))
      (upd_hart h (Some (mk_client (mk_thread Idle []) q)) (g_build γ)))) by (rewrite Ef; by eapply F_begin).
    split; [|by right]. apply ginv_behind; [done|exact Hs|..].
    + intros h' Hh'. left. cbn [fi_sys after sy_phase]. destruct (decide (h' = h)) as [->|]; [by rewrite upd_hart_eq|by rewrite upd_hart_ne].
    + intros h' Hh'. cbn [fi_build]. destruct (decide (h' = h)) as [->|]; [|rewrite upd_hart_ne by done; by left].
      intros _. right. destruct Hd as [Hd|]; [|done]. by destruct (begin_gate _ _ Hf).
  - assert (Hs : fine_step (g_fine γ) (mk_fine (with_memory w (g_sys γ)) (upd_hart h (Some c') (g_build γ)))) by (rewrite Ef; by eapply F_access).
    split; [|by right]. apply ginv_behind; [done|exact Hs|intros h' Hh'; by left|].
    intros h' Hh'. cbn [fi_build]. left. destruct (decide (h' = h)) as [->|]; [by rewrite Hb|by rewrite upd_hart_ne in *].
  - assert (Hs : fine_step (g_fine γ) (mk_fine (after h m (sy_xr (g_sys γ) h) p (g_sys γ)) (upd_hart h None (g_build γ))))
      by (rewrite Ef; by eapply F_end).
    split; [|by right]. pose proof (gi_done _ G h Hh ltac:(by rewrite Hb)) as Hdn.
    destruct (end_runs (g_fine γ) h t x I Hh Hb Ep) as (p' & m' & Hr' & Hk).
    change (run_segment h (g_sys γ) (build_end (sy_phase (g_sys γ) h) x) = Ok p' m') in Hr'. rewrite Hr in Hr'. injection Hr' as <- <-.
    apply ginv_moved; try done; [by right|by right|apply upd_hart_eq|]. intros h' Hne. by rewrite upd_hart_ne.
  - destruct (proj2 (ginv_part γ h G Hh Hb Hd) f Hn Hf) as [Hp _].
    assert (Hs : fine_step (g_fine γ) (mk_fine (after h m (sy_xr (g_sys γ) h) p (g_sys γ)) (g_build γ)))
      by (rewrite Ef; eapply F_hart; [done..|by eapply S_boot]).
    split; [|by right]. apply ginv_moved; try done; [|by eapply segment_rank].
    destruct Hd as [Hd|]; [|by right]. left. by destruct (sy_phase (g_sys γ) h); try discriminate Hf.
  - destruct (proj2 (ginv_part γ h G Hh Hb Hd) f Hn Hf) as (_ & p & m' & Hr'). congruence.
  - destruct (step_behind h _ _ Hk Hh Hst) as [H1 H2].
    pose proof (behind_idle γ h G Hh Hk) as Hb.
    assert (Hs : fine_step (g_fine γ) (mk_fine σ' (g_build γ))).
    { rewrite Ef. eapply F_hart; [exact Hh|exact Hb| |exact Hst]. by destruct (sy_phase (g_sys γ) h); try done; cbn in Hk; lia. }
    split; [|by right]. apply ginv_behind; [done|exact Hs| |intros ? ?; by left].
    intros h' Hh'. destruct (decide (h' = h)) as [->|]; [by right|left; by apply H2].
  - assert (Hs : fine_step (g_fine γ) (mk_fine (with_memory (set_plic d (sy_world (g_sys γ))) (g_sys γ)) (g_build γ))) by (rewrite Ef; apply F_plic).
    split; [|by right]. apply ginv_behind; [done|exact Hs|intros h Hh; by left|intros ? ?; by left].
Qed.

Lemma greachable_inv γ : greachable γ → ginv γ.
Proof.
  intros (γ0 & Hi & Hr). apply ginitial_inv in Hi. induction Hr as [|γ1 γ2 γ3 Hst _ IH]; [done|].
  apply IH. by eapply gstep_inv.
Qed.

(** C6: the barriers of lib/lock.c implement the ideal ones.  In every state the
    machine can reach when the harts execute wait_barrier access by access on the
    three kinds of barriers, and build page tables access by access, interleaved with
    each other and with everything else: the machine is in a state SystemFine.v can
    reach, and every step is one of SystemFine.v's or moves a hart inside
    wait_barrier only; and a hart that has come out of wait_barrier finds all harts it
    waits for as far as itself, and its next part begins, or runs to its end, without
    a panic, a fault or an endless loop. *)
Theorem barriers_implement γ : greachable γ →
  fine_reachable (g_fine γ) ∧
  (∀ γ', gstep γ γ' → g_fine γ' = g_fine γ ∨ fine_step (g_fine γ) (g_fine γ')) ∧
  ∀ h, is_hart h → g_build γ h = None → open h γ →
    (∀ f, build_begin (sy_phase (g_sys γ) h) = Some f → may_pass h (g_sys γ) ∧ ∃ q m, run_segment h (g_sys γ) f = Ok q m) ∧
    (∀ f, build_begin (D:=D) (U:=U) (X:=X) (sy_phase (g_sys γ) h) = None → segment boot_msg (sy_phase (g_sys γ) h) h = Some f →
       may_pass h (g_sys γ) ∧ ∃ p m, run_segment h (g_sys γ) f = Ok p m).
Proof.
  intros G%greachable_inv. split; [apply G|]. split.
  - intros γ' Hst. by apply (gstep_inv γ).
  - intros h Hh Hb Hd. by apply ginv_part.
Qed.

(** ** A boot that goes through *)

(** The harts wait at one and the same barrier. *)
Definition together γ : Prop :=
  gate_at (sy_phase (g_sys γ) 0) = gate_at (sy_phase (g_sys γ) 1) ∧ gate_at (sy_phase (g_sys γ) 0) ≠ NoGate ∧
  (gate_at (sy_phase (g_sys γ) 0) = ConfBar → conf_of 0 γ = conf_of 1 γ ∧ is_Some (conf_of 0 γ)).

(** [γ'] is [γ] after steps at the barrier [g] only. *)
Record at_gate (g : gate) γ γ' : Prop := {
  ag_steps : rtc gstep γ γ';
  ag_fine : g_fine γ' = g_fine γ;
  ag_main : g ≠ MainBar → g_main γ' = g_main γ;
  ag_run : g ≠ RunBar → g_run γ' = g_run γ;
  ag_conf : g ≠ ConfBar → g_conf γ' = g_conf γ
}.

Lemma ag_sys g γ γ' : at_gate g γ γ' → g_sys γ' = g_sys γ.
Proof. intros []. unfold g_sys. by f_equal. Qed.
Lemma at_gate_refl g γ : at_gate g γ γ.
Proof. by split. Qed.
Lemma at_gate_trans g γ1 γ2 γ3 : at_gate g γ1 γ2 → at_gate g γ2 γ3 → at_gate g γ1 γ3.
Proof.
  intros [A1 A2 A3 A4 A5] [B1 B2 B3 B4 B5]. split; [by etrans|congruence|..]; intros Hg.
  - by rewrite B3, A3.
  - by rewrite B4, A4.
  - by rewrite B5, A5.
Qed.
Lemma at_gate_wait h γ x pc x' : is_hart h → get_bar h γ = Some x → Barrier.wait_barrier (g_pc γ h) x = Some (pc, x') →
  at_gate (gate_at (sy_phase (g_sys γ) h)) γ (waited h pc x' γ).
Proof.
  intros Hh Hx Hw. split; [apply rtc_once; by eapply G_wait|apply waited_fine|..]; unfold waited; by destruct (gate_at _).
Qed.

Lemma get_bar_waited γ h h' pc x : together γ → is_hart h → is_hart h' → get_bar h' (waited h pc x γ) = Some x.
Proof.
  intros (Eg & Hn & Hc) Hh Hh'. unfold get_bar, conf_of, conf_bar. rewrite waited_sys.
  assert (E : ∀ j, is_hart j → gate_at (sy_phase (g_sys γ) j) = gate_at (sy_phase (g_sys γ) 0) ∧
    (gate_at (sy_phase (g_sys γ) 0) = ConfBar → conf_of j γ = conf_of 0 γ)).
  { intros j Hj. destruct (is_hart_cases j Hj) as [->| ->]; [done|]. split; [done|]. intros H. by destruct (Hc H). }
  destruct (E h Hh) as [E1 C1], (E h' Hh') as [E2 C2]. unfold waited. rewrite E1, E2.
  destruct (gate_at (sy_phase (g_sys γ) 0)); try done. rewrite (C1 eq_refl).
  destruct (Hc eq_refl) as [_ [k Hk]]. rewrite Hk. cbn [g_conf]. specialize (C2 eq_refl). rewrite Hk in C2.
  unfold conf_of in C2. rewrite C2. cbn [mbind option_bind]. by rewrite lookup_insert_eq.
Qed.

(** A schedule of the barrier is one of the machine. *)
Lemma wait_sched sched γ x : together γ → get_bar 0 γ = Some x → get_bar 1 γ = Some x →
  ∃ γ', at_gate (gate_at (sy_phase (g_sys γ) 0)) γ γ' ∧
    let s := run Barrier.bar_step sched (Barrier.mk_state x [g_pc γ 0; g_pc γ 1]) in
    get_bar 0 γ' = Some (Barrier.b s) ∧ get_bar 1 γ' = Some (Barrier.b s) ∧ Barrier.harts s = [g_pc γ' 0; g_pc γ' 1].
Proof.
  revert γ x. induction sched as [|i sched IH]; intros γ x Ht H0 H1; [by exists γ; split; [apply at_gate_refl|]|].
  unfold run. cbn [foldl].
  assert (Hcase : Barrier.bar_step i (Barrier.mk_state x [g_pc γ 0; g_pc γ 1]) = Barrier.mk_state x [g_pc γ 0; g_pc γ 1] ∨
    ∃ h pc x', is_hart h ∧ Barrier.wait_barrier (g_pc γ h) x = Some (pc, x') ∧
      Barrier.bar_step i (Barrier.mk_state x [g_pc γ 0; g_pc γ 1]) =
        Barrier.mk_state x' [g_pc (waited h pc x' γ) 0; g_pc (waited h pc x' γ) 1]).
  { pose proof Ht as (_ & Hn & _).
    destruct i as [|[|i]]; [destruct (Barrier.wait_barrier (g_pc γ 0) x) as [[pc x']|] eqn:Hw|
      destruct (Barrier.wait_barrier (g_pc γ 1) x) as [[pc x']|] eqn:Hw|by left].
    - right. exists 0, pc, x'. split; [by vm_compute|]. split; [done|]. rewrite waited_pc by done.
      by erewrite bar_step_at by (exact Hw || reflexivity).
    - left. unfold Barrier.bar_step. cbn [Barrier.harts Barrier.b lookup list_lookup]. by rewrite Hw.
    - right. exists 1, pc, x'. split; [by vm_compute|]. split; [done|]. rewrite waited_pc by (by rewrite <- (proj1 Ht)).
      by erewrite bar_step_at by (exact Hw || reflexivity).
    - left. unfold Barrier.bar_step. cbn [Barrier.harts Barrier.b lookup list_lookup]. by rewrite Hw. }
  destruct Hcase as [->|(h & pc & x' & Hh & Hw & ->)]; [by apply IH|].
  assert (Hx : get_bar h γ = Some x) by (by destruct (is_hart_cases h Hh) as [->| ->]).
  destruct (IH (waited h pc x' γ) x') as (γ' & Ha & Hs).
  - destruct Ht as (T1 & T2 & T3). unfold together, conf_of. by rewrite waited_sys.
  - by apply get_bar_waited.
  - by apply get_bar_waited.
  - exists γ'. split; [|done]. rewrite waited_sys in Ha. eapply at_gate_trans; [|exact Ha].
    pose proof (at_gate_wait h γ x pc x' Hh Hx Hw) as H. destruct Ht as (T1 & _).
    destruct (is_hart_cases h Hh) as [->| ->]; [exact H|by rewrite T1].
Qed.

(** Two harts at a barrier for two. *)
Lemma wait_both γ q : together γ → get_bar 0 γ = Some (mk_barrier 2 2 q 0) → get_bar 1 γ = Some (mk_barrier 2 2 q 0) →
  (∀ h, is_hart h → g_pc γ h = Acquire1) →
  ∃ γ', at_gate (gate_at (sy_phase (g_sys γ) 0)) γ γ' ∧ get_bar 0 γ' = Some (mk_barrier 2 2 2 0) ∧
    ∀ h, is_hart h → g_pc γ' h = Done.
Proof.
  intros Ht H0 H1 Hp. destruct (wait_sched Barrier.good_schedule γ _ Ht H0 H1) as (γ' & Ha & Hb & _ & Hh).
  rewrite !Hp in Hb, Hh by (by vm_compute).
  assert (E : run Barrier.bar_step Barrier.good_schedule (Barrier.mk_state (mk_barrier 2 2 q 0) [Acquire1; Acquire1]) =
    Barrier.mk_state (mk_barrier 2 2 2 0) [Done; Done]) by reflexivity.
  rewrite E in Hb, Hh. cbn in Hb, Hh. injection Hh as E0 E1. exists γ'. split; [done|]. split; [done|].
  intros h Hh'. by destruct (is_hart_cases h Hh') as [->| ->].
Qed.

(** A hart that is the only one of its VM. *)
Lemma wait_alone_run n γ h k x : is_hart h → gate_at (sy_phase (g_sys γ) h) = ConfBar → conf_of h γ = Some k →
  get_bar h γ = Some x →
  ∃ γ', at_gate ConfBar γ γ' ∧
    let s := run Barrier.bar_step (replicate n 0%nat) (Barrier.mk_state x [g_pc γ h]) in
    Barrier.harts s = [g_pc γ' h] ∧ (∀ h', h' ≠ h → g_pc γ' h' = g_pc γ h') ∧
    ∀ k', k' ≠ k → g_conf γ' !! k' = g_conf γ !! k'.
Proof.
  revert γ x. induction n as [|n IH]; intros γ x Hh Hg Hk Hx; [by exists γ; split; [apply at_gate_refl|]|].
  unfold run. cbn [replicate foldl]. destruct (Barrier.wait_barrier (g_pc γ h) x) as [[pc x']|] eqn:Hw.
  2:{ replace (Barrier.bar_step 0 (Barrier.mk_state x [g_pc γ h])) with (Barrier.mk_state x [g_pc γ h]); [by apply IH|].
      unfold Barrier.bar_step. cbn [Barrier.harts Barrier.b lookup list_lookup]. by rewrite Hw. }
  erewrite bar_step_at by (exact Hw || reflexivity). pose proof (at_gate_wait h γ x pc x' Hh Hx Hw) as Ha.
  assert (Ew : waited h pc x' γ = mk_gated (g_fine γ) (g_main γ) (g_run γ) (<[k := x']> (g_conf γ)) (upd_hart h pc (g_pc γ)))
    by (unfold waited; by rewrite Hg, Hk).
  destruct (IH (waited h pc x' γ) x') as (γ' & Ha' & Hs & Ho & Hc); rewrite ?Ew; try done.
  - unfold get_bar, conf_of, g_sys in *. cbn [g_fine]. rewrite Hg, Hk. cbn [mbind option_bind].
    unfold conf_bar. cbn [g_conf]. by rewrite lookup_insert_eq.
  - exists γ'. rewrite Hg in Ha. split; [by eapply at_gate_trans|]. rewrite Ew in Hs, Ho, Hc. cbn [g_pc g_conf] in Hs, Ho, Hc.
    rewrite upd_hart_eq in Hs. split; [done|]. split.
    + intros h' Hne. by rewrite Ho, upd_hart_ne.
    + intros k' Hne. by rewrite Hc, lookup_insert_ne.
Qed.

Lemma wait_alone γ h k q : is_hart h → gate_at (sy_phase (g_sys γ) h) = ConfBar → conf_of h γ = Some k →
  get_bar h γ = Some (mk_barrier 1 1 q 0) → g_pc γ h = Acquire1 →
  ∃ γ', at_gate ConfBar γ γ' ∧ g_pc γ' h = Done ∧ (∀ h', h' ≠ h → g_pc γ' h' = g_pc γ h') ∧
    ∀ k', k' ≠ k → g_conf γ' !! k' = g_conf γ !! k'.
Proof.
  intros Hh Hg Hk Hx Hp. destruct (wait_alone_run 8 γ h k _ Hh Hg Hk Hx) as (γ' & Ha & Hs & Ho).
  rewrite Hp in Hs. assert (E : Barrier.harts (run Barrier.bar_step (replicate 8 0%nat)
    (Barrier.mk_state (mk_barrier 1 1 q 0) [Acquire1])) = [Done]) by reflexivity.
  rewrite E in Hs. injection Hs as Hs. by exists γ'.
Qed.

(** *** Part by part *)

Lemma gsteps_inv γ γ' : ginv γ → rtc gstep γ γ' → ginv γ'.
Proof. intros G Hr. induction Hr as [|γ1 γ2 γ3 Hst _ IH]; [done|]. apply IH. by eapply gstep_inv. Qed.

Definition level (r : nat) γ : Prop := ginv γ ∧ nobody (g_fine γ) ∧ ∀ h, is_hart h → rank (sy_phase (g_sys γ) h) = r.
Definition all_at (pc : bar_pc) γ : Prop := ∀ h, is_hart h → g_pc γ h = pc.

Lemma ginv_no_panic γ h k : ginv γ → is_hart h → (rank (sy_phase (g_sys γ) h) <= 6)%nat → sy_phase (g_sys γ) h ≠ PPanic k.
Proof.
  intros G Hh Hr. destruct (ginv_ghost γ G) as (m & s & Hinv).
  apply (proj2 (inv_rank _ h Hinv Hh)). change (rank (sy_phase (g_sys γ) h) < 7)%nat. lia.
Qed.

Lemma level_gate r γ h : ginv γ → rank (sy_phase (g_sys γ) h) = r → (r <= 5)%nat → is_hart h →
  (∃ f, segment (D := D) (U := U) (X := X) boot_msg (sy_phase (g_sys γ) h) h = Some f) ∧
  gate_at (sy_phase (g_sys γ) h) =
    if decide (r = 0)%nat then NoGate else if decide (r <= 3)%nat then MainBar else if decide (r = 4)%nat then RunBar else ConfBar.
Proof.
  intros G Hr H5 Hh. pose proof (λ k, ginv_no_panic γ h k G Hh ltac:(lia)) as Hn.
  destruct (sy_phase (g_sys γ) h) as [| | | | |i| | |k]; cbn [rank] in Hr; subst r; try lia; try (by destruct (Hn k));
    (split; [eexists; reflexivity|done]).
Qed.

(** The accesses to a table are steps of this machine too. *)
Lemma with_fine_id γ : with_fine (g_fine γ) γ = γ.
Proof. by destruct γ. Qed.
Lemma gated_building γ φ : rtc building (g_fine γ) φ → rtc gstep γ (with_fine φ γ).
Proof.
  intros Hr. remember (g_fine γ) as φ0 eqn:E. revert γ E. induction Hr as [φ0|φ0 φ1 φ2 Hb _ IH]; intros γ ->; [by rewrite with_fine_id|].
  eapply rtc_l; [|exact (IH (with_fine φ1 γ) eq_refl)]. destruct Hb as (h & c & c' & w & Hh & Hc & Ha & ->). by eapply G_access.
Qed.

(** [γ'] is [γ] after hart [h] has run its next part. *)
Record advanced h γ γ' : Prop := {
  av_steps : rtc gstep γ γ';
  av_inv : ginv γ';
  av_none : nobody (g_fine γ');
  av_rank : rank (sy_phase (g_sys γ') h) = S (rank (sy_phase (g_sys γ) h));
  av_pc : g_pc γ' = upd_hart h Acquire1 (g_pc γ);
  av_others h' : h' ≠ h → sy_phase (g_sys γ') h' = sy_phase (g_sys γ) h';
  av_bars : g_main γ' = g_main γ ∧ g_run γ' = g_run γ ∧ g_conf γ' = g_conf γ
}.

Lemma advance_once γ h (f : cmd (machine D U X) phase) : ginv γ → nobody (g_fine γ) → is_hart h → open h γ →
  build_begin (D:=D) (U:=U) (X:=X) (sy_phase (g_sys γ) h) = None → segment boot_msg (sy_phase (g_sys γ) h) h = Some f →
  ∃ γ', advanced h γ γ'.
Proof.
  intros G Hn Hh Hd Hbb Hf. destruct (proj2 (ginv_part γ h G Hh (Hn h Hh) Hd) f Hbb Hf) as (_ & p & m & Hr).
  pose proof (G_part h γ f p m Hh (Hn h Hh) Hbb Hf Hd Hr) as Hs. eexists. split; [by apply rtc_once| |exact Hn|..].
  - by eapply gstep_inv.
  - unfold g_sys at 1. cbn [moved g_fine fi_sys after sy_phase]. rewrite upd_hart_eq. by eapply segment_rank.
  - done.
  - intros h' Hne. unfold g_sys at 1. cbn [moved g_fine fi_sys after sy_phase]. by rewrite upd_hart_ne.
  - done.
Qed.

Lemma advance_build γ h (f : cmd (machine D U X) (prog Z)) : ginv γ → nobody (g_fine γ) → is_hart h → open h γ →
  build_begin (sy_phase (g_sys γ) h) = Some f → ∃ γ', advanced h γ γ'.
Proof.
  intros G Hn Hh Hd Hf. destruct (proj1 (ginv_part γ h G Hh (Hn h Hh) Hd) f Hf) as (_ & q & m & Hr).
  pose proof (G_begin h γ f q m Hh (Hn h Hh) Hf Hd Hr) as Hs1. set (γ1 := with_fine _ γ) in Hs1.
  destruct (gstep_inv _ _ G Hs1) as [G1 _].
  destruct (all_build (g_fine γ1) (fine_reachable_inv _ (gi_reach _ G1))) as (φ2 & Hb & [Ep Hsm] & Hbt & I2).
  pose proof (gated_building γ1 φ2 Hb) as Hs2. pose proof (gsteps_inv _ _ G1 Hs2) as G2. set (γ2 := with_fine φ2 γ1) in *.
  assert (Hp2 : ∀ h', sy_phase (g_sys γ2) h' = sy_phase (g_sys γ) h').
  { intros h'. change (sy_phase (fi_sys φ2) h' = sy_phase (g_sys γ) h'). rewrite Ep. cbn [γ1 with_fine g_fine fi_sys after sy_phase].
    destruct (decide (h' = h)) as [->|]; [by rewrite upd_hart_eq|by rewrite upd_hart_ne]. }
  assert (Hb1 : is_Some (fi_build φ2 h)) by (apply (Hsm h Hh); cbn [γ1 with_fine g_fine fi_build]; by rewrite upd_hart_eq).
  destruct Hb1 as [[t pr] Hc]. destruct (Hbt h _ Hh Hc) as [Et [x Ex]]. cbn in Et, Ex. subst pr.
  destruct (end_runs φ2 h t x I2 Hh Hc Et) as (p & m' & Hr' & Hk).
  pose proof (G_end h γ2 t x p m' Hh Hc Et Hr') as Hs3. eexists. split; [by eapply rtc_l; [exact Hs1|eapply rtc_r; [exact Hs2|exact Hs3]]|..].
  - by eapply gstep_inv.
  - intros h' Hh'. cbn [moved g_fine fi_build]. destruct (decide (h' = h)) as [->|Hne]; [apply upd_hart_eq|]. rewrite upd_hart_ne by done.
    apply eq_None_not_Some. intros H%(Hsm h' Hh'). cbn [γ1 with_fine g_fine fi_build] in H. rewrite upd_hart_ne in H by done.
    unfold g_build in H. rewrite (Hn h' Hh') in H. by destruct H.
  - rewrite <- Hp2. unfold g_sys at 1. cbn [moved g_fine fi_sys after sy_phase]. by rewrite upd_hart_eq.
  - done.
  - intros h' Hne. rewrite <- Hp2. unfold g_sys at 1. cbn [moved g_fine fi_sys after sy_phase]. by rewrite upd_hart_ne.
  - done.
Qed.

Lemma part_one r γ h : ginv γ → nobody (g_fine γ) → is_hart h → rank (sy_phase (g_sys γ) h) = r → (r <= 5)%nat →
  (r = 0%nat ∨ g_pc γ h = Done) → ∃ γ', advanced h γ γ'.
Proof.
  intros G Hn Hh Hr H5 Hd. destruct (level_gate r γ h G Hr H5 Hh) as [[f Hf] Hg].
  assert (Hd' : open h γ) by (destruct Hd as [->|]; [left; by rewrite Hg|by right]).
  destruct (build_begin (D:=D) (U:=U) (X:=X) (sy_phase (g_sys γ) h)) as [f'|] eqn:Hb;
    [by eapply advance_build|by eapply advance_once].
Qed.

(** Both harts run the part behind the barrier they have passed. *)
Lemma parts_both r γ : level r γ → (r <= 5)%nat → (r = 0%nat ∨ all_at Done γ) →
  ∃ γ', rtc gstep γ γ' ∧ level (S r) γ' ∧ all_at Acquire1 γ' ∧
    g_main γ' = g_main γ ∧ g_run γ' = g_run γ ∧ g_conf γ' = g_conf γ.
Proof.
  intros (G & Hn & Hr) H5 Hd. assert (H0 : is_hart 0) by (by vm_compute). assert (H1 : is_hart 1) by (by vm_compute).
  destruct (part_one r γ 0 G Hn H0 (Hr 0 H0) H5) as (γ1 & [A1 A2 A3 A4 A5 A6 (A7 & A8 & A9)]); [destruct Hd; auto|].
  destruct (part_one r γ1 1 A2 A3 H1) as (γ2 & [B1 B2 B3 B4 B5 B6 (B7 & B8 & B9)]); [by rewrite A6, Hr|done|rewrite A5, upd_hart_ne by done; destruct Hd; auto|].
  exists γ2. split; [by etrans|]. split; [split; [exact B2|split; [exact B3|]]|split; [|split_and!; congruence]].
  - intros h Hh. destruct (is_hart_cases h Hh) as [->| ->]; [by rewrite B6, A4, Hr|by rewrite B4, A6, Hr].
  - intros h Hh. rewrite B5, A5. by destruct (is_hart_cases h Hh) as [->| ->].
Qed.

(** The barriers of main.c and vm_run.c. *)
Lemma pass_shared r γ q0 q1 : level r γ → (1 <= r <= 4)%nat → all_at Acquire1 γ →
  g_main γ = mk_barrier 2 2 q0 0 → g_run γ = mk_barrier 2 2 q1 0 →
  ∃ γ' q0' q1', rtc gstep γ γ' ∧ level (S r) γ' ∧ all_at Acquire1 γ' ∧
    g_main γ' = mk_barrier 2 2 q0' 0 ∧ g_run γ' = mk_barrier 2 2 q1' 0 ∧ g_conf γ' = g_conf γ.
Proof.
  intros Hl Hr Hp Em Eu. assert (H0 : is_hart 0) by (by vm_compute). assert (H1 : is_hart 1) by (by vm_compute).
  destruct Hl as (G & Hn & Hrk).
  destruct (level_gate r γ 0 G (Hrk 0 H0) ltac:(lia) H0) as [_ E0]. destruct (level_gate r γ 1 G (Hrk 1 H1) ltac:(lia) H1) as [_ E1].
  rewrite (decide_False (P := (r = 0)%nat)) in E0, E1 by lia.
  assert (Hx : ∃ q, get_bar 0 γ = Some (mk_barrier 2 2 q 0) ∧ get_bar 1 γ = Some (mk_barrier 2 2 q 0)).
  { unfold get_bar. rewrite E0, E1. case_decide; [by exists q0; rewrite Em|]. rewrite decide_True by lia. by exists q1; rewrite Eu. }
  destruct Hx as (q & Hx0 & Hx1).
  destruct (wait_both γ q) as (γ1 & Ha & Hb & Hd); try done.
  { split; [by rewrite E0, E1|]. rewrite E0. case_decide; [done|]. by rewrite decide_True by lia. }
  pose proof (ag_sys _ _ _ Ha) as A2. destruct Ha as [A1 Af A3 A4 A5]. rewrite E0 in A3, A4, A5. unfold get_bar in Hb. rewrite A2, E0 in Hb.
  destruct (parts_both r γ1) as (γ2 & B1 & B2 & B3 & B4 & B5 & B6); [|lia|by right|].
  { split; [by eapply gsteps_inv|]. rewrite Af, A2. by split. }
  case_decide.
  - exists γ2, 2, q1. split; [by etrans|]. rewrite B4, B5, B6, A4, A5 by done. by injection Hb as ->.
  - rewrite decide_True in * by lia. exists γ2, q0, 2. split; [by etrans|]. rewrite B4, B5, B6, A3, A5 by done. by injection Hb as ->.
Qed.

(** The barriers of the VMs, when they are used for the first time. *)
Lemma pass_conf γ : level 5 γ → all_at Acquire1 γ → g_conf γ = ∅ → ∃ γ', rtc gstep γ γ' ∧ level 6 γ'.
Proof.
  intros Hl Hp Ec. assert (H0 : is_hart 0) by (by vm_compute). assert (H1 : is_hart 1) by (by vm_compute).
  pose proof Hl as (G & Hn & Hr).
  assert (Hst : ∀ h, is_hart h → ∃ i, sy_phase (g_sys γ) h = PStart i).
  { intros h Hh. destruct (level_gate 5 γ h G (Hr h Hh) ltac:(lia) Hh) as [_ E]. cbn in E.
    destruct (sy_phase (g_sys γ) h) as [| | | | |i| | |]; try done. by exists i. }
  assert (Hgt : ∀ h, is_hart h → gate_at (sy_phase (g_sys γ) h) = ConfBar) by (intros h Hh; by destruct (Hst h Hh) as [i ->]).
  assert (Hcf : ∀ h, is_hart h → conf_of h γ = Some (vm_slot h) ∧ get_bar h γ = Some (mk_barrier vm_harts vm_harts 0 0)).
  { intros h Hh. destruct (Hst h Hh) as [i Ei]. destruct (ginv_conf γ h i G Hh Ei) as [Hc Hb]. split; [done|].
    by rewrite Hb, Ec, lookup_empty, <- (vm_barrier h Hh). }
  assert (Hdone : ∃ γ1, rtc gstep γ γ1 ∧ g_fine γ1 = g_fine γ ∧ all_at Done γ1).
  { unfold vm_harts in Hcf. case_decide as Es.
    - destruct (wait_both γ 0) as (γ1 & Ha & _ & Hd); [|by apply Hcf..|exact Hp|].
      + split; [by rewrite !Hgt|]. rewrite Hgt by done. split; [done|]. intros _.
        by rewrite (proj1 (Hcf 0 H0)), (proj1 (Hcf 1 H1)), Es.
      + exists γ1. split; [apply Ha|]. split; [apply Ha|exact Hd].
    - destruct (Hcf 0 H0) as [C0 B0], (Hcf 1 H1) as [C1 B1].
      destruct (wait_alone γ 0 (vm_slot 0) 0) as (γ1 & Ha & Hd & Ho & Hk); [done|by apply Hgt|done|done|by apply Hp|].
      pose proof (ag_sys _ _ _ Ha) as Es1.
      destruct (wait_alone γ1 1 (vm_slot 1) 0) as (γ2 & Ha2 & Hd2 & Ho2 & _).
      + done.
      + by rewrite Es1, Hgt.
      + unfold conf_of. rewrite Es1. exact C1.
      + unfold get_bar in B1 |- *. rewrite Es1, (Hgt 1 H1) in *.
        assert (C1' : conf_of 1 γ1 = Some (vm_slot 1)) by (unfold conf_of; by rewrite Es1).
        rewrite C1' , C1 in *. cbn [mbind option_bind] in *. unfold conf_bar in *. by rewrite Es1, Hk.
      + rewrite Ho by done. by apply Hp.
      + exists γ2. split; [etrans; [apply Ha|apply Ha2]|]. split; [by rewrite (ag_fine _ _ _ Ha2), (ag_fine _ _ _ Ha)|].
        intros h Hh. destruct (is_hart_cases h Hh) as [->| ->]; [by rewrite Ho2|done]. }
  destruct Hdone as (γ1 & Hs1 & E1 & Hd).
  destruct (parts_both 5 γ1) as (γ2 & Hs2 & Hl2 & _); [|lia|by right|].
  { split; [by eapply gsteps_inv|]. unfold g_sys. by rewrite E1. }
  exists γ2. split; [by etrans|exact Hl2].
Qed.

(** The guests are entered. *)
Lemma enter_one γ h : ginv γ → nobody (g_fine γ) → is_hart h → rank (sy_phase (g_sys γ) h) = 6%nat →
  ∃ w xs, gstep γ (with_fine (mk_fine (after_world h w xs PGuest (g_sys γ)) (g_build γ)) γ).
Proof.
  intros G Hn Hh Hr. pose proof (quiet_inv _ (fine_reachable_inv _ (gi_reach _ G)) Hn) as Hinv.
  assert (Ep : sy_phase (g_sys γ) h = PEnter).
  { pose proof (λ k, ginv_no_panic γ h k G Hh ltac:(lia)) as Hp.
    destruct (sy_phase (g_sys γ) h) as [| | | | |i| | |k]; try done. by destruct (Hp k). }
  destruct (inv_enter h (g_sys γ) Hinv Hh Ep) as (pc & s & Hrun & _). exists (hw s), (xr s).
  eapply (G_guest h); [done|lia|by eapply S_enter].
Qed.

Lemma enter_both γ : level 6 γ → ∃ γ', rtc gstep γ γ' ∧ all_started (g_sys γ').
Proof.
  intros (G & Hn & Hr). assert (H0 : is_hart 0) by (by vm_compute). assert (H1 : is_hart 1) by (by vm_compute).
  destruct (enter_one γ 0 G Hn H0 (Hr 0 H0)) as (w & xs & Hs). set (γ1 := with_fine _ γ) in Hs.
  destruct (enter_one γ1 1) as (w' & xs' & Hs'); [by eapply gstep_inv|done|done|by apply Hr|].
  eexists. split; [eapply rtc_l; [exact Hs|]; apply rtc_once; exact Hs'|].
  intros h Hh. by destruct (is_hart_cases h Hh) as [->| ->].
Qed.

(** The machine boots with its own barriers. *)
Lemma gated_boots γ : ginitial γ → ∃ γ', rtc gstep γ γ' ∧ all_started (g_sys γ').
Proof.
  intros Hi. pose proof (ginitial_inv γ Hi) as G. destruct Hi as ([Hi Hn] & Em & Er & Ec & Hp).
  assert (Hl : level 0 γ) by (split; [done|split; [done|intros h Hh; unfold g_sys; by rewrite (in_phase _ Hi h Hh)]]).
  destruct (parts_both 0 γ Hl ltac:(lia)) as (γ1 & S1 & L1 & P1 & M1 & U1 & C1); [by left|].
  destruct (pass_shared 1 γ1 0 0 L1) as (γ2 & q2 & r2 & S2 & L2 & P2 & M2 & U2 & C2); [lia|done|by rewrite M1|by rewrite U1|].
  destruct (pass_shared 2 γ2 q2 r2 L2) as (γ3 & q3 & r3 & S3 & L3 & P3 & M3 & U3 & C3); [lia|done..|].
  destruct (pass_shared 3 γ3 q3 r3 L3) as (γ4 & q4 & r4 & S4 & L4 & P4 & M4 & U4 & C4); [lia|done..|].
  destruct (pass_shared 4 γ4 q4 r4 L4) as (γ5 & q5 & r5 & S5 & L5 & P5 & M5 & U5 & C5); [lia|done..|].
  destruct (pass_conf γ5 L5 P5) as (γ6 & S6 & L6); [congruence|].
  destruct (enter_both γ6 L6) as (γ7 & S7 & Ha). exists γ7. split; [|done]. by repeat (etrans; [eassumption|]).
Qed.

(** C7: the barriers let the boot through: from power-on there is a run in which the
    harts execute wait_barrier access by access, on all barriers, and build all page
    tables access by access, and which ends with every guest started. *)
Theorem barriers_let_boot γ : ginitial γ → ∃ γ', greachable γ' ∧ rtc gstep γ γ' ∧ all_started (g_sys γ').
Proof. intros Hi. destruct (gated_boots γ Hi) as (γ' & Hr & Ha). exists γ'. split; [by exists γ|done]. Qed.

(** ** What can hold up the boot *)

(** A hart gets on: it enters its next part, its guest, or the building of a table, or
    it makes an access to a table. *)
Definition works γ γ' : Prop := gstep γ γ' ∧
  ((∃ h, is_hart h ∧ rank (sy_phase (g_sys γ') h) = S (rank (sy_phase (g_sys γ) h)) ∧
      ∀ h', h' ≠ h → sy_phase (g_sys γ') h' = sy_phase (g_sys γ) h') ∨
   ((∀ h, sy_phase (g_sys γ') h = sy_phase (g_sys γ) h) ∧ ∃ h, is_hart h ∧ g_build γ h = None ∧ is_Some (g_build γ' h) ∧
      ∀ h', h' ≠ h → g_build γ' h' = g_build γ h') ∨
   building (g_fine γ) (g_fine γ')).
(** It is between the entry and the end of wait_barrier. *)
Definition in_barrier h γ : Prop := is_Some (get_bar h γ) ∧ g_pc γ h ≠ Done.

(** What is left to do but for accesses to tables. *)
Definition unbegun γ h : nat := match g_build γ h with None => 1 | Some _ => 0 end.
Definition work_left γ : nat := 3 * parts_left (g_sys γ) + unbegun γ 0 + unbegun γ 1.

Lemma ginv_rank γ h : ginv γ → is_hart h → (rank (sy_phase (g_sys γ) h) <= 7)%nat.
Proof. intros G Hh. destruct (ginv_ghost γ G) as (m & s & Hinv). exact (proj1 (inv_rank _ h Hinv Hh)). Qed.

Lemma works_less γ γ' : ginv γ → ginv γ' → works γ γ' →
  (work_left γ' < work_left γ)%nat ∨ work_left γ' = work_left γ ∧ building (g_fine γ) (g_fine γ').
Proof.
  intros G G' (_ & Hc). assert (H0 : is_hart 0) by (by vm_compute). assert (H1 : is_hart 1) by (by vm_compute).
  pose proof (ginv_rank γ' 0 G' H0) as R0. pose proof (ginv_rank γ' 1 G' H1) as R1. unfold work_left, parts_left.
  assert (Hu : ∀ δ h, (unbegun δ h <= 1)%nat) by (intros δ h; unfold unbegun; destruct (g_build δ h); lia).
  destruct Hc as [(h & Hh & Hr & Ho)|[(Ep & h & Hh & Hn & [c Hs] & Ho)|Hb]].
  - left. pose proof (Hu γ' 0). pose proof (Hu γ' 1).
    destruct (is_hart_cases h Hh) as [->| ->]; [rewrite (Ho 1) in * by lia|rewrite (Ho 0) in * by lia]; lia.
  - left. rewrite !Ep. assert (E : unbegun γ h = 1%nat ∧ unbegun γ' h = 0%nat) by (unfold unbegun; by rewrite Hn, Hs).
    destruct E as [E1 E2]. destruct (is_hart_cases h Hh) as [->| ->].
    + assert (unbegun γ' 1 = unbegun γ 1) by (unfold unbegun; by rewrite Ho by lia). lia.
    + assert (unbegun γ' 0 = unbegun γ 0) by (unfold unbegun; by rewrite Ho by lia). lia.
  - right. split; [|done]. destruct Hb as (h & c & c' & w & Hh & Hc & _ & E). unfold g_sys, unbegun, g_build. rewrite E. cbn [fi_sys fi_build].
    assert (Hs : ∀ k : Z, match upd_hart h (Some c') (fi_build (g_fine γ)) k with None => 1%nat | Some _ => 0%nat end =
      match fi_build (g_fine γ) k with None => 1%nat | Some _ => 0%nat end).
    { intros k. destruct (decide (k = h)) as [->|]; [by rewrite upd_hart_eq, Hc|by rewrite upd_hart_ne]. }
    by rewrite !Hs.
Qed.

Lemma works_end γ : ginv γ → sn works γ.
Proof.
  intros G. remember (work_left γ) as n eqn:E. revert γ G E. induction n as [n IH] using lt_wf_ind. intros γ G E.
  pose proof (building_ends (g_fine γ) (fine_reachable_inv _ (gi_reach _ G))) as Hs. remember (g_fine γ) as φ eqn:Ef.
  revert γ G E Ef. induction Hs as [φ _ IHb]. intros γ G E ->. constructor. intros γ' Hw.
  pose proof (proj1 (gstep_inv γ γ' G (proj1 Hw))) as G'. destruct (works_less γ γ' G G' Hw) as [Hlt|[He Hb]].
  - eapply IH; [|exact G'|reflexivity]. lia.
  - eapply (IHb (g_fine γ')); [exact Hb|exact G'|by rewrite E, He|reflexivity].
Qed.

Lemma advance_works γ h f : ginv γ → is_hart h → g_build γ h = None → open h γ →
  segment (D:=D) (U:=U) (X:=X) boot_msg (sy_phase (g_sys γ) h) h = Some f → ∃ γ', works γ γ'.
Proof.
  intros G Hh Hb Hd Hf. destruct (ginv_part γ h G Hh Hb Hd) as [H1 H2].
  destruct (build_begin (D:=D) (U:=U) (X:=X) (sy_phase (g_sys γ) h)) as [g|] eqn:Hbb.
  - destruct (H1 g eq_refl) as (_ & q & m & Hr). eexists. split; [by eapply (G_begin h)|]. right. left.
    unfold g_sys, g_build. cbn [with_fine g_fine fi_sys fi_build after sy_phase]. split.
    + intros h'. destruct (decide (h' = h)) as [->|]; [by rewrite upd_hart_eq|by rewrite upd_hart_ne].
    + exists h. split; [done|]. split; [done|]. split; [by rewrite upd_hart_eq|]. intros h' Hne. by rewrite upd_hart_ne.
  - destruct (H2 f eq_refl Hf) as (_ & p & m & Hr). eexists. split; [by eapply (G_part h)|]. left. exists h. split; [done|].
    unfold g_sys. cbn [moved g_fine fi_sys after sy_phase]. rewrite upd_hart_eq. split; [by eapply segment_rank|].
    intros h' Hne. by rewrite upd_hart_ne.
Qed.

(** When no hart can get on, every hart that is not in its guest is in wait_barrier. *)
Lemma idle_in_barrier γ h : ginv γ → is_hart h → (∀ γ', ¬ works γ γ') → (rank (sy_phase (g_sys γ) h) < 7)%nat → in_barrier h γ.
Proof.
  intros G Hh Hno Hr. pose proof (fine_reachable_inv _ (gi_reach _ G)) as I.
  assert (Hall : all_built (g_fine γ)).
  { destruct (building_goes (g_fine γ) I) as [|(φ' & Hb)]; [done|]. destruct (Hno (with_fine φ' γ)). split; [|by right; right].
    destruct Hb as (j & c & c' & w & Hj & Hc & Ha & ->). by apply (G_access j γ c). }
  pose proof (λ k, ginv_no_panic γ h k G Hh ltac:(lia)) as Hn. destruct (g_build γ h) as [[t q]|] eqn:Hb.
  { destruct (Hall h _ Hh Hb) as [Ep [x Eq]]. cbn in Ep, Eq. subst q.
    destruct (end_runs (g_fine γ) h t x I Hh Hb Ep) as (p & m & Hrun & Hk).
    exfalso. eapply Hno. split; [by eapply (G_end h γ t x)|]. left. exists h. split; [done|].
    unfold g_sys. cbn [moved g_fine fi_sys after sy_phase]. rewrite upd_hart_eq. split; [exact Hk|]. intros h' Hne. by rewrite upd_hart_ne. }
  assert (Hopen : ∀ f, segment (D:=D) (U:=U) (X:=X) boot_msg (sy_phase (g_sys γ) h) h = Some f → ¬ open h γ).
  { intros f Hf Ho. destruct (advance_works γ h f G Hh Hb Ho Hf) as (γ' & Hw). by apply (Hno γ'). }
  unfold open in Hopen. pose proof (ginv_conf γ h) as Hcf. unfold in_barrier, get_bar in *.
  destruct (sy_phase (g_sys γ) h) as [| | | | |i| | |k] eqn:Ep; cbn [gate_at rank] in *; try lia; try (by destruct (Hn k)).
  - destruct (Hopen _ eq_refl). by left.
  - split; [done|]. intros Hd. eapply Hopen; [reflexivity|by right].
  - split; [done|]. intros Hd. eapply Hopen; [reflexivity|by right].
  - split; [done|]. intros Hd. eapply Hopen; [reflexivity|by right].
  - split; [done|]. intros Hd. eapply Hopen; [reflexivity|by right].
  - destruct (Hcf i G Hh eq_refl) as [_ ->]. split; [done|]. intros Hd. eapply Hopen; [reflexivity|by right].
  - exfalso. pose proof (fine_safe _ h I Hh) as Hs. unfold g_build in Hb. rewrite Hb in Hs. destruct Hs as (_ & _ & Hen & _).
    destruct (Hen Ep) as (s & Hrun & _).
    eapply Hno. split; [eapply (G_guest h); [done| |by eapply S_enter]; rewrite Ep; cbn; lia|]. left. exists h. split; [done|].
    unfold g_sys at 1. cbn [with_fine g_fine fi_sys after_world after sy_phase]. rewrite upd_hart_eq, Ep. split; [done|].
    intros h' Hne. unfold g_sys at 1. cbn [with_fine g_fine fi_sys after_world after sy_phase]. by rewrite upd_hart_ne.
Qed.

(** C5: nothing but wait_barrier can hold up the boot.  In every state the machine can
    reach with the barriers of lib/lock.c, tables being built one access at a time and
    everything interleaved: the steps by which harts get on - parts of main, accesses
    to page tables and to the allocator's lock, the entry into a guest - are finitely
    many, in whatever order they come; and when no such step is possible, every hart
    that is not in its guest is inside a call of wait_barrier.  So no fault, endless
    loop or deadlock on the allocator's lock stops the boot; the barrier itself can
    (Lock.Barrier.barrier_deadlock). *)
Theorem boot_waits_only_in_barriers γ : greachable γ →
  sn works γ ∧
  ((∀ γ', ¬ works γ γ') → ∀ h, is_hart h → rank (sy_phase (g_sys γ) h) = 7%nat ∨ in_barrier h γ).
Proof.
  intros G%greachable_inv. split; [by apply works_end|]. intros Hno h Hh. pose proof (ginv_rank γ h G Hh).
  destruct (decide (rank (sy_phase (g_sys γ) h) = 7%nat)); [by left|right]. apply idle_in_barrier; [done..|lia].
Qed.
End gated.

(** ** The repository's configuration *)

Definition demo_gated : Type := gated (D:=plic_regs) (U:=sim_uart) (X:=unit).

Lemma demo_ginitial {dp : Deployment} : (∃ σ : demo_system, initial σ) → ∃ γ : demo_gated, ginitial γ.
Proof.
  intros (σ & Hi). by exists (mk_gated (idle_machine σ) (BARRIER_INITIALIZER DTB_NR_CPUS) (BARRIER_INITIALIZER DTB_NR_CPUS) ∅ (λ _, Acquire1)).
Qed.

Lemma barriers_implement_witness : ∃ γ : demo_gated, greachable γ ∧ all_started (g_sys γ) ∧ fine_reachable (g_fine γ).
Proof.
  destruct (demo_ginitial demo_initial) as (γ & Hi). destruct (gated_boots γ Hi) as (γ' & Hr & Ha). exists γ'.
  assert (Hg : greachable γ') by by exists γ.
  split; [exact Hg|]. split; [exact Ha|]. exact (proj1 (barriers_implement γ' Hg)).
Defined.

Lemma barriers_let_boot_witness : ∃ γ : demo_gated, greachable γ ∧ all_started (g_sys γ).
Proof.
  destruct (demo_ginitial demo_initial) as (γ & Hi). destruct (barriers_let_boot γ Hi) as (γ' & Hg & _ & Ha). by exists γ'.
Defined.

(** At power-on, hart 0 has its first part before it. *)
Lemma boot_waits_only_in_barriers_witness : ∃ γ : demo_gated, greachable γ ∧ sn works γ ∧ ∃ γ', works γ γ'.
Proof.
  destruct (demo_ginitial demo_initial) as (γ & Hi). exists γ. assert (Hg : greachable γ) by by exists γ.
  split; [exact Hg|]. destruct (boot_waits_only_in_barriers γ Hg) as [Hs _]. split; [exact Hs|].
  pose proof (greachable_inv γ Hg) as G. destruct Hi as ([Hi Hn] & _). pose proof (in_phase _ Hi 0 ltac:(by vm_compute)) as Ep.
  eapply (advance_works γ 0 _ G ltac:(by vm_compute) (Hn 0 ltac:(by vm_compute))); unfold open, g_sys; rewrite Ep; [by left|reflexivity].
Defined.
